(* ===== verification/_CoqProject ===== *)
-Q . S2P
Prelude.v
Js.v
JsNum.v
Json.v
JsonPretty.v
JsDate.v
Views.v
Protocol.v
Executors.v
Interfaces.v
Payout.v
Db.v
WorkerHub.v
Jobs.v
Routes.v
Core.v
Moves.v
HubFacts.v
Coordinator.v
Scenario.v
Workers.v
CliWorker.v
MobileWs.v
Router.v
Cli.v
WorkerKeys.v
CliStart.v
PhoneKeys.v
PhoneApp.v
Screens.v
Erc8004.v
Settlement.v
Startup.v
Http.v
Dashboard.v
LinkCheck.v
Processes.v
Contracts.v
Refinement.v
Lifecycle.v
Guarantees.v
HubProps.v
RouteProps.v
EndToEnd.v
Demo.v
Highlight.v
Landing.v
Scripts.v
