(* ===== verification/Prelude.v ===== *)
(** * Dispatch: a verification development

    Dispatch is a compute network.  Agents submit jobs (text generation or
    small tasks) to a coordinator over HTTP; workers (desktop, CLI, phone)
    connect to it over WebSockets, execute the jobs and send back outputs with
    signed receipts; the coordinator keeps jobs, pairings and receipts in a
    database, pays workers in batches, and posts reputation and receipts to
    chains.  This library translates the code under src/ into Rocq functions
    and proves what the parts do and what holds of their composition.

    ** How the code is translated

    - Numbers are IEEE binary64 values ([SpecFloat]) where the code computes
      with fractions, and integers where it only counts; strings are sequences
      of Latin-1 characters; a Map or object is an association list in
      insertion order ([jsmap]), which JSON.parse changes for array indices only;
      JSON is an inductive type with its own parser and printers.
    - Code that may throw returns an [outcome].  Asynchronous code is split at
      its awaits: what runs between two awaits is one function, and a pending
      promise or timer is part of the state.  Everything another party decides
      (answers, clocks, random choices, the order of events) is an argument or
      an event, so theorems hold for all of them.
    - Code outside the repository (Ed25519, SHA-256, SDKs, contracts of
      others, base contracts, Jupiter, the Solana and EVM nodes) is a parameter
      or an interface with the laws its documentation states.

    ** Files

    Values of the language:
    - Prelude.v: outcomes, insertion-ordered maps and their lemmas.
    - Js.v, JsNum.v: numbers and strings; facts about rounding and comparison.
    - Json.v, JsonPretty.v: JSON.parse and JSON.stringify, compact and indented,
      with the proofs that printing is read back.
    - JsDate.v: dates as ISO text and as SQLite's text.
    - Views.v: what a React component shows, as a tree of texts and buttons.

    The coordinator (apps/coordinator-core):
    - Protocol.v: packages/protocol, the enums, prices and messages.
    - Interfaces.v: signatures, and what the hub asks of a payout distributor.
    - Payout.v: bolt/BoltDistributor.ts and WrappedBoltDistributor.ts.
    - Db.v: the tables of db.ts and each SQL statement.
    - WorkerHub.v: ws/workerHub.ts.  Jobs.v: routes/jobs.ts.  Routes.v: the
      other routes, the payment gate and the demo mode of server.ts.
    - Http.v: requests and answers of the routes as JSON text, and their
      dispatch by method and path.  Dashboard.v: the page of routes/dashboard.ts
      and a scanner of HTML markup.
    - Coordinator.v: the event loop, as a function on events; restarts on the
      database left by an earlier process ([restart]; [found] are the jobs of
      that database); reachable states.
    - Core.v, Moves.v, HubFacts.v, Refinement.v: an abstract dispatcher, the
      invariant that matches workers with rows, and the simulation of every
      event by moves of the dispatcher.
    - Lifecycle.v, Guarantees.v, HubProps.v, RouteProps.v: the theorems about
      reachable states and about single operations.  Scenario.v: a concrete
      run used as an example.

    The chains:
    - Startup.v: config.ts, health.ts and the top level of coordinator-monad
      and coordinator-solana.
    - Erc8004.v: packages/erc8004, the reputation hooks and the transaction
      queue of the coordinators, find-agent.ts, and the CLI's worker register.
    - Settlement.v: bolt-settlement.ts, packages/bolt, receiptAnchorer.ts and
      the Solana program receipt_anchor.
    - Contracts.v: ReceiptAnchor.sol and WrappedBolt.sol.

    Workers and clients:
    - Executors.v: the task executors of the desktop worker, the phone, the
      simulator and the CLI, with the regular expression they use.
    - Workers.v: completion messages and receipts of all workers, as text on
      the socket, and how the hub reads a text ([read_message]), ill-typed
      messages included.
    - WorkerKeys.v: the key files of the desktop worker, the simulator and the
      CLI.
    - Processes.v: the processes of the desktop worker and of the simulator,
      from the connection to the exit code, fed with the texts of the socket.
    - CliWorker.v: packages/cli/src/lib/worker-runtime.ts.  CliStart.v: the
      process of [worker start] around it, [worker status] and [version].
    - MobileWs.v: the phone's WebSocketService.ts and the counters of
      WalletProvider.tsx.  PhoneKeys.v: KeyManager.ts and MWAProvider.ts.
      PhoneApp.v: the React state of WalletProvider.tsx, its stored copy, and
      the actions of useWorker.ts and of the settings and onboarding screens.
      Screens.v: the components and screens of the phone, the dashboard that
      connects by itself and the error toast.
    - Router.v: packages/compute-router.  Cli.v: the arguments, configuration
      and commands of packages/cli.
    - EndToEnd.v: a client, the coordinator and a desktop worker together.
    - Demo.v: apps/dispatch-demo, the demo client, over Router.v.
    - LinkCheck.v: scripts/check-links.mjs and verify-public-surface.mjs.
      Scripts.v: scripts/e2e.ts and register-worker.ts.
    - Landing.v, Highlight.v: the interactive parts of apps/landing, that is
      LiveDemo.tsx, Navbar.tsx and the highlighter of CodePreview.tsx.

    ** What is proved

    - Guarantees.v: the coordinator refines an abstract dispatcher; an assigned
      job runs on exactly one worker, unless a restart has lost it; private
      jobs run only on paired workers; a job the process completes is queued
      for payment exactly once; finished jobs are final; a rejected job is
      never offered again; the tables always satisfy their schema.  All of
      them hold over restarts of the server.
    - EndToEnd.v: a task submitted by the router to a coordinator in any
      reachable state comes back with the executor's output and a receipt that
      verifies, with any traffic in between that leaves its job alone.
    - HubProps.v, RouteProps.v: matching takes a best eligible worker, commit,
      retrying (at most 15 ticks) and pruning decide as intended, which
      messages make the coordinator throw, pairings, prices, and that a signed
      receipt is stored as verified, and which receipt is served.
    - Payout.v: payouts are conserved through every interleaving; retries,
      reporting and draining of batches; sums of payouts are exact.
    - Settlement.v, Erc8004.v, Contracts.v, Startup.v: the split of a swap,
      anchored receipts, when receipts can be anchored at all, serialised
      transactions, feedback and its retries, the range of scores, the accounts
      of wrapped BOLT, what a coordinator starts with.
    - Executors.v: the executors agree up to stated words; the regular
      expression finds what its matching relation says; printed objects are
      found and parsed back.
    - Workers.v, CliWorker.v, MobileWs.v: completions reach the coordinator
      and verify there; each job assigned to the CLI worker is reported or
      awaited, what it loses while it starts, what stop does; the phone's connections and counters.
    - WorkerKeys.v, PhoneKeys.v, PhoneApp.v: a worker keeps its identity and
      the phone its figures through restarts, and where they are lost.
    - Screens.v: the phone as a whole keeps one connection and shows its status;
      the card shows earnings exactly; the toast; ages of jobs.
    - Demo.v, Scripts.v: what the exit codes of the demo and of the end-to-end
      test mean; a registered file is read back from the registry.
    - Highlight.v, Landing.v: colouring keeps the code and colours each piece
      by what it is; the sample answer is typed out; the marked section.
    - Processes.v, CliStart.v: which texts a worker answers, which end its
      process, and with which exit code.
    - Dashboard.v, LinkCheck.v: when the page has the markup of its template; which
      trees of files and answers of the network pass the checks.
    - Router.v, Cli.v: polling ends at the first verdict, where a job goes when
      the coordinator fails, a saved configuration is loaded, how a run fails.

    ** Bounds and fuel

    JSON.parse has fuel 2n + 2 for a text of n characters, and the
    round-trip theorems show that this is enough for printed values.  The regular
    expression is matched by functions structural in the text.  Polling has one
    poll per half second of the timeout and one more; its theorem shows that
    more fuel changes nothing.  The retries of feedback and the search for an
    agent are bounded in the code (3 and 31).  [agent status --poll] is not
    bounded in the code: its fuel only says how many polls are observed.  A
    reputation's power of ten is rounded to nearest, which is what the code
    computes for up to 22 decimals.  The earnings card is checked for the
    first 5000 jobs; ages of jobs are integers, which the code's quotients
    agree with below 2^43 milliseconds.

    ** Not modelled

    - Rendering: styles, animations, navigation between screens, and the pages
      of the landing page and the documentation site that only show fixed texts.
    - Wiring: listening sockets, commander's parsing of arguments.  Express,
      secure storage, the wallet app, the URL parser and the network are
      parameters.
    - Characters beyond Latin-1, and the normalisation of paths.
    - The process of the coordinator ends only between two turns of its event
      loop; what SQLite does with an interrupted transaction is not modelled.
    - Of the messages of workers, those for which [read_message] gives [None]:
      a registration with an array for a key, an unknown provider type or
      capabilities that are no array (a later match throws on some of these); a
      completion without an output; a rejection whose reason has no text; and
      receipts that can be stored but do not have exactly the members of
      [Receipt], or whose job id has no text.
    - The interfaces of external contracts (packages/erc8004/src/abis) and the
      deployment scripts of the contracts: descriptions and one call each.
    - scripts/create-bolt-pool.ts, start-demo.sh and live-test.sh: one call of an
      SDK, and commands that start the programs by hand. *)

From stdpp Require Import base list gmap strings option relations.
From Stdlib Require Import Lia ZArith.

Declare Scope js_scope.
Delimit Scope js_scope with js.
Open Scope js_scope.

Create HintDb dispatch.

(** The outcome of code that may throw. *)
Inductive outcome (A : Type) :=
  | Ok (a : A)
  | Throw (e : string).
Arguments Ok {A} a.
Arguments Throw {A} e.

Definition obind {A B} (m : outcome A) (f : A -> outcome B) : outcome B :=
  match m with Ok a => f a | Throw e => Throw e end.

Notation "x <-- m ;; k" := (obind m (fun x => k))
  (at level 100, m at next level, k at level 200, right associativity) : js_scope.

(** ** JavaScript [Map] objects

    A [Map] iterates in insertion order; [set] on a present key keeps its
    position and [delete] removes it.  Keys are strings everywhere in the
    code, so a [Map] is an association list with string keys. *)

Abbreviation jsmap V := (list (string * V)).

Section JsMap.
  Context {V : Type}.
  Implicit Types (m : jsmap V) (k : string) (v : V).

Fixpoint jm_get k m : option V :=
  match m with
  | [] => None
  | (k', v) :: m' => if decide (k' = k) then Some v else jm_get k m'
  end.

Fixpoint jm_set k v m : jsmap V :=
  match m with
  | [] => [(k, v)]
  | (k', v') :: m' =>
      if decide (k' = k) then (k', v) :: m' else (k', v') :: jm_set k v m'
  end.

Fixpoint jm_delete k m : jsmap V :=
  match m with
  | [] => []
  | (k', v') :: m' => if decide (k' = k) then m' else (k', v') :: jm_delete k m'
  end.

(** In-place mutation of the object stored under [k] (the object is shared
    with the map, so mutating it through a local variable updates the map). *)
Fixpoint jm_mutate (f : V -> V) k m : jsmap V :=
  match m with
  | [] => []
  | (k', v') :: m' =>
      if decide (k' = k) then (k', f v') :: m' else (k', v') :: jm_mutate f k m'
  end.

Definition jm_keys m : list string := m.*1.
Definition jm_values m : list V := m.*2.
Definition jm_has k m : bool := bool_decide (is_Some (jm_get k m)).
Definition jm_wf m : Prop := NoDup (jm_keys m).
End JsMap.

(** ** Generic lemmas *)

Section JsMapLemmas.
  Context {V : Type}.
  Implicit Types (m : jsmap V) (k : string) (v : V).

Lemma jm_get_set_eq k v m : jm_get k (jm_set k v m) = Some v.
Proof. induction m as [|[k' v'] m IH]; csimpl; repeat (case_decide; csimpl); congruence. Qed.

Lemma jm_get_set_ne k k' v m : k ≠ k' → jm_get k' (jm_set k v m) = jm_get k' m.
Proof.
  intros Hne. induction m as [|[k1 v1] m IH]; csimpl; repeat (case_decide; csimpl); congruence.
Qed.

Lemma jm_keys_set k v m :
  jm_keys (jm_set k v m) = if decide (k ∈ jm_keys m) then jm_keys m else jm_keys m ++ [k].
Proof.
  unfold jm_keys. induction m as [|[k1 v1] m IH]; csimpl; [done|].
  destruct (decide (k1 = k)) as [->|Hk]; csimpl.
  - rewrite decide_True by (by left). done.
  - rewrite IH. destruct (decide (k ∈ m.*1)).
    + rewrite decide_True by (by right). done.
    + rewrite decide_False by (rewrite elem_of_cons; naive_solver). done.
Qed.

Lemma jm_keys_mutate f k m : jm_keys (jm_mutate f k m) = jm_keys m.
Proof.
  unfold jm_keys. induction m as [|[k1 v1] m IH]; csimpl; [done|].
  case_decide; csimpl; congruence.
Qed.

Lemma jm_get_keys k m : k ∈ jm_keys m ↔ is_Some (jm_get k m).
Proof.
  unfold jm_keys. induction m as [|[k1 v1] m IH]; csimpl.
  - split; [set_solver | intros [? ?]; done].
  - case_decide; [split; [eauto | set_solver]|]. rewrite elem_of_cons, IH. naive_solver.
Qed.

Lemma jm_get_None k m : jm_get k m = None ↔ k ∉ jm_keys m.
Proof. rewrite jm_get_keys, eq_None_not_Some. done. Qed.

Lemma jm_get_elem k v m : jm_get k m = Some v → (k, v) ∈ m.
Proof.
  induction m as [|[k1 v1] m IH]; csimpl; [done|].
  case_decide; intros; simplify_eq; set_solver.
Qed.

Lemma jm_elem_get k v m : jm_wf m → (k, v) ∈ m → jm_get k m = Some v.
Proof.
  unfold jm_wf, jm_keys. induction m as [|[k1 v1] m IH]; csimpl; [set_solver|].
  rewrite NoDup_cons, elem_of_cons. intros [Hn Hwf] [[=]|Hin]; subst.
  - by rewrite decide_True.
  - rewrite decide_False; [auto|]. intros ->. apply Hn, list_elem_of_fmap. by exists (k, v).
Qed.

Lemma jm_elem_iff k v m : jm_wf m → (k, v) ∈ m ↔ jm_get k m = Some v.
Proof. split; [by apply jm_elem_get | by apply jm_get_elem]. Qed.

Lemma jm_get_mutate_eq f k m : jm_get k (jm_mutate f k m) = f <$> jm_get k m.
Proof.
  induction m as [|[k1 v1] m IH]; csimpl; [done|]. case_decide; csimpl.
  - by rewrite decide_True.
  - by rewrite decide_False.
Qed.

Lemma jm_get_mutate_ne f k k' m : k ≠ k' → jm_get k' (jm_mutate f k m) = jm_get k' m.
Proof.
  intros Hne. induction m as [|[k1 v1] m IH]; csimpl; [done|].
  case_decide; csimpl; case_decide; congruence.
Qed.

Lemma jm_wf_set k v m : jm_wf m → jm_wf (jm_set k v m).
Proof.
  unfold jm_wf. rewrite jm_keys_set. case_decide; [done|]. intros.
  apply NoDup_app. split_and!; [done | set_solver | apply NoDup_singleton].
Qed.

Lemma jm_wf_mutate f k m : jm_wf m → jm_wf (jm_mutate f k m).
Proof. unfold jm_wf. by rewrite jm_keys_mutate. Qed.

Lemma jm_keys_delete_subset k m : jm_keys (jm_delete k m) `sublist_of` jm_keys m.
Proof.
  unfold jm_keys. induction m as [|[k1 v1] m IH]; csimpl; [done|].
  case_decide; csimpl; [by apply sublist_cons | by apply sublist_skip].
Qed.

Lemma jm_wf_delete k m : jm_wf m → jm_wf (jm_delete k m).
Proof. intros. eapply sublist_NoDup; [done | apply jm_keys_delete_subset]. Qed.

Lemma jm_get_delete_ne k k' m : k ≠ k' → jm_get k' (jm_delete k m) = jm_get k' m.
Proof.
  intros Hne. induction m as [|[k1 v1] m IH]; csimpl; [done|].
  repeat (case_decide; csimpl); congruence.
Qed.

Lemma jm_get_delete_eq k m : jm_wf m → jm_get k (jm_delete k m) = None.
Proof.
  unfold jm_wf. induction m as [|[k1 v1] m IH]; csimpl; [done|].
  rewrite NoDup_cons. intros [Hn Hwf]. case_decide; csimpl.
  - subst. by apply jm_get_None.
  - rewrite decide_False by done. auto.
Qed.

(** Both functional views, with the [decide] made explicit. *)
Lemma jm_get_set k k' v m :
  jm_get k' (jm_set k v m) = if decide (k = k') then Some v else jm_get k' m.
Proof. case_decide; subst; [apply jm_get_set_eq | by apply jm_get_set_ne]. Qed.

Lemma jm_get_mutate f k k' m :
  jm_get k' (jm_mutate f k m) = if decide (k = k') then f <$> jm_get k' m else jm_get k' m.
Proof. case_decide; subst; [apply jm_get_mutate_eq | by apply jm_get_mutate_ne]. Qed.

Lemma jm_get_delete k k' m :
  jm_wf m → jm_get k' (jm_delete k m) = if decide (k = k') then None else jm_get k' m.
Proof. intros. case_decide; subst; [by apply jm_get_delete_eq | by apply jm_get_delete_ne]. Qed.

Lemma jm_delete_perm k v m : jm_get k m = Some v → m ≡ₚ (k, v) :: jm_delete k m.
Proof.
  induction m as [|[k1 v1] m IH]; csimpl; [done|]. case_decide; intros; simplify_eq; [done|].
  rewrite IH at 1 by done. apply Permutation_swap.
Qed.

Lemma jm_set_perm k v m : jm_get k m = None → jm_set k v m ≡ₚ (k, v) :: m.
Proof.
  induction m as [|[k1 v1] m IH]; csimpl; [done|]. case_decide; intros; simplify_eq.
  rewrite IH by done. apply Permutation_swap.
Qed.

Lemma jm_set_new k v m : k ∉ m.*1 → jm_set k v m = m ++ [(k, v)].
Proof.
  induction m as [|[k1 v1] m IH]; csimpl; [done|]. intros [Hk Hm]%not_elem_of_cons.
  rewrite decide_False by congruence. by rewrite IH.
Qed.

Lemma jm_mutate_perm f k v m :
  jm_get k m = Some v → jm_mutate f k m ≡ₚ (k, f v) :: jm_delete k m.
Proof.
  induction m as [|[k1 v1] m IH]; csimpl; [done|]. case_decide; intros; simplify_eq; [done|].
  rewrite IH by done. apply Permutation_swap.
Qed.

Lemma jm_mutate_mutate f g k m : jm_mutate f k (jm_mutate g k m) = jm_mutate (f ∘ g) k m.
Proof.
  induction m as [|[k1 v1] m IH]; csimpl; [done|]. case_decide; csimpl.
  - by rewrite decide_True.
  - rewrite decide_False by done. by rewrite IH.
Qed.

(** The first entry whose value passes a test. *)
Lemma jm_find_Some (P : string * V → Prop) `{!∀ e, Decision (P e)} m k v :
  jm_wf m → snd <$> list_find P m = Some (k, v) → jm_get k m = Some v ∧ P (k, v).
Proof.
  intros Hwf ([i e] & Hf & [= <-])%fmap_Some. apply list_find_Some in Hf as (Hi & HP & _).
  split; [|done]. apply jm_elem_get; [done|]. by eapply list_elem_of_lookup_2.
Qed.

Lemma jm_find_None (P : string * V → Prop) `{!∀ e, Decision (P e)} m k v :
  snd <$> list_find P m = None → jm_get k m = Some v → ¬ P (k, v).
Proof.
  intros Hf%fmap_None Hk%jm_get_elem. apply list_find_None in Hf. rewrite Forall_forall in Hf. auto.
Qed.
End JsMapLemmas.

#[export] Hint Resolve jm_wf_set jm_wf_mutate jm_wf_delete : dispatch.

(** ** Lists *)

Lemma filter_id {A} (P : A → Prop) `{!∀ x, Decision (P x)} (l : list A) :
  (∀ x, x ∈ l → P x) → filter P l = l.
Proof.
  induction l as [|x l IH]; intros Hall; [done|].
  rewrite filter_cons_True by (apply Hall; left). f_equal. apply IH. intros. apply Hall. by right.
Qed.

(** Removing the one entry with a given key. *)
Lemma filter_key_perm {K V} `{EqDecision K} (k : K) (v : V) (l : list (K * V)) :
  NoDup l.*1 → (k, v) ∈ l → l ≡ₚ (k, v) :: filter (λ x, x.1 ≠ k) l.
Proof.
  induction l as [|[k' v'] l IH]; [set_solver|]. csimpl. rewrite NoDup_cons.
  intros [Hn Hnd] [[=<- <-]|Hin]%elem_of_cons.
  - rewrite filter_cons_False by naive_solver. f_equiv. rewrite filter_id; [done|].
    intros [k1 v1] Hin; simpl. intros ->. apply Hn, list_elem_of_fmap. by exists (k, v1).
  - rewrite filter_cons_True.
    + rewrite (IH Hnd Hin) at 1. apply Permutation_swap.
    + simpl. intros ->. apply Hn, list_elem_of_fmap. by exists (k, v).
Qed.

Lemma alter_insert_lookup {V} (f : V → V) (k : string) (v : V) (m : gmap string V) :
  m !! k = Some v → alter f k m = <[k := f v]> m.
Proof.
  intros Hk. apply map_eq. intros k'. rewrite lookup_alter, lookup_insert.
  case_decide; subst; [by rewrite Hk | done].
Qed.
