(* ===== verification/Js.v ===== *)
(** * The JavaScript values the code computes with

    - numbers: IEEE 754 binary64 values ([SpecFloat]), with [Math.round],
      [Math.floor] and the comparison the sources use;
    - strings: sequences of UTF-16 code units below 256 (Latin-1), each an
      [ascii]; [trim], [toLowerCase], [\s], [includes], [split] and [slice]
      behave on that range as ECMAScript says;
    - JSON values, with JavaScript truthiness. *)

From stdpp Require Import base list strings option.
From Stdlib Require Import ZArith Lia Ascii String.
From Stdlib Require Import SpecFloat.
From S2P Require Import Prelude.

(** ** Numbers *)

Abbreviation jsnum := spec_float.

Definition num_of_Z (z : Z) : jsnum := binary_normalize 53 1024 z 0 false.
Definition num_add : jsnum -> jsnum -> jsnum := SFadd 53 1024.
Definition num_sub : jsnum -> jsnum -> jsnum := SFsub 53 1024.
Definition num_mul : jsnum -> jsnum -> jsnum := SFmul 53 1024.
Definition num_div : jsnum -> jsnum -> jsnum := SFdiv 53 1024.
Definition num_ltb : jsnum -> jsnum -> bool := SFltb.
Definition num_leb : jsnum -> jsnum -> bool := SFleb.

(** A decimal literal [n / d] of the source ([d] a power of ten): the nearest
    binary64 value, as the ECMAScript lexer computes it. *)
Definition num_lit (n d : Z) : jsnum := num_div (num_of_Z n) (num_of_Z d).

(** [Math.floor] and [Math.round] (ties toward +infinity) as an integer;
    [None] for NaN and the infinities, on which [BigInt] throws. *)
Definition math_floor (x : jsnum) : option Z :=
  match x with
  | S754_zero _ => Some 0%Z
  | S754_finite s m e =>
      let v := if s then Z.neg m else Z.pos m in
      Some (if (0 <=? e)%Z then v * 2 ^ e else v / 2 ^ (- e))%Z
  | _ => None
  end.

Definition math_round (x : jsnum) : option Z :=
  match x with
  | S754_zero _ => Some 0%Z
  | S754_finite s m e =>
      let v := if s then Z.neg m else Z.pos m in
      Some (if (0 <=? e)%Z then v * 2 ^ e
            else (2 * v + 2 ^ (- e)) / (2 * 2 ^ (- e)))%Z
  | _ => None
  end.

Definition is_nan (x : jsnum) : bool := match x with S754_nan => true | _ => false end.

(** [Math.min] and [Math.max] (NaN when an argument is; the sign of a zero
    result is not distinguished). *)
Definition math_min (x y : jsnum) : jsnum :=
  if is_nan x || is_nan y then S754_nan else if num_ltb y x then y else x.
Definition math_max (x y : jsnum) : jsnum :=
  if is_nan x || is_nan y then S754_nan else if num_ltb x y then y else x.

(** Finite values with an exponent in range, and their value in units of
    2^-1074, the smallest positive binary64 value. *)
Definition num_finite (x : jsnum) : bool :=
  match x with
  | S754_zero _ => true
  | S754_finite _ _ e => (-1074 <=? e)%Z
  | _ => false
  end.
Definition num_units (x : jsnum) : Z :=
  match x with
  | S754_finite s m e => (cond_Zopp s (Zpos m) * 2 ^ (e + 1074))%Z
  | _ => 0%Z
  end.

(** ** Strings *)

Definition is_space (c : ascii) : bool :=
  let n := nat_of_ascii c in
  ((9 <=? n) && (n <=? 13) || (n =? 32) || (n =? 160))%nat.

Definition lower_char (c : ascii) : ascii :=
  let n := nat_of_ascii c in
  if ((65 <=? n) && (n <=? 90) || (192 <=? n) && (n <=? 222) && negb (n =? 215))%nat
  then ascii_of_nat (n + 32) else c.

Fixpoint toLowerCase (s : string) : string :=
  match s with
  | EmptyString => EmptyString
  | String c s' => String (lower_char c) (toLowerCase s')
  end.

Fixpoint trim_start (s : string) : string :=
  match s with
  | EmptyString => EmptyString
  | String c s' => if is_space c then trim_start s' else s
  end.

Fixpoint trim_end (s : string) : string :=
  match s with
  | EmptyString => EmptyString
  | String c s' =>
      match trim_end s' with
      | EmptyString => if is_space c then EmptyString else String c EmptyString
      | t => String c t
      end
  end.

Definition trim (s : string) : string := trim_end (trim_start s).

(** [parseInt(s, 10)]: white space, a sign, digits; [None] is NaN. *)
Definition digit_of (c : ascii) : option Z :=
  let n := Z.of_nat (nat_of_ascii c) in if ((48 <=? n) && (n <=? 57))%Z then Some (n - 48)%Z else None.
Fixpoint leading_digits (s : string) (acc : option Z) : option Z :=
  match s with
  | EmptyString => acc
  | String c s' => match digit_of c with
                   | Some d => leading_digits s' (Some (10 * default 0%Z acc + d)%Z)
                   | None => acc
                   end
  end.
Definition parseInt10 (s : string) : option Z :=
  match trim_start s with
  | String c s' => if Ascii.eqb c "-" then Z.opp <$> leading_digits s' None
                   else if Ascii.eqb c "+" then leading_digits s' None
                   else leading_digits (String c s') None
  | EmptyString => None
  end.

Definition startsWith (s p : string) : bool := String.prefix p s.

Fixpoint includes (s needle : string) : bool :=
  String.prefix needle s ||
  match s with
  | EmptyString => false
  | String _ s' => includes s' needle
  end.

(** [s.slice(0, n)] *)
Definition slice0 (n : nat) (s : string) : string := String.substring 0 n s.

(** Splitting on a separator class: [split_on p] is [split(sep)] for a single
    separator character and [split_runs p] is [split(/sep+/)]. *)
Fixpoint split_on (p : ascii -> bool) (s : string) : list string :=
  match s with
  | EmptyString => [EmptyString]
  | String c s' =>
      if p c then EmptyString :: split_on p s'
      else match split_on p s' with
           | w :: ws => String c w :: ws
           | [] => [String c EmptyString]
           end
  end.

Fixpoint split_runs (p : ascii -> bool) (insep : bool) (s : string) : list string :=
  match s with
  | EmptyString => [EmptyString]
  | String c s' =>
      if p c then if insep then split_runs p true s' else EmptyString :: split_runs p true s'
      else match split_runs p false s' with
           | w :: ws => String c w :: ws
           | [] => [String c EmptyString]
           end
  end.

Definition split_spaces (s : string) : list string := split_runs is_space false s.
Definition split_commas (s : string) : list string := split_on (Ascii.eqb ",") s.

(** The message of the type error of [v.k] where [v] is null or undefined. *)
Definition reading (what k : string) : string := "Cannot read properties of " ++ what ++ " (reading '" ++ k ++ "')".

(** The empty string is the only falsy string. *)
Definition str_truthy (s : string) : bool := negb (String.eqb s "").
Definition ostr_truthy (s : option string) : bool :=
  match s with Some s => str_truthy s | None => false end.

(** ** JSON values *)

Inductive json :=
  | JNull
  | JBool (b : bool)
  | JNum (n : jsnum)
  | JStr (s : string)
  | JArr (l : list json)
  | JObj (o : list (string * json)).

Definition json_truthy (j : json) : bool :=
  match j with
  | JNull => false
  | JBool b => b
  | JNum (S754_zero _) | JNum S754_nan => false
  | JNum _ => true
  | JStr s => str_truthy s
  | JArr _ | JObj _ => true
  end.

(** [JSON.stringify] of a string: the quoted, escaped form. *)
Definition hex_digit (n : nat) : ascii :=
  if (n <? 10)%nat then ascii_of_nat (48 + n) else ascii_of_nat (87 + n).

Definition json_escape (c : ascii) : string :=
  let n := nat_of_ascii c in
  match n with
  | 8 => "\b" | 9 => "\t" | 10 => "\n" | 12 => "\f" | 13 => "\r"
  | 34 => String (ascii_of_nat 92) (String (ascii_of_nat 34) EmptyString)
  | 92 => "\\"
  | _ => if (n <? 32)%nat
         then ("\u00" ++ String (hex_digit (n / 16)) (String (hex_digit (n mod 16)) EmptyString))%string
         else String c EmptyString
  end.

Fixpoint json_escape_all (s : string) : string :=
  match s with
  | EmptyString => EmptyString
  | String c s' => (json_escape c ++ json_escape_all s')%string
  end.

Definition dquote : string := String (ascii_of_nat 34) EmptyString.
Definition json_quote (s : string) : string := (dquote ++ json_escape_all s ++ dquote)%string.

(** ** Lemmas *)

#[global] Instance jsnum_eq_dec : EqDecision jsnum.
Proof. solve_decision. Defined.

Lemma str_truthy_true s : str_truthy s = true ↔ s ≠ "".
Proof. unfold str_truthy. destruct (String.eqb_spec s ""); naive_solver. Qed.

Lemma split_on_ne p s : split_on p s ≠ [].
Proof. destruct s as [|c s]; simpl; [done|]. destruct (p c); [done|]. by destruct (split_on p s). Qed.

Lemma split_runs_ne p s : split_runs p false s ≠ [].
Proof. destruct s as [|c s]; simpl; [done|]. destruct (p c); [done|]. by destruct (split_runs p false s). Qed.

Example split_spaces_ex : split_spaces "to be  or" = ["to"; "be"; "or"].
Proof. reflexivity. Qed.

Example trim_ex : trim "  a b	" = "a b".
Proof. reflexivity. Qed.

Example round_ex : math_round (num_mul (num_lit 1 1000) (num_of_Z 1000000000)) = Some 1000000%Z.
Proof. vm_compute. reflexivity. Qed.
