(* ===== verification/JsNum.v ===== *)
(** * Differences and quotients of binary64 values

    The comparators of the sources are subtractions ([scoreB - scoreA]); the
    lemma that justifies them is [num_sub_pos]. *)

From stdpp Require Import base list strings option.
From Stdlib Require Import ZArith Lia.
From Stdlib Require Import SpecFloat.
From S2P Require Import Prelude Js.

Lemma digits2_pos_le p : (2 ^ (Zpos (digits2_pos p) - 1) <= Zpos p)%Z.
Proof.
  induction p as [p IH|p IH|]; simpl digits2_pos; [| |done];
    rewrite Pos2Z.inj_succ; replace (Z.succ (Z.pos (digits2_pos p)) - 1)%Z
      with (Z.succ (Z.pos (digits2_pos p) - 1))%Z by lia;
    rewrite Z.pow_succ_r by lia; lia.
Qed.

Lemma shr_1_half r : (0 <= shr_m r → shr_m (shr_1 r) = shr_m r / 2)%Z.
Proof.
  destruct r as [[|[p|p|]|p] ? ?]; simpl; intros; try lia; try done.
  - apply (Z.div_unique _ 2 _ 1); lia.
  - apply (Z.div_unique _ 2 _ 0); lia.
Qed.

Lemma iter_shr_div n r :
  (0 <= shr_m r → shr_m (iter_pos shr_1 n r) = shr_m r / 2 ^ Zpos n)%Z.
Proof.
  revert r. induction n as [n IH|n IH|]; intros r Hr; simpl iter_pos; [| |by apply shr_1_half];
    assert (0 < 2 ^ Zpos n)%Z by (apply Z.pow_pos_nonneg; lia).
  - assert (0 <= shr_m (shr_1 r))%Z by (rewrite shr_1_half by done; apply Z.div_pos; lia).
    assert (0 <= shr_m (iter_pos shr_1 n (shr_1 r)))%Z
      by (rewrite IH by done; apply Z.div_pos; lia).
    rewrite !IH, shr_1_half by done. rewrite !Z.div_div by lia. f_equal.
    rewrite Pos2Z.inj_xI, !Z.pow_add_r, (Z.mul_comm 2 (Zpos n)), Z.pow_mul_r by lia. ring.
  - assert (0 <= shr_m (iter_pos shr_1 n r))%Z by (rewrite IH by done; apply Z.div_pos; lia).
    rewrite !IH by done. rewrite Z.div_div by lia. f_equal.
    rewrite (Pos2Z.inj_xO n), (Z.mul_comm 2 (Zpos n)), Z.pow_mul_r by lia. ring.
Qed.

Lemma shr_fexp_pos m e l :
  (0 < m → -1074 <= e →
   0 < shr_m (shr_fexp 53 1024 m e l).1 ∧ -1074 <= (shr_fexp 53 1024 m e l).2)%Z.
Proof.
  intros Hm He. unfold shr_fexp, shr.
  assert (shr_m (shr_record_of_loc m l) = m) as Hrec by (by destruct l as [|[]]).
  destruct m as [|p|]; try lia. simpl Zdigits2.
  pose proof (digits2_pos_le p).
  assert (fexp 53 1024 (Z.pos (digits2_pos p) + e) =
          Z.max (Z.pos (digits2_pos p) + e - 53) (-1074)) as -> by done.
  destruct (_ - e)%Z as [|n|n] eqn:Hn; simpl; rewrite ?Hrec; [lia| |lia].
  split; [|lia]. rewrite iter_shr_div, Hrec by (rewrite Hrec; lia).
  apply Z.div_str_pos. split; [lia|].
  etrans; [apply (Z.pow_le_mono_r _ _ (Z.pos (digits2_pos p) - 1)); lia | done].
Qed.

Lemma round_nearest_even_le m l : (m <= round_nearest_even m l)%Z.
Proof. unfold round_nearest_even. destruct l as [|[]]; try case_match; lia. Qed.

Lemma binary_round_sign s p e :
  (-1074 <= e)%Z →
  (∃ m e', binary_round 53 1024 s p e = S754_finite s m e') ∨
  binary_round 53 1024 s p e = S754_infinity s.
Proof.
  intros He. unfold binary_round.
  destruct (shl_align _ _ _) as [mz ez] eqn:Hal.
  assert (-1074 <= ez)%Z as Hez.
  { unfold shl_align in Hal.
    destruct (_ - e)%Z as [|n|n] eqn:?; simplify_eq; try lia.
    unfold fexp, emin. lia. }
  unfold binary_round_aux.
  destruct (shr_fexp_pos (Z.pos mz) ez loc_Exact) as [H1 H1']; [lia|lia|].
  destruct (shr_fexp 53 1024 (Z.pos mz) ez loc_Exact) as [r1 e1]; simpl in *.
  pose proof (round_nearest_even_le (shr_m r1) (loc_of_shr_record r1)).
  destruct (shr_fexp_pos (round_nearest_even (shr_m r1) (loc_of_shr_record r1)) e1 loc_Exact)
    as [H2 _]; [lia|lia|].
  destruct (shr_fexp 53 1024 (round_nearest_even _ _) e1 loc_Exact) as [r2 e2]; simpl in *.
  destruct (shr_m r2); try lia. destruct (e2 <=? _)%Z; eauto.
Qed.

Lemma binary_normalize_pos m e :
  (-1074 <= e)%Z →
  num_ltb (S754_zero false) (binary_normalize 53 1024 m e false) = (0 <? m)%Z.
Proof.
  intros He. destruct m as [|p|p]; simpl; [done| |].
  - destruct (binary_round_sign false p e He) as [(?&?&->)| ->]; done.
  - destruct (binary_round_sign true p e He) as [(?&?&->)| ->]; done.
Qed.

Lemma shl_align_shift m e e' :
  (e' <= e → Zpos (shl_align m e e').1 = Zpos m * 2 ^ (e - e'))%Z.
Proof.
  intros Hle. unfold shl_align.
  destruct (e' - e)%Z as [|n|n] eqn:Hn; simpl.
  - replace (e - e')%Z with 0%Z by lia. lia.
  - lia.
  - replace (e - e')%Z with (Zpos n) by lia. 
    clear. induction n as [|n IH] using Pos.peano_ind; [simpl; lia|].
    rewrite Pos.iter_succ, Pos2Z.inj_xO, IH, Pos2Z.inj_succ, Z.pow_succ_r by lia. ring.
Qed.

(** [a - b > 0] exactly when [a] exceeds [b]: subtraction of finite binary64
    values never rounds a difference to zero or to the other sign. *)
Lemma num_sub_pos x y :
  num_finite x = true → num_finite y = true →
  num_ltb (S754_zero false) (num_sub x y) = (num_units y <? num_units x)%Z.
Proof.
  destruct x as [sx| | |sx mx ex], y as [sy| | |sy my ey]; simpl; try done; intros Hx Hy.
  - by destruct sx, sy.
  - destruct sy; simpl; symmetry; [apply Z.ltb_lt|apply Z.ltb_ge];
      assert (0 < 2 ^ (ey + 1074))%Z by (apply Z.pow_pos_nonneg; lia); nia.
  - destruct sx; simpl; symmetry; [apply Z.ltb_ge|apply Z.ltb_lt];
      assert (0 < 2 ^ (ex + 1074))%Z by (apply Z.pow_pos_nonneg; lia); nia.
  - unfold num_sub. cbn [SFsub].
    rewrite binary_normalize_pos by lia. rewrite !shl_align_shift by lia.
    set (ez := Z.min ex ey).
    replace (ex + 1074)%Z with ((ex - ez) + (ez + 1074))%Z by lia.
    replace (ey + 1074)%Z with ((ey - ez) + (ez + 1074))%Z by lia.
    rewrite (Z.pow_add_r 2 (ex - ez)), (Z.pow_add_r 2 (ey - ez)) by lia.
    assert (∀ s z k, cond_Zopp s (z * k) = cond_Zopp s z * k)%Z as Hc by (intros [] ??; simpl; lia).
    rewrite !Hc, !Z.mul_assoc. assert (0 < 2 ^ (ez + 1074))%Z by (apply Z.pow_pos_nonneg; lia).
    apply eq_true_iff_eq. rewrite !Z.ltb_lt, <- Z.mul_lt_mono_pos_r by lia. lia.
Qed.

(** ** Quotients *)

Lemma shr_fexp_nonneg m e l : (0 <= m → 0 <= shr_m (shr_fexp 53 1024 m e l).1)%Z.
Proof.
  intros Hm. unfold shr_fexp, shr.
  assert (shr_m (shr_record_of_loc m l) = m) as Hrec by (by destruct l as [|[]]).
  destruct (_ - e)%Z as [|n|n]; simpl; rewrite ?Hrec; try done.
  rewrite iter_shr_div, Hrec by (by rewrite Hrec). apply Z.div_pos; [done|]. apply Z.pow_pos_nonneg; lia.
Qed.

Lemma binary_round_aux_not_nan s m e l : (0 <= m)%Z → is_nan (binary_round_aux 53 1024 s m e l) = false.
Proof.
  intros Hm. unfold binary_round_aux. pose proof (shr_fexp_nonneg m e l Hm) as H1.
  destruct (shr_fexp 53 1024 m e l) as [r1 e1]; simpl in H1.
  pose proof (round_nearest_even_le (shr_m r1) (loc_of_shr_record r1)).
  pose proof (shr_fexp_nonneg (round_nearest_even (shr_m r1) (loc_of_shr_record r1)) e1 loc_Exact ltac:(lia)) as H2.
  destruct (shr_fexp 53 1024 (round_nearest_even _ _) e1 loc_Exact) as [r2 e2]; simpl in H2.
  destruct (shr_m r2); [done | by destruct (_ <=? _)%Z | lia].
Qed.

Lemma num_of_Z_not_nan z : is_nan (num_of_Z z) = false.
Proof.
  destruct z as [|p|p]; [done| |]; unfold num_of_Z; cbn [binary_normalize].
  - by destruct (binary_round_sign false p 0 ltac:(lia)) as [(?&?&->)| ->].
  - by destruct (binary_round_sign true p 0 ltac:(lia)) as [(?&?&->)| ->].
Qed.

(** Dividing by a finite number other than zero gives a number. *)
Lemma num_div_not_nan x s m e : is_nan x = false → is_nan (num_div x (S754_finite s m e)) = false.
Proof.
  destruct x as [sx|sx| |sx mx ex]; intros Hx; try done. unfold num_div. cbn [SFdiv].
  unfold SFdiv_core_binary. cbv zeta.
  match goal with |- context [Z.div_eucl ?a ?b] =>
    pose proof (Z.div_pos a b) as Hq; unfold Z.div in Hq; destruct (Z.div_eucl a b) as [q r] end.
  apply binary_round_aux_not_nan, Hq; [|lia].
  destruct (_ - _)%Z; [lia | apply Z.shiftl_nonneg; lia | lia].
Qed.

Lemma num_ltb_leb x y : num_ltb x y = true → num_leb x y = true.
Proof. unfold num_ltb, num_leb, SFltb, SFleb. by destruct (SFcompare x y) as [[]|]. Qed.
