(* ===== verification/Json.v ===== *)
(** * JSON.parse and JSON.stringify

    The text format of ECMA-404 as ECMAScript's [JSON] object reads and writes
    it, on strings of code units below 256: an escape that denotes a larger code
    unit is outside the model and makes [JSON_parse] fail.  A repeated key
    keeps its place and takes the last value, and [index_first] puts the members
    whose names are array indices first, in ascending order; the others keep the
    order of the text. *)

From stdpp Require Import base list strings option.
From Stdlib Require Import ZArith Lia Ascii SpecFloat.
From S2P Require Import Prelude Js.
Local Open Scope string_scope.

(** ** Numbers *)

Definition is_digit (c : ascii) : bool := let n := nat_of_ascii c in ((48 <=? n) && (n <=? 57))%nat.
Definition digit_val (c : ascii) : Z := Z.of_nat (nat_of_ascii c) - 48.

(** The nearest binary64 value of [m * 10^e], [m >= 0]: exact for [e >= 0];
    otherwise the quotient is computed to at least 64 more bits than [m] has
    over [10^-e], with the remainder as a sticky bit, and rounded once. *)
Definition dec_to_num (m e : Z) : jsnum :=
  if (m =? 0)%Z then S754_zero false
  else if (400 <? e)%Z then S754_infinity false
  else if (0 <=? e)%Z then binary_normalize 53 1024 (m * 10 ^ e) 0 false
  else if (e + Z.log2 m <? -1200)%Z then S754_zero false
  else
    let d := (10 ^ (- e))%Z in
    let k := Z.max 0 (64 + Z.log2 d - Z.log2 m)%Z in
    let q := (m * 2 ^ k / d)%Z in
    let sticky := if (m * 2 ^ k mod d =? 0)%Z then 0%Z else 1%Z in
    binary_normalize 53 1024 (2 * q + sticky) (- k - 1) false.

Definition num_opp (x : jsnum) : jsnum := SFopp x.

(** The digits at the head of [s]: how many, their value after [acc], the rest. *)
Fixpoint read_digits (s : string) (acc : Z) (count : nat) : Z * nat * string :=
  match s with
  | String c s' => if is_digit c then read_digits s' (10 * acc + digit_val c)%Z (S count) else (acc, count, s)
  | EmptyString => (acc, count, s)
  end.

(** The fraction after the integer part [ip]: the digits' value and their number. *)
Definition parse_frac (ip : Z) (s : string) : option (Z * Z * string) :=
  match s with
  | String c s1 =>
      if Ascii.eqb c "." then
        let '(m, nf, s2) := read_digits s1 ip 0 in
        if (nf =? 0)%nat then None else Some (m, Z.of_nat nf, s2)
      else Some (ip, 0%Z, s)
  | EmptyString => Some (ip, 0%Z, s)
  end.

(** The digits of the exponent of [m], which has [nf] digits after the point. *)
Definition parse_exp_digits (m nf sg : Z) (s : string) : option (jsnum * string) :=
  let '(e, ne, r) := read_digits s 0 0 in
  if (ne =? 0)%nat then None else Some (dec_to_num m (sg * e - nf), r).

Definition parse_exp (m nf : Z) (s : string) : option (jsnum * string) :=
  match s with
  | String c s1 =>
      if Ascii.eqb c "e" || Ascii.eqb c "E" then
        match s1 with
        | String d s2 =>
            if Ascii.eqb d "+" then parse_exp_digits m nf 1 s2
            else if Ascii.eqb d "-" then parse_exp_digits m nf (-1) s2
            else parse_exp_digits m nf 1 s1
        | EmptyString => None
        end
      else Some (dec_to_num m (- nf), s)
  | EmptyString => Some (dec_to_num m (- nf), s)
  end.

(** [int frac? exp?] after the sign. *)
Definition parse_unsigned (s : string) : option (jsnum * string) :=
  let '(ip, ni, s1) := read_digits s 0 0 in
  let zero_lead := match s with String c _ => Ascii.eqb c "0" | EmptyString => false end in
  if (ni =? 0)%nat || (zero_lead && (1 <? ni)%nat) then None
  else '(m, nf, s2) ← parse_frac ip s1; parse_exp m nf s2.

Definition parse_number (s : string) : option (jsnum * string) :=
  match s with
  | String c s' =>
      if Ascii.eqb c "-" then '(x, r) ← parse_unsigned s'; Some (num_opp x, r)
      else parse_unsigned s
  | EmptyString => None
  end.

(** *** [parseFloat]: the longest number at the head of a text *)

Definition float_exp (m nf : Z) (s : string) : jsnum :=
  match s with
  | String c s1 =>
      if Ascii.eqb c "e" || Ascii.eqb c "E" then
        let '(sg, s2) := match s1 with
                         | String d r => if Ascii.eqb d "+" then (1%Z, r)
                                         else if Ascii.eqb d "-" then ((-1)%Z, r) else (1%Z, s1)
                         | EmptyString => (1%Z, s1)
                         end in
        let '(e, ne, _) := read_digits s2 0 0 in
        if (ne =? 0)%nat then dec_to_num m (- nf) else dec_to_num m (sg * e - nf)
      else dec_to_num m (- nf)
  | EmptyString => dec_to_num m (- nf)
  end.

Definition float_unsigned (s : string) : jsnum :=
  if startsWith s "Infinity" then S754_infinity false
  else
    let '(ip, ni, s1) := read_digits s 0 0 in
    let '(m, nf, s2) := match s1 with
                        | String c r => if Ascii.eqb c "." then read_digits r ip 0 else (ip, 0%nat, s1)
                        | EmptyString => (ip, 0%nat, s1)
                        end in
    if (ni + nf =? 0)%nat then S754_nan else float_exp m (Z.of_nat nf) s2.

Definition parseFloat (s : string) : jsnum :=
  match trim_start s with
  | String c r => if Ascii.eqb c "-" then num_opp (float_unsigned r)
                  else if Ascii.eqb c "+" then float_unsigned r else float_unsigned (String c r)
  | EmptyString => S754_nan
  end.

(** ** Strings *)

Definition hex_val (c : ascii) : option nat :=
  let n := nat_of_ascii c in
  if ((48 <=? n) && (n <=? 57))%nat then Some (n - 48)%nat
  else if ((97 <=? n) && (n <=? 102))%nat then Some (n - 87)%nat
  else if ((65 <=? n) && (n <=? 70))%nat then Some (n - 55)%nat
  else None.

Definition simple_escape (c : ascii) : option ascii :=
  match nat_of_ascii c with
  | 34 | 92 | 47 => Some c
  | 98 => Some (ascii_of_nat 8)
  | 102 => Some (ascii_of_nat 12)
  | 110 => Some (ascii_of_nat 10)
  | 114 => Some (ascii_of_nat 13)
  | 116 => Some (ascii_of_nat 9)
  | _ => None
  end.

(** The characters up to the closing quote. *)
Fixpoint parse_chars (s : string) : option (string * string) :=
  match s with
  | EmptyString => None
  | String c s1 =>
      if (nat_of_ascii c =? 34)%nat then Some (EmptyString, s1)
      else if (nat_of_ascii c <? 32)%nat then None
      else if (nat_of_ascii c =? 92)%nat then
        match s1 with
        | String "u" (String h1 (String h2 (String h3 (String h4 s2)))) =>
            a ← hex_val h1; b ← hex_val h2; x ← hex_val h3; y ← hex_val h4;
            if ((a =? 0) && (b =? 0))%nat
            then '(t, r) ← parse_chars s2; Some (String (ascii_of_nat (16 * x + y)) t, r)
            else None
        | String e s2 => c' ← simple_escape e; '(t, r) ← parse_chars s2; Some (String c' t, r)
        | EmptyString => None
        end
      else '(t, r) ← parse_chars s1; Some (String c t, r)
  end.

(** ** Values *)

Definition is_json_space (c : ascii) : bool :=
  match nat_of_ascii c with 32 | 9 | 10 | 13 => true | _ => false end.

Fixpoint skip_ws (s : string) : string :=
  match s with
  | String c s' => if is_json_space c then skip_ws s' else s
  | EmptyString => s
  end.

(** [drop_prefix p s]: what follows [p] in [s]. *)
Fixpoint drop_prefix (p s : string) : option string :=
  match p, s with
  | EmptyString, _ => Some s
  | String a p', String b s' => if Ascii.eqb a b then drop_prefix p' s' else None
  | _, EmptyString => None
  end.

(** The array index a name is the canonical text of: below [2^32 - 1], without
    leading zeros. *)
Definition array_index (k : string) : option Z :=
  match read_digits k 0 0 with
  | (z, S n, EmptyString) =>
      if (String.eqb k "0" || negb (String.prefix "0" k)) && (z <? 4294967295)%Z then Some z else None
  | _ => None
  end.

(** Whether an ordinary object lists the member [k'] before [k] wherever it was
    created: array indices ascend and precede every other name. *)
Definition listed_after (k k' : string) : bool :=
  match array_index k', array_index k with
  | Some i', Some i => (i' <? i)%Z
  | Some _, None => true
  | None, _ => false
  end.
Fixpoint place {V} (e : string * V) (l : jsmap V) : jsmap V :=
  match l with
  | [] => [e]
  | e' :: l' => if listed_after e.1 e'.1 then e' :: place e l' else e :: l
  end.
Definition index_first {V} (l : jsmap V) : jsmap V := foldr place [] l.

(** [n] bounds the nesting of calls; every two calls consume a character. *)
Fixpoint parse_value (n : nat) (s : string) : option (json * string) :=
  match n with
  | O => None
  | S n =>
      match skip_ws s with
      | EmptyString => None
      | String c s1 =>
          if Ascii.eqb c "{" then
            match drop_prefix "}" (skip_ws s1) with
            | Some r => Some (JObj [], r)
            | None => '(ms, r) ← parse_members n s1 []; Some (JObj (index_first ms), r)
            end
          else if Ascii.eqb c "[" then
            match drop_prefix "]" (skip_ws s1) with
            | Some r => Some (JArr [], r)
            | None => '(vs, r) ← parse_elems n s1; Some (JArr vs, r)
            end
          else if Ascii.eqb c (ascii_of_nat 34) then '(t, r) ← parse_chars s1; Some (JStr t, r)
          else if Ascii.eqb c "t" then r ← drop_prefix "rue" s1; Some (JBool true, r)
          else if Ascii.eqb c "f" then r ← drop_prefix "alse" s1; Some (JBool false, r)
          else if Ascii.eqb c "n" then r ← drop_prefix "ull" s1; Some (JNull, r)
          else '(x, r) ← parse_number (String c s1); Some (JNum x, r)
      end
  end
with parse_elems (n : nat) (s : string) : option (list json * string) :=
  match n with
  | O => None
  | S n =>
      '(v, r) ← parse_value n s;
      match drop_prefix "," (skip_ws r) with
      | Some r1 => '(vs, r2) ← parse_elems n r1; Some (v :: vs, r2)
      | None => r1 ← drop_prefix "]" (skip_ws r); Some ([v], r1)
      end
  end
with parse_members (n : nat) (s : string) (acc : jsmap json) : option (jsmap json * string) :=
  match n with
  | O => None
  | S n =>
      s1 ← drop_prefix dquote (skip_ws s);
      '(k, r) ← parse_chars s1;
      r1 ← drop_prefix ":" (skip_ws r);
      '(v, r2) ← parse_value n r1;
      let acc := jm_set k v acc in
      match drop_prefix "," (skip_ws r2) with
      | Some r3 => parse_members n r3 acc
      | None => r3 ← drop_prefix "}" (skip_ws r2); Some (acc, r3)
      end
  end.

(** [JSON.parse]; [None] when it throws. *)
Definition JSON_parse (s : string) : option json :=
  '(v, r) ← parse_value (2 * String.length s + 2) s;
  match skip_ws r with EmptyString => Some v | _ => None end.

(** ** Printing numbers *)

(** The decimal digits of [z >= 0], most significant first ([n] bounds their number). *)
Fixpoint dec_digits (n : nat) (z : Z) (acc : string) : string :=
  match n with
  | O => acc
  | S n => let acc := String (ascii_of_nat (48 + Z.to_nat (z mod 10))) acc in
           if (z / 10 =? 0)%Z then acc else dec_digits n (z / 10) acc
  end.
Definition Z_digits (z : Z) : string := dec_digits (S (Z.to_nat (Z.log2 z))) z EmptyString.

Fixpoint zeros (n : nat) : string := match n with O => EmptyString | S n => String "0" (zeros n) end.

(** [10^n <= num/den] for an integer [n] of either sign. *)
Definition pow10_le (n num den : Z) : bool :=
  if (0 <=? n)%Z then (10 ^ n * den <=? num)%Z else (den <=? num * 10 ^ (- n))%Z.

(** The [n] with [10^(n-1) <= num/den < 10^n]. *)
Definition dec_exponent (num den : Z) : Z :=
  let est := ((Z.log2 num - Z.log2 den) * 30103 / 100000 - 1)%Z in
  default (est + 4)%Z (snd <$> list_find (λ n, pow10_le n num den = false)
                                [est; est + 1; est + 2; est + 3]%Z).

(** [num/den * 10^k] rounded to the nearest integer, ties to even. *)
Definition scaled_round (num den k : Z) : Z :=
  let a := if (0 <=? k)%Z then (num * 10 ^ k)%Z else num in
  let b := if (0 <=? k)%Z then den else (den * 10 ^ (- k))%Z in
  let q := (a / b)%Z in
  let r := (2 * (a mod b))%Z in
  if (b <? r)%Z || ((r =? b)%Z && Z.odd q) then (q + 1)%Z else q.

(** The shortest decimal that reads back as [x]: digits [s], their number and
    the position [n] of the point, as in Number::toString. *)
Fixpoint shortest (fuel : nat) (k num den n : Z) (x : jsnum) : Z * Z * Z :=
  let s := scaled_round num den (k - n) in
  match fuel with
  | O => (s, k, n)
  | S fuel =>
      if bool_decide (dec_to_num s (n - k) = x)
      then if (10 ^ k <=? s)%Z then (1%Z, 1%Z, (n + 1)%Z) else (s, k, n)
      else shortest fuel (k + 1) num den n x
  end.

Definition format_dec (s k n : Z) : string :=
  let ds := Z_digits s in
  if (k <=? n)%Z && (n <=? 21)%Z then (ds ++ zeros (Z.to_nat (n - k)))
  else if (0 <? n)%Z && (n <=? 21)%Z
  then String.substring 0 (Z.to_nat n) ds ++ "." ++ String.substring (Z.to_nat n) (Z.to_nat (k - n)) ds
  else if (-6 <? n)%Z && (n <=? 0)%Z then "0." ++ zeros (Z.to_nat (- n)) ++ ds
  else
    let e := (n - 1)%Z in
    let es := (if (e <? 0)%Z then "e-" else "e+") ++ Z_digits (Z.abs e) in
    if (k =? 1)%Z then ds ++ es
    else String.substring 0 1 ds ++ "." ++ String.substring 1 (Z.to_nat (k - 1)) ds ++ es.

(** [Number::toString] *)
Definition num_to_string (x : jsnum) : string :=
  match x with
  | S754_nan => "NaN"
  | S754_zero _ => "0"
  | S754_infinity s => if s then "-Infinity" else "Infinity"
  | S754_finite sg m e =>
      let num := if (0 <=? e)%Z then (Zpos m * 2 ^ e)%Z else Zpos m in
      let den := if (0 <=? e)%Z then 1%Z else (2 ^ (- e))%Z in
      let n := dec_exponent num den in
      let '(s, k, n) := shortest 17 1 num den n (S754_finite false m e) in
      (if sg then "-" else "") ++ format_dec s k n
  end.

(** [num/den * 10^f] as the integer nearest to it, the larger of two. *)
Definition fixed_units (f : nat) (num den : Z) : Z :=
  ((2 * num * 10 ^ Z.of_nat f + den) / (2 * den))%Z.

(** [z] with at least [n] digits *)
Definition at_least (n : nat) (z : Z) : string :=
  let ds := Z_digits z in zeros (n - String.length ds) ++ ds.

(** [x.toFixed(f)] for [0 < f] *)
Definition toFixed (f : nat) (x : jsnum) : string :=
  match x with
  | S754_zero _ => "0." ++ zeros f
  | S754_finite sg m e =>
      let num := if (0 <=? e)%Z then (Zpos m * 2 ^ e)%Z else Zpos m in
      let den := if (0 <=? e)%Z then 1%Z else (2 ^ (- e))%Z in
      if (10 ^ 21 * den <=? num)%Z then num_to_string x
      else
        let n := fixed_units f num den in
        (if sg then "-" else "") ++ Z_digits (n / 10 ^ Z.of_nat f) ++ "." ++ at_least f (n mod 10 ^ Z.of_nat f)
  | x => num_to_string x
  end.

(** *** Characters of a text *)

Fixpoint chars (p : ascii → bool) (s : string) : bool :=
  match s with "" => true | String c s => p c && chars p s end.

Lemma chars_app p s t : chars p (s ++ t) = chars p s && chars p t.
Proof.
  induction s as [|c s IH]; [done|]. change (String c s ++ t) with (String c (s ++ t)).
  cbn [chars]. by rewrite IH, andb_assoc.
Qed.

Lemma chars_impl p q s : (∀ c, p c = true → q c = true) → chars p s = true → chars q s = true.
Proof.
  intros Hpq. induction s as [|c s IH]; [done|]. cbn. intros [Hc Hs]%andb_prop. by rewrite Hpq, IH.
Qed.

Lemma chars_substring p a b s : chars p s = true → chars p (String.substring a b s) = true.
Proof.
  revert a b. induction s as [|c s IH]; intros [|a] [|b]; simpl; try done; intros [Hc Hs]%andb_prop; auto.
  rewrite Hc. simpl. auto.
Qed.

Lemma digit_chars p z : chars p "0123456789" = true → p (ascii_of_nat (48 + Z.to_nat (z mod 10))) = true.
Proof.
  intros Hp. cbn in Hp. rewrite !andb_true_iff in Hp.
  assert (Z.to_nat (z mod 10) < 10)%nat as H by (pose proof (Z.mod_pos_bound z 10); lia).
  destruct (Z.to_nat (z mod 10)) as [|[|[|[|[|[|[|[|[|[|n]]]]]]]]]]; cbn; try tauto; lia.
Qed.

Lemma chars_num p x : chars p "0123456789.e+-NaInfity" = true → chars p (num_to_string x) = true.
Proof.
  change "0123456789.e+-NaInfity" with ("0123456789" ++ ".e+-NaInfity").
  rewrite chars_app. intros [Hd Hp]%andb_true_iff. pose proof (λ z, digit_chars p z Hd) as Hdigit.
  assert (∀ n z acc, chars p acc = true → chars p (dec_digits n z acc) = true) as Hdec.
  { intros n. induction n as [|n IH]; intros z acc Hacc; [done|]. cbn [dec_digits].
    assert (chars p (String (ascii_of_nat (48 + Z.to_nat (z mod 10))) acc) = true) by (cbn [chars]; by rewrite Hdigit).
    destruct (_ =? _)%Z; auto. }
  assert (∀ z, chars p (Z_digits z) = true) as HZ by (intros; by apply Hdec). clear Hdec Hdigit.
  cbn in Hp, Hd. rewrite !andb_true_iff in Hp, Hd. destruct_and! Hd. destruct_and! Hp.
  assert (∀ n, chars p (zeros n) = true) as Hz.
  { intros n. induction n as [|n IH]; [done|]. cbn [zeros chars]. rewrite IH. by rewrite andb_true_r. }
  assert (∀ a b z, chars p (String.substring a b (Z_digits z)) = true) as Hs by (intros; by apply chars_substring).
  destruct x as [| []| |sg m e]; cbn [num_to_string];
    [| | | |destruct (shortest _ _ _ _ _ _) as [[s k] n]; unfold format_dec; destruct sg; repeat case_match];
    rewrite ?chars_app, ?HZ, ?Hz, ?Hs; cbn [chars];
    repeat match goal with H : p ?c = true |- context [p ?c] => rewrite H end; done.
Qed.

(** [JSON.stringify] of a value: no spaces; non-finite numbers print as null. *)
Fixpoint JSON_stringify (j : json) : string :=
  match j with
  | JNull => "null"
  | JBool b => if b then "true" else "false"
  | JNum x => if num_finite x then num_to_string x else "null"
  | JStr s => json_quote s
  | JArr l => "[" ++ String.concat "," (map JSON_stringify l) ++ "]"
  | JObj l => "{" ++ String.concat "," (map (λ e, json_quote e.1 ++ ":" ++ JSON_stringify e.2) l) ++ "}"
  end.

(** ** Values as text *)

(** [String(v)], which is also what a template literal does with [v].  (An object
    that has a member named toString has no such text, see [converts].) *)
Fixpoint js_String (j : json) : string :=
  match j with
  | JNull => "null"
  | JBool b => if b then "true" else "false"
  | JNum x => num_to_string x
  | JStr s => s
  | JArr l => String.concat "," (map (λ v, match v with JNull => "" | v => js_String v end) l)
  | JObj _ => "[object Object]"
  end.

(** Whether [String(v)] returns: an object that JSON.parse gave a member named
    toString converts to no primitive value. *)
Fixpoint converts (j : json) : bool :=
  match j with
  | JArr l => forallb converts l
  | JObj l => negb (existsb (λ e : string * json, String.eqb e.1 "toString") l)
  | _ => true
  end.
Definition oconverts (j : option json) : bool := match j with Some j => converts j | None => true end.
Definition CONVERT_ERROR : string := "Cannot convert object to primitive value".

Definition ojs_String (j : option json) : string := match j with Some j => js_String j | None => "undefined" end.

(** ** Reading back what was printed *)

(** Values that survive the round trip: every number reads back from its own
    text, and the keys of an object are distinct and listed the way every object
    lists them. *)
Definition num_reads_back (x : jsnum) : bool :=
  num_finite x && bool_decide (parse_number (num_to_string x) = Some (x, "")).

Fixpoint keys_ordered (ks : list string) : bool :=
  match ks with
  | k :: ((k' :: _) as ks') => negb (listed_after k k') && keys_ordered ks'
  | _ => true
  end.
Definition keys_ok (ks : list string) : bool := bool_decide (NoDup ks) && keys_ordered ks.

Lemma index_first_ordered {V} (l : jsmap V) : keys_ordered l.*1 = true → index_first l = l.
Proof.
  induction l as [|[k v] [|[k' v'] l] IH]; [done..|]. intros [Hk%negb_true_iff Hl]%andb_prop.
  change (listed_after k k' = false) in Hk. specialize (IH Hl). unfold index_first in *.
  cbn [foldr] in *. rewrite IH. cbn [place fst]. by rewrite Hk.
Qed.

Fixpoint json_ok (j : json) : bool :=
  match j with
  | JNum x => num_reads_back x
  | JArr l => forallb json_ok l
  | JObj l => keys_ok l.*1 && forallb (λ e, json_ok e.2) l
  | _ => true
  end.

(** An object all of whose names are no array indices. *)
Definition named (l : jsmap json) : bool := forallb (λ e : string * json, bool_decide (array_index e.1 = None)) l.

Lemma json_ok_members k v l : named l = true →
  json_ok v = true → bool_decide (k ∉ l.*1) = true → json_ok (JObj l) = true → json_ok (JObj ((k, v) :: l)) = true.
Proof.
  intros Hn Hv Hk Hl. cbn [json_ok] in *. unfold keys_ok in *.
  apply andb_true_iff in Hl as [[Hnd Hord]%andb_true_iff Hall].
  apply bool_decide_eq_true in Hnd, Hk. rewrite !andb_true_iff. repeat split.
  - apply bool_decide_eq_true. cbn. by apply list.NoDup_cons.
  - destruct l as [|[k' v'] l]; [done|]. cbn [fmap list_fmap fst] in *. cbn [keys_ordered] in *.
    cbn [named forallb fst] in Hn. apply andb_prop in Hn as [Hk'%bool_decide_eq_true _].
    rewrite Hord. unfold listed_after. by rewrite Hk'.
  - cbn. by rewrite Hv.
Qed.

Lemma json_ind' (P : json → Prop) :
  P JNull → (∀ b, P (JBool b)) → (∀ x, P (JNum x)) → (∀ s, P (JStr s)) →
  (∀ l, Forall P l → P (JArr l)) → (∀ l, Forall (λ e, P e.2) l → P (JObj l)) → ∀ j, P j.
Proof.
  intros H1 H2 H3 H4 H5 H6. fix IH 1. intros [|b|x|s|l|l].
  - exact H1.
  - exact (H2 b).
  - exact (H3 x).
  - exact (H4 s).
  - apply H5. induction l as [|v l IHl]; constructor; [apply IH | exact IHl].
  - apply H6. induction l as [|[k v] l IHl]; constructor; [apply IH | exact IHl].
Qed.

Lemma drop_prefix_app p r : drop_prefix p (p ++ r) = Some r.
Proof.
  induction p as [|c p IH]; [by destruct r|]. change (String c p ++ r) with (String c (p ++ r)).
  cbn [drop_prefix]. by rewrite Ascii.eqb_refl.
Qed.
Lemma forallb_strs l : forallb json_ok (map JStr l) = true.
Proof. by induction l. Qed.

Lemma string_app_nil_r (s : string) : s ++ "" = s.
Proof. induction s as [|c s IH]; [done|]. exact (f_equal (String c) IH). Qed.
Lemma string_app_assoc (a b c : string) : (a ++ b) ++ c = a ++ b ++ c.
Proof. induction a as [|x a IH]; [done|]. exact (f_equal (String x) IH). Qed.

Lemma string_length_app (a b : string) : String.length (a ++ b) = (String.length a + String.length b)%nat.
Proof. induction a as [|x a IH]; [done|]. exact (f_equal S IH). Qed.

(** *** Strings *)

Lemma parse_chars_escape c t :
  parse_chars (json_escape c ++ t) = ('(u, r) ← parse_chars t; Some (String c u, r)).
Proof. destruct c as [[] [] [] [] [] [] [] []]; reflexivity. Qed.

Lemma parse_chars_all s r : parse_chars (json_escape_all s ++ dquote ++ r) = Some (s, r).
Proof.
  induction s as [|c s IH]; [done|]. cbn [json_escape_all].
  by rewrite string_app_assoc, parse_chars_escape, IH.
Qed.

(** *** Numbers *)

(** [parseFloat] agrees with [JSON.parse] on the numbers of JSON. *)
Lemma float_exp_number m nf s x : parse_exp m nf s = Some (x, "") → float_exp m nf s = x.
Proof.
  unfold parse_exp, float_exp, parse_exp_digits. destruct s as [|c s1]; [by intros [= <-]|].
  destruct (Ascii.eqb c "e" || Ascii.eqb c "E"); [|done].
  destruct s1 as [|d s2]; [done|].
  destruct (Ascii.eqb d "+"); [|destruct (Ascii.eqb d "-")];
    destruct (read_digits _ 0 0) as [[e ne] r]; destruct (ne =? 0)%nat; by try intros [= -> _].
Qed.

Lemma parse_unsigned_head s x r : parse_unsigned s = Some (x, r) → ∃ c s', s = String c s' ∧ is_digit c = true.
Proof.
  unfold parse_unsigned. destruct s as [|c s']; [done|]. intros Hp. exists c, s'. split; [done|].
  destruct (is_digit c) eqn:Hd; [done|]. cbn in Hp. by rewrite Hd in Hp.
Qed.

Lemma float_unsigned_number s x : parse_unsigned s = Some (x, "") → float_unsigned s = x.
Proof.
  intros Hp. destruct (parse_unsigned_head s x "" Hp) as (c & s' & -> & Hd). unfold float_unsigned, parse_unsigned in *.
  replace (startsWith (String c s') "Infinity") with false.
  2: { unfold startsWith. cbn [String.prefix]. destruct (ascii_dec "I" c) as [<-|]; [discriminate Hd | done]. }
  destruct (read_digits (String c s') 0 0) as [[ip ni] s1]. destruct (ni =? 0)%nat eqn:Hni; [done|].
  cbn [orb] in Hp. destruct (_ && _); [done|]. unfold parse_frac in Hp.
  assert (∀ k, (ni + k =? 0)%nat = false) as Hk by (intros k; apply Nat.eqb_neq; apply Nat.eqb_neq in Hni; lia).
  destruct s1 as [|d s2]; [cbn [mbind option_bind] in Hp; rewrite Hk; by apply float_exp_number|].
  destruct (Ascii.eqb d ".").
  - destruct (read_digits s2 ip 0) as [[m nf] s3]. destruct (nf =? 0)%nat; [done|]. cbn [mbind option_bind] in Hp.
    rewrite Hk. by apply float_exp_number.
  - cbn [mbind option_bind] in Hp. rewrite Hk. by apply float_exp_number.
Qed.

Lemma parseFloat_number s x : parse_number s = Some (x, "") → parseFloat s = x.
Proof.
  unfold parse_number. destruct s as [|c s]; [done|]. destruct (Ascii.eqb_spec c "-") as [->|Hc].
  - destruct (parse_unsigned s) as [[y r]|] eqn:Hp; [|done]. cbn. intros [= <- ->].
    unfold parseFloat. change (trim_start (String "-" s)) with (String "-" s). cbv iota.
    change (Ascii.eqb "-" "-") with true. cbv iota. by rewrite (float_unsigned_number s y Hp).
  - intros Hp. destruct (parse_unsigned_head _ x "" Hp) as (c' & s' & [= <- <-] & Hd).
    assert (is_space c = false) as Hs.
    { destruct c as [[] [] [] [] [] [] [] []]; first [done | discriminate Hd]. }
    unfold parseFloat. cbn [trim_start]. rewrite Hs.
    replace (Ascii.eqb c "-") with false by (symmetry; by apply Ascii.eqb_neq).
    replace (Ascii.eqb c "+") with false; [by apply float_unsigned_number|].
    symmetry. apply Ascii.eqb_neq. intros ->. discriminate Hd.
Qed.

Lemma parseFloat_back x : num_reads_back x = true → parseFloat (num_to_string x) = x.
Proof. intros [_ Hx%bool_decide_eq_true]%andb_true_iff. by apply parseFloat_number. Qed.

(** What may follow a number without being read as part of it. *)
Definition num_ends (r : string) : bool :=
  match r with
  | EmptyString => true
  | String c _ => negb (is_digit c || Ascii.eqb c "." || Ascii.eqb c "e" || Ascii.eqb c "E"
                        || Ascii.eqb c "+" || Ascii.eqb c "-")
  end.

Lemma num_ends_digit c r : num_ends (String c r) = true → is_digit c = false.
Proof. simpl. by destruct (is_digit c). Qed.

Lemma read_digits_app s r acc n :
  num_ends r = true →
  read_digits (s ++ r) acc n = let '(a, m, rest) := read_digits s acc n in (a, m, rest ++ r).
Proof.
  intros Hr. revert acc n. induction s as [|c s IH]; intros acc n.
  - change ("" ++ r) with r. cbn [read_digits]. change ("" ++ r) with r. destruct r as [|c r]; [done|]. cbn [read_digits]. by rewrite (num_ends_digit _ _ Hr).
  - change (String c s ++ r) with (String c (s ++ r)). cbn [read_digits].
    destruct (is_digit c); [apply IH | done].
Qed.

Lemma num_ends_not c r : num_ends (String c r) = true →
  Ascii.eqb c "." = false ∧ Ascii.eqb c "e" = false ∧ Ascii.eqb c "E" = false ∧
  Ascii.eqb c "+" = false ∧ Ascii.eqb c "-" = false.
Proof.
  simpl. by destruct (is_digit c), (Ascii.eqb c "."), (Ascii.eqb c "e"), (Ascii.eqb c "E"),
    (Ascii.eqb c "+"), (Ascii.eqb c "-").
Qed.

(** The number parsers read the same text when [r], where a number ends, follows it. *)
Lemma parse_frac_app ip s r m nf t :
  num_ends r = true → parse_frac ip s = Some (m, nf, t) →
  parse_frac ip (s ++ r) = Some (m, nf, t ++ r).
Proof.
  intros Hr. destruct s as [|c s].
  - change ("" ++ r) with r. intros [= -> <- <-].
    destruct r as [|c r]; [done|]. cbn [parse_frac]. by rewrite (proj1 (num_ends_not _ _ Hr)).
  - change (String c s ++ r) with (String c (s ++ r)). cbn [parse_frac].
    rewrite read_digits_app by done.
    destruct (Ascii.eqb c "."), (read_digits s ip 0) as [[a n] u]; [|intros; by simplify_eq].
    destruct (n =? 0)%nat; intros; by simplify_eq.
Qed.

Lemma parse_exp_digits_app m nf sg s r x t :
  num_ends r = true → parse_exp_digits m nf sg s = Some (x, t) →
  parse_exp_digits m nf sg (s ++ r) = Some (x, t ++ r).
Proof.
  intros Hr. unfold parse_exp_digits. rewrite read_digits_app by done.
  destruct (read_digits s 0 0) as [[a n] u]. destruct (n =? 0)%nat; intros; by simplify_eq.
Qed.

Lemma parse_exp_app m nf s r x t :
  num_ends r = true → parse_exp m nf s = Some (x, t) → parse_exp m nf (s ++ r) = Some (x, t ++ r).
Proof.
  intros Hr. destruct s as [|c s].
  - change ("" ++ r) with r. intros [= <- <-]. destruct r as [|c r]; [done|].
    destruct (num_ends_not _ _ Hr) as (_ & He & HE & _). cbn [parse_exp]. by rewrite He, HE.
  - change (String c s ++ r) with (String c (s ++ r)). cbn [parse_exp].
    destruct (_ || _); [|intros; by simplify_eq]. destruct s as [|d s]; [done|].
    change (String d s ++ r) with (String d (s ++ r)). cbn match.
    change (String d (s ++ r)) with (String d s ++ r).
    destruct (Ascii.eqb d "+"), (Ascii.eqb d "-"); by apply parse_exp_digits_app.
Qed.

Lemma parse_unsigned_app s r x t :
  num_ends r = true → parse_unsigned s = Some (x, t) → parse_unsigned (s ++ r) = Some (x, t ++ r).
Proof.
  intros Hr. unfold parse_unsigned. rewrite read_digits_app by done.
  destruct s as [|c s]; [done|]. cbn match.
  destruct (read_digits (String c s) 0 0) as [[ip ni] s1].
  change (String c s ++ r) with (String c (s ++ r)). cbn match.
  destruct (_ || _); [done|]. intros ([[m nf] s2] & Hf & He)%bind_Some.
  rewrite (parse_frac_app _ _ _ _ _ _ Hr Hf). simpl. by apply parse_exp_app.
Qed.

Lemma parse_number_app s r x t :
  num_ends r = true → parse_number s = Some (x, t) → parse_number (s ++ r) = Some (x, t ++ r).
Proof.
  intros Hr. destruct s as [|c s]; [done|]. unfold parse_number.
  change (String c s ++ r) with (String c (s ++ r)). cbn match. destruct (Ascii.eqb c "-").
  - intros ([y u] & Hu & [= <- <-])%bind_Some. by rewrite (parse_unsigned_app _ _ _ _ Hr Hu).
  - exact (parse_unsigned_app (String c s) r x t Hr).
Qed.

(** A number starts with a minus sign or a digit. *)
Lemma parse_number_head s x t : parse_number s = Some (x, t) →
  ∃ c s', s = String c s' ∧ (c = "-"%char ∨ is_digit c = true).
Proof.
  destruct s as [|c s]; [done|]. unfold parse_number. destruct (Ascii.eqb_spec c "-") as [->|_].
  - eauto.
  - unfold parse_unsigned. cbn [read_digits]. destruct (is_digit c) eqn:Hc; [eauto|done].
Qed.

(** *** Values *)

(** What a printed value starts with. *)
Lemma stringify_head j : json_ok j = true →
  ∃ c s, JSON_stringify j = String c s ∧ is_json_space c = false ∧ Ascii.eqb "]" c = false.
Proof.
  destruct j as [|[]|x|s|l|l]; try (intros _; do 2 eexists; split; [reflexivity | by vm_compute]).
  intros [Hf Hp%bool_decide_eq_true]%andb_prop. cbn [JSON_stringify]. rewrite Hf.
  destruct (parse_number_head _ _ _ Hp) as (c & s & -> & Hc).
  exists c, s. split; [done|].
  destruct Hc as [->|Hc]; [done|]. by destruct c as [[] [] [] [] [] [] [] []].
Qed.

(** The first character of a number is none of those that start another value. *)
Lemma number_head_branch c : c = "-"%char ∨ is_digit c = true →
  is_json_space c = false ∧ Ascii.eqb c "{" = false ∧ Ascii.eqb c "[" = false ∧
  Ascii.eqb c (ascii_of_nat 34) = false ∧ Ascii.eqb c "t" = false ∧ Ascii.eqb c "f" = false ∧
  Ascii.eqb c "n" = false.
Proof. intros [->|Hc]; [done|]. by destruct c as [[] [] [] [] [] [] [] []]. Qed.

Definition reads_back (j : json) : Prop := ∀ n r,
  json_ok j = true → (2 * String.length (JSON_stringify j) ≤ n)%nat → num_ends r = true →
  parse_value n (JSON_stringify j ++ r) = Some (j, r).

Lemma parse_number_value n x r :
  num_reads_back x = true → num_ends r = true →
  parse_value (S n) (JSON_stringify (JNum x) ++ r) = Some (JNum x, r).
Proof.
  intros [Hf Hp%bool_decide_eq_true]%andb_prop Hr. cbn [JSON_stringify]. rewrite Hf.
  destruct (parse_number_head _ _ _ Hp) as (c & s & Hs & Hc).
  apply (parse_number_app _ r) in Hp; [|done]. rewrite Hs in *.
  change (String c s ++ r) with (String c (s ++ r)) in *.
  destruct (number_head_branch c Hc) as (H0 & H1 & H2 & H3 & H4 & H5 & H6).
  cbn [parse_value skip_ws]. rewrite H0, H1, H2, H3, H4, H5, H6, Hp. done.
Qed.

Lemma parse_elems_back l n r :
  l ≠ [] → Forall reads_back l → forallb json_ok l = true →
  (2 * String.length (String.concat "," (map JSON_stringify l)) + 2 ≤ n)%nat →
  parse_elems n (String.concat "," (map JSON_stringify l) ++ "]" ++ r) = Some (l, r).
Proof.
  intros Hne HF. revert n. induction HF as [|v l Hv HF IH]; intros n Hok Hn; [done|].
  apply andb_prop in Hok as [Hok1 Hok2]. destruct n as [|n]; [lia|].
  destruct l as [|v' l].
  - cbn [map String.concat] in *. cbn [parse_elems]. rewrite Hv by (done || lia). done.
  - cbn [map] in *. set (rest := JSON_stringify v' :: map JSON_stringify l) in *.
    change (String.concat "," (JSON_stringify v :: rest))
      with (JSON_stringify v ++ "," ++ String.concat "," rest) in *.
    rewrite !string_length_app in Hn. change (String.length ",") with 1%nat in Hn.
    rewrite !string_app_assoc. cbn [parse_elems]. rewrite Hv by (done || lia). simpl.
    rewrite IH by (done || lia). done.
Qed.

(** The printed member [e] of an object. *)
Abbreviation member_text := (λ e, json_quote e.1 ++ ":" ++ JSON_stringify e.2).

Lemma parse_member_back n k v acc t :
  reads_back v → json_ok v = true → (2 * String.length (JSON_stringify v) ≤ n)%nat →
  num_ends t = true →
  parse_members (S n) ((json_quote k ++ ":" ++ JSON_stringify v) ++ t) acc =
    match drop_prefix "," (skip_ws t) with
    | Some r => parse_members n r (jm_set k v acc)
    | None => r ← drop_prefix "}" (skip_ws t); Some (jm_set k v acc, r)
    end.
Proof.
  intros Hv Hok Hn Ht. unfold json_quote. rewrite !string_app_assoc. cbn [parse_members].
  change (skip_ws (dquote ++ ?u)) with (dquote ++ u).
  change (drop_prefix dquote (dquote ++ ?u)) with (Some u). cbn [mbind option_bind].
  rewrite parse_chars_all. cbn [mbind option_bind].
  change (drop_prefix ":" (skip_ws (":" ++ ?u))) with (Some u). cbn [mbind option_bind].
  by rewrite Hv.
Qed.

Lemma parse_members_back l n acc r :
  l ≠ [] → Forall (λ e, reads_back e.2) l → forallb (λ e, json_ok e.2) l = true →
  NoDup (acc.*1 ++ l.*1)%list →
  (2 * String.length (String.concat "," (map member_text l)) + 2 ≤ n)%nat →
  parse_members n (String.concat "," (map member_text l) ++ "}" ++ r) acc = Some ((acc ++ l)%list, r).
Proof.
  intros Hne HF. revert n acc. induction HF as [|[k v] l Hv HF IH]; intros n acc Hok Hnd Hn; [done|].
  apply andb_prop in Hok as [Hok1 Hok2]. destruct n as [|n]; [lia|].
  assert (Hset : jm_set k v acc = (acc ++ [(k, v)])%list).
  { apply jm_set_new. intros Hin. apply list.NoDup_app in Hnd as (_ & Hd & _).
    apply (Hd k); [done|]. csimpl. left. }
  destruct l as [|e l].
  - cbn [map String.concat fst snd] in *. rewrite !string_length_app in Hn.
    rewrite parse_member_back by (done || lia). by rewrite Hset.
  - cbn [map] in *. set (rest := member_text e :: map member_text l) in *.
    change (String.concat "," (?a :: rest)) with (a ++ "," ++ String.concat "," rest) in *.
    rewrite !string_length_app in Hn. change (String.length ",") with 1%nat in Hn.
    rewrite string_app_assoc. cbn [fst snd] in *. rewrite parse_member_back by (done || lia).
    rewrite string_app_assoc. change (drop_prefix "," (skip_ws ("," ++ ?u))) with (Some u).
    cbn match. rewrite Hset, IH; [by rewrite <- app_assoc|done|done| |lia].
    rewrite fmap_app, <- app_assoc. exact Hnd.
Qed.

Lemma parse_value_arr n u :
  parse_value (S n) ("[" ++ u) =
    match drop_prefix "]" (skip_ws u) with
    | Some r => Some (JArr [], r)
    | None => '(vs, r) ← parse_elems n u; Some (JArr vs, r)
    end.
Proof. done. Qed.

Lemma parse_value_obj n u :
  parse_value (S n) ("{" ++ u) =
    match drop_prefix "}" (skip_ws u) with
    | Some r => Some (JObj [], r)
    | None => '(ms, r) ← parse_members n u []; Some (JObj (index_first ms), r)
    end.
Proof. done. Qed.

(** A printed non-empty array or object does not look like an empty one. *)
Lemma elems_not_closed v l t : json_ok v = true →
  drop_prefix "]" (skip_ws (String.concat "," (map JSON_stringify (v :: l)) ++ t)) = None.
Proof.
  intros Hv. destruct (stringify_head v Hv) as (c & s & E & Hc & Hb).
  assert (∃ u, String.concat "," (map JSON_stringify (v :: l)) ++ t = String c u) as [u ->].
  { destruct l; simpl; rewrite E; eexists; reflexivity. }
  cbn [skip_ws]. rewrite Hc. cbn [drop_prefix]. by rewrite Hb.
Qed.

Lemma members_not_closed e l t :
  drop_prefix "}" (skip_ws (String.concat "," (map member_text (e :: l)) ++ t)) = None.
Proof. by destruct l. Qed.

Lemma all_read_back j : reads_back j.
Proof.
  induction j as [|[]|x|s|l IH|l IH] using json_ind'; intros [|n] r Hok Hn Hr;
    try (destruct (stringify_head _ Hok) as (? & ? & E & _); rewrite E in Hn; simpl in Hn; lia);
    try reflexivity.
  - by apply parse_number_value.
  - cbn [JSON_stringify]. unfold json_quote. rewrite !string_app_assoc.
    change (parse_value (S n) (dquote ++ ?u)) with ('(t, r) ← parse_chars u; Some (JStr t, r)).
    by rewrite parse_chars_all.
  - destruct l as [|v l]; [done|]. cbn [JSON_stringify] in *.
    rewrite !string_length_app in Hn. rewrite !string_app_assoc, parse_value_arr.
    change (String.length "[") with 1%nat in Hn. change (String.length "]") with 1%nat in Hn.
    rewrite elems_not_closed by (by apply andb_prop in Hok as []).
    by rewrite parse_elems_back by (done || lia).
  - destruct l as [|e l]; [done|]. apply andb_prop in Hok as [[Hnd%bool_decide_eq_true Hord]%andb_prop Hok].
    cbn [JSON_stringify] in *.
    rewrite !string_length_app in Hn. rewrite !string_app_assoc, parse_value_obj.
    change (String.length "{") with 1%nat in Hn. change (String.length "}") with 1%nat in Hn.
    rewrite members_not_closed, parse_members_back by (done || lia). cbn [mbind option_bind app].
    by rewrite index_first_ordered.
Qed.

(** [JSON.parse] reads back every value [JSON.stringify] prints, for values
    whose numbers read back from their own text and whose objects have distinct
    keys in the order of every object; in particular the fuel of the parser is enough. *)
Lemma parse_stringify j : json_ok j = true → JSON_parse (JSON_stringify j) = Some j.
Proof.
  intros Hok. unfold JSON_parse. pose proof (all_read_back j) as H. unfold reads_back in H.
  specialize (H (2 * String.length (JSON_stringify j) + 2)%nat "" Hok ltac:(lia) eq_refl).
  assert (E : JSON_stringify j ++ "" = JSON_stringify j).
  { generalize (JSON_stringify j). intros s. induction s as [|c s IH]; [done|].
    exact (f_equal (String c) IH). }
  rewrite E in H. by rewrite H.
Qed.

(** Array indices come first, in ascending order; a name with a leading zero and
    [2^32 - 1] are none. *)
Example indices_first :
  JSON_parse (JSON_stringify (JObj [("b", JNull); ("10", JNull); ("01", JNull); ("2", JNull); ("4294967295", JNull)]))
  = Some (JObj [("2", JNull); ("10", JNull); ("b", JNull); ("01", JNull); ("4294967295", JNull)]).
Proof. reflexivity. Qed.
