(* ===== verification/JsonPretty.v ===== *)
(** * Indented JSON

    [JSON.stringify(value, null, 2)], with which the CLI writes its files and
    its output: members and elements on lines of their own, two spaces per
    level.  [JSON.parse] reads it back like the compact form. *)

From stdpp Require Import base list strings option.
From Stdlib Require Import ZArith Lia Ascii.
From S2P Require Import Prelude Js Json.
Local Open Scope string_scope.

Fixpoint spaces (n : nat) : string := match n with O => EmptyString | S n => String " " (spaces n) end.
Definition newline : string := String (ascii_of_nat 10) EmptyString.
Definition indent (d : nat) : string := newline ++ spaces (2 * d).

Fixpoint pretty (d : nat) (j : json) : string :=
  match j with
  | JArr [] => "[]"
  | JArr l => "[" ++ indent (S d) ++ String.concat ("," ++ indent (S d)) (map (pretty (S d)) l) ++ indent d ++ "]"
  | JObj [] => "{}"
  | JObj l => "{" ++ indent (S d) ++
                String.concat ("," ++ indent (S d)) (map (λ e, json_quote e.1 ++ ": " ++ pretty (S d) e.2) l) ++
                indent d ++ "}"
  | _ => JSON_stringify j
  end.

Definition JSON_stringify_2 (j : json) : string := pretty 0 j.

(** ** White space *)

Fixpoint blank (s : string) : bool :=
  match s with EmptyString => true | String c s => is_json_space c && blank s end.

Lemma skip_blank b t : blank b = true → skip_ws (b ++ t) = skip_ws t.
Proof.
  induction b as [|c b IH]; [done|]. intros [Hc Hb]%andb_prop.
  change (String c b ++ t) with (String c (b ++ t)). cbn [skip_ws]. rewrite Hc. auto.
Qed.

Lemma blank_indent d : blank (indent d) = true.
Proof. unfold indent. simpl. generalize (d + (d + 0))%nat. intros n. induction n; simpl; auto. Qed.

Lemma parse_value_blank n b t : blank b = true → parse_value n (b ++ t) = parse_value n t.
Proof. intros Hb. destruct n; [done|]. cbn [parse_value]. by rewrite skip_blank. Qed.

Lemma parse_members_blank n b t acc : blank b = true → parse_members n (b ++ t) acc = parse_members n t acc.
Proof. intros Hb. destruct n; [done|]. cbn [parse_members]. by rewrite skip_blank. Qed.

Lemma parse_elems_blank n b t : blank b = true → parse_elems n (b ++ t) = parse_elems n t.
Proof. intros Hb. destruct n; [done|]. cbn [parse_elems]. by rewrite parse_value_blank. Qed.

Lemma num_ends_indent d t : num_ends (indent d ++ t) = true.
Proof. done. Qed.

(** ** Reading back *)

Lemma pretty_head d j : json_ok j = true →
  ∃ c s, pretty d j = String c s ∧ is_json_space c = false ∧ Ascii.eqb "]" c = false.
Proof.
  intros Hok. destruct j as [| | | |[|v l]|[|e l]]; try exact (stringify_head _ Hok);
    (do 2 eexists; split; [reflexivity | done]).
Qed.

Definition pretty_back (j : json) : Prop := ∀ d n r,
  json_ok j = true → (2 * String.length (pretty d j) ≤ n)%nat → num_ends r = true →
  parse_value n (pretty d j ++ r) = Some (j, r).

Lemma concat_cons sep (a b : string) l :
  String.concat sep (a :: b :: l) = a ++ sep ++ String.concat sep (b :: l).
Proof. done. Qed.

Lemma pretty_elems d l n r :
  l ≠ [] → Forall pretty_back l → forallb json_ok l = true →
  (2 * String.length (String.concat ("," ++ indent (S d)) (map (pretty (S d)) l)) + 2 ≤ n)%nat →
  parse_elems n (String.concat ("," ++ indent (S d)) (map (pretty (S d)) l) ++ indent d ++ "]" ++ r) = Some (l, r).
Proof.
  intros Hne HF. revert n. induction HF as [|v l Hv HF IH]; intros n Hok Hn; [done|].
  apply andb_prop in Hok as [Hok1 Hok2]. destruct n as [|n]; [lia|].
  destruct l as [|v' l]; cbn [map] in *.
  - cbn [String.concat parse_elems] in *. rewrite Hv by (done || lia). cbn [mbind option_bind].
    by rewrite skip_blank by apply blank_indent.
  - rewrite concat_cons in *. rewrite !string_length_app in Hn.
    change (String.length ",") with 1%nat in Hn.
    rewrite !string_app_assoc. cbn [parse_elems]. rewrite Hv by (done || lia). cbn [mbind option_bind].
    change (drop_prefix "," (skip_ws ("," ++ ?u))) with (Some u). cbn match.
    rewrite parse_elems_blank by apply blank_indent.
    rewrite IH by (done || lia). done.
Qed.

Abbreviation pretty_member d := (λ e : string * json, json_quote e.1 ++ ": " ++ pretty d e.2).

Lemma pretty_member_back d n k v acc t :
  pretty_back v → json_ok v = true → (2 * String.length (pretty d v) ≤ n)%nat → num_ends t = true →
  parse_members (S n) ((json_quote k ++ ": " ++ pretty d v) ++ t) acc =
    match drop_prefix "," (skip_ws t) with
    | Some r => parse_members n r (jm_set k v acc)
    | None => r ← drop_prefix "}" (skip_ws t); Some (jm_set k v acc, r)
    end.
Proof.
  intros Hv Hok Hn Ht. unfold json_quote. rewrite !string_app_assoc. cbn [parse_members].
  change (skip_ws (dquote ++ ?u)) with (dquote ++ u).
  change (drop_prefix dquote (dquote ++ ?u)) with (Some u). cbn [mbind option_bind].
  rewrite parse_chars_all. cbn [mbind option_bind].
  change (drop_prefix ":" (skip_ws (": " ++ ?u))) with (Some (" " ++ u)). cbn [mbind option_bind].
  rewrite parse_value_blank by done. by rewrite Hv.
Qed.

Lemma pretty_members d l n acc r :
  l ≠ [] → Forall (λ e, pretty_back e.2) l → forallb (λ e, json_ok e.2) l = true →
  NoDup (acc.*1 ++ l.*1)%list →
  (2 * String.length (String.concat ("," ++ indent (S d)) (map (pretty_member (S d)) l)) + 2 ≤ n)%nat →
  parse_members n (String.concat ("," ++ indent (S d)) (map (pretty_member (S d)) l) ++ indent d ++ "}" ++ r) acc =
    Some ((acc ++ l)%list, r).
Proof.
  intros Hne HF. revert n acc. induction HF as [|[k v] l Hv HF IH]; intros n acc Hok Hnd Hn; [done|].
  apply andb_prop in Hok as [Hok1 Hok2]. destruct n as [|n]; [lia|].
  assert (Hset : jm_set k v acc = (acc ++ [(k, v)])%list).
  { apply jm_set_new. intros Hin. apply list.NoDup_app in Hnd as (_ & Hd & _).
    apply (Hd k); [done|]. csimpl. left. }
  destruct l as [|e l]; cbn [map] in *.
  - cbn [String.concat fst snd] in *. rewrite !string_length_app in Hn.
    rewrite pretty_member_back by (done || lia). rewrite skip_blank by apply blank_indent. by rewrite Hset.
  - rewrite concat_cons in *. cbn [fst snd] in *. rewrite !string_length_app in Hn.
    change (String.length ",") with 1%nat in Hn.
    rewrite string_app_assoc. rewrite pretty_member_back by (done || lia).
    rewrite !string_app_assoc. change (drop_prefix "," (skip_ws ("," ++ ?u))) with (Some u).
    cbn match. rewrite parse_members_blank by apply blank_indent.
    rewrite Hset, IH; [by rewrite <- app_assoc|done|done| |].
    + rewrite fmap_app, <- app_assoc. exact Hnd.
    + cbn [map fst snd]. lia.
Qed.

Lemma all_pretty_back j : pretty_back j.
Proof.
  induction j as [|[]|x|s|l IH|l IH] using json_ind'; intros d n r Hok Hn Hr;
    try (by apply all_read_back).
  - destruct l as [|v l]; [by apply (all_read_back (JArr []))|].
    change (pretty d (JArr (v :: l))) with ("[" ++ indent (S d) ++
      String.concat ("," ++ indent (S d)) (map (pretty (S d)) (v :: l)) ++ indent d ++ "]") in *.
    rewrite !string_length_app in Hn. change (String.length "[") with 1%nat in Hn. change (String.length "]") with 1%nat in Hn.
    destruct n as [|n]; [lia|].
    rewrite !string_app_assoc, parse_value_arr, skip_blank by apply blank_indent.
    destruct (pretty_head (S d) v) as (c & s & E & Hc & Hb); [by apply andb_prop in Hok as []|].
    assert (∃ u, String.concat ("," ++ indent (S d)) (map (pretty (S d)) (v :: l)) = String c u) as [u Eu].
    { destruct l; simpl; rewrite E; eexists; reflexivity. }
    assert (∀ t, drop_prefix "]" (skip_ws (String c u ++ t)) = None) as Hnone.
    { intros t. change (String c u ++ t) with (String c (u ++ t)). cbn [skip_ws]. rewrite Hc. cbn [drop_prefix]. by rewrite Hb. }
    rewrite parse_elems_blank by apply blank_indent. rewrite pretty_elems by (done || lia).
    rewrite Eu, Hnone. done.
  - destruct l as [|e l]; [by apply (all_read_back (JObj []))|].
    change (pretty d (JObj (e :: l))) with ("{" ++ indent (S d) ++
      String.concat ("," ++ indent (S d)) (map (pretty_member (S d)) (e :: l)) ++ indent d ++ "}") in *.
    apply andb_prop in Hok as [[Hnd%bool_decide_eq_true Hord]%andb_prop Hok].
    rewrite !string_length_app in Hn. change (String.length "{") with 1%nat in Hn. change (String.length "}") with 1%nat in Hn.
    destruct n as [|n]; [lia|].
    rewrite !string_app_assoc, parse_value_obj, skip_blank by apply blank_indent.
    rewrite parse_members_blank by apply blank_indent. rewrite pretty_members by (done || lia).
    assert (∀ t, drop_prefix "}" (skip_ws (String.concat ("," ++ indent (S d)) (map (pretty_member (S d)) (e :: l)) ++ t)) = None) as ->
      by (intros t; by destruct l).
    cbn [mbind option_bind app]. by rewrite index_first_ordered.
Qed.

(** What was written with a final line feed is read back. *)
Lemma parse_pretty_line j : json_ok j = true → JSON_parse (JSON_stringify_2 j ++ newline) = Some j.
Proof.
  intros Hok. unfold JSON_parse, JSON_stringify_2. rewrite all_pretty_back; [done|done| |done].
  rewrite string_length_app. lia.
Qed.

Lemma parse_pretty j : json_ok j = true → JSON_parse (JSON_stringify_2 j) = Some j.
Proof.
  intros Hok. unfold JSON_parse, JSON_stringify_2. rewrite <-(string_app_nil_r (pretty 0 j)).
  rewrite all_pretty_back; [done|done| |done]. rewrite string_length_app. lia.
Qed.
