(* ===== verification/JsDate.v ===== *)
(** * Dates as text

    [toISOString] and [Date.parse] on its texts, and SQLite's [datetime('now')],
    for times in milliseconds since 1970 from year 0 to year 9999, in the
    proleptic Gregorian calendar. *)

From stdpp Require Import base list strings option.
From Stdlib Require Import ZArith Lia Ascii.
From S2P Require Import Prelude Js Json.
Local Open Scope string_scope.
Local Open Scope Z_scope.

(** ** The calendar *)

(** Years start in March, so that leap days come last; an era is 400 years. *)
Definition civil_of_doe (doe : Z) : Z * Z * Z :=
  let c := Z.min 3 (doe / 36524) in
  let r := doe - 36524 * c in
  let q := r / 1461 in
  let y := Z.min 3 (r mod 1461 / 365) in
  let doy := r mod 1461 - 365 * y in
  let mp := (5 * doy + 2) / 153 in
  (100 * c + 4 * q + y, mp, doy - (153 * mp + 2) / 5 + 1).

Definition civil_from_days (days : Z) : Z * Z * Z :=
  let z := days + 719468 in
  let '(yoe, mp, d) := civil_of_doe (z mod 146097) in
  let y := yoe + z / 146097 * 400 in
  if mp <? 10 then (y, mp + 3, d) else (y + 1, mp - 9, d).

Definition days_from_civil (y m d : Z) : Z :=
  let y := if m <=? 2 then y - 1 else y in
  let mp := if m <=? 2 then m + 9 else m - 3 in
  let yoe := y mod 400 in
  let doy := (153 * mp + 2) / 5 + d - 1 in
  y / 400 * 146097 + (365 * yoe + yoe / 4 - yoe / 100 + doy) - 719468.

(** ** Texts *)

(** The last [n] decimal digits of [z]. *)
Fixpoint pad (n : nat) (z : Z) : string :=
  match n with
  | O => ""
  | S n => pad n (z / 10) ++ String (ascii_of_nat (48 + Z.to_nat (z mod 10))) ""
  end.

Definition ms_per_day : Z := 86400000.

Definition date_text (ms : Z) : string :=
  let '(y, m, d) := civil_from_days (ms / ms_per_day) in
  pad 4 y ++ "-" ++ pad 2 m ++ "-" ++ pad 2 d.

Definition time_text (ms : Z) : string :=
  let t := ms mod ms_per_day in
  pad 2 (t / 3600000) ++ ":" ++ pad 2 (t / 60000 mod 60) ++ ":" ++ pad 2 (t / 1000 mod 60).

Definition toISOString (ms : Z) : string :=
  date_text ms ++ "T" ++ time_text ms ++ "." ++ pad 3 (ms mod 1000) ++ "Z".

Definition sqlite_datetime (ms : Z) : string := date_text ms ++ " " ++ time_text ms.

(** The value of [n] digits at the head of a text, and the rest. *)
Fixpoint take_digits (n : nat) (s : string) (acc : Z) : option (Z * string) :=
  match n with
  | O => Some (acc, s)
  | S n => match s with
           | String c s => if is_digit c then take_digits n s (10 * acc + digit_val c) else None
           | "" => None
           end
  end.

(** [n] digits and the separator after them. *)
Definition field (n : nat) (sep s : string) : option (Z * string) :=
  '(z, r) ← take_digits n s 0; r ← drop_prefix sep r; Some (z, r).

(** [Date.parse] of [YYYY-MM-DDTHH:mm:ss.sssZ]; [None] is an invalid date. *)
Definition parse_iso (s : string) : option Z :=
  '(y, s) ← field 4 "-" s; '(m, s) ← field 2 "-" s; '(d, s) ← field 2 "T" s;
  '(hh, s) ← field 2 ":" s; '(mi, s) ← field 2 ":" s; '(ss, s) ← field 2 "." s;
  '(ms, s) ← field 3 "Z" s;
  match s with
  | "" => if (1 <=? m) && (m <=? 12) && (1 <=? d) && (d <=? 31) && (hh <=? 23) && (mi <=? 59) && (ss <=? 59)
          then Some (days_from_civil y m d * ms_per_day + hh * 3600000 + mi * 60000 + ss * 1000 + ms)
          else None
  | _ => None
  end.

(** ** Reading back *)

Lemma pad_char z : 0 <= z < 10 → is_digit (ascii_of_nat (48 + Z.to_nat z)) = true ∧
  digit_val (ascii_of_nat (48 + Z.to_nat z)) = z.
Proof.
  intros Hz. unfold is_digit, digit_val. rewrite nat_ascii_embedding by lia. split; [|lia].
  apply andb_true_iff. rewrite !Nat.leb_le. lia.
Qed.

Lemma take_digits_app n z acc c r :
  take_digits (S n) (pad n z ++ String c r) acc =
  '(v, s) ← take_digits n (pad n z ++ String c r) acc;
  match s with String c s => if is_digit c then Some (10 * v + digit_val c, s) else None | "" => None end.
Proof.
  revert acc. assert (∀ m s acc, take_digits (S m) s acc =
    '(v, s) ← take_digits m s acc;
    match s with String c s => if is_digit c then Some (10 * v + digit_val c, s) else None | "" => None end) as H.
  { induction m as [|m IH]; intros s acc; [by destruct s|].
    destruct s as [|d s]; [done|]. cbn [take_digits] in IH |- *. destruct (is_digit d); [|done]. apply IH. }
  intros acc. apply H.
Qed.

Lemma take_pad n : ∀ z acc r, 0 <= z < 10 ^ Z.of_nat n →
  take_digits n (pad n z ++ r) acc = Some (acc * 10 ^ Z.of_nat n + z, r).
Proof.
  induction n as [|n IH]; intros z acc r Hz.
  - cbn. f_equal. f_equal. change (10 ^ Z.of_nat 0) with 1 in Hz. lia.
  - assert (10 ^ Z.of_nat (S n) = 10 * 10 ^ Z.of_nat n) as Hp
      by (rewrite Nat2Z.inj_succ, Z.pow_succ_r by lia; done).
    cbn [pad]. rewrite string_app_assoc.
    change (String (ascii_of_nat (48 + Z.to_nat (z mod 10))) "" ++ r)
      with (String (ascii_of_nat (48 + Z.to_nat (z mod 10))) r).
    rewrite take_digits_app, IH by (split; [apply Z.div_pos; lia | apply Z.div_lt_upper_bound; lia]).
    cbn [mbind option_bind]. destruct (pad_char (z mod 10) (Z.mod_pos_bound z 10 eq_refl)) as [-> ->].
    f_equal. f_equal. rewrite Hp. pose proof (Z.div_mod z 10). lia.
Qed.

Lemma field_pad n z sep r : 0 <= z < 10 ^ Z.of_nat n → field n sep (pad n z ++ sep ++ r) = Some (z, r).
Proof.
  intros Hz. unfold field. rewrite take_pad by done. cbn [mbind option_bind].
  assert (drop_prefix sep (sep ++ r) = Some r) as ->.
  { induction sep as [|c s IH]; [by destruct r|]. change (String c s ++ r) with (String c (s ++ r)).
    cbn [drop_prefix]. by rewrite Ascii.eqb_refl. }
  done.
Qed.

Lemma doe_round_trip doe : 0 <= doe < 146097 →
  let '(yoe, mp, d) := civil_of_doe doe in
  0 <= yoe < 400 ∧ 0 <= mp < 12 ∧ 1 <= d <= 31 ∧
  365 * yoe + yoe / 4 - yoe / 100 + ((153 * mp + 2) / 5 + d - 1) = doe.
Proof.
  intros Hd. unfold civil_of_doe. cbv zeta.
  pose proof (Z.div_mod doe 36524). pose proof (Z.mod_pos_bound doe 36524 eq_refl).
  set (c := Z.min 3 (doe / 36524)) in *. set (r := doe - 36524 * c) in *.
  assert (0 <= c <= 3 ∧ 0 <= r <= 36524 ∧ (c < 3 → r < 36524)) as (Hc & Hr & Hr3) by lia.
  pose proof (Z.div_mod r 1461). pose proof (Z.mod_pos_bound r 1461 eq_refl).
  set (q := r / 1461) in *. set (i := r mod 1461) in *.
  pose proof (Z.div_mod i 365). pose proof (Z.mod_pos_bound i 365 eq_refl).
  set (y := Z.min 3 (i / 365)) in *. set (doy := i - 365 * y) in *.
  assert (0 <= q <= 24 ∧ 0 <= y <= 3 ∧ 0 <= doy <= 365) as (Hq & Hy & Hdoy) by lia.
  pose proof (Z.div_mod (5 * doy + 2) 153). pose proof (Z.mod_pos_bound (5 * doy + 2) 153 eq_refl).
  set (mp := (5 * doy + 2) / 153) in *.
  pose proof (Z.div_mod (153 * mp + 2) 5). pose proof (Z.mod_pos_bound (153 * mp + 2) 5 eq_refl).
  assert ((100 * c + 4 * q + y) / 4 = 25 * c + q) as Hd4
    by (symmetry; apply (Z.div_unique _ _ _ y); lia).
  assert ((100 * c + 4 * q + y) / 100 = c) as Hd100
    by (symmetry; apply (Z.div_unique _ _ _ (4 * q + y)); lia).
  rewrite Hd4, Hd100. split_and!; lia.
Qed.

Lemma civil_round_trip days :
  let '(y, m, d) := civil_from_days days in
  days_from_civil y m d = days ∧ 1 <= m <= 12 ∧ 1 <= d <= 31.
Proof.
  unfold civil_from_days. set (z := days + 719468).
  pose proof (Z.mod_pos_bound z 146097 eq_refl) as Hm. pose proof (Z.div_mod z 146097) as Hz.
  pose proof (doe_round_trip (z mod 146097) Hm) as Hok.
  destruct (civil_of_doe (z mod 146097)) as [[yoe mp] d].
  assert (∀ q, (yoe + q * 400) mod 400 = yoe ∧ (yoe + q * 400) / 400 = q) as Hq.
  { intros q. rewrite Z_mod_plus_full, Z.mod_small by lia. rewrite Z.div_add, Z.div_small by lia. lia. }
  destruct (Hq (z / 146097)) as [Hq1 Hq2].
  destruct (Z.ltb_spec mp 10); unfold days_from_civil.
  - rewrite (proj2 (Z.leb_gt (mp + 3) 2)) by lia. rewrite Hq1, Hq2.
    replace (mp + 3 - 3) with mp by lia. lia.
  - rewrite (proj2 (Z.leb_le (mp - 9) 2)) by lia.
    replace (yoe + z / 146097 * 400 + 1 - 1) with (yoe + z / 146097 * 400) by lia. rewrite Hq1, Hq2.
    replace (mp - 9 + 9) with mp by lia. lia.
Qed.

(** The year of a time is at most 9999 and not negative. *)
Definition four_digit_year (ms : Z) : Prop :=
  let '(y, _, _) := civil_from_days (ms / ms_per_day) in 0 <= y < 10000.

(** The text of a time is read back as the same millisecond. *)
Theorem parse_toISOString ms : four_digit_year ms → parse_iso (toISOString ms) = Some ms.
Proof.
  unfold four_digit_year, toISOString, date_text, time_text.
  pose proof (civil_round_trip (ms / ms_per_day)) as Hc.
  destruct (civil_from_days (ms / ms_per_day)) as [[y m] d]. destruct Hc as (Hdays & Hm & Hd). intros Hy.
  pose proof (Z.mod_pos_bound ms ms_per_day eq_refl) as Ht. set (t := ms mod ms_per_day) in *.
  unfold ms_per_day in Ht.
  assert (0 <= t / 3600000 < 24) by (split; [apply Z.div_pos; lia | apply Z.div_lt_upper_bound; lia]).
  pose proof (Z.mod_pos_bound (t / 60000) 60 eq_refl). pose proof (Z.mod_pos_bound (t / 1000) 60 eq_refl).
  pose proof (Z.mod_pos_bound ms 1000 eq_refl).
  rewrite !string_app_assoc. unfold parse_iso.
  repeat (rewrite field_pad by (cbn; lia); cbn [mbind option_bind]).
  replace (pad 3 (ms mod 1000) ++ "Z") with (pad 3 (ms mod 1000) ++ "Z" ++ "") by done.
  rewrite field_pad by (cbn; lia). cbn [mbind option_bind].
  rewrite !(fun a b => proj2 (Z.leb_le a b)) by lia. cbn [andb]. f_equal. rewrite Hdays.
  pose proof (Z.div_mod ms ms_per_day). unfold ms_per_day in *. fold t in H3.
  assert (ms mod 1000 = t mod 1000) as ->.
  { unfold t. rewrite (Z.div_mod ms 86400000) at 1 by lia.
    replace (86400000 * (ms / 86400000)) with (86400 * (ms / 86400000) * 1000) by lia.
    by rewrite Z.add_comm, Z_mod_plus_full. }
  pose proof (Z.div_mod t 1000). pose proof (Z.div_mod (t / 1000) 60). pose proof (Z.div_mod (t / 60000) 60).
  assert (t / 60000 = t / 1000 / 60) as E1 by (rewrite Z.div_div by lia; done).
  assert (t / 3600000 = t / 60000 / 60) as E2 by (rewrite Z.div_div by lia; done).
  lia.
Qed.
