(* ===== verification/Views.v ===== *)
(** * Views

    What a React component renders, without styles: the texts and glyphs it
    shows and the controls it offers, each with the action of a press.  Shared by
    the screens of the phone and the landing page. *)

From stdpp Require Import base list strings.
From Stdlib Require Import ZArith.

Inductive View (act : Type) :=
  | VText (s : string)
  | VGlyph (code : Z)                             (* a symbol beyond Latin-1 *)
  | VSpinner
  | VInput (value : string)
  | VPress (disabled : bool) (a : act) (l : list (View act))
  | VBox (l : list (View act)).
Arguments VText {act} s.
Arguments VGlyph {act} code.
Arguments VSpinner {act}.
Arguments VInput {act} value.
Arguments VPress {act} disabled a l.
Arguments VBox {act} l.

Section Views.
  Context {act : Type}.

(** [cond && view] *)
Definition when (b : bool) (l : list (View act)) : list (View act) := if b then l else [].

(** The actions of the controls that react to a press. *)
Fixpoint enabled (v : View act) : list act :=
  match v with
  | VPress disabled a l => (if disabled then [] else [a]) ++ flat_map enabled l
  | VBox l => flat_map enabled l
  | _ => []
  end.

Fixpoint shown (v : View act) : list string :=
  match v with
  | VText s => [s]
  | VPress _ _ l | VBox l => flat_map shown l
  | _ => []
  end.
End Views.
