(* ===== verification/Protocol.v ===== *)
(** * packages/protocol: enums, pricing, staking constants, wire messages

    The TypeScript string enums are inductive types with their wire strings
    ([*_str]).  Where the code casts an unchecked request string to an enum
    type ([policy], [privacy_class]) the model keeps the string. *)

From stdpp Require Import base list strings option.
From Stdlib Require Import ZArith Lia.
From S2P Require Import Prelude Js.
Local Open Scope string_scope.

(** ** Enums *)

Inductive JobType := LLM_INFER | TASK.
Inductive TaskType := summarize_t | classify_t | extract_json_t.
Inductive Policy := FAST | CHEAP | AUTO.
Inductive PrivacyClass := PUBLIC | PRIVATE.
Inductive ProviderType := DESKTOP | SEEKER.
Inductive JobStatus := Pending | Assigned | Running | Completed | Failed.
Inductive StakeTier := OPEN | VERIFIED | SENTINEL.

#[global] Instance JobType_eq_dec : EqDecision JobType.
Proof. solve_decision. Defined.
#[global] Instance TaskType_eq_dec : EqDecision TaskType.
Proof. solve_decision. Defined.
#[global] Instance Policy_eq_dec : EqDecision Policy.
Proof. solve_decision. Defined.
#[global] Instance ProviderType_eq_dec : EqDecision ProviderType.
Proof. solve_decision. Defined.
#[global] Instance JobStatus_eq_dec : EqDecision JobStatus.
Proof. solve_decision. Defined.
#[global] Instance StakeTier_eq_dec : EqDecision StakeTier.
Proof. solve_decision. Defined.

Definition JobType_str (t : JobType) : string :=
  match t with LLM_INFER => "LLM_INFER" | TASK => "TASK" end.
Definition TaskType_str (t : TaskType) : string :=
  match t with
  | summarize_t => "summarize" | classify_t => "classify" | extract_json_t => "extract_json"
  end.
Definition Policy_str (p : Policy) : string :=
  match p with FAST => "FAST" | CHEAP => "CHEAP" | AUTO => "AUTO" end.
Definition PrivacyClass_str (p : PrivacyClass) : string :=
  match p with PUBLIC => "PUBLIC" | PRIVATE => "PRIVATE" end.
Definition JobStatus_str (s : JobStatus) : string :=
  match s with
  | Pending => "pending" | Assigned => "assigned" | Running => "running"
  | Completed => "completed" | Failed => "failed"
  end.

(** [Object.values(JobType).includes(s)], with the value the cast then has. *)
Definition parse_JobType (s : string) : option JobType :=
  if String.eqb s "LLM_INFER" then Some LLM_INFER
  else if String.eqb s "TASK" then Some TASK else None.

(** ** Pricing *)

Definition PRICING_MAP : list (string * string) :=
  [ ("FAST_LLM_INFER", "$0.010"); ("FAST_TASK", "$0.003");
    ("CHEAP_LLM_INFER", "$0.005"); ("CHEAP_TASK", "$0.001") ].

(** [resolvePolicy] on the raw policy string of a request: a policy other
    than AUTO is returned unchanged. *)
Definition resolvePolicy (policy : string) (jobType : JobType) : string :=
  if negb (String.eqb policy "AUTO") then policy
  else match jobType with LLM_INFER => "FAST" | TASK => "CHEAP" end.

Definition getPrice (policy : string) (jobType : JobType) : string :=
  let key := policy ++ "_" ++ JobType_str jobType in
  default "$0.001" (jm_get key PRICING_MAP).

(** ** BOLT constants *)

Definition STAKE_REQUIREMENTS (t : StakeTier) : Z :=
  match t with OPEN => 0 | VERIFIED => 100 | SENTINEL => 1000 end.

Definition PROTOCOL_FEE_BPS : Z := 500.

Record StakePriority := { bonus : jsnum; repMultiplier : jsnum }.

Definition STAKE_PRIORITY (t : StakeTier) : StakePriority :=
  match t with
  | OPEN => {| bonus := num_of_Z 0; repMultiplier := num_of_Z 1 |}
  | VERIFIED => {| bonus := num_of_Z 5; repMultiplier := num_lit 15 10 |}
  | SENTINEL => {| bonus := num_of_Z 10; repMultiplier := num_of_Z 2 |}
  end.

Record BoltPayment := {
  bp_job_id : string; bp_usdc_amount : string; bp_bolt_amount : string;
  bp_worker_pubkey : string; bp_protocol_fee : string; bp_tx_signature : option string }.

Record Quote := {
  q_price : string; q_endpoint : string; q_policy_resolved : string; q_network : string }.

(** ** Wire messages *)

Record Receipt := {
  r_job_id : string; r_provider_pubkey : string; r_output_hash : string;
  r_completed_at : string; r_payment_ref : option string }.

Record RegisterMsg := {
  reg_provider_pubkey : string; reg_provider_type : ProviderType;
  reg_capabilities : list JobType }.

Record JobCompleteMsg := {
  jc_job_id : string; jc_output : json; jc_output_hash : string;
  jc_receipt : option Receipt; jc_receipt_signature : option string }.

Record JobRejectMsg := { jr_job_id : string; jr_reason : string }.

Record ReceiptSubmitMsg := { rs_receipt : Receipt; rs_signature : string }.

(** Payload of a job assignment: the fields the executors read. *)
Record JobPayload := {
  p_prompt : option string; p_max_tokens : option Z;
  p_task_type : option string; p_input : option string }.

Record JobAssignMsg := {
  ja_job_id : string; ja_job_type : JobType; ja_payload : json;
  ja_policy : Policy; ja_privacy_class : string; ja_user_id : string }.

Inductive WorkerToCoordinator :=
  | MsgRegister (m : RegisterMsg)
  | MsgHeartbeat (provider_pubkey : string)
  | MsgJobComplete (m : JobCompleteMsg)
  | MsgJobReject (m : JobRejectMsg)
  | MsgReceiptSubmit (m : ReceiptSubmitMsg).

Inductive CoordinatorToWorker :=
  | OutRegisterAck (worker_id : string)
  | OutHeartbeatAck
  | OutJobAssign (m : JobAssignMsg)
  | OutError (code message : string)
  | OutFeedbackPosted (job_id tx_hash network explorer_url : string)
  | OutFeedbackFailed (job_id error : string)
  | OutPaymentPosted (job_ids : list string) (tx_hash : string) (amount : jsnum)
      (token : option string) (network explorer_url : string)
  | OutPaymentFailed (job_ids : list string) (error : string) (token : option string).

(** ** Lemmas *)

Lemma parse_JobType_str t : parse_JobType (JobType_str t) = Some t.
Proof. by destruct t. Qed.

Lemma parse_JobType_Some s t : parse_JobType s = Some t ↔ s = JobType_str t.
Proof.
  unfold parse_JobType.
  destruct (String.eqb_spec s "LLM_INFER"), (String.eqb_spec s "TASK"), t; naive_solver.
Qed.
