(* ===== verification/Executors.v ===== *)
(** * Task executors

    The four implementations of the TASK jobs: the desktop worker's
    executors/taskExecutor.ts, the phone's services/TaskExecutor.ts, the
    simulator's and the CLI worker's [executeTask], with the regular expression
    that finds JSON blocks, and the inference stub.  Outputs are JSON values,
    as the workers hash and send them. *)

From stdpp Require Import base list strings option.
From Stdlib Require Import ZArith Lia Ascii SpecFloat.
From S2P Require Import Prelude Js Json Protocol.
Local Open Scope string_scope.

(** ** Regular expressions *)

Inductive re :=
  | Chr (p : ascii → bool)
  | Cat (r1 r2 : re)
  | Star (r : re).

Inductive re_match : re → string → Prop :=
  | m_chr (p : ascii → bool) c : p c = true → re_match (Chr p) (String c "")
  | m_cat r1 r2 s1 s2 : re_match r1 s1 → re_match r2 s2 → re_match (Cat r1 r2) (s1 ++ s2)
  | m_star_nil r : re_match (Star r) ""
  | m_star_cons r s1 s2 : re_match r s1 → re_match (Star r) s2 → re_match (Star r) (s1 ++ s2).

Definition is_open (c : ascii) : bool := Ascii.eqb c "{".
Definition is_close (c : ascii) : bool := Ascii.eqb c "}".
Definition no_brace (c : ascii) : bool := negb (is_open c) && negb (is_close c).

(** An opening brace, characters that are no braces, any number of inner pairs
    of braces around and followed by such characters, a closing brace. *)
Definition jsonPattern : re :=
  Cat (Chr is_open) (Cat (Star (Chr no_brace))
    (Cat (Star (Cat (Chr is_open) (Cat (Star (Chr no_brace)) (Cat (Chr is_close) (Star (Chr no_brace))))))
      (Chr is_close))).

(** The match of [jsonPattern] after its first character, and the rest of the
    input; [nested] inside an inner pair of braces. *)
Fixpoint block_tail (nested : bool) (s : string) : option (string * string) :=
  match s with
  | EmptyString => None
  | String c s' =>
      if is_open c then
        if nested then None else '(m, r) ← block_tail true s'; Some (String c m, r)
      else if is_close c then
        if nested then '(m, r) ← block_tail false s'; Some (String c m, r) else Some (String c "", s')
      else '(m, r) ← block_tail nested s'; Some (String c m, r)
  end.

(** The match of [jsonPattern] at the start of [s]. *)
Definition block_at (s : string) : option (string * string) :=
  match s with
  | String c s' => if is_open c then '(m, r) ← block_tail false s'; Some (String c m, r) else None
  | EmptyString => None
  end.

(** [input.match(jsonPattern) ?? []]: the leftmost matches, without overlap;
    [skip] characters belong to the last one. *)
Fixpoint match_all (skip : nat) (s : string) : list string :=
  match s with
  | EmptyString => []
  | String c s' =>
      match skip with
      | S k => match_all k s'
      | O => match block_at s with
             | Some (m, _) => m :: match_all (String.length m - 1) s'
             | None => match_all 0 s'
             end
      end
  end.

(** ** The tasks *)

Definition JInt (n : Z) : json := JNum (num_of_Z n).

(** [words] as the worker counts them. *)
Definition summarize_with (words : string → list string) (input : string) : json :=
  let truncated := if (200 <? String.length input)%nat then slice0 200 input ++ "..." else input in
  JObj [("summary", JStr truncated); ("word_count", JInt (Z.of_nat (length (words input))))].

Definition count_in (words : list string) (lower : string) : Z :=
  foldl (λ n w, if includes lower w then (n + 1)%Z else n) 0%Z words.

Abbreviation sentiment_of score := (if (0 <? score)%Z then "positive" else if (score <? 0)%Z then "negative" else "neutral")%string.

(** [Math.min(1, Math.abs(score) * 0.2 + 0.3)] *)
Definition confidence_of (score : Z) : jsnum :=
  math_min (num_of_Z 1) (num_add (num_mul (num_of_Z (Z.abs score)) (num_lit 2 10)) (num_lit 3 10)).

Definition classify_with (positiveWords negativeWords : list string) (input : string) : json :=
  let lower := toLowerCase input in
  let score := (count_in positiveWords lower - count_in negativeWords lower)%Z in
  JObj [("sentiment", JStr (sentiment_of score)); ("confidence", JNum (confidence_of score))].

Definition extractJson (input : string) : json :=
  let parsed := omap JSON_parse (match_all 0 input) in
  JObj [("extracted", JArr parsed); ("count", JInt (Z.of_nat (length parsed)))].

Abbreviation unknown_task taskType := (JObj [("error", JStr ("Unknown task_type: " ++ taskType))]).

(** *** The desktop worker *)

Definition split_words (input : string) : list string := split_spaces (trim input).

Definition summarize : string → json := summarize_with split_words.

Definition positiveWords : list string :=
  ["good"; "great"; "excellent"; "amazing"; "love"; "happy"; "best"; "wonderful"; "fantastic"].
Definition negativeWords : list string :=
  ["bad"; "terrible"; "awful"; "hate"; "worst"; "horrible"; "poor"; "disappointing"; "sad"].

Definition classify : string → json := classify_with positiveWords negativeWords.

Definition executeTask (taskType input : string) : json :=
  if String.eqb taskType "summarize" then summarize input
  else if String.eqb taskType "classify" then classify input
  else if String.eqb taskType "extract_json" then extractJson input
  else unknown_task taskType.

(** *** The phone *)

Abbreviation mobile_positiveWords := (["good"; "great"; "excellent"; "amazing"; "love"; "happy"; "best"; "wonderful"; "fantastic"]).
Abbreviation mobile_negativeWords := (["bad"; "terrible"; "awful"; "hate"; "worst"; "horrible"; "poor"; "disappointing"; "sad"]).

Definition mobile_summarize : string → json := summarize_with (λ input, split_spaces (trim input)).
Definition mobile_classify : string → json := classify_with mobile_positiveWords mobile_negativeWords.

Definition mobile_executeTask (taskType input : string) : json :=
  if String.eqb taskType "summarize" then mobile_summarize input
  else if String.eqb taskType "classify" then mobile_classify input
  else if String.eqb taskType "extract_json" then extractJson input
  else unknown_task taskType.

(** *** The simulator *)

Definition sim_executeTask (taskType input : string) : json :=
  if String.eqb taskType "summarize" then summarize_with (λ input, split_spaces (trim input)) input
  else if String.eqb taskType "classify" then
    classify_with ["good"; "great"; "excellent"; "amazing"; "love"; "happy"]
                  ["bad"; "terrible"; "awful"; "hate"; "worst"; "horrible"] input
  else if String.eqb taskType "extract_json" then extractJson input
  else unknown_task taskType.

(** *** The CLI worker *)

Definition cli_executeTask (taskType input : string) : json :=
  if String.eqb taskType "summarize" then
    summarize_with (λ input, List.filter str_truthy (split_spaces (trim input))) input
  else if String.eqb taskType "classify" then
    classify_with ["good"; "great"; "excellent"; "amazing"; "love"; "happy"; "best"]
                  ["bad"; "terrible"; "awful"; "hate"; "worst"; "horrible"; "poor"] input
  else if String.eqb taskType "extract_json" then extractJson input
  else unknown_task taskType.

(** ** Inference *)

(** [len]: what the template literal makes of [prompt.length]. *)
Definition stub_text (len jobId : string) : json :=
  JObj [("text", JStr ("[STUB] Received prompt (" ++ len ++
          " chars) for job " ++ jobId ++ ". In production, this would be processed by a local LLM via Ollama or a GPU worker."));
        ("model", JStr "stub-v1"); ("stub", JBool true)].
Definition stubInfer (prompt jobId : string) : json :=
  stub_text (num_to_string (num_of_Z (Z.of_nat (String.length prompt)))) jobId.

(** The outcome of a call of a local Ollama server, a service outside the
    repository: a refused or malformed answer rejects the promise. *)
Inductive OllamaReply :=
  | OllamaText (text model : string)
  | OllamaFails (error : string).

Definition ollamaInfer (reply : OllamaReply) : outcome json :=
  match reply with
  | OllamaText text model => Ok (JObj [("text", JStr text); ("model", JStr model)])
  | OllamaFails e => Throw e
  end.

(** [base_url]: [OLLAMA_BASE_URL], or the CLI's [ollamaUrl]. *)
Definition executeLLM (base_url : option string) (reply : OllamaReply) (prompt jobId : string) : json :=
  if ostr_truthy base_url then
    match ollamaInfer reply with Ok j => j | Throw _ => stubInfer prompt jobId end
  else stubInfer prompt jobId.

(** ** The matcher and the regular expression *)

Definition inner_re : re :=
  Cat (Chr is_open) (Cat (Star (Chr no_brace)) (Cat (Chr is_close) (Star (Chr no_brace)))).
Definition tail_re : re := Cat (Star (Chr no_brace)) (Cat (Star inner_re) (Chr is_close)).
Definition nested_re : re := Cat (Star (Chr no_brace)) (Cat (Chr is_close) tail_re).

Abbreviation brace_free := (chars no_brace).

Lemma re_chr_inv p s : re_match (Chr p) s → ∃ c, p c = true ∧ s = String c "".
Proof. inversion 1; eauto. Qed.

Lemma re_cat_inv r1 r2 s : re_match (Cat r1 r2) s →
  ∃ s1 s2, re_match r1 s1 ∧ re_match r2 s2 ∧ s = s1 ++ s2.
Proof. inversion 1; subst; eauto 6. Qed.

Lemma star_no_brace s : re_match (Star (Chr no_brace)) s ↔ brace_free s = true.
Proof.
  split.
  - remember (Star (Chr no_brace)) as r eqn:Hr. induction 1 as [| | |? s1 s2 H1 _ H2 IH]; simplify_eq; [done|].
    apply re_chr_inv in H1 as (c & Hc & ->). rewrite chars_app. simpl. rewrite Hc. simpl. by apply IH.
  - induction s as [|c s IH]; [constructor|]. intros [Hc Hs]%andb_prop.
    change (String c s) with (String c "" ++ s). constructor; [by constructor | auto].
Qed.

Lemma is_open_eq c : is_open c = true ↔ c = "{"%char.
Proof. apply Ascii.eqb_eq. Qed.
Lemma is_close_eq c : is_close c = true ↔ c = "}"%char.
Proof. apply Ascii.eqb_eq. Qed.

(** Adding a character that is no brace before a text that starts with such characters. *)
Lemma cat_star_cons c r s : no_brace c = true →
  re_match (Cat (Star (Chr no_brace)) r) s → re_match (Cat (Star (Chr no_brace)) r) (String c s).
Proof.
  intros Hc (s1 & s2 & H1%star_no_brace & H2 & ->)%re_cat_inv.
  change (String c (s1 ++ s2)) with (String c s1 ++ s2). constructor; [|done].
  apply star_no_brace. simpl. by rewrite Hc.
Qed.

Lemma cat_star_nil r s : re_match r s → re_match (Cat (Star (Chr no_brace)) r) s.
Proof. intros H. change s with ("" ++ s). by repeat constructor. Qed.

Lemma block_tail_sound nested s m r : block_tail nested s = Some (m, r) →
  s = m ++ r ∧ re_match (if nested then nested_re else tail_re) m.
Proof.
  revert nested m. induction s as [|c s IH]; intros nested m; [done|]. cbn [block_tail].
  destruct (is_open c) eqn:Ho; [|destruct (is_close c) eqn:Hc].
  - destruct nested; [done|]. intros ([m' r'] & H & [= <- <-])%bind_Some.
    apply IH in H as [-> H]. split; [done|].
    apply re_cat_inv in H as (n & s1 & Hn & (c1 & s2 & Hc1 & (n2 & s3 & Hn2 & (inn & s4 & Hinn & Hs4 & ->)%re_cat_inv & ->)%re_cat_inv & ->)%re_cat_inv & ->).
    apply cat_star_nil.
    replace (String c (n ++ c1 ++ n2 ++ inn ++ s4)) with (((String c "" ++ n ++ c1 ++ n2) ++ inn) ++ s4)
      by (by rewrite !string_app_assoc).
    repeat (done || constructor).
  - destruct nested.
    + intros ([m' r'] & H & [= <- <-])%bind_Some. apply IH in H as [-> H]. split; [done|].
      apply cat_star_nil. change (String c m') with (String c "" ++ m'). repeat (done || constructor).
    + intros [= <- <-]. split; [done|]. apply cat_star_nil.
      change (String c "") with ("" ++ String c ""). repeat (done || constructor).
  - intros ([m' r'] & H & [= <- <-])%bind_Some. apply IH in H as [-> H]. split; [done|].
    assert (no_brace c = true) by (unfold no_brace; by rewrite Ho, Hc).
    destruct nested; by apply cat_star_cons.
Qed.

Definition prepend (n : string) (o : option (string * string)) : option (string * string) :=
  '(m, r) ← o; Some (n ++ m, r).

Lemma prepend_app n1 n2 o : prepend n1 (prepend n2 o) = prepend (n1 ++ n2) o.
Proof. destruct o as [[m r]|]; simpl; [|done]. by rewrite string_app_assoc. Qed.

Lemma prepend_nil o : prepend "" o = o.
Proof. by destruct o as [[m r]|]. Qed.

Lemma block_tail_brace_free nested n t : brace_free n = true →
  block_tail nested (n ++ t) = prepend n (block_tail nested t).
Proof.
  induction n as [|c n IH]; [intros _; by rewrite prepend_nil|].
  intros [[Ho%negb_true_iff Hc%negb_true_iff]%andb_prop Hn]%andb_prop.
  change (String c n ++ t) with (String c (n ++ t)). cbn [block_tail]. rewrite Ho, Hc, IH by done.
  by destruct (block_tail nested t) as [[m r]|].
Qed.

Lemma block_tail_inner s t : re_match inner_re s →
  block_tail false (s ++ t) = prepend s (block_tail false t).
Proof.
  intros (o & s1 & (c & ->%is_open_eq & ->)%re_chr_inv & (n & s2 & Hn%star_no_brace &
    (e & n2 & (c2 & ->%is_close_eq & ->)%re_chr_inv & Hn2%star_no_brace & ->)%re_cat_inv & ->)%re_cat_inv & ->)%re_cat_inv.
  rewrite !string_app_assoc.
  change (block_tail false (String "{" "" ++ ?u)) with (prepend (String "{" "") (block_tail true u)).
  rewrite block_tail_brace_free by done.
  change (block_tail true (String "}" "" ++ ?u)) with (prepend (String "}" "") (block_tail false u)).
  rewrite block_tail_brace_free by done. by rewrite !prepend_app, !string_app_assoc.
Qed.

Lemma block_tail_star s t : re_match (Star inner_re) s →
  block_tail false (s ++ t) = prepend s (block_tail false t).
Proof.
  remember (Star inner_re) as r eqn:Hr. induction 1 as [| | |? s1 s2 H1 _ H2 IH]; simplify_eq.
  - by rewrite prepend_nil.
  - rewrite string_app_assoc, block_tail_inner, IH by done. by rewrite prepend_app.
Qed.

(** The matcher finds the match of the expression at a position, if there is one. *)
Lemma block_at_spec s m r : block_at s = Some (m, r) ↔ s = m ++ r ∧ re_match jsonPattern m.
Proof.
  split.
  - destruct s as [|c s]; [done|]. simpl. destruct (is_open c) eqn:Ho; [|done].
    intros ([m' r'] & [-> H]%block_tail_sound & [= <- <-])%bind_Some. split; [done|].
    change (String c m') with (String c "" ++ m'). by repeat constructor.
  - intros [-> (o & s1 & (c & ->%is_open_eq & ->)%re_chr_inv & (n & s2 & Hn%star_no_brace &
      (inn & e & Hinn & (c2 & ->%is_close_eq & ->)%re_chr_inv & ->)%re_cat_inv & ->)%re_cat_inv & ->)%re_cat_inv].
    rewrite !string_app_assoc.
    change (block_at (String "{" "" ++ ?u)) with (prepend (String "{" "") (block_tail false u)).
    rewrite block_tail_brace_free, block_tail_star by done.
    change (block_tail false (String "}" "" ++ r)) with (Some (String "}" "", r)).
    by rewrite !prepend_app; simpl; rewrite !string_app_assoc.
Qed.

(** The matches of [jsonPattern] in a text, leftmost first and without overlap. *)
Inductive leftmost : string → list string → Prop :=
  | lm_end : leftmost "" []
  | lm_skip c s ms : (∀ m r, String c s = m ++ r → ¬ re_match jsonPattern m) →
      leftmost s ms → leftmost (String c s) ms
  | lm_take m s ms : re_match jsonPattern m → leftmost s ms → leftmost (m ++ s) (m :: ms).

Lemma match_all_skip m s : match_all (String.length m) (m ++ s) = match_all 0 s.
Proof. induction m as [|c m IH]; [done|]. exact IH. Qed.

Lemma jsonPattern_ne m : re_match jsonPattern m → ∃ m', m = String "{" m'.
Proof. intros (o & s & (c & ->%is_open_eq & ->)%re_chr_inv & _ & ->)%re_cat_inv. by exists s. Qed.

Lemma match_all_take m s : re_match jsonPattern m → match_all 0 (m ++ s) = m :: match_all 0 s.
Proof.
  intros Hm. pose proof (proj2 (block_at_spec (m ++ s) m s) (conj eq_refl Hm)) as Hb.
  destruct (jsonPattern_ne m Hm) as [m' ->]. change (String "{" m' ++ s) with (String "{" (m' ++ s)) in *.
  cbn [match_all]. rewrite Hb. f_equal. simpl. rewrite Nat.sub_0_r. apply match_all_skip.
Qed.

Lemma block_at_None s : block_at s = None ↔ ∀ m r, s = m ++ r → ¬ re_match jsonPattern m.
Proof.
  split.
  - intros H m r -> Hm. assert (block_at (m ++ r) = Some (m, r)) by (by apply block_at_spec). congruence.
  - intros H. destruct (block_at s) as [[m r]|] eqn:Hb; [|done].
    apply block_at_spec in Hb as [-> Hm]. by destruct (H m r eq_refl).
Qed.

Lemma match_all_leftmost s ms : leftmost s ms ↔ match_all 0 s = ms.
Proof.
  split.
  - induction 1 as [|c s ms Hn _ IH|m s ms Hm _ IH]; [done| |].
    + cbn [match_all]. by rewrite (proj2 (block_at_None _) Hn).
    + by rewrite match_all_take, IH.
  - intros <-. remember (String.length s) as n eqn:Hlen. assert (String.length s ≤ n)%nat as Hn by lia.
    clear Hlen. revert s Hn. induction n as [|n IH]; intros [|c s] Hn;
      [apply lm_end | simpl in Hn; lia | apply lm_end |]. simpl in Hn. cbn [match_all].
    destruct (block_at (String c s)) as [[m r]|] eqn:Hb.
    + apply block_at_spec in Hb as [E Hm]. destruct (jsonPattern_ne m Hm) as [m' ->].
      rewrite E. injection E as -> ->. simpl. rewrite Nat.sub_0_r.
      rewrite match_all_skip. change (String "{" (m' ++ r)) with (String "{" m' ++ r). apply lm_take; [done|].
      apply IH. rewrite string_length_app in Hn. lia.
    + apply lm_skip; [by apply block_at_None|]. apply IH. lia.
Qed.

(** C25: [extract_json].  The executor parses exactly the matches of its regular
    expression that a global match returns: leftmost first, each starting where
    no earlier match covers, without overlap; the matches that are JSON are its
    result, in order. *)
Theorem extract_json_parses_the_matches input :
  ∃ ms, leftmost input ms ∧ (∀ ms', leftmost input ms' → ms' = ms) ∧
    executeTask "extract_json" input =
      JObj [("extracted", JArr (omap JSON_parse ms)); ("count", JInt (Z.of_nat (length (omap JSON_parse ms))))].
Proof.
  exists (match_all 0 input). split; [by apply match_all_leftmost|]. split; [|done].
  intros ms' H. by apply match_all_leftmost in H.
Qed.

(** *** Objects in a text *)

(** How deep objects are nested in a value. *)
Fixpoint obj_depth (j : json) : nat :=
  match j with
  | JArr l => foldr (λ v d, Nat.max (obj_depth v) d) 0%nat l
  | JObj l => S (foldr (λ e d, Nat.max (obj_depth e.2) d) 0%nat l)
  | _ => 0%nat
  end.

(** No string or key of the value contains a brace. *)
Fixpoint strings_brace_free (j : json) : bool :=
  match j with
  | JStr s => brace_free s
  | JArr l => forallb strings_brace_free l
  | JObj l => forallb (λ e, brace_free e.1 && strings_brace_free e.2) l
  | _ => true
  end.

Lemma brace_free_quote s : brace_free s = true → brace_free (json_quote s) = true.
Proof.
  intros Hs. unfold json_quote. rewrite !chars_app.
  change (brace_free dquote) with true. rewrite andb_true_r. simpl.
  induction s as [|c s IH]; [done|]. apply andb_prop in Hs as [Hc Hs].
  cbn [json_escape_all]. rewrite chars_app, IH by done. rewrite andb_true_r.
  revert Hc. by destruct c as [[] [] [] [] [] [] [] []].
Qed.

Lemma brace_free_num x : brace_free (num_to_string x) = true.
Proof. by apply chars_num. Qed.

(** [t] leaves the matcher as it found it. *)
Definition passes (nested : bool) (t : string) : Prop :=
  ∀ r, block_tail nested (t ++ r) = prepend t (block_tail nested r).

Lemma passes_brace_free nested t : brace_free t = true → passes nested t.
Proof. intros H r. by apply block_tail_brace_free. Qed.

Lemma passes_app nested t1 t2 : passes nested t1 → passes nested t2 → passes nested (t1 ++ t2).
Proof. intros H1 H2 r. by rewrite string_app_assoc, H1, H2, prepend_app. Qed.

Lemma passes_concat nested ts : Forall (passes nested) ts → passes nested (String.concat "," ts).
Proof.
  induction 1 as [|t ts Ht HF IH]; [by apply passes_brace_free|].
  destruct ts as [|t' ts]; [done|]. repeat apply passes_app; [done | by apply passes_brace_free | done].
Qed.

Lemma passes_braces t : passes true t → passes false ("{" ++ t ++ "}").
Proof.
  intros Ht r. rewrite !string_app_assoc.
  change (block_tail false ("{" ++ ?u)) with (prepend "{" (block_tail true u)). rewrite Ht.
  change (block_tail true ("}" ++ r)) with (prepend "}" (block_tail false r)).
  by rewrite !prepend_app.
Qed.

(** A value is read over where its objects can still be nested. *)
Definition room (nested : bool) : nat := if nested then 0 else 1.

Lemma stringify_passes j nested :
  strings_brace_free j = true → (obj_depth j ≤ room nested)%nat → passes nested (JSON_stringify j).
Proof.
  revert nested. induction j as [|b|x|s|l IH|l IH] using json_ind'; intros nested Hs Hd; cbn [JSON_stringify].
  - by apply passes_brace_free.
  - by destruct b; apply passes_brace_free.
  - apply passes_brace_free. destruct (num_finite x); [apply brace_free_num | done].
  - by apply passes_brace_free, brace_free_quote.
  - repeat apply passes_app; [by apply passes_brace_free| |by apply passes_brace_free].
    apply passes_concat. clear -IH Hs Hd. induction IH as [|v l Hv HF IHl]; [constructor|].
    cbn in Hs, Hd. apply andb_prop in Hs as [Hs1 Hs2]. constructor; [apply Hv; [done | lia] | apply IHl; [done | simpl; lia]].
  - destruct nested; [simpl in Hd; lia|]. apply passes_braces, passes_concat.
    clear -IH Hs Hd. induction IH as [|[k v] l Hv HF IHl]; [constructor|].
    cbn in Hs, Hd. apply andb_prop in Hs as [[Hk Hs1]%andb_prop Hs2].
    constructor; [|apply IHl; [done | simpl; lia]].
    apply passes_app; [by apply passes_brace_free, brace_free_quote|].
    apply passes_app; [by apply passes_brace_free|]. apply Hv; [done | simpl; lia].
Qed.

Lemma match_all_brace_free s : brace_free s = true → match_all 0 s = [].
Proof.
  induction s as [|c s IH]; [done|]. intros [[Hc%negb_true_iff _]%andb_prop Hs]%andb_prop.
  cbn [match_all block_at]. rewrite Hc. auto.
Qed.

Lemma match_all_prefix p s : brace_free p = true → match_all 0 (p ++ s) = match_all 0 s.
Proof.
  induction p as [|c p IH]; [done|]. intros [[Hc%negb_true_iff _]%andb_prop Hp]%andb_prop.
  change (String c p ++ s) with (String c (p ++ s)). cbn [match_all block_at]. rewrite Hc. auto.
Qed.

Lemma object_is_block l : strings_brace_free (JObj l) = true → (obj_depth (JObj l) ≤ 2)%nat →
  re_match jsonPattern (JSON_stringify (JObj l)).
Proof.
  intros Hs Hd. refine (proj2 (proj1 (block_at_spec (JSON_stringify (JObj l)) _ "") _)).
  cbn [JSON_stringify].
  set (t := String.concat _ _).
  change (block_at ("{" ++ t ++ "}")) with (prepend "{" (block_tail false (t ++ "}"))).
  cut (passes false t); [by intros -> |]. apply passes_concat.
  clear t. induction l as [|[k v] l IHl]; [constructor|]. cbn in Hs, Hd.
  apply andb_prop in Hs as [[Hk Hs1]%andb_prop Hs2].
  constructor; [|apply IHl; [done | simpl; lia]].
  apply passes_app; [by apply passes_brace_free, brace_free_quote|].
  apply passes_app; [by apply passes_brace_free|]. apply stringify_passes; [done | simpl; lia].
Qed.

(** Extraction finds the objects a text embeds.  In a text without other
    braces, the printed form of an object whose objects nest at most twice and
    whose strings have no braces is found and parsed back to that very object,
    however many such objects the text holds. *)
Theorem embedded_objects_are_extracted chunks last :
  Forall (λ '(pre, o), brace_free pre = true ∧ json_ok (JObj o) = true ∧
                       strings_brace_free (JObj o) = true ∧ (obj_depth (JObj o) ≤ 2)%nat) chunks →
  brace_free last = true →
  let text := foldr (λ '(pre, o) t, pre ++ JSON_stringify (JObj o) ++ t) last chunks in
  executeTask "extract_json" text =
    JObj [("extracted", JArr (map (λ e, JObj e.2) chunks)); ("count", JInt (Z.of_nat (length chunks)))].
Proof.
  intros HF Hl text.
  assert (omap JSON_parse (match_all 0 text) = map (λ e, JObj e.2) chunks) as E.
  { subst text. induction HF as [|[pre o] chunks (Hp & Hok & Hs & Hd) HF IH];
      cbn [foldr map fst snd].
    - by rewrite match_all_brace_free.
    - rewrite match_all_prefix, match_all_take by (done || by apply object_is_block).
      cbn -[JSON_parse JSON_stringify match_all]. by rewrite parse_stringify, IH. }
  change (executeTask "extract_json" text) with (extractJson text). unfold extractJson.
  by rewrite E, length_map.
Qed.

Lemma embedded_objects_are_extracted_witness :
  executeTask "extract_json" ("say " ++ JSON_stringify (JObj [("a", JObj [("b", JInt 42)])]) ++ ", then " ++
    JSON_stringify (JObj []) ++ ".") =
  JObj [("extracted", JArr [JObj [("a", JObj [("b", JInt 42)])]; JObj []]); ("count", JInt 2)].
Proof.
  exact (embedded_objects_are_extracted
           [("say ", [("a", JObj [("b", JInt 42)])]); (", then ", [])] "."
           ltac:(repeat constructor; vm_compute; (reflexivity || lia)) eq_refl).
Defined.

(** ** Word counts *)

(** How many words start in [s]; [prev]: the character before is a space. *)
Fixpoint word_starts (prev : bool) (s : string) : nat :=
  match s with
  | EmptyString => 0
  | String c s' =>
      if is_space c then word_starts true s'
      else ((if prev then 1 else 0) + word_starts false s')%nat
  end.

Abbreviation nonempty ws := (length (List.filter str_truthy ws)).

Lemma split_runs_count s :
  nonempty (split_runs is_space true s) = word_starts true s ∧
  nonempty (split_runs is_space false s) = word_starts true s ∧
  nonempty (tail (split_runs is_space false s)) = word_starts false s.
Proof.
  induction s as [|c s (IH1 & IH2 & IH3)]; [done|]. cbn [split_runs word_starts].
  destruct (is_space c); [by rewrite <- IH1|].
  pose proof (split_runs_ne is_space s) as Hne.
  destruct (split_runs is_space false s) as [|w ws]; [done|]. simpl in *. by rewrite IH3.
Qed.

Lemma word_starts_trim s : word_starts true (trim s) = word_starts true s.
Proof.
  unfold trim. transitivity (word_starts true (trim_start s)).
  - generalize (trim_start s), true. clear s. intros s.
    induction s as [|c s IH]; intros b; [done|]. cbn [trim_end word_starts].
    destruct (trim_end s) as [|d t] eqn:Ht.
    + rewrite <- (IH true), <- (IH false). destruct (is_space c) eqn:Hc; [done|]. cbn [word_starts]. by rewrite Hc.
    + cbn [word_starts]. rewrite <- (IH true), <- (IH false). done.
  - induction s as [|c s IH]; [done|]. cbn [trim_start word_starts].
    destruct (is_space c) eqn:Hc; [done|]. cbn [word_starts]. by rewrite Hc.
Qed.

(** A text that ends in no space splits into words after its first piece. *)
Lemma split_runs_trimmed s : trim_end s = s → s ≠ "" →
  forallb str_truthy (split_runs is_space true s) = true ∧
  forallb str_truthy (tail (split_runs is_space false s)) = true.
Proof.
  induction s as [|c s IH]; [done|]. cbn [trim_end split_runs]. intros Ht _.
  assert (trim_end s = s ∧ (s = "" → is_space c = false)) as [Hs Hc].
  { destruct (trim_end s) as [|d t] eqn:E.
    - destruct (is_space c); [done|]. by injection Ht as <-.
    - injection Ht as <-. done. }
  pose proof (split_runs_ne is_space s) as Hne.
  destruct (decide (s = "")) as [->|Hs'].
  { rewrite Hc by done. done. }
  destruct (IH Hs Hs') as [H1 H2].
  destruct (is_space c); [done|]. destruct (split_runs is_space false s) as [|w ws]; [done|].
  simpl in *. by rewrite H2.
Qed.

Lemma trim_end_idem s : trim_end (trim_end s) = trim_end s.
Proof.
  induction s as [|c s IH]; [done|]. cbn [trim_end]. destruct (trim_end s) as [|d t] eqn:E.
  - destruct (is_space c) eqn:Hc; [done|]. cbn [trim_end]. by rewrite Hc.
  - cbn [trim_end] in *. rewrite IH. done.
Qed.

Lemma trim_end_head s c t : trim_end s = String c t → ∃ t', s = String c t'.
Proof.
  destruct s as [|d s]; [done|]. cbn [trim_end].
  destruct (trim_end s); [destruct (is_space d); [done|]|]; intros [= -> _]; eauto.
Qed.

Lemma trim_start_head s c t : trim_start s = String c t → is_space c = false.
Proof.
  induction s as [|d s IH]; [done|]. cbn [trim_start]. destruct (is_space d) eqn:Hd; [done|]. congruence.
Qed.

Lemma filter_all_truthy ws : forallb str_truthy ws = true → List.filter str_truthy ws = ws.
Proof. induction ws as [|w ws IH]; [done|]. intros [Hw Hws]%andb_prop. simpl. by rewrite Hw, IH. Qed.

Lemma split_words_truthy s : trim s ≠ "" → forallb str_truthy (split_words s) = true.
Proof.
  intros Hne. unfold split_words, split_spaces.
  destruct (split_runs_trimmed (trim s)) as [_ H]; [apply trim_end_idem | done |].
  destruct (trim s) as [|c t] eqn:E; [done|].
  assert (is_space c = false) as Hc.
  { unfold trim in E. destruct (trim_end_head _ _ _ E) as [t' E']. by eapply trim_start_head. }
  cbn [split_runs] in *. rewrite Hc in *. pose proof (split_runs_ne is_space t) as Hne'.
  destruct (split_runs is_space false t) as [|w ws]; [done|]. simpl in *. by rewrite H.
Qed.

Lemma split_words_count s : length (split_words s) = Nat.max 1 (word_starts true s).
Proof.
  rewrite <- word_starts_trim. destruct (split_runs_count (trim s)) as (_ & <- & _).
  destruct (decide (trim s = "")) as [E|Hne].
  - unfold split_words. by rewrite E.
  - change (split_runs is_space false (trim s)) with (split_words s).
    rewrite filter_all_truthy by (by apply split_words_truthy).
    pose proof (split_runs_ne is_space (trim s)) as H.
    change (split_runs is_space false (trim s)) with (split_words s) in H.
    destruct (split_words s); [done|]. simpl. lia.
Qed.

Lemma cli_words_count s :
  length (List.filter str_truthy (split_spaces (trim s))) = word_starts true s.
Proof. rewrite <- word_starts_trim. apply split_runs_count. Qed.

Lemma substring_prefix n s : ∃ t, s = String.substring 0 n s ++ t.
Proof.
  revert n. induction s as [|c s IH]; intros [|n]; try (by exists "").
  - by exists (String c s).
  - destruct (IH n) as [t Ht]. exists t. exact (f_equal (String c) Ht).
Qed.

Lemma substring_length n s : (n ≤ String.length s)%nat → String.length (String.substring 0 n s) = n.
Proof.
  revert n. induction s as [|c s IH]; intros [|n]; simpl; try lia. intros H. by rewrite IH by lia.
Qed.

(** [summarize].  Texts up to 200 characters are returned as they are and
    longer ones as their first 200 characters and an ellipsis; the word count is
    the number of maximal runs of characters that are no white space, except
    that the desktop worker counts one word in a blank text and the CLI none. *)
Theorem summarize_outcome input :
  ∃ summary words,
    executeTask "summarize" input =
      JObj [("summary", JStr summary); ("word_count", JInt (Z.of_nat (Nat.max 1 words)))] ∧
    cli_executeTask "summarize" input =
      JObj [("summary", JStr summary); ("word_count", JInt (Z.of_nat words))] ∧
    words = word_starts true input ∧
    ((String.length input ≤ 200)%nat ∧ summary = input ∨
     (200 < String.length input)%nat ∧ String.length summary = 203%nat ∧
       ∃ p rest, input = p ++ rest ∧ String.length p = 200%nat ∧ summary = p ++ "...").
Proof.
  exists (if (200 <? String.length input)%nat then slice0 200 input ++ "..." else input),
    (word_starts true input).
  split_and!; [| |done|].
  - change (executeTask "summarize" input) with (summarize_with split_words input).
    unfold summarize_with. by rewrite split_words_count.
  - change (cli_executeTask "summarize" input)
      with (summarize_with (λ s, List.filter str_truthy (split_spaces (trim s))) input).
    unfold summarize_with. by rewrite cli_words_count.
  - destruct (Nat.ltb_spec 200 (String.length input)) as [H|H]; [right|by left].
    assert (String.length (slice0 200 input) = 200%nat) as Hl by (apply substring_length; lia).
    split; [done|]. split; [by rewrite string_length_app, Hl|].
    destruct (substring_prefix 200 input) as [t Ht]. by exists (slice0 200 input), t.
Qed.

(** ** Classification *)

Lemma count_in_acc ws lower n :
  foldl (λ n w, if includes lower w then (n + 1)%Z else n) n ws = (n + count_in ws lower)%Z.
Proof.
  unfold count_in. revert n. induction ws as [|w ws IH]; intros n; simpl; [lia|].
  rewrite IH, (IH (if includes lower w then _ else _)). destruct (includes lower w); lia.
Qed.

Lemma count_in_cons w ws lower :
  count_in (w :: ws) lower = ((if includes lower w then 1 else 0) + count_in ws lower)%Z.
Proof. unfold count_in at 1. simpl. rewrite count_in_acc. by destruct (includes lower w). Qed.

Lemma count_in_app ws ws' lower : count_in (ws ++ ws')%list lower = (count_in ws lower + count_in ws' lower)%Z.
Proof. induction ws as [|w ws IH]; [done|]. cbn [app]. rewrite !count_in_cons, IH. lia. Qed.

Lemma count_in_none ws lower : forallb (λ w, negb (includes lower w)) ws = true → count_in ws lower = 0%Z.
Proof.
  induction ws as [|w ws IH]; [done|]. intros [Hw%negb_true_iff Hws]%andb_prop.
  rewrite count_in_cons, Hw, IH by done. done.
Qed.

Lemma count_in_bounds ws lower : (0 <= count_in ws lower <= Z.of_nat (length ws))%Z.
Proof.
  induction ws as [|w ws IH]; [done|]. rewrite count_in_cons. cbn [length]. destruct (includes lower w); lia.
Qed.

Lemma confidence_abs k : confidence_of k = confidence_of (Z.abs k).
Proof. unfold confidence_of. by rewrite Z.abs_idemp. Qed.

Lemma between_0_9 k : (0 <= k <= 9)%Z → k ∈ [0; 1; 2; 3; 4; 5; 6; 7; 8; 9]%Z.
Proof.
  intros H. rewrite !elem_of_cons.
  assert (k = 0 ∨ k = 1 ∨ k = 2 ∨ k = 3 ∨ k = 4 ∨ k = 5 ∨ k = 6 ∨ k = 7 ∨ k = 8 ∨ k = 9)%Z by lia. tauto.
Qed.

Lemma confidence_grades k k' : (-9 <= k <= 9)%Z → (-9 <= k' <= 9)%Z →
  num_leb (num_lit 3 10) (confidence_of k) = true ∧ num_leb (confidence_of k) (num_of_Z 1) = true ∧
  num_leb (confidence_of k) (confidence_of k') = (Z.min 4 (Z.abs k) <=? Z.min 4 (Z.abs k'))%Z.
Proof.
  intros H H'. rewrite (confidence_abs k), (confidence_abs k').
  generalize (between_0_9 (Z.abs k) ltac:(lia)), (between_0_9 (Z.abs k') ltac:(lia)).
  generalize (Z.abs k), (Z.abs k'). clear. intros k k'.
  assert (Forall (λ k, Forall (λ k',
    (num_leb (num_lit 3 10) (confidence_of k) && num_leb (confidence_of k) (num_of_Z 1) &&
     Bool.eqb (num_leb (confidence_of k) (confidence_of k')) (Z.min 4 k <=? Z.min 4 k')%Z) = true)
      [0; 1; 2; 3; 4; 5; 6; 7; 8; 9]%Z) [0; 1; 2; 3; 4; 5; 6; 7; 8; 9]%Z) as HF.
  { repeat constructor; vm_compute; reflexivity. }
  intros Hk Hk'. rewrite list.Forall_forall in HF. specialize (HF k Hk). rewrite list.Forall_forall in HF.
  specialize (HF k' Hk'). apply andb_prop in HF as [[H1 H2]%andb_prop H3%Bool.eqb_prop]. done.
Qed.

(** The difference between the positive and negative words of the desktop lists in a text. *)
Definition text_score (input : string) : Z :=
  (count_in positiveWords (toLowerCase input) - count_in negativeWords (toLowerCase input))%Z.

Lemma text_score_bounds input : (-9 <= text_score input <= 9)%Z.
Proof.
  unfold text_score. pose proof (count_in_bounds positiveWords (toLowerCase input)).
  pose proof (count_in_bounds negativeWords (toLowerCase input)). simpl in *. lia.
Qed.

(** [classify].  The sentiment is the sign of the word score; the binary64
    confidence stays between 0.3 and 1, and orders texts by the absolute value
    of their score, saturating at four words. *)
Theorem classification_is_graded a b :
  ∃ ca cb,
    executeTask "classify" a = JObj [("sentiment", JStr (sentiment_of (text_score a))); ("confidence", JNum ca)] ∧
    executeTask "classify" b = JObj [("sentiment", JStr (sentiment_of (text_score b))); ("confidence", JNum cb)] ∧
    num_leb (num_lit 3 10) ca = true ∧ num_leb ca (num_of_Z 1) = true ∧
    (num_leb ca cb = true ↔ (Z.min 4 (Z.abs (text_score a)) <= Z.min 4 (Z.abs (text_score b)))%Z).
Proof.
  exists (confidence_of (text_score a)), (confidence_of (text_score b)).
  destruct (confidence_grades _ _ (text_score_bounds a) (text_score_bounds b)) as (H1 & H2 & H3).
  split_and!; try done. by rewrite H3, Z.leb_le.
Qed.

(** The words of the desktop lists that the simulator and the CLI do not know. *)
Definition sim_unknown : list string := ["best"; "wonderful"; "fantastic"; "poor"; "disappointing"; "sad"].
Definition cli_unknown : list string := ["wonderful"; "fantastic"; "disappointing"; "sad"].

Definition knows_none (ws : list string) (input : string) : bool :=
  forallb (λ w, negb (includes (toLowerCase input) w)) ws.

Lemma classify_extra pos pos' neg neg' input :
  knows_none (pos' ++ neg')%list input = true →
  classify_with (pos ++ pos')%list (neg ++ neg')%list input = classify_with pos neg input.
Proof.
  unfold knows_none. rewrite forallb_app. intros [Hp Hn]%andb_prop.
  unfold classify_with. rewrite !count_in_app, (count_in_none pos'), (count_in_none neg') by done.
  by rewrite !Z.add_0_r.
Qed.

(** C24: the four workers agree.  The phone computes what the desktop worker
    computes, on every task; the simulator too unless it classifies a text with
    one of six words; the CLI too unless it classifies a text with one of four
    words or summarises a blank text, where it counts no word instead of one. *)
Theorem executors_agree taskType input :
  mobile_executeTask taskType input = executeTask taskType input ∧
  (taskType ≠ "classify" ∨ knows_none sim_unknown input = true →
     sim_executeTask taskType input = executeTask taskType input) ∧
  (taskType ≠ "summarize" → taskType ≠ "classify" ∨ knows_none cli_unknown input = true →
     cli_executeTask taskType input = executeTask taskType input) ∧
  (cli_executeTask "summarize" input = executeTask "summarize" input ↔ word_starts true input ≠ 0%nat) ∧
  sim_executeTask "classify" "The best" ≠ executeTask "classify" "The best" ∧
  cli_executeTask "classify" "So sad" ≠ executeTask "classify" "So sad".
Proof.
  split; [done|]. split; [|split; [|split; [|split]]].
  - intros H. unfold sim_executeTask, executeTask.
    destruct (String.eqb_spec taskType "summarize"); [done|].
    destruct (String.eqb_spec taskType "classify"); [|done]. destruct H as [|H]; [done|].
    symmetry. exact (classify_extra (take 6 positiveWords) (drop 6 positiveWords)
                            (take 6 negativeWords) (drop 6 negativeWords) input H).
  - intros Hs H. unfold cli_executeTask, executeTask.
    destruct (String.eqb_spec taskType "summarize"); [done|].
    destruct (String.eqb_spec taskType "classify"); [|done]. destruct H as [|H]; [done|].
    symmetry. exact (classify_extra (take 7 positiveWords) (drop 7 positiveWords)
                            (take 7 negativeWords) (drop 7 negativeWords) input H).
  - change (cli_executeTask "summarize" input)
      with (summarize_with (λ s, List.filter str_truthy (split_spaces (trim s))) input).
    change (executeTask "summarize" input) with (summarize_with split_words input).
    unfold summarize_with. rewrite cli_words_count, split_words_count.
    destruct (word_starts true input) as [|n]; [|by split].
    split; [|done]. intros H. vm_compute in H. congruence.
  - vm_compute. congruence.
  - vm_compute. congruence.
Qed.
