(* ===== verification/Interfaces.v ===== *)
(** * Interfaces between components

    [PayoutQueue] is what the worker hub and the server rely on from a payout
    distributor; bolt/BoltDistributor.ts and bolt/WrappedBoltDistributor.ts
    provide it (Payout.v).  [Ed25519] is the signature scheme of tweetnacl,
    code outside the repository: the workers sign and the hub verifies. *)

From stdpp Require Import base list strings option.
From S2P Require Import Prelude Js Protocol.

(** ** Payout distributors *)

Record SettlementResult := {
  sr_workerPubkey : string; sr_jobIds : list string; sr_txHash : string; sr_amount : jsnum }.

(** A call of [onSettled] or [onFailed]. *)
Inductive Notice :=
  | Settled (r : SettlementResult)
  | SettleFailed (workerPubkey : string) (jobIds : list string) (error : string).

Definition notice_jobs (n : Notice) : list (string * string) :=
  match n with
  | Settled r => (λ j, (sr_workerPubkey r, j)) <$> sr_jobIds r
  | SettleFailed w js _ => (λ j, (w, j)) <$> js
  end.

Class PayoutQueue (D : Type) := {
  pq_queue : string -> string -> jsnum -> D -> D;
  pq_step : D -> D -> Prop;          (* timers and finished transactions *)
  pq_callbacks : D -> list Notice;   (* calls made so far, oldest first *)
  pq_accounted : D -> list (string * string);
  pq_inv : D -> Prop }.

(** What a distributor promises: each queued payout is held exactly once,
    whatever the distributor does with it, and calls are only ever added. *)
Class PayoutQueueLaws (D : Type) `{PayoutQueue D} := {
  pq_queue_inv w j a d : pq_inv d -> pq_inv (pq_queue w j a d);
  pq_step_inv d d' : pq_step d d' -> pq_inv d -> pq_inv d';
  pq_queue_accounted w j a d :
    pq_inv d -> pq_accounted (pq_queue w j a d) ≡ₚ (w, j) :: pq_accounted d;
  pq_step_accounted d d' : pq_step d d' -> pq_inv d -> pq_accounted d' ≡ₚ pq_accounted d;
  pq_queue_callbacks w j a d : pq_callbacks d `prefix_of` pq_callbacks (pq_queue w j a d);
  pq_step_callbacks d d' : pq_step d d' -> pq_callbacks d `prefix_of` pq_callbacks d' }.

(** ** Signatures *)

Class Ed25519 := {
  secret_key : Type;
  pubkey_hex : secret_key -> string;
  (** base64 of [nacl.sign.detached (utf8 message)] *)
  sign_detached : secret_key -> string -> string;
  (** [nacl.sign.detached.verify] on the decoded base64 signature and hex key;
      false also when it throws on a malformed key or signature *)
  verify_detached : string -> string -> string -> bool }.

Class Ed25519Laws `{Ed25519} := {
  verify_sign sk m : verify_detached m (sign_detached sk m) (pubkey_hex sk) = true }.
