(* ===== verification/Payout.v ===== *)
(** * Batched payouts: bolt/BoltDistributor.ts and bolt/WrappedBoltDistributor.ts

    Both classes run the same queue: [queuePayout] accumulates a batch per
    worker, [settleWorker] removes the batch and awaits the chain transaction,
    a failure re-queues the batch until its retry count reaches three.  They
    differ in the threshold, in what is checked before the transaction and in
    the custodial balance the wrapped distributor keeps; [DistConfig] holds
    these differences and [bolt_*] / [wbolt_*] are the two classes.

    An [await] ends a step: a settlement in progress is an [inflight] entry,
    and its completion (with the transaction hash, or with the error) is a
    later step, so every interleaving of queueing, timers and completions is
    a sequence of [dist_step]s and [queuePayout]s.  [callbacks] lists the
    [onSettled] / [onFailed] calls made, oldest first. *)

From stdpp Require Import base list strings option relations.
From Stdlib Require Import ZArith Lia Ascii SpecFloat.
From S2P Require Import Prelude Js Protocol Interfaces.

(** ** Data *)

Record PendingPayout := mkPayout {
  pp_workerPubkey : string; pp_jobIds : list string; pp_total : jsnum; pp_retryCount : nat }.

Inductive TxOutcome := TxOk (hash : string) | TxErr (message : string).

Record DistConfig := {
  JOBS_THRESHOLD : nat;
  SETTLE_INTERVAL_MS : Z;
  (** an error thrown before the first [await], if any *)
  precheck : string -> PendingPayout -> option string;
  tracksBalances : bool }.

Record DistState := mkDist {
  pendingPayouts : jsmap PendingPayout;
  workerBalances : jsmap jsnum;
  timer : bool;
  settling : bool;
  settleQueue : list string;     (* rest of the [workers] snapshot of [settleAll] *)
  awaiting : option nat;         (* the settlement [settleAll] awaits *)
  inflight : list (nat * (string * PendingPayout));
  nextOp : nat;
  callbacks : list Notice }.

Definition initDist : DistState := mkDist [] [] true false [] None [] 0 [].

(** ** Operations *)

Definition with_pending (f : jsmap PendingPayout -> jsmap PendingPayout) (d : DistState) : DistState :=
  mkDist (f (pendingPayouts d)) (workerBalances d) (timer d) (settling d) (settleQueue d)
    (awaiting d) (inflight d) (nextOp d) (callbacks d).

Definition with_settling (b : bool) (q : list string) (d : DistState) : DistState :=
  mkDist (pendingPayouts d) (workerBalances d) (timer d) b q
    (awaiting d) (inflight d) (nextOp d) (callbacks d).

Definition notify (n : Notice) (d : DistState) : DistState :=
  mkDist (pendingPayouts d) (workerBalances d) (timer d) (settling d) (settleQueue d)
    (awaiting d) (inflight d) (nextOp d) (callbacks d ++ [n]).

Definition launch (fromAll : bool) (w : string) (p : PendingPayout) (d : DistState) : DistState :=
  mkDist (pendingPayouts d) (workerBalances d) (timer d) (settling d) (settleQueue d)
    (if fromAll then Some (nextOp d) else awaiting d)
    (inflight d ++ [(nextOp d, (w, p))]) (S (nextOp d)) (callbacks d).

Definition land (op : nat) (d : DistState) : DistState :=
  mkDist (pendingPayouts d) (workerBalances d) (timer d) (settling d) (settleQueue d)
    (if decide (awaiting d = Some op) then None else awaiting d)
    (filter (λ x, x.1 ≠ op) (inflight d)) (nextOp d) (callbacks d).

Abbreviation bump_retry p := (mkPayout (pp_workerPubkey p) (pp_jobIds p) (pp_total p) (S (pp_retryCount p))).

(** [current.jobIds.unshift(...payout.jobIds); current.total += payout.total] *)
Definition merge_into (p current : PendingPayout) : PendingPayout :=
  mkPayout (pp_workerPubkey current) (pp_jobIds p ++ pp_jobIds current)
    (num_add (pp_total current) (pp_total p)) (pp_retryCount current).

(** [existing.jobIds.push(jobId); existing.total += amount] *)
Definition push_job (jobId : string) (amount : jsnum) (p : PendingPayout) : PendingPayout :=
  mkPayout (pp_workerPubkey p) (pp_jobIds p ++ [jobId]) (num_add (pp_total p) amount)
    (pp_retryCount p).

(** The [catch] block of [settleWorker]. *)
Definition settle_catch (w : string) (payout : PendingPayout) (err : string) (d : DistState) : DistState :=
  let p := bump_retry payout in
  if (pp_retryCount p <? 3)%nat then
    match jm_get w (pendingPayouts d) with
    | Some _ => with_pending (jm_mutate (merge_into p) w) d
    | None => with_pending (jm_set w p) d
    end
  else notify (SettleFailed w (pp_jobIds p) err) d.

Definition bump_balance (w : string) (amount : jsnum) (d : DistState) : DistState :=
  let prev := default (num_of_Z 0) (jm_get w (workerBalances d)) in
  mkDist (pendingPayouts d) (jm_set w (num_add prev amount) (workerBalances d)) (timer d)
    (settling d) (settleQueue d) (awaiting d) (inflight d) (nextOp d) (callbacks d).

(** The rest of [settleWorker] once the transaction is confirmed. *)
Definition settle_ok (cfg : DistConfig) (w : string) (payout : PendingPayout) (txHash : string)
    (d : DistState) : DistState :=
  let d := if tracksBalances cfg then bump_balance w (pp_total payout) d else d in
  notify (Settled {| sr_workerPubkey := pp_workerPubkey payout; sr_jobIds := pp_jobIds payout;
                     sr_txHash := txHash; sr_amount := pp_total payout |}) d.

(** [settleWorker] up to its first [await]; [fromAll] when [settleAll] awaits it. *)
Definition settleWorker (cfg : DistConfig) (fromAll : bool) (w : string) (d : DistState) : DistState :=
  match jm_get w (pendingPayouts d) with
  | None => d
  | Some payout =>
      if decide (pp_jobIds payout = []) then d
      else
        let d := with_pending (jm_delete w) d in
        match precheck cfg w payout with
        | Some err => settle_catch w payout err d
        | None => launch fromAll w payout d
        end
  end.

(** [settleWorker] after its [await]: the transaction of [op] finished. *)
Definition settleWorker_resume (cfg : DistConfig) (op : nat) (o : TxOutcome) (d : DistState) : DistState :=
  match list_find (λ x, x.1 = op) (inflight d) with
  | None => d
  | Some (_, (_, (w, payout))) =>
      let d := land op d in
      match o with
      | TxOk h => settle_ok cfg w payout h d
      | TxErr e => settle_catch w payout e d
      end
  end.

Definition queuePayout (cfg : DistConfig) (w jobId : string) (amount : jsnum) (d : DistState) : DistState :=
  match jm_get w (pendingPayouts d) with
  | Some existing =>
      let d := with_pending (jm_mutate (push_job jobId amount) w) d in
      if (JOBS_THRESHOLD cfg <=? length (pp_jobIds existing ++ [jobId]))%nat
      then settleWorker cfg false w d else d
  | None => with_pending (jm_set w (mkPayout w [jobId] amount 0)) d
  end.

(** [settleAll]: the guard and the snapshot, then one loop iteration per step. *)
Definition settleAll (d : DistState) : DistState :=
  if settling d then d else with_settling true (jm_keys (pendingPayouts d)) d.

Definition settleAll_next (cfg : DistConfig) (d : DistState) : DistState :=
  if settling d then
    match awaiting d, settleQueue d with
    | Some _, _ => d
    | None, [] => with_settling false [] d
    | None, w :: ws => settleWorker cfg true w (with_settling true ws d)
    end
  else d.

Definition shutdown (d : DistState) : DistState :=
  mkDist (pendingPayouts d) (workerBalances d) false (settling d) (settleQueue d)
    (awaiting d) (inflight d) (nextOp d) (callbacks d).

Inductive dist_step (cfg : DistConfig) : DistState -> DistState -> Prop :=
  | ds_timer d : timer d = true -> dist_step cfg d (settleAll d)
  | ds_next d : dist_step cfg d (settleAll_next cfg d)
  | ds_tx d op o : dist_step cfg d (settleWorker_resume cfg op o d)
  | ds_shutdown d : dist_step cfg d (shutdown d).

(** [BigInt(Math.round(total * 10 ** decimals))] *)
Definition rawAmount (total : jsnum) (decimals : Z) : option Z :=
  math_round (num_mul total (num_of_Z (10 ^ decimals))).

(** ** The two distributors *)

Definition is_hex_digit (c : ascii) : bool :=
  let n := nat_of_ascii c in
  ((48 <=? n) && (n <=? 57) || (65 <=? n) && (n <=? 70) || (97 <=? n) && (n <=? 102))%nat.

Definition isHex (w : string) : bool :=
  (String.length w =? 64)%nat && forallb is_hex_digit (String.list_ascii_of_string w).

(** [base58_pubkey] stands for [new PublicKey(string)] of @solana/web3.js: it
    accepts the string or throws. *)
Definition bolt_config (base58_pubkey : string -> bool) : DistConfig := {|
  JOBS_THRESHOLD := 1;
  SETTLE_INTERVAL_MS := 30000;
  precheck w _ := if isHex w || base58_pubkey w then None else Some "Invalid public key input";
  tracksBalances := false |}.

Definition wbolt_config : DistConfig := {|
  JOBS_THRESHOLD := 5;
  SETTLE_INTERVAL_MS := 60000;
  precheck _ p :=
    match rawAmount (pp_total p) 9 with
    | Some _ => None
    | None => Some "The number cannot be converted to a BigInt because it is not an integer"
    end;
  tracksBalances := true |}.

Definition bolt_queuePayout bp := queuePayout (bolt_config bp).
Definition bolt_settleWorker bp := settleWorker (bolt_config bp).
Definition bolt_step bp := dist_step (bolt_config bp).
Definition wbolt_queuePayout := queuePayout wbolt_config.
Definition wbolt_settleAll := settleAll.
Definition wbolt_settleWorker := settleWorker wbolt_config.
Definition wbolt_settleWorker_resume := settleWorker_resume wbolt_config.
Definition wbolt_shutdown := shutdown.

Definition getWorkerBalance (pubkey : string) (d : DistState) : jsnum :=
  default (num_of_Z 0) (jm_get pubkey (workerBalances d)).

(** ** Accounting *)

Definition jobs_of (p : PendingPayout) : list (string * string) :=
  (λ j, (pp_workerPubkey p, j)) <$> pp_jobIds p.

(** Every (worker, job) payout the distributor is responsible for: waiting,
    in a transaction, or reported through a callback. *)
Definition accounted (d : DistState) : list (string * string) :=
  (jm_values (pendingPayouts d) ≫= jobs_of) ++
  (inflight d ≫= λ x, jobs_of x.2.2) ++
  (callbacks d ≫= notice_jobs).

Record dist_wf (d : DistState) : Prop := {
  dw_map : jm_wf (pendingPayouts d);
  dw_key : ∀ k p, jm_get k (pendingPayouts d) = Some p → pp_workerPubkey p = k;
  dw_retry : ∀ k p, jm_get k (pendingPayouts d) = Some p → pp_retryCount p < 3;
  dw_ops : NoDup (inflight d).*1;
  dw_next : ∀ op x, (op, x) ∈ inflight d → op < nextOp d;
  dw_fly : ∀ op w p, (op, (w, p)) ∈ inflight d → pp_workerPubkey p = w ∧ pp_retryCount p < 3 }.

Lemma dist_wf_init : dist_wf initDist.
Proof.
  split; simpl; try (intros; done); [apply NoDup_nil_2 | apply NoDup_nil_2 | set_solver | set_solver].
Qed.

Lemma dist_wf_delete w d : dist_wf d → dist_wf (with_pending (jm_delete w) d).
Proof.
  intros [Hm Hk Hr Ho Hn Hf]. split; simpl; eauto with dispatch;
    intros k p; rewrite jm_get_delete by done; case_decide; naive_solver.
Qed.

Lemma dist_wf_set w p d :
  dist_wf d → pp_workerPubkey p = w → pp_retryCount p < 3 →
  dist_wf (with_pending (jm_set w p) d).
Proof.
  intros [Hm Hk Hr Ho Hn Hf] Hw Hp. split; simpl; eauto with dispatch;
    intros k q; rewrite jm_get_set; case_decide; naive_solver.
Qed.

Lemma dist_wf_mutate f w d :
  dist_wf d → (∀ p, pp_workerPubkey (f p) = pp_workerPubkey p) →
  (∀ p, pp_retryCount (f p) = pp_retryCount p) →
  dist_wf (with_pending (jm_mutate f w) d).
Proof.
  intros [Hm Hk Hr Ho Hn Hf] Hw Hp. split; simpl; eauto with dispatch;
    intros k q; rewrite jm_get_mutate; (case_decide; [|eauto]);
    intros (p & ? & ->)%fmap_Some; first [rewrite Hw | rewrite Hp]; eauto.
Qed.

Lemma dist_wf_notify n d : dist_wf d → dist_wf (notify n d).
Proof. intros [Hm Hk Hr Ho Hn Hf]. by split. Qed.

Lemma dist_wf_settling b q d : dist_wf d → dist_wf (with_settling b q d).
Proof. intros [Hm Hk Hr Ho Hn Hf]. by split. Qed.

Lemma dist_wf_balance w a d : dist_wf d → dist_wf (bump_balance w a d).
Proof. intros [Hm Hk Hr Ho Hn Hf]. by split. Qed.

Lemma dist_wf_shutdown d : dist_wf d → dist_wf (shutdown d).
Proof. intros [Hm Hk Hr Ho Hn Hf]. by split. Qed.

Lemma dist_wf_launch b w p d :
  dist_wf d → pp_workerPubkey p = w → pp_retryCount p < 3 → dist_wf (launch b w p d).
Proof.
  intros [Hm Hk Hr Ho Hn Hf] Hw Hp. split; simpl; try done.
  - rewrite fmap_app. apply NoDup_app. split_and!; [done| |apply NoDup_singleton].
    intros op [[op' x] [-> Hin]]%list_elem_of_fmap; simpl. rewrite list_elem_of_singleton.
    intros ->. apply Hn in Hin. lia.
  - intros op x [Hin|Hin]%elem_of_app; [apply Hn in Hin; lia|].
    apply list_elem_of_singleton in Hin. naive_solver lia.
  - intros op w' q [Hin|Hin]%elem_of_app; [eauto|].
    apply list_elem_of_singleton in Hin. naive_solver.
Qed.

Lemma dist_wf_land op d : dist_wf d → dist_wf (land op d).
Proof.
  intros [Hm Hk Hr Ho Hn Hf]. split; simpl; try done.
  - eapply sublist_NoDup; [done|]. apply fmap_sublist, sublist_filter.
  - intros op' x [_ ?]%list_elem_of_filter; eauto.
  - intros op' w p [_ ?]%list_elem_of_filter; eauto.
Qed.

#[export] Hint Resolve dist_wf_init dist_wf_delete dist_wf_set dist_wf_notify dist_wf_settling
  dist_wf_balance dist_wf_shutdown dist_wf_launch dist_wf_land : dispatch.

Lemma settle_catch_wf w p err d :
  dist_wf d → pp_workerPubkey p = w → dist_wf (settle_catch w p err d).
Proof.
  intros Hwf Hw. unfold settle_catch. destruct (Nat.ltb_spec (pp_retryCount (bump_retry p)) 3).
  - destruct (jm_get w _); [apply dist_wf_mutate | apply dist_wf_set]; done.
  - eauto with dispatch.
Qed.

Lemma settleWorker_wf cfg b w d : dist_wf d → dist_wf (settleWorker cfg b w d).
Proof.
  intros Hwf. unfold settleWorker. destruct (jm_get w _) as [p|] eqn:Hp; [|done].
  case_decide; [done|]. pose proof (dw_key _ Hwf _ _ Hp). pose proof (dw_retry _ Hwf _ _ Hp).
  destruct (precheck _ _ _); [apply settle_catch_wf | apply dist_wf_launch]; eauto with dispatch.
Qed.

Lemma queuePayout_wf cfg w j a d : dist_wf d → dist_wf (queuePayout cfg w j a d).
Proof.
  intros Hwf. unfold queuePayout. destruct (jm_get w _) eqn:Hp.
  - assert (dist_wf (with_pending (jm_mutate (push_job j a) w) d)) by by apply dist_wf_mutate.
    case_match; [by apply settleWorker_wf | done].
  - apply dist_wf_set; simpl; auto with lia.
Qed.

Lemma settleWorker_resume_wf cfg op o d : dist_wf d → dist_wf (settleWorker_resume cfg op o d).
Proof.
  intros Hwf. unfold settleWorker_resume.
  destruct (list_find _ _) as [[i [op' [w p]]]|] eqn:Hfind; [|done].
  apply list_find_Some in Hfind as (Hi & Hop & _). apply list_elem_of_lookup_2 in Hi.
  destruct (dw_fly _ Hwf _ _ _ Hi). destruct o.
  - unfold settle_ok. destruct (tracksBalances cfg); eauto with dispatch.
  - apply settle_catch_wf; eauto with dispatch.
Qed.

Lemma dist_step_wf cfg d d' : dist_step cfg d d' → dist_wf d → dist_wf d'.
Proof.
  destruct 1; intros Hwf; eauto using settleWorker_resume_wf with dispatch.
  - unfold settleAll. destruct (settling d); eauto with dispatch.
  - unfold settleAll_next. repeat case_match; eauto using settleWorker_wf with dispatch.
Qed.

Lemma pending_jobs_delete k p (m : jsmap PendingPayout) :
  jm_get k m = Some p →
  (jm_values m ≫= jobs_of) ≡ₚ jobs_of p ++ (jm_values (jm_delete k m) ≫= jobs_of).
Proof. intros H. unfold jm_values. by rewrite (jm_delete_perm _ _ _ H) at 1. Qed.

Lemma pending_jobs_set k p (m : jsmap PendingPayout) :
  jm_get k m = None →
  (jm_values (jm_set k p m) ≫= jobs_of) ≡ₚ jobs_of p ++ (jm_values m ≫= jobs_of).
Proof. intros H. unfold jm_values. by rewrite (jm_set_perm _ _ _ H). Qed.

Lemma pending_jobs_mutate f k p (m : jsmap PendingPayout) :
  jm_get k m = Some p →
  (jm_values (jm_mutate f k m) ≫= jobs_of) ≡ₚ jobs_of (f p) ++ (jm_values (jm_delete k m) ≫= jobs_of).
Proof. intros H. unfold jm_values. by rewrite (jm_mutate_perm _ _ _ _ H). Qed.

Lemma jobs_of_merge p c :
  pp_workerPubkey p = pp_workerPubkey c → jobs_of (merge_into p c) = jobs_of p ++ jobs_of c.
Proof. intros H. unfold jobs_of, merge_into; simpl. by rewrite fmap_app, H. Qed.

Lemma jobs_of_push j a p : jobs_of (push_job j a p) = jobs_of p ++ [(pp_workerPubkey p, j)].
Proof. unfold jobs_of, push_job; simpl. by rewrite fmap_app. Qed.

Lemma accounted_pending f d :
  accounted (with_pending f d) =
  (jm_values (f (pendingPayouts d)) ≫= jobs_of) ++
  (inflight d ≫= λ x, jobs_of x.2.2) ++ (callbacks d ≫= notice_jobs).
Proof. done. Qed.

Lemma accounted_notify n d : accounted (notify n d) ≡ₚ notice_jobs n ++ accounted d.
Proof.
  unfold accounted, notify; simpl. rewrite bind_app; simpl. rewrite app_nil_r. solve_Permutation.
Qed.

Lemma accounted_launch b w p d : accounted (launch b w p d) ≡ₚ jobs_of p ++ accounted d.
Proof.
  unfold accounted, launch; simpl. rewrite bind_app; simpl. rewrite app_nil_r. solve_Permutation.
Qed.

Lemma accounted_delete w p d :
  jm_get w (pendingPayouts d) = Some p →
  accounted d ≡ₚ jobs_of p ++ accounted (with_pending (jm_delete w) d).
Proof.
  intros H. unfold accounted; simpl. rewrite (pending_jobs_delete _ _ _ H). by rewrite <- (assoc_L (++)).
Qed.

Lemma settle_catch_accounted w p err d :
  dist_wf d → pp_workerPubkey p = w →
  accounted (settle_catch w p err d) ≡ₚ jobs_of p ++ accounted d.
Proof.
  intros Hwf Hw. unfold settle_catch. destruct (pp_retryCount (bump_retry p) <? 3)%nat.
  - destruct (jm_get w (pendingPayouts d)) as [c|] eqn:Hc.
    + pose proof (dw_key _ Hwf _ _ Hc) as Hk.
      rewrite accounted_pending, (pending_jobs_mutate _ _ _ _ Hc).
      rewrite jobs_of_merge by (cbn; congruence).
      unfold accounted. rewrite (pending_jobs_delete _ _ _ Hc), <- !(assoc_L (++)). done.
    + rewrite accounted_pending, (pending_jobs_set _ _ _ Hc), <- !(assoc_L (++)). done.
  - rewrite accounted_notify. simpl. rewrite <- Hw. done.
Qed.

Lemma settleWorker_accounted cfg b w d :
  dist_wf d → accounted (settleWorker cfg b w d) ≡ₚ accounted d.
Proof.
  intros Hwf. unfold settleWorker.
  destruct (jm_get w (pendingPayouts d)) as [p|] eqn:Hp; [|done].
  case_decide; [done|]. rewrite (accounted_delete _ _ _ Hp).
  pose proof (dw_key _ Hwf _ _ Hp) as Hk.
  destruct (precheck cfg w p).
  - rewrite settle_catch_accounted; [done| |done].
    by apply dist_wf_delete.
  - by rewrite accounted_launch.
Qed.

Lemma queuePayout_accounted cfg w j a d :
  dist_wf d → accounted (queuePayout cfg w j a d) ≡ₚ (w, j) :: accounted d.
Proof.
  intros Hwf. unfold queuePayout. destruct (jm_get w (pendingPayouts d)) as [p|] eqn:Hp.
  - assert (accounted (with_pending (jm_mutate (push_job j a) w) d) ≡ₚ (w, j) :: accounted d) as Hacc.
    { rewrite accounted_pending, (pending_jobs_mutate _ _ _ _ Hp), jobs_of_push.
      unfold accounted. rewrite (pending_jobs_delete _ _ _ Hp), (dw_key _ Hwf _ _ Hp).
      solve_Permutation. }
    case_match; [rewrite settleWorker_accounted; [done|] | done]. by apply dist_wf_mutate.
  - rewrite accounted_pending, (pending_jobs_set _ _ _ Hp). done.
Qed.

Lemma accounted_land op w p d :
  dist_wf d → (op, (w, p)) ∈ inflight d → accounted d ≡ₚ jobs_of p ++ accounted (land op d).
Proof.
  intros Hwf Hin. unfold accounted; simpl.
  pose proof (filter_key_perm _ _ _ (dw_ops _ Hwf) Hin) as Hperm.
  rewrite Hperm at 1. csimpl. solve_Permutation.
Qed.

Lemma settleWorker_resume_accounted cfg op o d :
  dist_wf d → accounted (settleWorker_resume cfg op o d) ≡ₚ accounted d.
Proof.
  intros Hwf. unfold settleWorker_resume.
  destruct (list_find _ _) as [[i [op' [w p]]]|] eqn:Hfind; [|done].
  apply list_find_Some in Hfind as (Hi & Hop & _); simpl in Hop; subst op'.
  apply list_elem_of_lookup_2 in Hi. destruct (dw_fly _ Hwf _ _ _ Hi) as [Hw _].
  rewrite (accounted_land _ _ _ _ Hwf Hi). destruct o.
  - unfold settle_ok. rewrite accounted_notify. by destruct (tracksBalances cfg).
  - apply settle_catch_accounted; eauto with dispatch.
Qed.

Lemma dist_step_accounted cfg d d' : dist_step cfg d d' → dist_wf d → accounted d' ≡ₚ accounted d.
Proof.
  destruct 1; intros Hwf.
  - unfold settleAll. by destruct (settling d).
  - unfold settleAll_next. repeat case_match; try done.
    rewrite settleWorker_accounted; [done|]. eauto with dispatch.
  - by apply settleWorker_resume_accounted.
  - done.
Qed.

Lemma settle_catch_callbacks w p e d : callbacks d `prefix_of` callbacks (settle_catch w p e d).
Proof. unfold settle_catch. repeat case_match; simpl; try done. by eexists. Qed.

Lemma settleWorker_callbacks cfg b w d : callbacks d `prefix_of` callbacks (settleWorker cfg b w d).
Proof.
  unfold settleWorker. repeat case_match; try done.
  apply (settle_catch_callbacks w _ _ (with_pending (jm_delete w) d)).
Qed.

Lemma queuePayout_callbacks cfg w j a d : callbacks d `prefix_of` callbacks (queuePayout cfg w j a d).
Proof.
  unfold queuePayout. repeat case_match; try done.
  apply (settleWorker_callbacks cfg false w (with_pending (jm_mutate (push_job j a) w) d)).
Qed.

Lemma dist_step_callbacks cfg d d' : dist_step cfg d d' → callbacks d `prefix_of` callbacks d'.
Proof.
  destruct 1.
  - unfold settleAll. by case_match.
  - unfold settleAll_next. repeat case_match; try done.
    eapply (settleWorker_callbacks cfg true _ (with_settling true _ d)).
  - unfold settleWorker_resume. repeat case_match; try done.
    + unfold settle_ok. case_match; simpl; by eexists.
    + eapply (settle_catch_callbacks _ _ _ (land op d)).
  - done.
Qed.

(** ** The interface is implemented *)

Definition dist_PQ (cfg : DistConfig) : PayoutQueue DistState := {|
  pq_queue := queuePayout cfg; pq_step := dist_step cfg; pq_callbacks := callbacks;
  pq_accounted := accounted; pq_inv := dist_wf |}.

Lemma dist_PQ_laws cfg : @PayoutQueueLaws DistState (dist_PQ cfg).
Proof.
  split; simpl; eauto using queuePayout_wf, dist_step_wf, queuePayout_accounted,
    dist_step_accounted, queuePayout_callbacks, dist_step_callbacks.
Qed.

(** ** Properties *)

(** Any interleaving of queueing, timers, finished transactions and shutdown,
    with the payouts queued on the way. *)
Inductive dist_run (cfg : DistConfig) : list (string * string) -> DistState -> Prop :=
  | run_init : dist_run cfg [] initDist
  | run_queue q d w j a :
      dist_run cfg q d -> dist_run cfg ((w, j) :: q) (queuePayout cfg w j a d)
  | run_step q d d' : dist_run cfg q d -> dist_step cfg d d' -> dist_run cfg q d'.

Lemma dist_run_wf cfg q d : dist_run cfg q d → dist_wf d.
Proof. induction 1; eauto using queuePayout_wf, dist_step_wf with dispatch. Qed.

(** C16: conservation of payouts.  Whatever the order in which payouts are
    queued, timers fire, transactions finish or fail and the distributor is
    shut down, the payouts waiting, in a transaction, or reported settled or
    failed are exactly the payouts queued, each as many times as it was queued. *)
Theorem payout_conservation cfg q d : dist_run cfg q d → accounted d ≡ₚ q.
Proof.
  induction 1 as [|q d w j a Hrun IH|q d d' Hrun IH Hstep]; [done| |].
  - rewrite queuePayout_accounted, IH; [done|]. by eapply dist_run_wf.
  - rewrite dist_step_accounted, IH; [done|done|]. by eapply dist_run_wf.
Qed.

(** A failed settlement attempt with nothing queued meanwhile. *)
Definition failed_attempt (cfg : DistConfig) (w e : string) (d : DistState) : DistState :=
  settleWorker_resume cfg (nextOp d) (TxErr e) (settleWorker cfg false w d).

Lemma launch_find b w p d :
  dist_wf d → list_find (λ x, x.1 = nextOp d) (inflight (launch b w p d)) =
  Some (length (inflight d), (nextOp d, (w, p))).
Proof.
  intros Hwf. simpl. apply list_find_Some. split_and!.
  - by rewrite list_lookup_middle.
  - done.
  - intros i [op x] Hi Hlt; simpl. rewrite lookup_app_l in Hi by lia.
    apply list_elem_of_lookup_2, (dw_next _ Hwf) in Hi. lia.
Qed.

Lemma land_launch b w p d :
  dist_wf d → filter (λ x, x.1 ≠ nextOp d) (inflight (launch b w p d)) = inflight d.
Proof.
  intros Hwf. simpl. rewrite filter_app, filter_cons_False by (intros Hne; by apply Hne).
  rewrite filter_nil, app_nil_r.
  apply filter_id. intros [op x] Hin%(dw_next _ Hwf); simpl. lia.
Qed.

Lemma settleWorker_launch cfg b w p d :
  jm_get w (pendingPayouts d) = Some p → pp_jobIds p ≠ [] → precheck cfg w p = None →
  settleWorker cfg b w d = launch b w p (with_pending (jm_delete w) d).
Proof. intros Hp Hj Hc. unfold settleWorker. by rewrite Hp, decide_False, Hc. Qed.

Lemma failed_attempt_eq cfg w e p d :
  dist_wf d → jm_get w (pendingPayouts d) = Some p → pp_jobIds p ≠ [] → precheck cfg w p = None →
  failed_attempt cfg w e d =
  settle_catch w p e (land (nextOp d) (launch false w p (with_pending (jm_delete w) d))).
Proof.
  intros Hwf Hp Hj Hc. unfold failed_attempt, settleWorker_resume.
  rewrite (settleWorker_launch _ _ _ _ _ Hp Hj Hc).
  pose proof (launch_find false w p (with_pending (jm_delete w) d)) as Hf.
  change (nextOp (with_pending _ d)) with (nextOp d) in Hf.
  by rewrite Hf by eauto with dispatch.
Qed.

Lemma failed_attempt_wf cfg w e d : dist_wf d → dist_wf (failed_attempt cfg w e d).
Proof. eauto using settleWorker_resume_wf, settleWorker_wf. Qed.

Lemma failed_attempt_retry cfg w e p d :
  dist_wf d → jm_get w (pendingPayouts d) = Some p → pp_jobIds p ≠ [] → precheck cfg w p = None →
  S (pp_retryCount p) < 3 →
  jm_get w (pendingPayouts (failed_attempt cfg w e d)) = Some (bump_retry p) ∧
  callbacks (failed_attempt cfg w e d) = callbacks d.
Proof.
  intros Hwf Hp Hj Hc Hr. rewrite (failed_attempt_eq _ _ _ _ _ Hwf Hp Hj Hc).
  unfold settle_catch; simpl. rewrite (proj2 (Nat.ltb_lt _ _) Hr).
  rewrite jm_get_delete_eq by apply dw_map, Hwf. simpl. by rewrite jm_get_set_eq.
Qed.

Lemma failed_attempt_final cfg w e p d :
  dist_wf d → jm_get w (pendingPayouts d) = Some p → pp_jobIds p ≠ [] → precheck cfg w p = None →
  pp_retryCount p = 2 →
  jm_get w (pendingPayouts (failed_attempt cfg w e d)) = None ∧
  callbacks (failed_attempt cfg w e d) = callbacks d ++ [SettleFailed w (pp_jobIds p) e].
Proof.
  intros Hwf Hp Hj Hc Hr. rewrite (failed_attempt_eq _ _ _ _ _ Hwf Hp Hj Hc).
  unfold settle_catch; simpl. rewrite Hr; simpl. by rewrite jm_get_delete_eq by apply dw_map, Hwf.
Qed.

(** Bounded retries.  A fresh batch of a worker with a 64-digit hex key
    whose transactions keep failing, with nothing queued meanwhile, is retried
    silently after the first and the second failure; the third failure removes
    it and reports all its jobs through [onFailed], once. *)
Theorem bolt_retries_then_fails bp w e p d :
  let a := failed_attempt (bolt_config bp) w e in
  dist_wf d → isHex w = true → jm_get w (pendingPayouts d) = Some p →
  pp_jobIds p ≠ [] → pp_retryCount p = 0 →
  callbacks (a (a d)) = callbacks d ∧
  jm_get w (pendingPayouts (a (a d))) = Some (bump_retry (bump_retry p)) ∧
  callbacks (a (a (a d))) = callbacks d ++ [SettleFailed w (pp_jobIds p) e] ∧
  jm_get w (pendingPayouts (a (a (a d)))) = None.
Proof.
  intros a Hwf Hhex Hp Hj Hr.
  assert (∀ q, precheck (bolt_config bp) w q = None) as Hc by (intros; simpl; by rewrite Hhex).
  destruct (failed_attempt_retry _ w e p d Hwf Hp Hj (Hc _)) as [H1 C1]; [lia|].
  pose proof (failed_attempt_wf (bolt_config bp) w e d Hwf) as Hwf1.
  destruct (failed_attempt_retry _ w e _ _ Hwf1 H1 Hj (Hc _)) as [H2 C2]; [simpl; lia|].
  pose proof (failed_attempt_wf (bolt_config bp) w e _ Hwf1) as Hwf2.
  destruct (failed_attempt_final _ w e _ _ Hwf2 H2 Hj (Hc _)) as [H3 C3]; [simpl; lia|].
  unfold a. rewrite C3, C2, C1. done.
Qed.

(** A failing attempt during which one more job of the worker completes. *)
Definition busy_failed_attempt (cfg : DistConfig) (w e j : string) (amt : jsnum) (d : DistState) : DistState :=
  settleWorker_resume cfg (nextOp d) (TxErr e)
    (queuePayout cfg w j amt (settleWorker cfg false w d)).

Lemma busy_failed_attempt_eq cfg w e j amt p d :
  dist_wf d → jm_get w (pendingPayouts d) = Some p → pp_jobIds p ≠ [] → precheck cfg w p = None →
  S (pp_retryCount p) < 3 →
  jm_get w (pendingPayouts (busy_failed_attempt cfg w e j amt d)) =
    Some (merge_into (bump_retry p) (mkPayout w [j] amt 0)) ∧
  callbacks (busy_failed_attempt cfg w e j amt d) = callbacks d.
Proof.
  intros Hwf Hp Hj Hc Hr. unfold busy_failed_attempt.
  rewrite (settleWorker_launch _ _ _ _ _ Hp Hj Hc).
  unfold queuePayout; simpl. rewrite jm_get_delete_eq by apply dw_map, Hwf.
  unfold settleWorker_resume.
  pose proof (launch_find false w p (with_pending (jm_delete w) d)) as Hf; simpl in *.
  rewrite Hf by eauto with dispatch. unfold settle_catch; simpl.
  rewrite (proj2 (Nat.ltb_lt _ _) Hr), jm_get_set_eq; simpl.
  rewrite jm_get_mutate_eq, jm_get_set_eq. done.
Qed.

Lemma busy_failed_attempt_wf cfg w e j amt d : dist_wf d → dist_wf (busy_failed_attempt cfg w e j amt d).
Proof. eauto using settleWorker_resume_wf, settleWorker_wf, queuePayout_wf. Qed.

(** The retry budget does not bound a busy worker.  When another job of
    the worker completes during each failing transaction, the re-queued batch
    is merged into the new one, whose retry count is zero: after any number
    of failed transactions nothing has been reported and the batch, now
    holding every job, is still pending with retry count zero. *)
Theorem merge_resets_retry_budget bp w e j amt p d n :
  dist_wf d → isHex w = true → jm_get w (pendingPayouts d) = Some p →
  pp_jobIds p ≠ [] → pp_retryCount p = 0 →
  let d' := Nat.iter n (busy_failed_attempt (bolt_config bp) w e j amt) d in
  callbacks d' = callbacks d ∧
  ∃ p', jm_get w (pendingPayouts d') = Some p' ∧ pp_retryCount p' = 0 ∧
        length (pp_jobIds p') = length (pp_jobIds p) + n.
Proof.
  intros Hwf Hhex Hp Hj Hr d'. subst d'.
  assert (dist_wf (Nat.iter n (busy_failed_attempt (bolt_config bp) w e j amt) d)) as Hwfn.
  { induction n; simpl; auto using busy_failed_attempt_wf. }
  induction n as [|n IH]; simpl in *; [split; [done|]; exists p; auto with lia|].
  assert (dist_wf (Nat.iter n (busy_failed_attempt (bolt_config bp) w e j amt) d)) as Hwf'.
  { clear -Hwf. induction n; simpl; auto using busy_failed_attempt_wf. }
  destruct (IH Hwf') as [Hcb (p' & Hp' & Hr' & Hlen)].
  assert (pp_jobIds p' ≠ []) as Hj'.
  { intros E. rewrite E in Hlen. destruct (pp_jobIds p); simpl in *; [done|lia]. }
  destruct (busy_failed_attempt_eq (bolt_config bp) w e j amt p' _ Hwf' Hp' Hj') as [H1 H2];
    [simpl; by rewrite Hhex | lia |].
  rewrite H2. split; [done|]. eexists. split; [exact H1|]. simpl. split; [done|].
  rewrite length_app, Hlen; simpl. lia.
Qed.

(** One iteration of the [settleAll] loop with its transaction confirmed. *)
Definition drive (cfg : DistConfig) (h : string) (d : DistState) : DistState :=
  let d1 := settleAll_next cfg d in
  match awaiting d1 with
  | Some op => settleWorker_resume cfg op (TxOk h) d1
  | None => d1
  end.

Definition settled_of (h : string) (p : PendingPayout) : Notice :=
  Settled {| sr_workerPubkey := pp_workerPubkey p; sr_jobIds := pp_jobIds p;
             sr_txHash := h; sr_amount := pp_total p |}.

Lemma settle_ok_fields cfg w p h d :
  let d' := settle_ok cfg w p h d in
  pendingPayouts d' = pendingPayouts d ∧ settling d' = settling d ∧
  settleQueue d' = settleQueue d ∧ awaiting d' = awaiting d ∧
  callbacks d' = callbacks d ++ [settled_of h p].
Proof. unfold settle_ok. by destruct (tracksBalances cfg). Qed.

Lemma settle_ok_wf cfg w p h d : dist_wf d → dist_wf (settle_ok cfg w p h d).
Proof. unfold settle_ok. destruct (tracksBalances cfg); eauto with dispatch. Qed.

Lemma drive_cons cfg h w p m d :
  dist_wf d → settling d = true → awaiting d = None →
  pendingPayouts d = (w, p) :: m → settleQueue d = w :: jm_keys m →
  pp_jobIds p ≠ [] → precheck cfg w p = None →
  let d' := drive cfg h d in
  dist_wf d' ∧ settling d' = true ∧ awaiting d' = None ∧
  pendingPayouts d' = m ∧ settleQueue d' = jm_keys m ∧
  callbacks d' = callbacks d ++ [settled_of h p].
Proof.
  intros Hwf Hs Ha Hm Hq Hj Hc. unfold drive, settleAll_next. rewrite Hs, Ha, Hq.
  set (d0 := with_settling true (jm_keys m) d).
  assert (jm_get w (pendingPayouts d0) = Some p) as Hp by (simpl; rewrite Hm; simpl; by rewrite decide_True).
  assert (dist_wf d0) as Hwf0 by (unfold d0; eauto with dispatch).
  rewrite (settleWorker_launch _ _ _ _ _ Hp Hj Hc).
  assert (dw_pubkey : pp_workerPubkey p = w) by (by eapply (dw_key _ Hwf0)).
  assert (dw_rc : pp_retryCount p < 3) by (by eapply (dw_retry _ Hwf0)).
  assert (dist_wf (launch true w p (with_pending (jm_delete w) d0))) as Hwf1 by eauto with dispatch.
  simpl (awaiting (launch _ _ _ _)). cbv iota beta.
  unfold settleWorker_resume.
  pose proof (launch_find true w p (with_pending (jm_delete w) d0)) as Hf.
  change (nextOp (with_pending _ d0)) with (nextOp d) in Hf |- *.
  rewrite Hf by eauto with dispatch.
  match goal with |- context [settle_ok cfg w p h ?x] =>
    destruct (settle_ok_fields cfg w p h x) as (-> & -> & -> & -> & ->);
    split; [by apply settle_ok_wf, dist_wf_land|] end.
  simpl. rewrite decide_True by done. rewrite Hm; simpl. rewrite decide_True by done. done.
Qed.

Lemma drive_all cfg h m d :
  dist_wf d → settling d = true → awaiting d = None →
  pendingPayouts d = m → settleQueue d = jm_keys m →
  (∀ w p, (w, p) ∈ m → pp_jobIds p ≠ [] ∧ precheck cfg w p = None) →
  let d' := Nat.iter (S (length m)) (drive cfg h) d in
  settling d' = false ∧ pendingPayouts d' = [] ∧
  callbacks d' = callbacks d ++ (settled_of h <$> jm_values m).
Proof.
  revert d. induction m as [|[w p] m IH]; intros d Hwf Hs Ha Hm Hq Hall; cbv zeta.
  - simpl. unfold drive, settleAll_next. rewrite Hs, Ha, Hq; simpl.
    rewrite Ha; simpl. rewrite Hm, app_nil_r. done.
  - destruct (Hall w p) as [Hj Hc]; [set_solver|].
    destruct (drive_cons cfg h w p m d Hwf Hs Ha Hm Hq Hj Hc) as (Hwf' & Hs' & Ha' & Hm' & Hq' & Hcb).
    rewrite Nat.iter_succ_r.
    destruct (IH (drive cfg h d) Hwf' Hs' Ha' Hm' Hq') as (E1 & E2 & E3); [set_solver|].
    split; [exact E1|]. split; [exact E2|].
    refine (eq_trans E3 _). rewrite Hcb, <- (assoc_L (++)). done.
Qed.

(** C17: a settlement pass drains the queue.  When the interval timer fires
    while no pass is running and every transaction is confirmed, the pass
    ends (the [settling] flag is released) after one iteration per pending
    worker, nothing is pending, and each batch was reported settled once, in
    the order in which the workers were queued. *)
Theorem settle_pass_drains cfg h d :
  dist_wf d → settling d = false → awaiting d = None →
  (∀ w p, (w, p) ∈ pendingPayouts d → pp_jobIds p ≠ [] ∧ precheck cfg w p = None) →
  let d' := Nat.iter (S (length (pendingPayouts d))) (drive cfg h) (settleAll d) in
  settling d' = false ∧ pendingPayouts d' = [] ∧
  callbacks d' = callbacks d ++ (settled_of h <$> jm_values (pendingPayouts d)).
Proof.
  intros Hwf Hs Ha Hall. unfold settleAll. rewrite Hs.
  apply (drive_all cfg h (pendingPayouts d) (with_settling true _ d)); eauto with dispatch.
Qed.

(** When a payout starts a settlement.  Queueing a payout starts a
    transaction exactly when the worker already had a pending batch whose
    size reaches the threshold with the new job (and its key is accepted);
    the first payout of a worker never does, not even with the threshold of
    one job of [BoltDistributor]: it waits for the interval timer. *)
Theorem queuePayout_starts cfg w j a d :
  (∀ q, precheck cfg w q = None) →
  length (inflight (queuePayout cfg w j a d)) =
  length (inflight d) +
  match jm_get w (pendingPayouts d) with
  | Some p => if decide (JOBS_THRESHOLD cfg ≤ S (length (pp_jobIds p))) then 1 else 0
  | None => 0
  end.
Proof.
  intros Hc. unfold queuePayout. destruct (jm_get w (pendingPayouts d)) as [p|] eqn:Hp; simpl; [|lia].
  rewrite length_app; simpl. replace (length (pp_jobIds p) + 1) with (S (length (pp_jobIds p))) by lia.
  destruct (Nat.leb_spec (JOBS_THRESHOLD cfg) (S (length (pp_jobIds p)))).
  - rewrite decide_True by done. erewrite settleWorker_launch.
    + simpl. by rewrite length_app.
    + simpl. by rewrite jm_get_mutate_eq, Hp.
    + simpl. by destruct (pp_jobIds p).
    + done.
  - rewrite decide_False by lia. simpl. lia.
Qed.

(** Raw amount of a batch of [n] jobs accumulated one [+= 0.001] at a time. *)
Fixpoint batch_total (n : nat) : jsnum :=
  match n with
  | 0 => num_lit 1 1000
  | S n => num_add (batch_total n) (num_lit 1 1000)
  end.

Fixpoint check_batches (k : nat) (total : jsnum) (raw : Z) : bool :=
  bool_decide (rawAmount total 9 = Some raw) &&
  match k with
  | 0 => true
  | S k => check_batches k (num_add total (num_lit 1 1000)) (raw + 1000000)
  end.

Lemma check_batches_spec k n total raw :
  total = batch_total n → raw = (Z.of_nat (S n) * 1000000)%Z → check_batches k total raw = true →
  ∀ i, i ≤ k → rawAmount (batch_total (n + i)) 9 = Some (Z.of_nat (S (n + i)) * 1000000)%Z.
Proof.
  revert n total raw. induction k as [|k IH]; intros n total raw -> -> [H1 H2]%andb_prop i Hi.
  - apply bool_decide_eq_true in H1. replace i with 0 by lia. by rewrite Nat.add_0_r.
  - apply bool_decide_eq_true in H1. destruct i as [|i]; [by rewrite Nat.add_0_r|].
    rewrite <- Nat.add_succ_comm. eapply IH; [..|exact H2|lia]; [done|lia].
Qed.

(** No rounding loss in batched amounts.  Although 0.001 is not a binary
    fraction and the batch total is a running binary64 sum, the integer amount
    sent on chain for a batch of n jobs, 1 <= n <= 2000, is exactly
    n * 1000000 base units (0.001 BOLT per job at 9 decimals). *)
Theorem batch_raw_amount_exact n :
  1 ≤ n ≤ 2000 → rawAmount (batch_total (n - 1)) 9 = Some (Z.of_nat n * 1000000)%Z.
Proof.
  intros Hn. pose proof (check_batches_spec 1999 0 (batch_total 0) 1000000 eq_refl eq_refl) as H.
  specialize (H ltac:(vm_compute; reflexivity) (n - 1) ltac:(lia)).
  rewrite Nat.add_0_l in H. rewrite H. do 2 f_equal. lia.
Qed.

(** ** Witnesses *)

Definition w_key : string := "00112233445566778899aabbccddeeff00112233445566778899aabbccddeeff".
Definition w_amt : jsnum := num_lit 1 1000.
Definition w_dist : DistState := queuePayout (bolt_config (λ _, false)) w_key "job-1" w_amt initDist.

Lemma w_dist_wf : dist_wf w_dist.
Proof. apply queuePayout_wf, dist_wf_init. Qed.

Lemma payout_conservation_witness :
  accounted (settleAll (wbolt_queuePayout w_key "job-1" w_amt initDist)) ≡ₚ [(w_key, "job-1")].
Proof.
  apply (payout_conservation wbolt_config). eapply run_step.
  - apply (run_queue wbolt_config []), run_init.
  - by apply ds_timer.
Defined.

Lemma bolt_retries_then_fails_witness :
  callbacks (failed_attempt (bolt_config (λ _, false)) w_key "timeout"
    (failed_attempt (bolt_config (λ _, false)) w_key "timeout"
      (failed_attempt (bolt_config (λ _, false)) w_key "timeout" w_dist))) =
  [SettleFailed w_key ["job-1"] "timeout"].
Proof.
  eapply (proj1 (proj2 (proj2 (bolt_retries_then_fails (λ _, false) w_key "timeout"
    (mkPayout w_key ["job-1"] w_amt 0) w_dist w_dist_wf eq_refl eq_refl ltac:(done) eq_refl)))).
Defined.

Lemma merge_resets_retry_budget_witness :
  callbacks (Nat.iter 7 (busy_failed_attempt (bolt_config (λ _, false)) w_key "timeout" "job-2" w_amt) w_dist) = [].
Proof.
  apply (merge_resets_retry_budget (λ _, false) w_key "timeout" "job-2" w_amt
    (mkPayout w_key ["job-1"] w_amt 0) w_dist 7 w_dist_wf eq_refl eq_refl ltac:(done) eq_refl).
Defined.

Lemma settle_pass_drains_witness :
  callbacks (Nat.iter 2 (drive (bolt_config (λ _, false)) "5sig") (settleAll w_dist)) =
  [settled_of "5sig" (mkPayout w_key ["job-1"] w_amt 0)].
Proof.
  apply (settle_pass_drains (bolt_config (λ _, false)) "5sig" w_dist w_dist_wf eq_refl eq_refl).
  intros w p Hin. apply list_elem_of_singleton in Hin as [= -> ->]. done.
Defined.

Lemma queuePayout_starts_witness :
  length (inflight (wbolt_queuePayout w_key "job-1" w_amt initDist)) = 0 ∧
  length (inflight (queuePayout (bolt_config (λ _, true)) w_key "job-2" w_amt w_dist)) = 1.
Proof.
  split; [reflexivity|].
  exact (queuePayout_starts (bolt_config (λ _, true)) w_key "job-2" w_amt w_dist (λ q, eq_refl)).
Defined.

Lemma batch_raw_amount_exact_witness : rawAmount (batch_total 4) 9 = Some 5000000%Z.
Proof. exact (batch_raw_amount_exact 5 ltac:(lia)). Defined.
