(* ===== verification/Db.v ===== *)
(** * The SQLite schema of db.ts and the statements the routes and the hub run

    [jobs] is keyed by its primary key; [trust_pairings] and [receipts] are
    lists in rowid order.  TEXT columns holding [JSON.stringify v] hold [v];
    timestamps are milliseconds.  One definition per SQL statement; an INSERT
    that violates a constraint throws. *)

From stdpp Require Import base list gmap strings option.
From Stdlib Require Import ZArith Lia.
From S2P Require Import Prelude Js Protocol.

Record JobRow := mkJob {
  j_type : JobType; j_policy : Policy; j_privacy_class : string; j_user_id : string;
  j_status : JobStatus; j_payload : json; j_result : option json;
  j_worker_pubkey : option string; j_created_at : Z; j_completed_at : option Z }.

Record TrustRow := mkTrust {
  t_id : string; t_user_id : string; t_provider_pubkey : option string;
  t_pairing_code : string; t_claimed : bool; t_expires_at : Z; t_created_at : Z }.

Record ReceiptRow := mkReceiptRow {
  rr_id : string; rr_job_id : string; rr_provider_pubkey : string; rr_receipt : Receipt;
  rr_signature : string; rr_verified : bool; rr_created_at : Z }.

Record Db := mkDb {
  jobs : gmap string JobRow; trust_pairings : list TrustRow; receipts : list ReceiptRow }.

Definition emptyDb : Db := mkDb ∅ [] [].

Definition PRIMARY_KEY_VIOLATION : string := "UNIQUE constraint failed: id".
Definition CODE_VIOLATION : string := "UNIQUE constraint failed: trust_pairings.pairing_code".
(** Of better-sqlite3 and SQLite: a value that is no SQL value, and [null] or
    [undefined] in a NOT NULL column of receipts. *)
Definition BIND_TYPE_ERROR : string := "SQLite3 can only bind numbers, strings, bigints, buffers, and null".
Definition NOT_NULL_VIOLATION (column : string) : string := "NOT NULL constraint failed: receipts." ++ column.
Definition FOREIGN_KEY_VIOLATION : string := "FOREIGN KEY constraint failed".

Definition with_jobs (f : gmap string JobRow -> gmap string JobRow) (d : Db) : Db :=
  mkDb (f (jobs d)) (trust_pairings d) (receipts d).

Definition error_result (code : string) : json := JObj [("error", JStr code)].

(** ** jobs *)

(** INSERT INTO jobs (id, type, policy, privacy_class, user_id, status, payload)
    VALUES (?, ?, ?, ?, ?, 'pending', ?) *)
Definition insert_job (id : string) (t : JobType) (p : Policy) (privacy user : string)
    (payload : json) (now : Z) (d : Db) : outcome Db :=
  match jobs d !! id with
  | Some _ => Throw PRIMARY_KEY_VIOLATION
  | None => Ok (with_jobs (insert id (mkJob t p privacy user Pending payload None None now None)) d)
  end.

(** UPDATE jobs SET status = 'assigned', worker_pubkey = ? WHERE id = ? *)
Definition set_assigned (pubkey : string) (j : JobRow) : JobRow :=
  mkJob (j_type j) (j_policy j) (j_privacy_class j) (j_user_id j) Assigned (j_payload j)
    (j_result j) (Some pubkey) (j_created_at j) (j_completed_at j).
Definition update_assigned (pubkey id : string) : Db -> Db := with_jobs (alter (set_assigned pubkey) id).

(** UPDATE jobs SET status = 'failed', result = '{"error":...}' WHERE id = ? *)
Definition set_failed (code : string) (j : JobRow) : JobRow :=
  mkJob (j_type j) (j_policy j) (j_privacy_class j) (j_user_id j) Failed (j_payload j)
    (Some (error_result code)) (j_worker_pubkey j) (j_created_at j) (j_completed_at j).
Definition update_failed (code id : string) : Db -> Db := with_jobs (alter (set_failed code) id).

(** UPDATE jobs SET status = 'completed', result = ?, completed_at = datetime('now') WHERE id = ? *)
Definition set_completed (output : json) (now : Z) (j : JobRow) : JobRow :=
  mkJob (j_type j) (j_policy j) (j_privacy_class j) (j_user_id j) Completed (j_payload j)
    (Some output) (j_worker_pubkey j) (j_created_at j) (Some now).
Definition update_completed (output : json) (now : Z) (id : string) : Db -> Db :=
  with_jobs (alter (set_completed output now) id).

(** UPDATE jobs SET status = 'pending', worker_pubkey = NULL WHERE id = ? *)
Definition set_rejected (j : JobRow) : JobRow :=
  mkJob (j_type j) (j_policy j) (j_privacy_class j) (j_user_id j) Pending (j_payload j)
    (j_result j) None (j_created_at j) (j_completed_at j).
Definition update_rejected (id : string) : Db -> Db := with_jobs (alter set_rejected id).

(** ** receipts *)

(** INSERT INTO receipts (id, job_id, provider_pubkey, receipt_json, signature, verified);
    job_id REFERENCES jobs(id) with foreign_keys = ON *)
Definition insert_receipt (r : ReceiptRow) (d : Db) : outcome Db :=
  if decide (rr_id r ∈ (rr_id <$> receipts d)) then Throw PRIMARY_KEY_VIOLATION
  else match jobs d !! rr_job_id r with
       | None => Throw FOREIGN_KEY_VIOLATION
       | Some _ => Ok (mkDb (jobs d) (trust_pairings d) (receipts d ++ [r]))
       end.

(** SELECT receipt_json, signature, verified FROM receipts WHERE job_id = ?  ([.get]: first row) *)
Definition select_receipt (job_id : string) (d : Db) : option ReceiptRow :=
  snd <$> list_find (λ r, rr_job_id r = job_id) (receipts d).

(** ** trust_pairings *)

(** INSERT INTO trust_pairings (id, user_id, pairing_code, expires_at) *)
Definition insert_pairing (id user code : string) (expires now : Z) (d : Db) : outcome Db :=
  if decide (id ∈ (t_id <$> trust_pairings d)) then Throw PRIMARY_KEY_VIOLATION
  else if decide (code ∈ (t_pairing_code <$> trust_pairings d)) then Throw CODE_VIOLATION
  else Ok (mkDb (jobs d) (trust_pairings d ++ [mkTrust id user None code false expires now]) (receipts d)).

(** SELECT id, user_id, claimed, expires_at FROM trust_pairings WHERE pairing_code = ? *)
Definition select_pairing (code : string) (d : Db) : option TrustRow :=
  snd <$> list_find (λ t, t_pairing_code t = code) (trust_pairings d).

(** UPDATE trust_pairings SET claimed = 1, provider_pubkey = ? WHERE id = ? *)
Definition set_claimed (pubkey : string) (t : TrustRow) : TrustRow :=
  mkTrust (t_id t) (t_user_id t) (Some pubkey) (t_pairing_code t) true (t_expires_at t) (t_created_at t).
Definition update_claimed (pubkey id : string) (d : Db) : Db :=
  mkDb (jobs d) ((λ t, if decide (t_id t = id) then set_claimed pubkey t else t) <$> trust_pairings d)
    (receipts d).

(** SELECT provider_pubkey FROM trust_pairings WHERE user_id = ? AND claimed = 1 *)
Definition select_trusted (user : string) (d : Db) : list (option string) :=
  t_provider_pubkey <$> filter (λ t, t_user_id t = user ∧ t_claimed t = true) (trust_pairings d).

(** ** The constraints of the schema

    PRIMARY KEY and UNIQUE columns, and the foreign key of receipts; NOT NULL
    columns are the fields without [option], and [jobs] is keyed by its id. *)
Record schema_ok (d : Db) : Prop := {
  sk_pairing_id : NoDup (t_id <$> trust_pairings d);
  sk_pairing_code : NoDup (t_pairing_code <$> trust_pairings d);
  sk_receipt_id : NoDup (rr_id <$> receipts d);
  sk_receipt_job r : r ∈ receipts d → is_Some (jobs d !! rr_job_id r) }.

(** ** Lemmas *)

Lemma lookup_with_alter (f : JobRow → JobRow) id k d :
  jobs (with_jobs (alter f id) d) !! k = if decide (id = k) then f <$> jobs d !! k else jobs d !! k.
Proof. simpl. rewrite lookup_alter. case_decide; by subst. Qed.

Definition trusted_by (d : Db) (user pk : string) : Prop := Some pk ∈ select_trusted user d.

Lemma trusted_by_iff d user pk :
  trusted_by d user pk ↔
  ∃ t, t ∈ trust_pairings d ∧ t_user_id t = user ∧ t_claimed t = true ∧ t_provider_pubkey t = Some pk.
Proof.
  unfold trusted_by, select_trusted. rewrite list_elem_of_fmap. setoid_rewrite list_elem_of_filter.
  naive_solver.
Qed.

Lemma update_claimed_keeps {A} (f : TrustRow → A) pubkey id d :
  (∀ t, f (set_claimed pubkey t) = f t) →
  f <$> trust_pairings (update_claimed pubkey id d) = f <$> trust_pairings d.
Proof.
  intros Hf. simpl. rewrite <- list_fmap_compose. apply list_fmap_ext. intros i t _. simpl.
  by case_decide.
Qed.
