(* ===== verification/WorkerHub.v ===== *)
(** * ws/workerHub.ts: the worker hub

    The state of a [WorkerHub] with everything its handlers read or write: the
    [workers] map (insertion order), the database, the payout distributors (any
    implementation of [PayoutQueue]), the ready state of each socket, the
    messages sent so far and the promises not settled yet.  A socket is a
    number.  Every method is a definition; [uuid()] and [Date.now()] are
    arguments, and [Date.now()] is constant within one tick.  Messages are
    well typed as packages/protocol/src/wsMessages.ts declares them, and a
    receipt has its keys in the declared order. *)

From stdpp Require Import base list gmap strings option.
From Stdlib Require Import ZArith Lia.
From Stdlib Require Import SpecFloat.
From S2P Require Import Prelude Js JsNum Protocol Interfaces Db.
Local Open Scope string_scope.

Inductive WStatus := Idle | Busy.
Inductive ReadyState := SockOpen | SockClosing | SockClosed.

#[global] Instance WStatus_eq_dec : EqDecision WStatus.
Proof. solve_decision. Defined.
#[global] Instance ReadyState_eq_dec : EqDecision ReadyState.
Proof. solve_decision. Defined.

Record TrackedWorker := mkWorker {
  w_id : string; w_ws : nat; w_pubkey : string; w_type : ProviderType;
  w_capabilities : list JobType; w_status : WStatus; w_lastHeartbeat : Z;
  w_activeJobId : option string; w_reputationScore : option jsnum;
  w_stakeLevel : option StakeTier }.

Definition HEARTBEAT_TIMEOUT_MS : Z := 30000.

(** Which optional services the hub was constructed with. *)
Record HubConfig := { hc_erc8004 : bool; hc_postFeedback : bool; hc_stakeConfig : bool }.

Record Hub (B W : Type) := mkHub {
  workers : jsmap TrackedWorker;
  db : Db;
  boltDistributor : option B;
  wrappedBoltDistributor : option W;
  sockets : gmap nat ReadyState;
  outbox : list (nat * CoordinatorToWorker);   (* oldest first *)
  repFetches : list string;                    (* worker ids, getReputationScore pending *)
  stakeFetches : list string;                  (* worker ids, readStakeLevel pending *)
  feedbacks : list (nat * string) }.           (* socket and job id, postFeedback pending *)
Arguments mkHub {B W}.
Arguments workers {B W}. Arguments db {B W}. Arguments boltDistributor {B W}.
Arguments wrappedBoltDistributor {B W}. Arguments sockets {B W}. Arguments outbox {B W}.
Arguments repFetches {B W}. Arguments stakeFetches {B W}. Arguments feedbacks {B W}.

(** What arrives on a socket: [JSON.parse] fails, returns [null], or a value with
    an unknown [type], or a message.  The casts of the handler check nothing, so
    a message of a known type need not have the members of that type:
    - [ThrowMsg]: its handler throws whatever the state, before it has written
      anything (a registration whose key has no [slice], a receipt that cannot
      be bound, a [type] that has no text);
    - [IgnoredMsg]: its handler finds no worker whatever the state (a heartbeat
      whose key, or an answer whose job id, is neither text nor [null]);
    - [NullJobMsg]: an answer whose job id is [null], the [activeJobId] of a
      worker that is idle;
    - [BadReceiptMsg m err]: the completion [m] with a receipt that cannot be
      bound, which throws [err]. *)
Inductive RawMsg :=
  | BadJson
  | NullMsg
  | UnknownMsg (type : string)
  | GoodMsg (m : WorkerToCoordinator)
  | ThrowMsg (err : string)
  | IgnoredMsg
  | NullJobMsg
  | BadReceiptMsg (m : JobCompleteMsg) (err : string).

(** ** Field updates *)

Section Updates.
  Context {B W : Type}.
  Implicit Types h : Hub B W.

Definition on_workers (f : jsmap TrackedWorker -> jsmap TrackedWorker) h : Hub B W :=
  mkHub (f (workers h)) (db h) (boltDistributor h) (wrappedBoltDistributor h) (sockets h)
    (outbox h) (repFetches h) (stakeFetches h) (feedbacks h).
Definition on_db (f : Db -> Db) h : Hub B W :=
  mkHub (workers h) (f (db h)) (boltDistributor h) (wrappedBoltDistributor h) (sockets h)
    (outbox h) (repFetches h) (stakeFetches h) (feedbacks h).
Definition with_bolt (d : B) h : Hub B W :=
  mkHub (workers h) (db h) (Some d) (wrappedBoltDistributor h) (sockets h)
    (outbox h) (repFetches h) (stakeFetches h) (feedbacks h).
Definition with_wbolt (d : W) h : Hub B W :=
  mkHub (workers h) (db h) (boltDistributor h) (Some d) (sockets h)
    (outbox h) (repFetches h) (stakeFetches h) (feedbacks h).
Definition on_sockets (f : gmap nat ReadyState -> gmap nat ReadyState) h : Hub B W :=
  mkHub (workers h) (db h) (boltDistributor h) (wrappedBoltDistributor h) (f (sockets h))
    (outbox h) (repFetches h) (stakeFetches h) (feedbacks h).
Definition push_out (c : nat) (m : CoordinatorToWorker) h : Hub B W :=
  mkHub (workers h) (db h) (boltDistributor h) (wrappedBoltDistributor h) (sockets h)
    (outbox h ++ [(c, m)]) (repFetches h) (stakeFetches h) (feedbacks h).
Definition on_pending (fr fs : list string -> list string)
    (ff : list (nat * string) -> list (nat * string)) h : Hub B W :=
  mkHub (workers h) (db h) (boltDistributor h) (wrappedBoltDistributor h) (sockets h)
    (outbox h) (fr (repFetches h)) (fs (stakeFetches h)) (ff (feedbacks h)).
End Updates.

(** Assignments to the fields of a worker object. *)
Definition set_status_active (st : WStatus) (a : option string) (w : TrackedWorker) : TrackedWorker :=
  mkWorker (w_id w) (w_ws w) (w_pubkey w) (w_type w) (w_capabilities w) st
    (w_lastHeartbeat w) a (w_reputationScore w) (w_stakeLevel w).
Definition set_idle : TrackedWorker -> TrackedWorker := set_status_active Idle None.
Definition set_busy (w : TrackedWorker) : TrackedWorker := set_status_active Busy (w_activeJobId w) w.
Definition set_active (j : string) (w : TrackedWorker) : TrackedWorker :=
  set_status_active (w_status w) (Some j) w.
Definition set_heartbeat (now : Z) (w : TrackedWorker) : TrackedWorker :=
  mkWorker (w_id w) (w_ws w) (w_pubkey w) (w_type w) (w_capabilities w) (w_status w)
    now (w_activeJobId w) (w_reputationScore w) (w_stakeLevel w).
Definition set_reputation (s : jsnum) (w : TrackedWorker) : TrackedWorker :=
  mkWorker (w_id w) (w_ws w) (w_pubkey w) (w_type w) (w_capabilities w) (w_status w)
    (w_lastHeartbeat w) (w_activeJobId w) (Some s) (w_stakeLevel w).
Definition set_stake (t : StakeTier) (w : TrackedWorker) : TrackedWorker :=
  mkWorker (w_id w) (w_ws w) (w_pubkey w) (w_type w) (w_capabilities w) (w_status w)
    (w_lastHeartbeat w) (w_activeJobId w) (w_reputationScore w) (Some t).

(** [JSON.stringify(receipt)] *)
Definition receipt_canonical (r : Receipt) : string :=
  "{" ++ json_quote "job_id" ++ ":" ++ json_quote (r_job_id r) ++ "," ++
  json_quote "provider_pubkey" ++ ":" ++ json_quote (r_provider_pubkey r) ++ "," ++
  json_quote "output_hash" ++ ":" ++ json_quote (r_output_hash r) ++ "," ++
  json_quote "completed_at" ++ ":" ++ json_quote (r_completed_at r) ++ "," ++
  json_quote "payment_ref" ++ ":" ++
  match r_payment_ref r with None => "null" | Some p => json_quote p end ++ "}".

Definition isDemoJob (job_id : string) : bool := startsWith job_id "demo-".

(** ** Scores *)

Definition workerScore (now : Z) (w : TrackedWorker) (policy : Policy) (jobType : JobType) : jsnum :=
  let base := match policy with
              | FAST => if decide (w_type w = DESKTOP) then 10%Z else 0%Z
              | _ => if decide (jobType = TASK ∧ w_type w = SEEKER) then 10%Z else 0%Z
              end in
  let score := num_add (num_of_Z 0) (num_of_Z base) in
  let age := num_div (num_of_Z (now - w_lastHeartbeat w)) (num_of_Z 10000) in
  let score := num_add score (math_max (num_of_Z 0) (num_sub (num_of_Z 5) age)) in
  let stakeBonus := STAKE_PRIORITY (default OPEN (w_stakeLevel w)) in
  let score := match w_reputationScore w with
               | Some r => num_add score
                   (num_mul (num_mul (num_div r (num_of_Z 100)) (num_of_Z 10)) (repMultiplier stakeBonus))
               | None => score
               end in
  num_add score (bonus stakeBonus).

(** [Array.prototype.sort] with comparator [(a, b) => score b - score a]: a
    stable sort, written as insertion sort; [y] moves ahead of an earlier [x]
    exactly when the comparator is positive on [(x, y)]. *)
Fixpoint insert_by {A} (score : A -> jsnum) (x : A) (l : list A) : list A :=
  match l with
  | [] => [x]
  | y :: l' => if num_ltb (S754_zero false) (num_sub (score y) (score x))
               then y :: insert_by score x l' else x :: l
  end.
Definition sort_by {A} (score : A -> jsnum) (l : list A) : list A := foldr (insert_by score) [] l.

(** ** The methods *)

Section Methods.
  Context {B W : Type} `{!PayoutQueue B} `{!PayoutQueue W} `{!Ed25519}.
  Implicit Types (h : Hub B W) (c : nat).

(** [ws.send] when the socket is open, nothing otherwise. *)
Definition send c (m : CoordinatorToWorker) h : Hub B W :=
  if decide (sockets h !! c = Some SockOpen) then push_out c m h else h.

(** The first entry of the map whose worker satisfies the test; the key
    designates the worker object, which the callers mutate. *)
Definition findByPubkey (pubkey : string) h : option (string * TrackedWorker) :=
  snd <$> list_find (λ e : string * TrackedWorker, w_pubkey e.2 = pubkey) (workers h).
Definition findByActiveJob (jobId : string) h : option (string * TrackedWorker) :=
  snd <$> list_find (λ e : string * TrackedWorker, w_activeJobId e.2 = Some jobId) (workers h).

Definition verifyReceiptSignature (r : Receipt) (signatureBase64 pubkeyHex : string) : bool :=
  verify_detached (receipt_canonical r) signatureBase64 pubkeyHex.

Definition sendToWorker (pubkey : string) (m : CoordinatorToWorker) h : Hub B W :=
  match findByPubkey pubkey h with Some (_, w) => send (w_ws w) m h | None => h end.

Definition onlineCount h : nat := length (workers h).

Definition handleRegister (cfg : HubConfig) c (msg : RegisterMsg) (id : string) (now : Z) h : Hub B W :=
  let worker := mkWorker id c (reg_provider_pubkey msg) (reg_provider_type msg)
                  (reg_capabilities msg) Idle now None None None in
  let h := on_workers (jm_set id worker) h in
  let h := on_pending (λ l, if hc_erc8004 cfg then (l ++ [id])%list else l)
                      (λ l, if hc_stakeConfig cfg then (l ++ [id])%list else l) (λ l, l) h in
  send c (OutRegisterAck id) h.

(** The [then] of [getReputationScore] ([None]: null or rejected) and of
    [readStakeLevel] ([None]: rejected), for the [i]-th pending fetch. *)
Definition reputationFetched (i : nat) (score : option jsnum) h : Hub B W :=
  match repFetches h !! i with
  | None => h
  | Some id =>
      let h := on_pending (delete i) (λ l, l) (λ l, l) h in
      match score with
      | Some s => if jm_has id (workers h) then on_workers (jm_mutate (set_reputation s) id) h else h
      | None => h
      end
  end.

Definition stakeFetched (i : nat) (tier : option StakeTier) h : Hub B W :=
  match stakeFetches h !! i with
  | None => h
  | Some id =>
      let h := on_pending (λ l, l) (delete i) (λ l, l) h in
      match tier with
      | Some t => if jm_has id (workers h) then on_workers (jm_mutate (set_stake t) id) h else h
      | None => h
      end
  end.

Definition handleHeartbeat (pubkey : string) (now : Z) h : Hub B W :=
  match findByPubkey pubkey h with
  | Some (id, w) => send (w_ws w) OutHeartbeatAck (on_workers (jm_mutate (set_heartbeat now) id) h)
  | None => h
  end.

(** The notifications the coordinators' [onSettled] and [onFailed] send
    through the hub (coordinator-solana and coordinator-monad). *)
Definition bolt_notice (n : Notice) h : Hub B W :=
  match n with
  | Settled r => sendToWorker (sr_workerPubkey r)
      (OutPaymentPosted (sr_jobIds r) (sr_txHash r) (sr_amount r) None "solana-devnet"
         ("https://explorer.solana.com/tx/" ++ sr_txHash r ++ "?cluster=devnet")) h
  | SettleFailed pk js e => sendToWorker pk (OutPaymentFailed js e None) h
  end.
Definition wbolt_notice (n : Notice) h : Hub B W :=
  match n with
  | Settled r => sendToWorker (sr_workerPubkey r)
      (OutPaymentPosted (sr_jobIds r) (sr_txHash r) (sr_amount r) (Some "wBOLT") "monad-testnet"
         ("https://testnet.monadvision.com/tx/" ++ sr_txHash r)) h
  | SettleFailed pk js e => sendToWorker pk (OutPaymentFailed js e (Some "wBOLT")) h
  end.

(** Replace a distributor by a later state of itself and make the calls of
    [onSettled] and [onFailed] it added. *)
Definition bolt_advance (d d' : B) h : Hub B W :=
  foldl (λ h n, bolt_notice n h) (with_bolt d' h) (drop (length (pq_callbacks d)) (pq_callbacks d')).
Definition wbolt_advance (d d' : W) h : Hub B W :=
  foldl (λ h n, wbolt_notice n h) (with_wbolt d' h) (drop (length (pq_callbacks d)) (pq_callbacks d')).

(** [this.boltDistributor?.queuePayout(worker.pubkey, msg.job_id, 0.001)] and the
    same for the wrapped token. *)
Definition JOB_AMOUNT : jsnum := num_lit 1 1000.
Definition queueBolt (pubkey job_id : string) h : Hub B W :=
  match boltDistributor h with
  | Some d => bolt_advance d (pq_queue pubkey job_id JOB_AMOUNT d) h
  | None => h
  end.
Definition queueWbolt (pubkey job_id : string) h : Hub B W :=
  match wrappedBoltDistributor h with
  | Some d => wbolt_advance d (pq_queue pubkey job_id JOB_AMOUNT d) h
  | None => h
  end.

(** [erc8004?.postFeedback] is called; its promise settles later. *)
Definition startFeedback (cfg : HubConfig) c (job_id : string) h : Hub B W :=
  if hc_erc8004 cfg && hc_postFeedback cfg
  then on_pending (λ l, l) (λ l, l) (λ l, l ++ [(c, job_id)])%list h else h.

(** The [then] ([inl txHash]) or [catch] ([inr message]) of a pending feedback. *)
Definition feedbackSettled (i : nat) (r : option string + string) h : Hub B W :=
  match feedbacks h !! i with
  | None => h
  | Some (c, job_id) =>
      let h := on_pending (λ l, l) (λ l, l) (delete i) h in
      match r with
      | inl txHash =>
          if ostr_truthy txHash
          then send c (OutFeedbackPosted job_id (default "" txHash) "monad-testnet"
                 ("https://testnet.monadvision.com/tx/" ++ default "" txHash)) h
          else h
      | inr e => send c (OutFeedbackFailed job_id e) h
      end
  end.

(** The transaction of [handleJobComplete]. *)
Definition completeTxn (msg : JobCompleteMsg) (pubkey rid : string) (now : Z) (d : Db) : outcome Db :=
  let d := update_completed (jc_output msg) now (jc_job_id msg) d in
  match jc_receipt msg, jc_receipt_signature msg with
  | Some r, Some sig =>
      if str_truthy sig
      then insert_receipt (mkReceiptRow rid (r_job_id r) (r_provider_pubkey r) r sig
                             (verifyReceiptSignature r sig pubkey) now) d
      else Ok d
  | _, _ => Ok d
  end.

Definition handleJobComplete (cfg : HubConfig) (msg : JobCompleteMsg) (rid : string) (now : Z) h
    : outcome (Hub B W) :=
  match findByActiveJob (jc_job_id msg) h with
  | None => Ok h
  | Some (id, worker) =>
      let j := jc_job_id msg in
      if isDemoJob j then
        let h := on_workers (jm_mutate set_idle id) h in
        let h := startFeedback cfg (w_ws worker) j h in
        Ok (queueWbolt (w_pubkey worker) j (queueBolt (w_pubkey worker) j h))
      else
        d <-- completeTxn msg (w_pubkey worker) rid now (db h) ;;
        let h := on_db (λ _, d) h in
        let h := startFeedback cfg (w_ws worker) j h in
        let h := queueWbolt (w_pubkey worker) j (queueBolt (w_pubkey worker) j h) in
        Ok (on_workers (jm_mutate set_idle id) h)
  end.

Definition handleJobReject (msg : JobRejectMsg) h : Hub B W :=
  match findByActiveJob (jr_job_id msg) h with
  | None => h
  | Some (id, _) =>
      let h := if isDemoJob (jr_job_id msg) then h else on_db (update_rejected (jr_job_id msg)) h in
      on_workers (jm_mutate set_idle id) h
  end.

Definition handleReceiptSubmit (msg : ReceiptSubmitMsg) (rid : string) (now : Z) h : outcome (Hub B W) :=
  let r := rs_receipt msg in
  let pubkey := match findByPubkey (r_provider_pubkey r) h with
                | Some (_, w) => w_pubkey w | None => r_provider_pubkey r end in
  let verified := verifyReceiptSignature r (rs_signature msg) pubkey in
  d <-- insert_receipt (mkReceiptRow rid (r_job_id r) (r_provider_pubkey r) r (rs_signature msg)
                          verified now) (db h) ;;
  Ok (on_db (λ _, d) h).

Definition handleDisconnect (workerId : string) h : Hub B W :=
  match jm_get workerId (workers h) with
  | None => h
  | Some worker =>
      let h := match w_activeJobId worker with
               | Some j => if str_truthy j && negb (isDemoJob j)
                           then on_db (update_failed "worker_disconnected" j) h else h
               | None => h
               end in
      on_workers (jm_delete workerId) h
  end.

(** ** Job matching *)

(** The trusted set of a PRIVATE job, and the eligible workers. *)
Definition eligible (jobType : JobType) (trusted : option (list (option string))) (w : TrackedWorker) : bool :=
  bool_decide (w_status w = Idle) && bool_decide (jobType ∈ w_capabilities w) &&
  match trusted with Some t => bool_decide (Some (w_pubkey w) ∈ t) | None => true end.

Definition trustedPubkeys (privacyClass userId : string) h : option (list (option string)) :=
  if String.eqb privacyClass "PRIVATE" then Some (select_trusted userId (db h)) else None.

Definition claimCandidates (jobType : JobType) (privacyClass userId : string) h
    : list (string * TrackedWorker) :=
  match trustedPubkeys privacyClass userId h with
  | Some [] => []
  | trusted => filter (λ e, eligible jobType trusted e.2 = true) (workers h)
  end.

Definition claimWorker (jobType : JobType) (policy : Policy) (privacyClass userId : string)
    (now : Z) h : option (string * TrackedWorker) * Hub B W :=
  match sort_by (λ e, workerScore now e.2 policy jobType)
          (claimCandidates jobType privacyClass userId h) with
  | [] => (None, h)
  | best :: _ => (Some best, on_workers (jm_mutate set_busy best.1) h)
  end.

Definition assignJob (worker : string * TrackedWorker) (jobId : string) (msg : JobAssignMsg) h : Hub B W :=
  send (w_ws worker.2) (OutJobAssign msg) (on_workers (jm_mutate (set_active jobId) worker.1) h).

Definition getIdleWorkers h : list (string * TrackedWorker) :=
  filter (λ e, w_status e.2 = Idle) (workers h).

Definition injectDemoJob (workerId : string) (msg : JobAssignMsg) h : bool * Hub B W :=
  match jm_get workerId (workers h) with
  | None => (false, h)
  | Some w =>
      if decide (w_status w = Idle)
      then (true, send (w_ws w) (OutJobAssign msg)
                    (on_workers (jm_mutate (set_status_active Busy (Some (ja_job_id msg))) workerId) h))
      else (false, h)
  end.

(** [ws.close()]: an open socket starts its closing handshake. *)
Definition closeSocket c h : Hub B W :=
  on_sockets (alter (λ st, match st with SockOpen => SockClosing | st => st end) c) h.

Definition stale (now : Z) (w : TrackedWorker) : bool :=
  (HEARTBEAT_TIMEOUT_MS <? now - w_lastHeartbeat w)%Z.

(** The loop of [pruneStale]: an iteration deletes only the entry it visits, so
    it runs over the entries present at its start. *)
Definition pruneStale (now : Z) h : Hub B W :=
  foldl (λ h e, if stale now e.2 then handleDisconnect e.1 (closeSocket (w_ws e.2) h) else h)
    h (workers h).

(** ** Connections: [ws.on("message")], [ws.on("close")] *)

(** [workerId] is the variable each connection's closures share.  [id] and
    [rid] are the uuids the handlers draw. *)
Definition NULL_TYPE_ERROR : string := reading "null" "type".
Definition NULL_JOB_ERROR : string := reading "null" "startsWith".

Definition handleMessage (cfg : HubConfig) c (workerId : option string) (raw : RawMsg)
    (id rid : string) (now : Z) h : outcome (option string * Hub B W) :=
  match raw with
  | BadJson => Ok (workerId, send c (OutError "PARSE_ERROR" "Invalid JSON") h)
  | NullMsg => Throw NULL_TYPE_ERROR
  | UnknownMsg t => Ok (workerId, send c (OutError "UNKNOWN_MSG" ("Unknown type: " ++ t)) h)
  | GoodMsg (MsgRegister m) => Ok (Some id, handleRegister cfg c m id now h)
  | GoodMsg (MsgHeartbeat pk) => Ok (workerId, handleHeartbeat pk now h)
  | GoodMsg (MsgJobComplete m) => h' <-- handleJobComplete cfg m rid now h ;; Ok (workerId, h')
  | GoodMsg (MsgJobReject m) => Ok (workerId, handleJobReject m h)
  | GoodMsg (MsgReceiptSubmit m) => h' <-- handleReceiptSubmit m rid now h ;; Ok (workerId, h')
  | ThrowMsg err => Throw err
  | IgnoredMsg => Ok (workerId, h)
  | NullJobMsg =>
      if existsb (λ e : string * TrackedWorker, bool_decide (w_activeJobId e.2 = None)) (workers h)
      then Throw NULL_JOB_ERROR else Ok (workerId, h)
  | BadReceiptMsg m err =>
      if bool_decide (is_Some (findByActiveJob (jc_job_id m) h)) && negb (isDemoJob (jc_job_id m))
      then Throw err
      else h' <-- handleJobComplete cfg m rid now h ;; Ok (workerId, h')
  end.

Definition handleClose (workerId : option string) c h : Hub B W :=
  let h := on_sockets (<[c := SockClosed]>) h in
  match workerId with
  | Some id => if str_truthy id then handleDisconnect id h else h
  | None => h
  end.
End Methods.

(** ** Sorting *)

Section Sorting.
  Context {A : Type} (score : A → jsnum).

Lemma insert_by_perm x l : insert_by score x l ≡ₚ x :: l.
Proof.
  induction l as [|y l IH]; simpl; [done|]. case_match; [|done].
  rewrite IH. apply Permutation_swap.
Qed.

Lemma sort_by_perm l : sort_by score l ≡ₚ l.
Proof. induction l as [|x l IH]; simpl; [done|]. by rewrite insert_by_perm, IH. Qed.

(** With finite scores the head of the sorted list has the largest score. *)
Lemma sort_by_head l b l' :
  (∀ x, x ∈ l → num_finite (score x) = true) →
  sort_by score l = b :: l' →
  b ∈ l ∧ ∀ x, x ∈ l → (num_units (score x) <= num_units (score b))%Z.
Proof.
  revert b l'. induction l as [|x l IH]; intros b l' Hfin Hs; simpl in *; [done|].
  destruct (sort_by score l) as [|y m] eqn:Hl; simpl in Hs.
  - assert (l = []) as -> by (apply Permutation_nil_r; rewrite <- Hl; symmetry; apply sort_by_perm).
    simplify_eq. split; [set_solver|]. intros z ->%list_elem_of_singleton. lia.
  - destruct (IH y m) as [Hy Hmax]; [set_solver | done |].
    rewrite num_sub_pos in Hs by (apply Hfin; set_solver).
    destruct (Z.ltb_spec (num_units (score x)) (num_units (score y))); simplify_eq.
    + split; [by right|]. intros z [->|Hz]%elem_of_cons; [lia | auto].
    + split; [by left|]. intros z [->|Hz]%elem_of_cons; [lia | specialize (Hmax z Hz); lia].
Qed.
End Sorting.
