(* ===== verification/Jobs.v ===== *)
(** * routes/jobs.ts: committing, retrying and polling jobs

    The body of a commit carries strings in [job_type], [privacy_class] and
    [user_id] and any JSON in [payload].  [startRetryLoop] creates a
    [RetryLoop]; [retryTick] is the callback of its interval. *)

From stdpp Require Import base list gmap strings option.
From Stdlib Require Import ZArith Lia.
From S2P Require Import Prelude Js Protocol Interfaces Db WorkerHub.
Local Open Scope string_scope.

Record CommitBody := {
  cb_job_type : option string; cb_payload : option json;
  cb_privacy_class : option string; cb_user_id : option string }.

(** The closure of a retry interval. *)
Record RetryLoop := mkLoop {
  l_jobId : string; l_jobType : JobType; l_policy : Policy; l_privacyClass : string;
  l_userId : string; l_payload : json; l_attempts : nat }.

Inductive CommitResponse :=
  | Commit400 (error : string)
  | Commit422 (job_id : string)        (* no_trusted_worker *)
  | Commit201 (job_id : string).

Definition maxAttempts : nat := 15.

Definition loop_tick (l : RetryLoop) : RetryLoop :=
  mkLoop (l_jobId l) (l_jobType l) (l_policy l) (l_privacyClass l) (l_userId l) (l_payload l)
    (S (l_attempts l)).

(** The receipt attached to a completed job, with its signature and verdict. *)
Record JobView := {
  jv_id : string; jv_status : JobStatus; jv_result : json;
  jv_receipt : option (Receipt * string * bool);
  jv_created_at : Z; jv_completed_at : option Z }.

Section Routes.
  Context {B W : Type}.
  Implicit Types h : Hub B W.

(** [job_type], [tier], [privacyClass], [user_id], [payload] of one assignment. *)
Definition assignMsg (jobId : string) (t : JobType) (payload : json) (policy : Policy)
    (privacyClass userId : string) : JobAssignMsg :=
  {| ja_job_id := jobId; ja_job_type := t; ja_payload := payload; ja_policy := policy;
     ja_privacy_class := privacyClass; ja_user_id := userId |}.

(** Claim a worker for a job and hand it over, as the commit route and the
    retry loop both do. *)
Definition tryAssign (jobId : string) (t : JobType) (policy : Policy) (privacyClass userId : string)
    (payload : json) (now : Z) h : option (Hub B W) :=
  match claimWorker t policy privacyClass userId now h with
  | (Some worker, h) =>
      let h := on_db (update_assigned (w_pubkey worker.2) jobId) h in
      Some (assignJob worker jobId (assignMsg jobId t payload policy privacyClass userId) h)
  | (None, _) => None
  end.

Definition handleCommit (tier : Policy) (body : CommitBody) (jobId : string) (now : Z) h
    : outcome (CommitResponse * option RetryLoop * Hub B W) :=
  match cb_job_type body, cb_payload body, cb_user_id body with
  | Some job_type, Some payload, Some user_id =>
      if negb (str_truthy job_type && json_truthy payload && str_truthy user_id)
      then Ok (Commit400 "Missing required fields: job_type, payload, user_id", None, h)
      else match parse_JobType job_type with
      | None => Ok (Commit400 "Invalid job_type", None, h)
      | Some t =>
          let privacyClass := default "PUBLIC" (cb_privacy_class body) in
          d <-- insert_job jobId t tier privacyClass user_id payload now (db h) ;;
          let h := on_db (λ _, d) h in
          match tryAssign jobId t tier privacyClass user_id payload now h with
          | Some h' => Ok (Commit201 jobId, None, h')
          | None =>
              if String.eqb privacyClass "PRIVATE"
              then Ok (Commit422 jobId, None, on_db (update_failed "no_trusted_worker" jobId) h)
              else Ok (Commit201 jobId,
                       Some (mkLoop jobId t tier privacyClass user_id payload 0), h)
          end
      end
  | _, _, _ => Ok (Commit400 "Missing required fields: job_type, payload, user_id", None, h)
  end.

(** The interval callback; [None] when it clears the interval. *)
Definition retryTick (l : RetryLoop) (now : Z) h : option RetryLoop * Hub B W :=
  let l := loop_tick l in
  match jobs (db h) !! l_jobId l with
  | None => (None, h)
  | Some job =>
      if negb (bool_decide (j_status job = Pending)) then (None, h)
      else match tryAssign (l_jobId l) (l_jobType l) (l_policy l) (l_privacyClass l) (l_userId l)
                   (l_payload l) now h with
           | Some h' => (None, h')
           | None =>
               if (maxAttempts <=? l_attempts l)%nat
               then (None, on_db (update_failed "no_eligible_worker" (l_jobId l)) h)
               else (Some l, h)
           end
  end.

(** GET /v1/jobs/:id; [None] is the 404. *)
Definition getJob (id : string) h : option JobView :=
  row ← jobs (db h) !! id;
  Some {| jv_id := id; jv_status := j_status row;
          jv_result := default JNull (j_result row);
          jv_receipt := if decide (j_status row = Completed)
                        then (λ r, (rr_receipt r, rr_signature r, rr_verified r)) <$> select_receipt id (db h)
                        else None;
          jv_created_at := j_created_at row; jv_completed_at := j_completed_at row |}.
End Routes.
