(* ===== verification/Routes.v ===== *)
(** * The other routes of coordinator-core, and the demo mode of server.ts

    quote.ts, trust.ts, dashboard.ts (the figures it queries; its
    page is in Dashboard.v), x402.ts and the demo loop of server.ts.  Times are milliseconds;
    random choices, pairing codes and uuids are arguments. *)

From stdpp Require Import base list gmap strings option.
From Stdlib Require Import ZArith Lia.
From S2P Require Import Prelude Js Protocol Interfaces Db WorkerHub Jobs.
Local Open Scope string_scope.

(** ** quote.ts and x402.ts *)

Definition commitEndpoint (tier : string) : string := "/v1/jobs/commit/" ++ tier.

(** GET /v1/quote; [inl] is the 400. *)
Definition quote (network : string) (job_type policy : option string) : string + Quote :=
  match j ← job_type; parse_JobType j with
  | None => inl "Invalid job_type. Use LLM_INFER or TASK"
  | Some jobType =>
      let policy := default "AUTO" policy in
      let resolved := resolvePolicy policy jobType in
      let price := getPrice resolved jobType in
      let tier := if String.eqb resolved "FAST" then "fast" else "cheap" in
      inr {| q_price := price; q_endpoint := commitEndpoint tier;
             q_policy_resolved := resolved; q_network := network |}
  end.

Record PaymentAccept := {
  pa_price : string; pa_network : string; pa_payTo : string; pa_asset : option string }.

Definition makeAccept (network payTo : string) (asset : option string) (price : string) : PaymentAccept :=
  {| pa_price := price; pa_network := network; pa_payTo := payTo;
     pa_asset := if ostr_truthy asset then asset else None |}.

(** Each gated route with what it accepts. *)
Definition buildPaymentConfig (network payTo : string) (asset : option string)
    : list (string * PaymentAccept) :=
  [ ("POST /v1/jobs/commit/fast", makeAccept network payTo asset (getPrice "FAST" LLM_INFER));
    ("POST /v1/jobs/commit/cheap", makeAccept network payTo asset (getPrice "CHEAP" TASK)) ].

(** ** trust.ts *)

Definition PAIRING_TTL_MS : Z := 60 * 60 * 1000.

Inductive TrustError := MissingField | InvalidCode | AlreadyClaimed | Expired.

(** POST /v1/trust/create *)
Definition trustCreate (user_id : option string) (id code : string) (now : Z) (d : Db)
    : outcome (TrustError + string * Z) * Db :=
  match user_id with
  | Some user =>
      if str_truthy user then
        let expiresAt := (now + PAIRING_TTL_MS)%Z in
        match insert_pairing id user code expiresAt now d with
        | Ok d' => (Ok (inr (code, expiresAt)), d')
        | Throw e => (Throw e, d)
        end
      else (Ok (inl MissingField), d)
  | None => (Ok (inl MissingField), d)
  end.

(** POST /v1/trust/claim *)
Definition trustClaim (pairing_code provider_pubkey : option string) (now : Z) (d : Db)
    : (TrustError + string) * Db :=
  match pairing_code, provider_pubkey with
  | Some code, Some pubkey =>
      if str_truthy code && str_truthy pubkey then
        match select_pairing code d with
        | None => (inl InvalidCode, d)
        | Some row =>
            if t_claimed row then (inl AlreadyClaimed, d)
            else if (t_expires_at row <? now)%Z then (inl Expired, d)
            else (inr (t_user_id row), update_claimed pubkey (t_id row) d)
        end
      else (inl MissingField, d)
  | _, _ => (inl MissingField, d)
  end.

(** GET /v1/trust/list *)
Definition trustList (user_id : option string) (d : Db) : TrustError + list (option string * Z) :=
  match user_id with
  | Some user =>
      if str_truthy user
      then inr ((λ t, (t_provider_pubkey t, t_created_at t)) <$>
                filter (λ t, t_user_id t = user ∧ t_claimed t = true) (trust_pairings d))
      else inl MissingField
  | None => inl MissingField
  end.

(** ** dashboard.ts: the figures *)

(** SELECT COUNT(DISTINCT worker_pubkey) FROM jobs WHERE worker_pubkey IS NOT NULL *)
Definition totalWorkers (d : Db) : nat :=
  length (remove_dups (omap (λ e : string * JobRow, j_worker_pubkey e.2) (map_to_list (jobs d)))).
Definition totalJobsCompleted (d : Db) : nat :=
  length (filter (λ e : string * JobRow, j_status e.2 = Completed) (map_to_list (jobs d))).
Definition totalReceipts (d : Db) : nat := length (receipts d).
Definition verifiedReceipts (d : Db) : nat := length (filter (λ r, rr_verified r = true) (receipts d)).
Abbreviation verificationRatio d := (num_mul (num_div (num_of_Z (Z.of_nat (verifiedReceipts d))) (num_of_Z (Z.of_nat (totalReceipts d)))) (num_of_Z 100)).
Definition verificationRate (d : Db) : option Z :=
  if (0 <? totalReceipts d)%nat then math_round (verificationRatio d) else Some 0%Z.

(** ** server.ts: demo mode *)

Definition DEMO_PROMPTS (t : TaskType) : list string :=
  match t with
  | summarize_t =>
      [ "Summarize the latest Solana validator update";
        "Summarize this week's DeFi yield farming trends";
        "Summarize the recent Monad testnet performance report";
        "Summarize key changes in the latest Ethereum EIP proposals" ]
  | classify_t =>
      [ "Classify this transaction: 500 USDC transfer to a new wallet";
        "Classify this network event: validator node went offline for 30 seconds";
        "Classify this user behavior: 12 swaps in 5 minutes across 3 DEXs";
        "Classify this alert: gas prices spiked 400% in the last block" ]
  | extract_json_t =>
      [ "Extract structured data from: The token launched at $0.05, reached $1.20 ATH, current market cap $45M";
        "Extract JSON from: Block 18234567 produced by validator Hx7k...9f2a, 1,247 transactions, 0.3s finality";
        "Extract structured data from: Liquidity pool TVL $12.5M, 24h volume $3.2M, APY 34.5%";
        "Extract JSON from: NFT collection: 10,000 items, floor 2.3 SOL, 45% listed, 12 SOL top sale today" ]
  end.

Definition TASK_TYPES : list TaskType := [summarize_t; classify_t; extract_json_t].

(** [demoActive], the handle [demoTimer], and the timeouts armed in the event
    loop; a timeout is named by a number. *)
Record Demo := mkDemo { demoActive : bool; demoTimer : option nat; armed : list nat }.

Definition initDemo : Demo := mkDemo false None [].

Definition setDemoTimeout (tid : nat) (dm : Demo) : Demo :=
  mkDemo (demoActive dm) (Some tid) (tid :: armed dm).

Definition startDemoMode (tid : nat) (dm : Demo) : Demo :=
  if demoActive dm then dm else setDemoTimeout tid (mkDemo true (demoTimer dm) (armed dm)).

Definition stopDemoMode (dm : Demo) : Demo :=
  match demoTimer dm with
  | Some t => mkDemo false None (filter (λ t', t' ≠ t) (armed dm))
  | None => mkDemo false None (armed dm)
  end.

Definition demoMsg (uuid : string) (t : TaskType) (prompt : string) : JobAssignMsg :=
  {| ja_job_id := "demo-" ++ uuid; ja_job_type := TASK;
     ja_payload := JObj [("task_type", JStr (TaskType_str t)); ("input", JStr prompt)];
     ja_policy := CHEAP; ja_privacy_class := "PUBLIC"; ja_user_id := "demo-coordinator" |}.

(** [pickRandom arr], where [Math.random()] chose the index [i] (taken modulo the length). *)
Definition pickRandom {A} (i : nat) (arr : list A) : option A := arr !! (i mod length arr).

(** The timeout [fired] has run; [tid] is the one set next. *)
Definition demoTick {B W} (fired tid iw it ip : nat) (uuid : string) (dm : Demo) (h : Hub B W)
    : Demo * Hub B W :=
  let dm := mkDemo (demoActive dm) (demoTimer dm) (filter (λ t, t ≠ fired) (armed dm)) in
  if demoActive dm then
    let h := match pickRandom iw (getIdleWorkers h), pickRandom it TASK_TYPES with
             | Some w, Some t =>
                 match pickRandom ip (DEMO_PROMPTS t) with
                 | Some prompt => (injectDemoJob (w_id w.2) (demoMsg uuid t prompt) h).2
                 | None => h
                 end
             | _, _ => h
             end in
    (setDemoTimeout tid dm, h)
  else (dm, h).
