(* ===== verification/Core.v ===== *)
(** * The matching between workers and jobs

    [core] is the invariant the hub and the job routes maintain between the
    workers map and the jobs table: a worker is idle exactly when it has no
    active job, no job runs on two workers, a job is [assigned] exactly when a
    worker runs it or an earlier process of the server left it so, the worker
    can run it and, for a PRIVATE job, is trusted.
    One lemma per change of that pair the code makes. *)

From stdpp Require Import base list gmap strings option.
From Stdlib Require Import ZArith Lia.
From S2P Require Import Prelude Js Protocol Interfaces Db WorkerHub.
Local Open Scope string_scope.

(** What the columns of a row hold in each status; [Running] never occurs. *)
Definition row_ok (r : JobRow) : Prop :=
  match j_status r with
  | Pending => j_worker_pubkey r = None ∧ j_result r = None ∧ j_completed_at r = None
  | Assigned => is_Some (j_worker_pubkey r) ∧ j_result r = None ∧ j_completed_at r = None
  | Running => False
  | Completed => is_Some (j_worker_pubkey r) ∧ is_Some (j_result r) ∧ is_Some (j_completed_at r)
  | Failed => (∃ code, j_result r = Some (error_result code)) ∧ j_completed_at r = None
  end.

Definition runs (T : string → string → Prop) (w : TrackedWorker) (r : JobRow) : Prop :=
  j_status r = Assigned ∧ j_worker_pubkey r = Some (w_pubkey w) ∧ j_type r ∈ w_capabilities w ∧
  (j_privacy_class r = "PRIVATE" → T (j_user_id r) (w_pubkey w)).

(** [T] says which workers a user trusts, [O] which jobs an earlier process of
    the server left in the table. *)
Record core (ws : jsmap TrackedWorker) (js : gmap string JobRow) (T : string → string → Prop)
    (O : string → Prop) : Prop := {
  core_wf : jm_wf ws;
  core_id id w : jm_get id ws = Some w → w_id w = id;
  core_idle id w : jm_get id ws = Some w → (w_status w = Idle ↔ w_activeJobId w = None);
  core_inj id1 w1 id2 w2 j :
    jm_get id1 ws = Some w1 → jm_get id2 ws = Some w2 →
    w_activeJobId w1 = Some j → w_activeJobId w2 = Some j → id1 = id2;
  core_active id w j :
    jm_get id ws = Some w → w_activeJobId w = Some j → isDemoJob j = false →
    ∃ r, js !! j = Some r ∧ runs T w r;
  core_assigned j r :
    js !! j = Some r → j_status r = Assigned →
    O j ∨ ∃ id w, jm_get id ws = Some w ∧ w_activeJobId w = Some j;
  core_rows j r : js !! j = Some r → isDemoJob j = false ∧ row_ok r;
  core_private j r pk :
    js !! j = Some r → j_privacy_class r = "PRIVATE" → j_worker_pubkey r = Some pk →
    T (j_user_id r) pk }.

(** The fields of a worker that [core] reads. *)
Definition same_core (w w' : TrackedWorker) : Prop :=
  w_id w' = w_id w ∧ w_pubkey w' = w_pubkey w ∧ w_capabilities w' = w_capabilities w ∧
  w_status w' = w_status w ∧ w_activeJobId w' = w_activeJobId w.

(** A row changes no user or privacy class, and its worker at most to NULL. *)
Definition keeps_worker (r r' : JobRow) : Prop :=
  j_privacy_class r' = j_privacy_class r ∧ j_user_id r' = j_user_id r ∧
  ∀ pk, j_worker_pubkey r' = Some pk → j_worker_pubkey r = Some pk.

Section Core.
  Context (T : string → string → Prop) (O : string → Prop).
  Implicit Types (ws : jsmap TrackedWorker) (js : gmap string JobRow) (w : TrackedWorker).

Lemma core_empty : core [] ∅ T O.
Proof. split; [constructor | ..]; done. Qed.

(** The server starts again: the table stays, the workers are gone. *)
Lemma core_restart ws js : core ws js T O → core [] js T (λ j, is_Some (js !! j)).
Proof. intros [_ _ _ _ _ _ Hrow Hprv]. split; try done; [constructor | eauto]. Qed.

Lemma core_trust ws js (T' : string → string → Prop) :
  (∀ u p, T u p → T' u p) → core ws js T O → core ws js T' O.
Proof.
  intros HT [? ? ? ? Hact ? ? ?]. split; try done.
  - intros id w j Hg Ha Hd. destruct (Hact id w j Hg Ha Hd) as (r & Hr & ?&?&?&?).
    exists r. split; [done|]. unfold runs. naive_solver.
  - eauto.
Qed.

(** Updates that leave the matching alone. *)
Lemma core_mutate_same ws js f id :
  (∀ w, same_core w (f w)) → core ws js T O → core (jm_mutate f id ws) js T O.
Proof.
  intros Hf [Hwf Hid Hidle Hinj Hact Has Hrow Hprv].
  assert (∀ k w', jm_get k (jm_mutate f id ws) = Some w' →
     ∃ w, jm_get k ws = Some w ∧ same_core w w') as Hget.
  { intros k w'. rewrite jm_get_mutate. case_decide; intros Hk; [|exists w'; by repeat split].
    apply fmap_Some in Hk as (w & ? & ->). eauto. }
  split; [by apply jm_wf_mutate | ..].
  - intros k w' (w & Hk & Hs)%Hget. destruct Hs as (->&_). eauto.
  - intros k w' (w & Hk & Hs)%Hget. destruct Hs as (_&_&_&->&->). eauto.
  - intros k1 w1' k2 w2' j (w1 & ? & ?&?&?&?&Ha1)%Hget (w2 & ? & ?&?&?&?&Ha2)%Hget.
    rewrite Ha1, Ha2. eauto.
  - intros k w' j (w & Hk & ?&Hp&Hc&?&Ha)%Hget. rewrite Ha. intros Hj Hd.
    destruct (Hact _ _ _ Hk Hj Hd) as (r & ? & Hr). exists r. split; [done|].
    unfold runs in *. by rewrite Hp, Hc.
  - intros j r Hj Hs. destruct (Has j r Hj Hs) as [?|(k & w & Hk & Ha)]; [by left | right].
    destruct (decide (id = k)) as [->|].
    + exists k, (f w). rewrite jm_get_mutate_eq, Hk. split; [done|]. by destruct (Hf w) as (_&_&_&_&->).
    + exists k, w. by rewrite jm_get_mutate_ne.
  - done.
  - done.
Qed.

Lemma core_register ws js id w :
  jm_get id ws = None → w_id w = id → w_status w = Idle → w_activeJobId w = None →
  core ws js T O → core (jm_set id w ws) js T O.
Proof.
  intros Hn Hw Hs Ha [Hwf Hid Hidle Hinj Hact Has Hrow Hprv].
  split; [by apply jm_wf_set | ..]; [| | | | |done|done].
  - intros k w'. rewrite jm_get_set. case_decide; naive_solver.
  - intros k w'. rewrite jm_get_set. case_decide; naive_solver.
  - intros k1 w1 k2 w2 j. rewrite !jm_get_set. repeat case_decide; naive_solver.
  - intros k w' j. rewrite jm_get_set. case_decide; naive_solver.
  - intros j r Hj Hst. destruct (Has j r Hj Hst) as [?|(k & w' & Hk & ?)]; [by left | right].
    exists k, w'. rewrite jm_get_set_ne; [done|]. congruence.
Qed.

(** A job changes hands: worker [id] gets state [f w] with active job [a'], and
    row [j], if any, becomes [g r]. *)
Lemma core_assign ws js id w j r :
  jm_get id ws = Some w → w_status w = Idle →
  js !! j = Some r → j_status r = Pending → j_type r ∈ w_capabilities w →
  (j_privacy_class r = "PRIVATE" → T (j_user_id r) (w_pubkey w)) →
  core ws js T O →
  core (jm_mutate (set_status_active Busy (Some j)) id ws) (alter (set_assigned (w_pubkey w)) j js) T O.
Proof.
  intros Hw Hst Hj Hp Hcap Htr [Hwf Hid Hidle Hinj Hact Has Hrow Hprv].
  assert (∀ k w', jm_get k ws = Some w' → w_activeJobId w' ≠ Some j) as Hfree.
  { intros k w' Hk Ha. destruct (Hact k w' j Hk Ha) as (r' & Hr' & Hrun & _);
      [by eapply Hrow|]. congruence. }
  split; [by apply jm_wf_mutate | ..].
  - intros k w'. rewrite jm_get_mutate. case_decide; [|by apply Hid]. subst. rewrite Hw.
    intros; simplify_eq/=. by apply Hid.
  - intros k w'. rewrite jm_get_mutate. case_decide; [|by apply Hidle]. subst. rewrite Hw.
    intros; by simplify_eq/=.
  - intros k1 w1 k2 w2 j'. rewrite !jm_get_mutate.
    repeat case_decide; subst; rewrite ?Hw; intros; simplify_eq/=;
      solve [done | eauto | exfalso; eapply Hfree; eassumption].
  - intros k w' j'. rewrite jm_get_mutate. case_decide as Hk; subst; rewrite ?Hw; intros; simplify_eq/=.
    + rewrite lookup_alter_eq, Hj. eexists. split; [done|]. by repeat split.
    + rewrite lookup_alter_ne; [eauto|]. intros ->. naive_solver.
  - intros j' r'. rewrite lookup_alter. case_decide as Hjj; subst; intros Hr' Hs'.
    + right. exists id, (set_status_active Busy (Some j') w). by rewrite jm_get_mutate_eq, Hw.
    + destruct (Has j' r' Hr' Hs') as [?|(k & w' & Hk & Ha)]; [by left | right]. exists k, w'.
      rewrite jm_get_mutate_ne; [done|]. intros ->. simplify_eq.
      assert (w_activeJobId w = None) by (by eapply Hidle). congruence.
  - intros j' r'. rewrite lookup_alter. case_decide; subst; [|by apply Hrow].
    rewrite Hj. intros; simplify_eq/=. destruct (Hrow j' r Hj) as [? Hok].
    split; [done|]. unfold row_ok in *. rewrite Hp in Hok. simpl. naive_solver.
  - intros j' r' pk. rewrite lookup_alter. case_decide; subst; [|by apply Hprv].
    rewrite Hj. intros [= <-] Hpc [= <-]. by apply Htr.
Qed.

(** Worker [id] stops running [j]: it becomes idle ([o] is [Some]) or leaves,
    and the row of [j], if it is no demo job, becomes [g r], not assigned. *)
Lemma core_release ws ws' js id w j (g : JobRow → JobRow) :
  jm_get id ws = Some w → w_activeJobId w = Some j → isDemoJob j = false →
  jm_wf ws' → (∀ k, k ≠ id → jm_get k ws' = jm_get k ws) →
  (jm_get id ws' = None ∨ jm_get id ws' = Some (set_idle w)) →
  (∀ r, row_ok r → j_status r = Assigned → row_ok (g r) ∧ j_status (g r) ≠ Assigned) →
  (∀ r, keeps_worker r (g r)) →
  core ws js T O → core ws' (alter g j js) T O.
Proof.
  intros Hw Ha Hd Hwf' Hother Hself Hg Hkeep [Hwf Hid Hidle Hinj Hact Has Hrow Hprv].
  destruct (Hact id w j Hw Ha Hd) as (r & Hr & Hrs & _).
  destruct (Hrow j r Hr) as [_ Hok]. destruct (Hg r Hok Hrs) as [Hok' Hns].
  assert (∀ k w', jm_get k ws' = Some w' →
    (k ≠ id ∧ jm_get k ws = Some w') ∨ (k = id ∧ w' = set_idle w)) as Hcase.
  { intros k w' Hk. destruct (decide (k = id)) as [->|]; [right|left; by rewrite <- Hother].
    destruct Hself; naive_solver. }
  split; [done | ..].
  - intros k w' [[? Hk]|[-> ->]]%Hcase; [eauto|]. simpl. eauto.
  - intros k w' [[? Hk]|[-> ->]]%Hcase; [eauto|]. done.
  - intros k1 w1 k2 w2 j' [[? ?]|[-> ->]]%Hcase [[? ?]|[-> ->]]%Hcase; naive_solver.
  - intros k w' j' [[? Hk]|[-> ->]]%Hcase Ha' Hd'; [|done].
    rewrite lookup_alter_ne; [eauto|]. intros ->. by eapply H, Hinj.
  - intros j' r'. rewrite lookup_alter. case_decide; subst; intros Hr' Hs'.
    + rewrite Hr in Hr'. by simplify_eq/=.
    + destruct (Has j' r' Hr' Hs') as [?|(k & w' & Hk & Ha')]; [by left | right]. exists k, w'.
      rewrite Hother; [done|]. intros ->. congruence.
  - intros j' r'. rewrite lookup_alter. case_decide; subst; [|by apply Hrow].
    rewrite Hr. intros; simplify_eq/=. split; [by eapply Hrow | done].
  - intros j' r' pk. rewrite lookup_alter. case_decide; subst; [|by apply Hprv].
    rewrite Hr. intros [= <-]. destruct (Hkeep r) as (-> & -> & Hpk). eauto.
Qed.

(** Worker [id] is idle or runs a demo job [j]; it becomes idle or leaves. *)
Lemma core_release_demo ws ws' js id w :
  jm_get id ws = Some w → (∀ j, w_activeJobId w = Some j → isDemoJob j = true) →
  jm_wf ws' → (∀ k, k ≠ id → jm_get k ws' = jm_get k ws) →
  (jm_get id ws' = None ∨ jm_get id ws' = Some (set_idle w)) →
  core ws js T O → core ws' js T O.
Proof.
  intros Hw Ha Hwf' Hother Hself [Hwf Hid Hidle Hinj Hact Has Hrow Hprv].
  assert (∀ k w', jm_get k ws' = Some w' →
    (k ≠ id ∧ jm_get k ws = Some w') ∨ (k = id ∧ w' = set_idle w)) as Hcase.
  { intros k w' Hk. destruct (decide (k = id)) as [->|]; [right|left; by rewrite <- Hother].
    destruct Hself; naive_solver. }
  split; [done | ..]; [| | | | |done|done].
  - intros k w' [[? Hk]|[-> ->]]%Hcase; [eauto|]. simpl. eauto.
  - intros k w' [[? Hk]|[-> ->]]%Hcase; [eauto|]. done.
  - intros k1 w1 k2 w2 j' [[? ?]|[-> ->]]%Hcase [[? ?]|[-> ->]]%Hcase; naive_solver.
  - intros k w' j' [[? Hk]|[-> ->]]%Hcase Ha' Hd'; [eauto | done].
  - intros j' r' Hr' Hs'. destruct (Has j' r' Hr' Hs') as [?|(k & w' & Hk & Ha')]; [by left | right]. exists k, w'.
    rewrite Hother; [done|]. intros ->. simplify_eq.
    destruct (Hrow j' r' Hr') as [? _]. specialize (Ha j' Ha'). congruence.
Qed.

(** A demo job is injected on an idle worker. *)
Lemma core_inject ws js id w j :
  jm_get id ws = Some w → w_status w = Idle → isDemoJob j = true →
  (∀ k w', jm_get k ws = Some w' → w_activeJobId w' ≠ Some j) →
  core ws js T O → core (jm_mutate (set_status_active Busy (Some j)) id ws) js T O.
Proof.
  intros Hw Hst Hd Hfree [Hwf Hid Hidle Hinj Hact Has Hrow Hprv].
  split; [by apply jm_wf_mutate | ..]; [| | | | |done|done].
  - intros k w'. rewrite jm_get_mutate. case_decide; [|by apply Hid]. subst. rewrite Hw.
    intros; simplify_eq/=. by apply Hid.
  - intros k w'. rewrite jm_get_mutate. case_decide; [|by apply Hidle]. subst. rewrite Hw.
    intros; by simplify_eq/=.
  - intros k1 w1 k2 w2 j'. rewrite !jm_get_mutate.
    repeat case_decide; subst; rewrite ?Hw; intros; simplify_eq/=;
      solve [done | eauto | exfalso; eapply Hfree; eassumption].
  - intros k w' j'. rewrite jm_get_mutate.
    case_decide; subst; rewrite ?Hw; intros; simplify_eq/=; [congruence | eauto].
  - intros j' r' Hr' Hs'. destruct (Has j' r' Hr' Hs') as [?|(k & w' & Hk & Ha)]; [by left | right]. exists k, w'.
    rewrite jm_get_mutate_ne; [done|]. intros ->. simplify_eq.
    assert (w_activeJobId w = None) by (by eapply Hidle). congruence.
Qed.

(** Rows nobody runs: a new pending row, and a pending row that fails. *)
Lemma core_rows_change ws js j r' :
  (∀ r, js !! j = Some r → j_status r = Pending) →
  (∀ k w, jm_get k ws = Some w → w_activeJobId w ≠ Some j) →
  isDemoJob j = false → row_ok r' → j_status r' ≠ Assigned → j_worker_pubkey r' = None →
  core ws js T O → core ws (<[j := r']> js) T O.
Proof.
  intros Hp Hfree Hd Hok Hns Hnone [Hwf Hid Hidle Hinj Hact Has Hrow Hprv]. split; try done.
  - intros k w j' Hk Ha Hd'. rewrite lookup_insert_ne; [eauto|]. intros ->. by eapply Hfree.
  - intros j' r. rewrite lookup_insert. case_decide; subst; naive_solver.
  - intros j' r. rewrite lookup_insert. case_decide; subst; naive_solver.
  - intros j' r pk. rewrite lookup_insert. case_decide; subst; [|by apply Hprv]. intros [= <-]. congruence.
Qed.

Lemma core_free_pending ws js j r :
  core ws js T O → js !! j = Some r → j_status r = Pending →
  ∀ k w, jm_get k ws = Some w → w_activeJobId w ≠ Some j.
Proof.
  intros Hc Hj Hp k w Hk Ha.
  destruct (core_active _ _ _ _ Hc k w j Hk Ha) as (r' & ? & Hr & _);
    [by eapply (core_rows _ _ _ _ Hc) | congruence].
Qed.
End Core.
