(* ===== verification/Moves.v ===== *)
(** * The elementary moves of a coordinator

    A [View] holds what the coordinator's correctness is about: workers, jobs,
    pairings, receipts, payout queues and retry loops.  A [move] is one change
    of it the service may make, with the condition under which it may.  The
    invariant [vinv] is proved here once per move; that every event of the
    running coordinator is a sequence of moves is proved in Refinement.v. *)

From stdpp Require Import base list gmap strings option relations.
From Stdlib Require Import ZArith Lia.
From S2P Require Import Prelude Js Protocol Interfaces Db WorkerHub Jobs Core.
Local Open Scope string_scope.

Record View (B W : Type) := mkView {
  v_ws : jsmap TrackedWorker; v_db : Db; v_bolt : option B; v_wbolt : option W;
  v_loops : list RetryLoop; v_drawn : gset string }.
Arguments mkView {B W}. Arguments v_ws {B W}. Arguments v_db {B W}. Arguments v_bolt {B W}.
Arguments v_wbolt {B W}. Arguments v_loops {B W}. Arguments v_drawn {B W}.

Definition demo_id (u : string) : string := "demo-" ++ u.

Lemma demo_id_demo u : isDemoJob (demo_id u) = true.
Proof. by destruct u. Qed.

(** The loops that are not of job [j]. *)
Definition drop_loop (j : string) (ls : list RetryLoop) : list RetryLoop :=
  filter (λ l, l_jobId l ≠ j) ls.

Definition idle_nobody (j : string) (ws : jsmap TrackedWorker) : Prop :=
  ∀ id w, jm_get id ws = Some w → w_activeJobId w ≠ Some j.

(** The retry loop of a pending row. *)
Definition loop_ok (js : gmap string JobRow) (l : RetryLoop) : Prop :=
  (l_attempts l < maxAttempts)%nat ∧ l_privacyClass l ≠ "PRIVATE" ∧
  ∃ r, js !! l_jobId l = Some r ∧ j_status r = Pending ∧ j_type r = l_jobType l ∧
       j_policy r = l_policy l ∧ j_privacy_class r = l_privacyClass l ∧
       j_user_id r = l_userId l ∧ j_payload r = l_payload l.

Section Moves.
  Context {B W : Type} `{!PayoutQueue B} `{!PayoutQueue W}.
  Context (N : gset string).
  Implicit Types v : View B W.

(** [N] holds the ids of the jobs being submitted; any other job that leaves
    [pending] has a retry loop. *)
Definition matchable (j : string) v : Prop := j ∈ N ∨ j ∈ (l_jobId <$> v_loops v).

Inductive move v : View B W → Prop :=
  | mv_draw ids :
      "" ∉ ids →
      move v (mkView (v_ws v) (v_db v) (v_bolt v) (v_wbolt v) (v_loops v) (v_drawn v ∪ ids))
  | mv_touch id f :
      (∀ w, same_core w (f w)) →
      move v (mkView (jm_mutate f id (v_ws v)) (v_db v) (v_bolt v) (v_wbolt v) (v_loops v) (v_drawn v))
  | mv_register id w :
      id ∈ v_drawn v → jm_get id (v_ws v) = None →
      w_id w = id → w_status w = Idle → w_activeJobId w = None →
      move v (mkView (jm_set id w (v_ws v)) (v_db v) (v_bolt v) (v_wbolt v) (v_loops v) (v_drawn v))
  | mv_submit j t p privacy user payload now d' :
      j ∈ v_drawn v → isDemoJob j = false → idle_nobody j (v_ws v) →
      insert_job j t p privacy user payload now (v_db v) = Ok d' →
      move v (mkView (v_ws v) d' (v_bolt v) (v_wbolt v) (v_loops v) (v_drawn v))
  | mv_assign j r id w :
      jobs (v_db v) !! j = Some r → j_status r = Pending →
      jm_get id (v_ws v) = Some w → w_status w = Idle → j_type r ∈ w_capabilities w →
      (j_privacy_class r = "PRIVATE" → trusted_by (v_db v) (j_user_id r) (w_pubkey w)) →
      matchable j v →
      move v (mkView (jm_mutate (set_status_active Busy (Some j)) id (v_ws v))
                (update_assigned (w_pubkey w) j (v_db v)) (v_bolt v) (v_wbolt v)
                (drop_loop j (v_loops v)) (v_drawn v))
  | mv_fail j r code :
      jobs (v_db v) !! j = Some r → j_status r = Pending → matchable j v →
      move v (mkView (v_ws v) (update_failed code j (v_db v)) (v_bolt v) (v_wbolt v)
                (drop_loop j (v_loops v)) (v_drawn v))
  | mv_loop_start l :
      loop_ok (jobs (v_db v)) l → l_jobId l ∉ (l_jobId <$> v_loops v) → l_jobId l ∈ N →
      move v (mkView (v_ws v) (v_db v) (v_bolt v) (v_wbolt v) (v_loops v ++ [l])%list (v_drawn v))
  | mv_loop_tick i l :
      v_loops v !! i = Some l → (S (l_attempts l) < maxAttempts)%nat →
      move v (mkView (v_ws v) (v_db v) (v_bolt v) (v_wbolt v) (<[i := loop_tick l]> (v_loops v)) (v_drawn v))
  | mv_complete j id w output now rcs :
      jm_get id (v_ws v) = Some w → w_activeJobId w = Some j → isDemoJob j = false →
      (rcs = [] ∨ (∃ rc, rcs = [rc] ∧ rr_id rc ∈ v_drawn v ∧
                  rr_id rc ∉ (rr_id <$> receipts (v_db v)) ∧ is_Some (jobs (v_db v) !! rr_job_id rc))) →
      move v (mkView (jm_mutate set_idle id (v_ws v))
                (mkDb (alter (set_completed output now) j (jobs (v_db v))) (trust_pairings (v_db v))
                      (receipts (v_db v) ++ rcs)%list)
                (pq_queue (w_pubkey w) j JOB_AMOUNT <$> v_bolt v)
                (pq_queue (w_pubkey w) j JOB_AMOUNT <$> v_wbolt v) (v_loops v) (v_drawn v))
  | mv_reject j id w :
      jm_get id (v_ws v) = Some w → w_activeJobId w = Some j → isDemoJob j = false →
      move v (mkView (jm_mutate set_idle id (v_ws v)) (update_rejected j (v_db v))
                (v_bolt v) (v_wbolt v) (v_loops v) (v_drawn v))
  | mv_abort j id w :
      jm_get id (v_ws v) = Some w → w_activeJobId w = Some j → isDemoJob j = false →
      move v (mkView (jm_delete id (v_ws v)) (update_failed "worker_disconnected" j (v_db v))
                (v_bolt v) (v_wbolt v) (v_loops v) (v_drawn v))
  | mv_leave id w :
      jm_get id (v_ws v) = Some w → (∀ j, w_activeJobId w = Some j → isDemoJob j = true) →
      move v (mkView (jm_delete id (v_ws v)) (v_db v) (v_bolt v) (v_wbolt v) (v_loops v) (v_drawn v))
  | mv_demo_start u id w :
      u ∈ v_drawn v → idle_nobody (demo_id u) (v_ws v) →
      (∀ d, v_bolt v = Some d → demo_id u ∉ (pq_accounted d).*2) →
      (∀ d, v_wbolt v = Some d → demo_id u ∉ (pq_accounted d).*2) →
      jm_get id (v_ws v) = Some w → w_status w = Idle →
      move v (mkView (jm_mutate (set_status_active Busy (Some (demo_id u))) id (v_ws v)) (v_db v)
                (v_bolt v) (v_wbolt v) (v_loops v) (v_drawn v))
  | mv_demo_done j id w :
      jm_get id (v_ws v) = Some w → w_activeJobId w = Some j → isDemoJob j = true →
      move v (mkView (jm_mutate set_idle id (v_ws v)) (v_db v)
                (pq_queue (w_pubkey w) j JOB_AMOUNT <$> v_bolt v)
                (pq_queue (w_pubkey w) j JOB_AMOUNT <$> v_wbolt v) (v_loops v) (v_drawn v))
  | mv_demo_reject j id w :
      jm_get id (v_ws v) = Some w → w_activeJobId w = Some j → isDemoJob j = true →
      move v (mkView (jm_mutate set_idle id (v_ws v)) (v_db v) (v_bolt v) (v_wbolt v) (v_loops v) (v_drawn v))
  | mv_receipt rc d' :
      rr_id rc ∈ v_drawn v → insert_receipt rc (v_db v) = Ok d' →
      move v (mkView (v_ws v) d' (v_bolt v) (v_wbolt v) (v_loops v) (v_drawn v))
  | mv_pairing id user code expires now d' :
      id ∈ v_drawn v → insert_pairing id user code expires now (v_db v) = Ok d' →
      move v (mkView (v_ws v) d' (v_bolt v) (v_wbolt v) (v_loops v) (v_drawn v))
  | mv_claim pubkey code t :
      select_pairing code (v_db v) = Some t → t_claimed t = false →
      move v (mkView (v_ws v) (update_claimed pubkey (t_id t) (v_db v)) (v_bolt v) (v_wbolt v)
                (v_loops v) (v_drawn v))
  | mv_bolt d d' :
      v_bolt v = Some d → pq_step d d' →
      move v (mkView (v_ws v) (v_db v) (Some d') (v_wbolt v) (v_loops v) (v_drawn v))
  | mv_wbolt d d' :
      v_wbolt v = Some d → pq_step d d' →
      move v (mkView (v_ws v) (v_db v) (v_bolt v) (Some d') (v_loops v) (v_drawn v)).
End Moves.

(** ** The invariant *)

Section Invariant.
  Context {B W : Type} `{!PayoutQueue B} `{!PayoutQueue W}.
  Implicit Types v : View B W.

(** [F] is the jobs table the process found when it opened the database. *)
Context {F : gmap string JobRow}.

(** The payouts a distributor was given are those of the jobs completed since
    the process started, to the worker of the row, once each, besides those of
    finished demo jobs. *)
Definition paid_ok {D} `{!PayoutQueue D} (ws : jsmap TrackedWorker) (js : gmap string JobRow)
    (drawn : gset string) (d : D) : Prop :=
  pq_inv d ∧ NoDup (pq_accounted d).*2 ∧
  (∀ pk j, (pk, j) ∈ pq_accounted d → isDemoJob j = true →
     idle_nobody j ws ∧ (∃ u, j = demo_id u ∧ u ∈ drawn)) ∧
  (∀ pk j, isDemoJob j = false → ((pk, j) ∈ pq_accounted d ↔
     F !! j = None ∧ (∃ r, js !! j = Some r ∧ j_status r = Completed ∧ j_worker_pubkey r = Some pk))).

Record vinv v : Prop := {
  vi_core : core (v_ws v) (jobs (v_db v)) (trusted_by (v_db v)) (λ j, is_Some (F !! j));
  vi_found j r : F !! j = Some r →
    jobs (v_db v) !! j = Some r ∧ idle_nobody j (v_ws v) ∧ j ∉ (l_jobId <$> v_loops v);
  vi_nonempty : "" ∉ v_drawn v;
  vi_ws_drawn id : id ∈ jm_keys (v_ws v) → id ∈ v_drawn v;
  vi_jobs_drawn j r : jobs (v_db v) !! j = Some r → j ∈ v_drawn v;
  vi_demo id w j : jm_get id (v_ws v) = Some w → w_activeJobId w = Some j → isDemoJob j = true →
    ∃ u, j = demo_id u ∧ u ∈ v_drawn v;
  vi_receipts rc : rc ∈ receipts (v_db v) → is_Some (jobs (v_db v) !! rr_job_id rc) ∧ rr_id rc ∈ v_drawn v;
  vi_receipts_nodup : NoDup (rr_id <$> receipts (v_db v));
  vi_trust t : t ∈ trust_pairings (v_db v) →
    t_id t ∈ v_drawn v ∧ (t_claimed t = true ↔ is_Some (t_provider_pubkey t));
  vi_trust_nodup : NoDup (t_id <$> trust_pairings (v_db v)) ∧ NoDup (t_pairing_code <$> trust_pairings (v_db v));
  vi_loops l : l ∈ v_loops v → loop_ok (jobs (v_db v)) l;
  vi_loops_nodup : NoDup (l_jobId <$> v_loops v);
  vi_bolt d : v_bolt v = Some d → paid_ok (v_ws v) (jobs (v_db v)) (v_drawn v) d;
  vi_wbolt d : v_wbolt v = Some d → paid_ok (v_ws v) (jobs (v_db v)) (v_drawn v) d }.
End Invariant.
Arguments vinv {B W _ _} F v.
Arguments paid_ok F {D _} ws js drawn d.

(** ** Facts about the parts of the invariant *)

(** No job but those of [X] became active. *)
Definition active_sub (X : gset string) (ws ws' : jsmap TrackedWorker) : Prop :=
  ∀ id w j, jm_get id ws' = Some w → w_activeJobId w = Some j → j ∉ X →
    ∃ id0 w0, jm_get id0 ws = Some w0 ∧ w_activeJobId w0 = Some j.

Definition done_by (js : gmap string JobRow) (j pk : string) : Prop :=
  ∃ r, js !! j = Some r ∧ j_status r = Completed ∧ j_worker_pubkey r = Some pk.

Lemma idle_nobody_sub X ws ws' j :
  active_sub X ws ws' → j ∉ X → idle_nobody j ws → idle_nobody j ws'.
Proof. intros Hsub Hd Hn id w Hg Ha. destruct (Hsub id w j Hg Ha Hd) as (?&?&?&?). by eapply Hn. Qed.

Lemma active_sub_mutate X ws f id :
  (∀ w j, w_activeJobId (f w) = Some j → j ∉ X → w_activeJobId w = Some j) →
  active_sub X ws (jm_mutate f id ws).
Proof.
  intros Hf k w j. rewrite jm_get_mutate. case_decide; [|by eauto].
  intros (w0 & Hk & ->)%fmap_Some. eauto.
Qed.

Lemma active_sub_delete X ws id : jm_wf ws → active_sub X ws (jm_delete id ws).
Proof. intros Hwf k w j. rewrite jm_get_delete by done. case_decide; [done | eauto]. Qed.

Lemma active_sub_set X ws id w : w_activeJobId w = None → active_sub X ws (jm_set id w ws).
Proof. intros Hw k w' j. rewrite jm_get_set. case_decide; [naive_solver | eauto]. Qed.

Lemma jm_keys_delete_in {V} id k (ws : jsmap V) : k ∈ jm_keys (jm_delete id ws) → k ∈ jm_keys ws.
Proof. intros Hk. eapply elem_of_sublist; [done | apply jm_keys_delete_subset]. Qed.

Lemma done_by_alter js j r (g : JobRow → JobRow) j' pk :
  js !! j = Some r → j_status r ≠ Completed → j_status (g r) ≠ Completed →
  done_by (alter g j js) j' pk ↔ done_by js j' pk.
Proof.
  intros Hj Hr Hg. unfold done_by. rewrite lookup_alter. case_decide; [|done].
  subst. rewrite Hj. simpl. naive_solver.
Qed.

Lemma loop_ok_alter js j g l : l_jobId l ≠ j → loop_ok js l → loop_ok (alter g j js) l.
Proof. intros Hne (? & ? & r & Hr & ?). repeat split; try done. exists r. by rewrite lookup_alter_ne. Qed.

Lemma loop_ok_not js j r l :
  loop_ok js l → js !! j = Some r → j_status r ≠ Pending → l_jobId l ≠ j.
Proof. intros (? & ? & r' & Hr & Hp & _) Hj Hn Heq. rewrite Heq in Hr. congruence. Qed.

Lemma drop_loop_nodup j ls : NoDup (l_jobId <$> ls) → NoDup (l_jobId <$> drop_loop j ls).
Proof. intros. eapply sublist_NoDup; [done|]. apply fmap_sublist, sublist_filter. Qed.

Section Paid.
  Context {D : Type} `{!PayoutQueue D} `{!PayoutQueueLaws D} {F : gmap string JobRow}.
  Implicit Types (d : D).

Lemma paid_ok_change ws ws' js js' drawn drawn' d :
  paid_ok F ws js drawn d → drawn ⊆ drawn' →
  (∀ j, isDemoJob j = true → j ∈ (pq_accounted d).*2 → idle_nobody j ws → idle_nobody j ws') →
  (∀ j pk, isDemoJob j = false → done_by js' j pk ↔ done_by js j pk) →
  paid_ok F ws' js' drawn' d.
Proof.
  intros (Hi & Hnd & Hdm & Hdn) HD Hws Hjs. split_and!; [done | done | |].
  - intros pk j Hin Hd. destruct (Hdm pk j Hin Hd) as (? & u & -> & ?).
    split; [|exists u; set_solver]. apply Hws; [done | | done].
    apply list_elem_of_fmap. by exists (pk, demo_id u).
  - intros pk j Hd. rewrite Hdn by done. apply and_iff_compat_l. symmetry. by apply Hjs.
Qed.

Lemma paid_ok_step ws js drawn d d' :
  pq_step d d' → paid_ok F ws js drawn d → paid_ok F ws js drawn d'.
Proof.
  intros Hs (Hi & Hnd & Hdm & Hdn). pose proof (pq_step_accounted _ _ Hs Hi) as Hp.
  split_and!; [by eapply pq_step_inv | by rewrite Hp | |]; setoid_rewrite Hp; done.
Qed.

(** Queueing the payout of a job that was running. *)
Lemma paid_ok_queue ws ws' js js' drawn d pk j a :
  paid_ok F ws js drawn d →
  (∀ j', isDemoJob j' = true → idle_nobody j' ws → idle_nobody j' ws') →
  ¬ idle_nobody j ws → (isDemoJob j = true → idle_nobody j ws' ∧ (∃ u, j = demo_id u ∧ u ∈ drawn)) →
  (isDemoJob j = false → F !! j = None ∧ ∀ pk', ¬ done_by js j pk') →
  (∀ j' pk', isDemoJob j' = false →
     done_by js' j' pk' ↔ (j' = j ∧ pk' = pk) ∨ done_by js j' pk') →
  paid_ok F ws' js' drawn (pq_queue pk j a d).
Proof.
  intros (Hi & Hnd & Hdm & Hdn) Hws Hrun Hdemo Hnew Hjs.
  pose proof (pq_queue_accounted pk j a d Hi) as Hp.
  split_and!; [by apply pq_queue_inv | | |]; setoid_rewrite Hp.
  - csimpl. apply NoDup_cons. split; [|done]. intros ([pk' j'] & -> & Hin)%list_elem_of_fmap; simpl in *.
    destruct (isDemoJob j') eqn:Hd.
    + by destruct (Hdm pk' j' Hin Hd).
    + apply Hdn in Hin as [_ ?]; [|done]. by eapply Hnew.
  - intros pk' j' [[= -> ->]|Hin]%elem_of_cons Hd; [auto|].
    destruct (Hdm pk' j' Hin Hd) as (? & ?). auto.
  - intros pk' j' Hd. rewrite elem_of_cons, Hdn by done. fold (done_by js j' pk') (done_by js' j' pk').
    rewrite Hjs by done. destruct (decide (j' = j)) as [->|]; [|naive_solver].
    destruct (Hnew Hd). naive_solver.
Qed.
End Paid.

(** ** Every move preserves the invariant *)

Section Preserve.
  Context {B W : Type} `{!PayoutQueue B} `{!PayoutQueue W} `{!PayoutQueueLaws B} `{!PayoutQueueLaws W}.
  Context {F : gmap string JobRow}.
  Implicit Types v : View B W.

(** Workers change, no row does, and no demo job starts. *)
Lemma vinv_ws v ws' :
  vinv F v → core ws' (jobs (v_db v)) (trusted_by (v_db v)) (λ j, is_Some (F !! j)) →
  (∀ id, id ∈ jm_keys ws' → id ∈ v_drawn v) → active_sub ∅ (v_ws v) ws' →
  vinv F (mkView ws' (v_db v) (v_bolt v) (v_wbolt v) (v_loops v) (v_drawn v)).
Proof.
  intros [] Hc Hk Hsub.
  assert (∀ j, idle_nobody j (v_ws v) → idle_nobody j ws') as Hidle
    by (intros j; eapply idle_nobody_sub; [done | apply not_elem_of_empty]).
  split; simpl; try done.
  - intros j r Hj. destruct (vi_found0 j r Hj) as (? & ? & ?). auto.
  - intros id w j Hg Ha Hd. destruct (Hsub id w j Hg Ha (not_elem_of_empty j)) as (?&?&?&?). eauto.
  - intros d Hd. eapply paid_ok_change; eauto.
  - intros d Hd. eapply paid_ok_change; eauto.
Qed.

(** One row [j], not completed, changes to another status than completed. *)
Lemma vinv_job v ws' j r g loops' :
  vinv F v → jobs (v_db v) !! j = Some r → F !! j = None →
  j_status r ≠ Completed → j_status (g r) ≠ Completed →
  core ws' (alter g j (jobs (v_db v))) (trusted_by (v_db v)) (λ j, is_Some (F !! j)) →
  (∀ id, id ∈ jm_keys ws' → id ∈ jm_keys (v_ws v)) → active_sub {[j]} (v_ws v) ws' →
  loops' `sublist_of` v_loops v → (∀ l, l ∈ loops' → l_jobId l ≠ j) →
  vinv F (mkView ws' (with_jobs (alter g j) (v_db v)) (v_bolt v) (v_wbolt v) loops' (v_drawn v)).
Proof.
  intros [] Hj HF Hnc Hnc' Hc Hk Hsub Hl Hne.
  assert (∀ k, k ≠ j → idle_nobody k (v_ws v) → idle_nobody k ws') as Hidle
    by (intros k Hk'; eapply idle_nobody_sub; [done | by apply not_elem_of_singleton]).
  assert (∀ k, isDemoJob k = true → k ≠ j) as Hdm.
  { intros k Hd ->. destruct (core_rows _ _ _ _ vi_core0 j r Hj). congruence. }
  split; simpl; try done; eauto.
  - intros j' r' Hj'. assert (j' ≠ j) by congruence. destruct (vi_found0 j' r' Hj') as (? & ? & Hn).
    rewrite lookup_alter_ne by done. split_and!; [done | auto |]. contradict Hn.
    eapply elem_of_sublist; [done | by apply fmap_sublist].
  - intros j' r'. rewrite lookup_alter. case_decide; subst; eauto.
  - intros id w j' Hg Ha Hd. destruct (Hsub id w j' Hg Ha) as (?&?&?&?); [|by eauto].
    apply not_elem_of_singleton. auto.
  - intros rc Hrc. rewrite lookup_alter. destruct (vi_receipts0 rc Hrc) as [Hs ?].
    case_decide; [|done]. subst. by rewrite fmap_is_Some.
  - intros l Hin. apply loop_ok_alter; [auto|]. eapply vi_loops0, elem_of_sublist; done.
  - eapply sublist_NoDup; [exact vi_loops_nodup0 | by apply fmap_sublist].
  - intros d Hd. eapply paid_ok_change; eauto using done_by_alter.
  - intros d Hd. eapply paid_ok_change; eauto using done_by_alter.
Qed.

Lemma elem_drop_loop j l ls : l ∈ drop_loop j ls → l_jobId l ≠ j ∧ l ∈ ls.
Proof. intros H%list_elem_of_filter. done. Qed.

(** A job the process found in the table is neither running nor retried. *)
Lemma running_not_found v id w j :
  vinv F v → jm_get id (v_ws v) = Some w → w_activeJobId w = Some j → F !! j = None.
Proof.
  intros Hv Hw Ha. destruct (F !! j) as [r|] eqn:HF; [|done].
  destruct (vi_found _ Hv j r HF) as (_ & Hn & _). by destruct (Hn id w).
Qed.

Lemma matchable_not_found N v j :
  vinv F v → (∀ k, k ∈ N → F !! k = None) → matchable N j v → F !! j = None.
Proof.
  intros Hv HN [?|Hl]; [auto|]. destruct (F !! j) as [r|] eqn:HF; [|done].
  by destruct (vi_found _ Hv j r HF) as (_ & _ & []).
Qed.

Lemma running_row v id w j :
  vinv F v → jm_get id (v_ws v) = Some w → w_activeJobId w = Some j → isDemoJob j = false →
  ∃ r, jobs (v_db v) !! j = Some r ∧ runs (trusted_by (v_db v)) w r ∧
       (∀ l, l ∈ v_loops v → l_jobId l ≠ j).
Proof.
  intros Hv Hw Ha Hd. destruct (core_active _ _ _ _ (vi_core _ Hv) id w j Hw Ha Hd) as (r & Hr & Hrun).
  exists r. split_and!; [done | done |]. intros l Hl.
  eapply loop_ok_not; [by apply (vi_loops _ Hv) | done |]. destruct Hrun as [-> _]. done.
Qed.

Lemma set_idle_active (X : gset string) w j : w_activeJobId (set_idle w) = Some j → j ∉ X → w_activeJobId w = Some j.
Proof. done. Qed.

Lemma core_set_idle ws js T O id w j g :
  core ws js T O → jm_get id ws = Some w → w_activeJobId w = Some j → isDemoJob j = false →
  (∀ r, row_ok r → j_status r = Assigned → row_ok (g r) ∧ j_status (g r) ≠ Assigned) →
  (∀ r, keeps_worker r (g r)) →
  core (jm_mutate set_idle id ws) (alter g j js) T O.
Proof.
  intros Hc Hw Ha Hd Hg Hk. eapply core_release; eauto.
  - apply jm_wf_mutate, Hc.
  - intros. by rewrite jm_get_mutate_ne.
  - right. by rewrite jm_get_mutate_eq, Hw.
Qed.

Lemma core_set_idle_demo ws js T O id w j :
  core ws js T O → jm_get id ws = Some w → w_activeJobId w = Some j → isDemoJob j = true →
  core (jm_mutate set_idle id ws) js T O.
Proof.
  intros Hc Hw Ha Hd. eapply core_release_demo; eauto.
  - intros. by simplify_eq.
  - apply jm_wf_mutate, Hc.
  - intros. by rewrite jm_get_mutate_ne.
  - right. by rewrite jm_get_mutate_eq, Hw.
Qed.

(** After [set_idle] the job runs nowhere. *)
Lemma idle_after ws js T O id w j :
  core ws js T O → jm_get id ws = Some w → w_activeJobId w = Some j →
  idle_nobody j (jm_mutate set_idle id ws).
Proof.
  intros Hc Hw Ha k w'. rewrite jm_get_mutate. case_decide; subst.
  - rewrite Hw. intros; by simplify_eq/=.
  - intros Hk Ha'. assert (id = k) by (by eapply core_inj). done.
Qed.

Lemma row_ok_completed output now r :
  row_ok r → j_status r = Assigned →
  row_ok (set_completed output now r) ∧ j_status (set_completed output now r) ≠ Assigned.
Proof. unfold row_ok. intros Hr Hs. rewrite Hs in Hr. simpl. naive_solver. Qed.

Lemma row_ok_rejected r :
  row_ok r → j_status r = Assigned → row_ok (set_rejected r) ∧ j_status (set_rejected r) ≠ Assigned.
Proof. unfold row_ok. intros Hr Hs. rewrite Hs in Hr. simpl. naive_solver. Qed.

Lemma row_ok_failed code r :
  row_ok r → j_status r = Assigned ∨ j_status r = Pending →
  row_ok (set_failed code r) ∧ j_status (set_failed code r) ≠ Assigned.
Proof. unfold row_ok. intros Hr [Hs|Hs]; rewrite Hs in Hr; simpl; naive_solver. Qed.

Lemma trusted_by_jobs f d : trusted_by (with_jobs f d) = trusted_by d.
Proof. done. Qed.

Lemma vinv_draw v ids :
  vinv F v → "" ∉ ids →
  vinv F (mkView (v_ws v) (v_db v) (v_bolt v) (v_wbolt v) (v_loops v) (v_drawn v ∪ ids)).
Proof.
  intros [] Hne. split; simpl; try done; try (by intros; apply elem_of_union_l; eauto).
  - intros [?|?]%elem_of_union; done.
  - intros id w j Hg Ha Hd. destruct (vi_demo0 id w j Hg Ha Hd) as (u & -> & ?). set_solver.
  - intros rc Hrc. destruct (vi_receipts0 rc Hrc). set_solver.
  - intros t Ht. destruct (vi_trust0 t Ht). set_solver.
  - intros d Hd. eapply paid_ok_change; eauto. set_solver.
  - intros d Hd. eapply paid_ok_change; eauto. set_solver.
Qed.

Lemma vinv_register v id w :
  vinv F v → id ∈ v_drawn v → jm_get id (v_ws v) = None →
  w_id w = id → w_status w = Idle → w_activeJobId w = None →
  vinv F (mkView (jm_set id w (v_ws v)) (v_db v) (v_bolt v) (v_wbolt v) (v_loops v) (v_drawn v)).
Proof.
  intros Hv ? ? ? ? ?. apply vinv_ws; [done | | |].
  - apply core_register; try done. apply Hv.
  - intros k. rewrite jm_keys_set. case_decide; [apply Hv|].
    rewrite elem_of_app, list_elem_of_singleton. intros [?| ->]; [by apply Hv | done].
  - by apply active_sub_set.
Qed.

Lemma vinv_submit v j t p privacy user payload now d' :
  vinv F v → j ∈ v_drawn v → isDemoJob j = false → idle_nobody j (v_ws v) →
  insert_job j t p privacy user payload now (v_db v) = Ok d' →
  vinv F (mkView (v_ws v) d' (v_bolt v) (v_wbolt v) (v_loops v) (v_drawn v)).
Proof.
  unfold insert_job. intros Hv Hj Hd Hn. destruct (jobs (v_db v) !! j) eqn:Hnone; [done|].
  intros [= <-]. destruct Hv.
  assert (∀ j' pk, done_by (<[j := mkJob t p privacy user Pending payload None None now None]>
     (jobs (v_db v))) j' pk ↔ done_by (jobs (v_db v)) j' pk) as Hdone.
  { intros j' pk. unfold done_by. rewrite lookup_insert. case_decide; [|done]. subst.
    rewrite Hnone. naive_solver. }
  split; simpl; try done.
  - apply core_rows_change; [ naive_solver | done | done | done | done | done | done ].
  - intros j' r Hj'. destruct (vi_found0 j' r Hj') as (? & ? & ?). rewrite lookup_insert_ne; [done|]. congruence.
  - intros j' r. rewrite lookup_insert. case_decide; subst; eauto.
  - intros rc Hrc. destruct (vi_receipts0 rc Hrc) as [? ?]. rewrite lookup_insert. by case_decide.
  - intros l Hl. destruct (vi_loops0 l Hl) as (? & ? & r & Hr & ?). split_and!; [done|done|].
    exists r. rewrite lookup_insert_ne; [done|]. congruence.
  - intros d Hd'. eapply paid_ok_change; eauto.
  - intros d Hd'. eapply paid_ok_change; eauto.
Qed.

Lemma vinv_assign v j r id w :
  vinv F v → F !! j = None → jobs (v_db v) !! j = Some r → j_status r = Pending →
  jm_get id (v_ws v) = Some w → w_status w = Idle → j_type r ∈ w_capabilities w →
  (j_privacy_class r = "PRIVATE" → trusted_by (v_db v) (j_user_id r) (w_pubkey w)) →
  vinv F (mkView (jm_mutate (set_status_active Busy (Some j)) id (v_ws v))
          (update_assigned (w_pubkey w) j (v_db v)) (v_bolt v) (v_wbolt v)
          (drop_loop j (v_loops v)) (v_drawn v)).
Proof.
  intros Hv HF Hj Hp Hw Hi Hc Ht. eapply vinv_job; [done | done | done | by rewrite Hp | done | | | | |].
  - eapply core_assign; eauto. apply Hv.
  - intros k. by rewrite jm_keys_mutate.
  - apply active_sub_mutate. intros w' j' [= ->] []. by apply elem_of_singleton.
  - apply sublist_filter.
  - intros l Hl. by destruct (elem_drop_loop _ _ _ Hl).
Qed.

Lemma vinv_fail v j r code :
  vinv F v → F !! j = None → jobs (v_db v) !! j = Some r → j_status r = Pending →
  vinv F (mkView (v_ws v) (update_failed code j (v_db v)) (v_bolt v) (v_wbolt v)
          (drop_loop j (v_loops v)) (v_drawn v)).
Proof.
  intros Hv HF Hj Hp. destruct (core_rows _ _ _ _ (vi_core _ Hv) _ _ Hj) as [Hd Hok].
  destruct (row_ok_failed code r Hok (or_intror Hp)) as [Hok' Hns].
  eapply vinv_job; [done | done | done | by rewrite Hp | done | | done | | |].
  - rewrite (alter_insert_lookup _ _ _ _ Hj).
    apply core_rows_change; try done; [naive_solver | | | apply Hv].
    + eapply core_free_pending; [apply Hv | done | done].
    + unfold row_ok in Hok. rewrite Hp in Hok. by destruct Hok.
  - intros k w j'. eauto.
  - apply sublist_filter.
  - intros l Hl. by destruct (elem_drop_loop _ _ _ Hl).
Qed.

Lemma vinv_loop_start v l :
  vinv F v → F !! l_jobId l = None → loop_ok (jobs (v_db v)) l → l_jobId l ∉ (l_jobId <$> v_loops v) →
  vinv F (mkView (v_ws v) (v_db v) (v_bolt v) (v_wbolt v) (v_loops v ++ [l])%list (v_drawn v)).
Proof.
  intros [] HF Hl Hn. split; simpl; try done.
  - intros j r Hj. destruct (vi_found0 j r Hj) as (? & ? & Hnl). split_and!; [done | done |].
    rewrite fmap_app. intros [?|Hin]%elem_of_app; [done|]. apply list_elem_of_singleton in Hin as ->. simpl in *. congruence.
  - intros l' [?| ->%list_elem_of_singleton]%elem_of_app; eauto.
  - rewrite fmap_app. apply NoDup_app. split_and!; [done | | apply NoDup_singleton].
    intros x Hx ->%list_elem_of_singleton. done.
Qed.

Lemma vinv_loop_tick v i l :
  vinv F v → v_loops v !! i = Some l → (S (l_attempts l) < maxAttempts)%nat →
  vinv F (mkView (v_ws v) (v_db v) (v_bolt v) (v_wbolt v) (<[i := loop_tick l]> (v_loops v)) (v_drawn v)).
Proof.
  intros [] Hl Ha. split; simpl; try done.
  - intros j r Hj. destruct (vi_found0 j r Hj) as (? & ? & Hnl). split_and!; [done | done |].
    rewrite list_fmap_insert. simpl. rewrite list_insert_id; [done|]. by rewrite list_lookup_fmap, Hl.
  - intros l' [i' Hi']%list_elem_of_lookup.
    apply list_lookup_insert_Some in Hi' as [(-> & <- & _)|[_ Hi']];
      [|by eapply vi_loops0, list_elem_of_lookup_2].
    destruct (vi_loops0 l) as (? & ? & ?); [by eapply list_elem_of_lookup_2|]. done.
  - rewrite list_fmap_insert. simpl. rewrite list_insert_id; [done|].
    by rewrite list_lookup_fmap, Hl.
Qed.

Lemma vinv_reject v j id w :
  vinv F v → jm_get id (v_ws v) = Some w → w_activeJobId w = Some j → isDemoJob j = false →
  vinv F (mkView (jm_mutate set_idle id (v_ws v)) (update_rejected j (v_db v))
          (v_bolt v) (v_wbolt v) (v_loops v) (v_drawn v)).
Proof.
  intros Hv Hw Ha Hd. destruct (running_row v id w j Hv Hw Ha Hd) as (r & Hr & [Hs _] & Hl).
  eapply vinv_job; [done | done | by eapply running_not_found | by rewrite Hs | done | | | | done | done].
  - eapply core_set_idle; [apply Hv | done | done | done | apply row_ok_rejected | done].
  - intros k. by rewrite jm_keys_mutate.
  - apply active_sub_mutate, set_idle_active.
Qed.

Lemma vinv_abort v j id w :
  vinv F v → jm_get id (v_ws v) = Some w → w_activeJobId w = Some j → isDemoJob j = false →
  vinv F (mkView (jm_delete id (v_ws v)) (update_failed "worker_disconnected" j (v_db v))
          (v_bolt v) (v_wbolt v) (v_loops v) (v_drawn v)).
Proof.
  intros Hv Hw Ha Hd. destruct (running_row v id w j Hv Hw Ha Hd) as (r & Hr & [Hs _] & Hl).
  pose proof (core_wf _ _ _ _ (vi_core _ Hv)) as Hwf.
  eapply vinv_job; [done | done | by eapply running_not_found | by rewrite Hs | done | | | | done | done].
  - eapply core_release; [done | done | done | by apply jm_wf_delete | | | | done | apply Hv].
    + intros k Hk. by rewrite jm_get_delete_ne.
    + left. by apply jm_get_delete_eq.
    + intros r' Hok Has. apply row_ok_failed; auto.
  - intros k. apply jm_keys_delete_in.
  - by apply active_sub_delete.
Qed.

Lemma vinv_leave v id w :
  vinv F v → jm_get id (v_ws v) = Some w → (∀ j, w_activeJobId w = Some j → isDemoJob j = true) →
  vinv F (mkView (jm_delete id (v_ws v)) (v_db v) (v_bolt v) (v_wbolt v) (v_loops v) (v_drawn v)).
Proof.
  intros Hv Hw Ha. pose proof (core_wf _ _ _ _ (vi_core _ Hv)) as Hwf. apply vinv_ws; [done | | |].
  - eapply core_release_demo; [done | done | by apply jm_wf_delete | | | apply Hv].
    + intros k Hk. by rewrite jm_get_delete_ne.
    + left. by apply jm_get_delete_eq.
  - intros k ?%jm_keys_delete_in. by apply Hv.
  - by apply active_sub_delete.
Qed.

Lemma vinv_demo_start v u id w :
  vinv F v → u ∈ v_drawn v → idle_nobody (demo_id u) (v_ws v) →
  (∀ d, v_bolt v = Some d → demo_id u ∉ (pq_accounted d).*2) →
  (∀ d, v_wbolt v = Some d → demo_id u ∉ (pq_accounted d).*2) →
  jm_get id (v_ws v) = Some w → w_status w = Idle →
  vinv F (mkView (jm_mutate (set_status_active Busy (Some (demo_id u))) id (v_ws v)) (v_db v)
          (v_bolt v) (v_wbolt v) (v_loops v) (v_drawn v)).
Proof.
  intros Hv Hu Hn Hb Hwb Hw Hi. pose proof (vi_core _ Hv) as Hc.
  assert (core (jm_mutate (set_status_active Busy (Some (demo_id u))) id (v_ws v))
            (jobs (v_db v)) (trusted_by (v_db v)) (λ j, is_Some (F !! j))) as Hc'
    by (eapply core_inject; [done | done | apply demo_id_demo | done | done]).
  assert (∀ j, j ≠ demo_id u → idle_nobody j (v_ws v) →
    idle_nobody j (jm_mutate (set_status_active Busy (Some (demo_id u))) id (v_ws v))) as Hidle.
  { intros j Hj Hnb k w'. rewrite jm_get_mutate. case_decide; [|apply Hnb].
    intros (w0 & ? & ->)%fmap_Some. simpl. congruence. }
  destruct Hv. split; simpl; try done.
  - intros j r Hj. destruct (vi_found0 j r Hj) as (Hr & ? & ?). split_and!; [done | | done].
    apply Hidle; [|done]. intros ->. destruct (core_rows _ _ _ _ Hc _ _ Hr) as [Hd _].
    by rewrite demo_id_demo in Hd.
  - intros k. rewrite jm_keys_mutate. auto.
  - intros k w' j. rewrite jm_get_mutate. case_decide; [|by eauto].
    intros (w0 & ? & ->)%fmap_Some [= <-] _. eauto.
  - intros d Hd. eapply paid_ok_change; eauto. intros j _ Hin. apply Hidle. intros ->. by eapply Hb.
  - intros d Hd. eapply paid_ok_change; eauto. intros j _ Hin. apply Hidle. intros ->. by eapply Hwb.
Qed.

Lemma active_not_idle ws id w j : jm_get id ws = Some w → w_activeJobId w = Some j → ¬ idle_nobody j ws.
Proof. intros Hw Ha Hn. by eapply Hn. Qed.

Lemma paid_demo_done {D} `{!PayoutQueue D} `{!PayoutQueueLaws D} v (d : D) j id w :
  vinv F v → paid_ok F (v_ws v) (jobs (v_db v)) (v_drawn v) d →
  jm_get id (v_ws v) = Some w → w_activeJobId w = Some j → isDemoJob j = true →
  paid_ok F (jm_mutate set_idle id (v_ws v)) (jobs (v_db v)) (v_drawn v)
    (pq_queue (w_pubkey w) j JOB_AMOUNT d).
Proof.
  intros Hv Hp Hw Ha Hd. eapply paid_ok_queue; [done | | by eapply active_not_idle | | |].
  - intros j' Hd'. apply (idle_nobody_sub ∅); [|apply not_elem_of_empty].
    apply active_sub_mutate, set_idle_active.
  - intros _. split; [eapply idle_after; [apply Hv|done|done] | by eapply vi_demo].
  - congruence.
  - intros j' pk' Hd'. split; [naive_solver|]. intros [[-> _]|?]; [congruence | done].
Qed.

Lemma vinv_demo_done v j id w :
  vinv F v → jm_get id (v_ws v) = Some w → w_activeJobId w = Some j → isDemoJob j = true →
  vinv F (mkView (jm_mutate set_idle id (v_ws v)) (v_db v)
          (pq_queue (w_pubkey w) j JOB_AMOUNT <$> v_bolt v)
          (pq_queue (w_pubkey w) j JOB_AMOUNT <$> v_wbolt v) (v_loops v) (v_drawn v)).
Proof.
  intros Hv Hw Ha Hd. pose proof Hv as []. split; simpl; try done.
  - by eapply core_set_idle_demo.
  - intros j' r Hj'. destruct (vi_found0 j' r Hj') as (? & ? & ?). split_and!; [done | | done].
    eapply (idle_nobody_sub ∅); [apply active_sub_mutate, set_idle_active | apply not_elem_of_empty | done].
  - intros k. rewrite jm_keys_mutate. auto.
  - intros k w' j' Hg Ha' Hd'.
    destruct (active_sub_mutate ∅ (v_ws v) set_idle id (set_idle_active ∅) k w' j' Hg Ha' (not_elem_of_empty j'))
      as (?&?&?&?). eauto.
  - intros d (d0 & Hd0 & ->)%fmap_Some. by eapply paid_demo_done; eauto.
  - intros d (d0 & Hd0 & ->)%fmap_Some. by eapply paid_demo_done; eauto.
Qed.

Lemma vinv_demo_reject v j id w :
  vinv F v → jm_get id (v_ws v) = Some w → w_activeJobId w = Some j → isDemoJob j = true →
  vinv F (mkView (jm_mutate set_idle id (v_ws v)) (v_db v) (v_bolt v) (v_wbolt v) (v_loops v) (v_drawn v)).
Proof.
  intros Hv Hw Ha Hd. apply vinv_ws; [done | | |].
  - eapply core_set_idle_demo; eauto. apply Hv.
  - intros k. rewrite jm_keys_mutate. apply Hv.
  - apply active_sub_mutate, set_idle_active.
Qed.

Lemma paid_complete {D} `{!PayoutQueue D} `{!PayoutQueueLaws D} v (d : D) j id w output now :
  vinv F v → paid_ok F (v_ws v) (jobs (v_db v)) (v_drawn v) d →
  jm_get id (v_ws v) = Some w → w_activeJobId w = Some j → isDemoJob j = false →
  paid_ok F (jm_mutate set_idle id (v_ws v)) (alter (set_completed output now) j (jobs (v_db v)))
    (v_drawn v) (pq_queue (w_pubkey w) j JOB_AMOUNT d).
Proof.
  intros Hv Hp Hw Ha Hd.
  destruct (running_row v id w j Hv Hw Ha Hd) as (r & Hr & (Hs & Hpk & _) & _).
  eapply paid_ok_queue; [done | | by eapply active_not_idle | congruence | |].
  - intros j' Hd'. apply (idle_nobody_sub ∅); [|apply not_elem_of_empty].
    apply active_sub_mutate, set_idle_active.
  - intros _. split; [by eapply running_not_found|]. intros pk' (r' & Hr' & Hs' & _). congruence.
  - intros j' pk' _. unfold done_by. rewrite lookup_alter. case_decide; subst.
    + rewrite Hr. simpl. split; [|naive_solver]. intros (? & [= <-] & _ & Hpk'). simpl in *. naive_solver.
    + naive_solver.
Qed.

Lemma vinv_complete v j id w output now rcs :
  vinv F v → jm_get id (v_ws v) = Some w → w_activeJobId w = Some j → isDemoJob j = false →
  (rcs = [] ∨ (∃ rc, rcs = [rc] ∧ rr_id rc ∈ v_drawn v ∧
              rr_id rc ∉ (rr_id <$> receipts (v_db v)) ∧ is_Some (jobs (v_db v) !! rr_job_id rc))) →
  vinv F (mkView (jm_mutate set_idle id (v_ws v))
          (mkDb (alter (set_completed output now) j (jobs (v_db v))) (trust_pairings (v_db v))
                (receipts (v_db v) ++ rcs)%list)
          (pq_queue (w_pubkey w) j JOB_AMOUNT <$> v_bolt v)
          (pq_queue (w_pubkey w) j JOB_AMOUNT <$> v_wbolt v) (v_loops v) (v_drawn v)).
Proof.
  intros Hv Hw Ha Hd Hrcs.
  destruct (running_row v id w j Hv Hw Ha Hd) as (r & Hr & _ & Hl). pose proof Hv as [].
  assert (∀ k, is_Some (jobs (v_db v) !! k) →
     is_Some (alter (set_completed output now) j (jobs (v_db v)) !! k)) as Hdom.
  { intros k Hk. rewrite lookup_alter. case_decide; [subst; by apply fmap_is_Some | done]. }
  split; simpl; try done.
  - apply (core_set_idle _ _ _ _ id w); auto using row_ok_completed. done.
  - intros j' r' Hj'. destruct (vi_found0 j' r' Hj') as (? & Hn & ?). split_and!; [| | done].
    + rewrite lookup_alter_ne; [done|]. intros ->. by destruct (Hn id w).
    + eapply (idle_nobody_sub ∅); [apply active_sub_mutate, set_idle_active | apply not_elem_of_empty | done].
  - intros k. rewrite jm_keys_mutate. auto.
  - intros j' r'. rewrite lookup_alter. case_decide; subst; eauto.
  - intros k w' j' Hg Ha' Hd'.
    destruct (active_sub_mutate ∅ (v_ws v) set_idle id (set_idle_active ∅) k w' j' Hg Ha' (not_elem_of_empty j'))
      as (?&?&?&?). eauto.
  - intros rc [Hrc|Hrc]%elem_of_app.
    + destruct (vi_receipts0 rc Hrc). auto.
    + destruct Hrcs as [-> |(rc' & -> & ? & _ & ?)]; [by apply elem_of_nil in Hrc|].
      apply list_elem_of_singleton in Hrc as ->. auto.
  - destruct Hrcs as [-> |(rc & -> & _ & Hn & _)]; [by rewrite app_nil_r|].
    rewrite fmap_app. apply NoDup_app. split_and!; [done | | apply NoDup_singleton].
    intros x Hx ->%list_elem_of_singleton. done.
  - intros l Hin. apply loop_ok_alter; auto.
  - intros d (d0 & Hd0 & ->)%fmap_Some. by apply paid_complete; auto.
  - intros d (d0 & Hd0 & ->)%fmap_Some. by apply paid_complete; auto.
Qed.

Lemma insert_receipt_Ok rc d d' :
  insert_receipt rc d = Ok d' ↔
  rr_id rc ∉ (rr_id <$> receipts d) ∧ is_Some (jobs d !! rr_job_id rc) ∧
  d' = mkDb (jobs d) (trust_pairings d) (receipts d ++ [rc])%list.
Proof.
  unfold insert_receipt. case_decide; [naive_solver|].
  destruct (jobs d !! rr_job_id rc) eqn:?; [|naive_solver]. split; [|naive_solver].
  intros [= <-]. eauto.
Qed.

Lemma vinv_receipt v rc d' :
  vinv F v → rr_id rc ∈ v_drawn v → insert_receipt rc (v_db v) = Ok d' →
  vinv F (mkView (v_ws v) d' (v_bolt v) (v_wbolt v) (v_loops v) (v_drawn v)).
Proof.
  intros [] Hd (Hn & Hj & ->)%insert_receipt_Ok. split; simpl; try done.
  - intros rc' [?| ->%list_elem_of_singleton]%elem_of_app; eauto.
  - rewrite fmap_app. apply NoDup_app. split_and!; [done | | apply NoDup_singleton].
    intros x Hx ->%list_elem_of_singleton. done.
Qed.

Lemma vinv_pairing v id user code expires now d' :
  vinv F v → id ∈ v_drawn v → insert_pairing id user code expires now (v_db v) = Ok d' →
  vinv F (mkView (v_ws v) d' (v_bolt v) (v_wbolt v) (v_loops v) (v_drawn v)).
Proof.
  unfold insert_pairing. intros [] Hd. repeat case_decide; try done. intros [= <-].
  destruct vi_trust_nodup0. split; simpl; try done.
  - eapply core_trust; [|done]. intros u p. rewrite !trusted_by_iff. simpl.
    intros (t & ? & ?). exists t. split; [apply elem_of_app; by left | done].
  - intros t [?| ->%list_elem_of_singleton]%elem_of_app; [eauto|]. simpl.
    split; [done|]. split; [done | intros [? [=]]].
  - rewrite !fmap_app. split; apply NoDup_app; (split_and!; [done | | apply NoDup_singleton]);
      intros x Hx ->%list_elem_of_singleton; done.
Qed.

(** A pairing, once claimed, stays: the row that is claimed was not claimed before. *)
Lemma update_claimed_trusted v pubkey code t :
  vinv F v → select_pairing code (v_db v) = Some t → t_claimed t = false →
  ∀ u p, trusted_by (v_db v) u p → trusted_by (update_claimed pubkey (t_id t) (v_db v)) u p.
Proof.
  intros Hv Hsel Hc u p. rewrite !trusted_by_iff. intros (t' & Hin & Hu & Hcl & Hp).
  exists t'. split_and!; try done. simpl. apply list_elem_of_fmap. exists t'. split; [|done].
  rewrite decide_False; [done|]. intros Heq.
  apply fmap_Some in Hsel as ([i t0] & Hf & ->). apply list_find_Some in Hf as (Hi & _ & _).
  apply list_elem_of_lookup in Hin as [i' Hi']. simpl in *.
  assert (i' = i) as ->; [|congruence].
  apply (NoDup_lookup _ i' i (t_id t0) (proj1 (vi_trust_nodup _ Hv))); rewrite list_lookup_fmap;
    [rewrite Hi' | rewrite Hi]; simpl; congruence.
Qed.

Lemma vinv_claim v pubkey code t :
  vinv F v → select_pairing code (v_db v) = Some t → t_claimed t = false →
  vinv F (mkView (v_ws v) (update_claimed pubkey (t_id t) (v_db v)) (v_bolt v) (v_wbolt v)
          (v_loops v) (v_drawn v)).
Proof.
  intros Hv Hsel Hc. pose proof (update_claimed_trusted v pubkey code t Hv Hsel Hc) as Hmono.
  destruct Hv, vi_trust_nodup0. split; cbn [v_ws v_db v_bolt v_wbolt v_loops v_drawn]; try done.
  - by eapply core_trust.
  - intros t' (t0 & -> & Hin)%list_elem_of_fmap. destruct (vi_trust0 t0 Hin).
    case_decide; [|done]. simpl. split; [done|]. by split.
  - by rewrite !update_claimed_keeps by done.
Qed.

Lemma vinv_bolts v b' w' :
  vinv F v →
  (∀ d', b' = Some d' → ∃ d, v_bolt v = Some d ∧ (d' = d ∨ pq_step d d')) →
  (∀ d', w' = Some d' → ∃ d, v_wbolt v = Some d ∧ (d' = d ∨ pq_step d d')) →
  vinv F (mkView (v_ws v) (v_db v) b' w' (v_loops v) (v_drawn v)).
Proof.
  intros [] Hb Hw. split; simpl; try done.
  - intros d' Hd'. destruct (Hb d' Hd') as (d & Hd & [-> | Hs]); [|eapply paid_ok_step]; eauto.
  - intros d' Hd'. destruct (Hw d' Hd') as (d & Hd & [-> | Hs]); [|eapply paid_ok_step]; eauto.
Qed.

Lemma move_vinv N v v' : (∀ j, j ∈ N → F !! j = None) → move N v v' → vinv F v → vinv F v'.
Proof.
  intros HN Hm Hv. destruct Hm.
  - by apply vinv_draw.
  - apply vinv_ws; [done | apply core_mutate_same; [done | apply Hv] | |].
    + intros k. rewrite jm_keys_mutate. apply Hv.
    + apply active_sub_mutate. intros w j. destruct (H w) as (_&_&_&_&->). done.
  - by apply vinv_register.
  - by eapply vinv_submit.
  - eapply vinv_assign; eauto using matchable_not_found.
  - eapply vinv_fail; eauto using matchable_not_found.
  - apply vinv_loop_start; auto.
  - by apply vinv_loop_tick.
  - by apply vinv_complete.
  - by eapply vinv_reject.
  - by eapply vinv_abort.
  - by eapply vinv_leave.
  - by eapply vinv_demo_start.
  - by apply vinv_demo_done.
  - by eapply vinv_demo_reject.
  - by eapply vinv_receipt.
  - by eapply vinv_pairing.
  - by eapply vinv_claim.
  - apply vinv_bolts; [done | intros ? [= <-]; eauto | eauto].
  - apply vinv_bolts; [done | eauto | intros ? [= <-]; eauto].
Qed.

Lemma moves_vinv N v v' : (∀ j, j ∈ N → F !! j = None) → rtc (move N) v v' → vinv F v → vinv F v'.
Proof. induction 2; eauto using move_vinv. Qed.
End Preserve.
