(* ===== verification/HubFacts.v ===== *)
(** * What the hub's methods leave alone, and what they change

    Sending messages and notices changes the outbox only ([frame]); queueing a
    payout changes one distributor; matching hands one idle, capable and, for
    PRIVATE jobs, trusted worker to the job. *)

From stdpp Require Import base list gmap strings option.
From Stdlib Require Import ZArith Lia.
From S2P Require Import Prelude Js JsNum Protocol Interfaces Db WorkerHub Jobs.
Local Open Scope string_scope.

Section Facts.
  Context {B W : Type} `{!PayoutQueue B} `{!PayoutQueue W} `{!Ed25519}.
  Implicit Types (h : Hub B W).

Record frame h h' : Prop := {
  fr_workers : workers h' = workers h; fr_db : db h' = db h;
  fr_bolt : boltDistributor h' = boltDistributor h;
  fr_wbolt : wrappedBoltDistributor h' = wrappedBoltDistributor h;
  fr_sockets : sockets h' = sockets h;
  fr_outbox : outbox h `prefix_of` outbox h' }.

#[global] Instance frame_preorder : PreOrder frame.
Proof.
  split; [intros h; by split|]. intros h1 h2 h3 [] []. split; try congruence. by etrans.
Qed.

Lemma send_frame c m h : frame h (send c m h).
Proof. unfold send. case_decide; [|done]. split; try done. simpl. by apply prefix_app_r. Qed.

Lemma sendToWorker_frame pk m h : frame h (sendToWorker pk m h).
Proof. unfold sendToWorker. destruct (findByPubkey pk h) as [[]|]; [apply send_frame | done]. Qed.

Lemma bolt_notice_frame n h : frame h (bolt_notice n h).
Proof. destruct n; apply sendToWorker_frame. Qed.

Lemma wbolt_notice_frame n h : frame h (wbolt_notice n h).
Proof. destruct n; apply sendToWorker_frame. Qed.

Lemma foldl_frame {A} (f : A → Hub B W → Hub B W) (l : list A) h :
  (∀ a h, frame h (f a h)) → frame h (foldl (λ h a, f a h) h l).
Proof.
  intros Hf. revert h. induction l as [|a l IH]; intros h; simpl; [done|].
  etrans; [apply Hf | apply IH].
Qed.

Lemma bolt_advance_frame d d' h : frame (with_bolt d' h) (bolt_advance d d' h).
Proof. apply (foldl_frame (λ n h, bolt_notice n h)), bolt_notice_frame. Qed.

Lemma wbolt_advance_frame d d' h : frame (with_wbolt d' h) (wbolt_advance d d' h).
Proof. apply (foldl_frame (λ n h, wbolt_notice n h)), wbolt_notice_frame. Qed.

(** The parts of the hub the coordinator's invariant reads. *)
Definition hparts h := (workers h, db h, boltDistributor h, wrappedBoltDistributor h).

Lemma frame_parts h h' : frame h h' → hparts h' = hparts h.
Proof. intros []. unfold hparts. congruence. Qed.

Lemma hparts_eq h ws d b w :
  hparts h = (ws, d, b, w) ↔
  workers h = ws ∧ db h = d ∧ boltDistributor h = b ∧ wrappedBoltDistributor h = w.
Proof. unfold hparts. naive_solver. Qed.

Lemma queueBolt_parts pk j h :
  hparts (queueBolt pk j h) =
  (workers h, db h, pq_queue pk j JOB_AMOUNT <$> boltDistributor h, wrappedBoltDistributor h).
Proof.
  unfold queueBolt. destruct (boltDistributor h) as [d|] eqn:Hd.
  - by rewrite (frame_parts _ _ (bolt_advance_frame _ _ _)).
  - unfold hparts. by rewrite Hd.
Qed.

Lemma queueWbolt_parts pk j h :
  hparts (queueWbolt pk j h) =
  (workers h, db h, boltDistributor h, pq_queue pk j JOB_AMOUNT <$> wrappedBoltDistributor h).
Proof.
  unfold queueWbolt. destruct (wrappedBoltDistributor h) as [d|] eqn:Hd.
  - by rewrite (frame_parts _ _ (wbolt_advance_frame _ _ _)).
  - unfold hparts. by rewrite Hd.
Qed.

Lemma startFeedback_parts cfg c j h : hparts (startFeedback cfg c j h) = hparts h.
Proof. unfold startFeedback. by case_match. Qed.

(** Both payouts of one job. *)
Lemma queue_both_parts pk j h :
  hparts (queueWbolt pk j (queueBolt pk j h)) =
  (workers h, db h, pq_queue pk j JOB_AMOUNT <$> boltDistributor h,
   pq_queue pk j JOB_AMOUNT <$> wrappedBoltDistributor h).
Proof.
  rewrite queueWbolt_parts.
  destruct (proj1 (hparts_eq _ _ _ _ _) (queueBolt_parts pk j h)) as (-> & -> & -> & ->). done.
Qed.

(** ** Lookups *)

Lemma findByActiveJob_Some j h id w :
  jm_wf (workers h) → findByActiveJob j h = Some (id, w) →
  jm_get id (workers h) = Some w ∧ w_activeJobId w = Some j.
Proof. intros Hwf Hf. by apply (jm_find_Some _ _ _ _ Hwf) in Hf. Qed.

Lemma findByActiveJob_None j h id w :
  findByActiveJob j h = None → jm_get id (workers h) = Some w → w_activeJobId w ≠ Some j.
Proof. intros Hf Hw. by apply (jm_find_None _ _ _ _ Hf Hw). Qed.

Lemma findByPubkey_Some pk h id w :
  jm_wf (workers h) → findByPubkey pk h = Some (id, w) →
  jm_get id (workers h) = Some w ∧ w_pubkey w = pk.
Proof. intros Hwf Hf. by apply (jm_find_Some _ _ _ _ Hwf) in Hf. Qed.

(** ** Matching *)

(** Who may take a job. *)
Definition can_take (h : Hub B W) (t : JobType) (privacyClass userId : string) (w : TrackedWorker) : Prop :=
  w_status w = Idle ∧ t ∈ w_capabilities w ∧
  (privacyClass = "PRIVATE" → trusted_by (db h) userId (w_pubkey w)).

Lemma claimCandidates_elem t pc u h e :
  e ∈ claimCandidates t pc u h ↔ e ∈ workers h ∧ can_take h t pc u e.2.
Proof.
  unfold claimCandidates, trustedPubkeys, can_take, trusted_by.
  destruct (String.eqb_spec pc "PRIVATE") as [->|Hpc].
  - destruct (select_trusted u (db h)) as [|o l] eqn:Hs; [set_solver|].
    rewrite list_elem_of_filter. unfold eligible. rewrite !andb_true_iff, !bool_decide_eq_true. naive_solver.
  - rewrite list_elem_of_filter. unfold eligible. rewrite !andb_true_iff, !bool_decide_eq_true. naive_solver.
Qed.

Lemma claimWorker_Some t p pc u now h id w h' :
  jm_wf (workers h) → claimWorker t p pc u now h = (Some (id, w), h') →
  jm_get id (workers h) = Some w ∧ can_take h t pc u w ∧ h' = on_workers (jm_mutate set_busy id) h.
Proof.
  unfold claimWorker. intros Hwf. destruct (sort_by _ _) as [|e l] eqn:Hs; [done|].
  intros [= -> <-]. simpl.
  assert ((id, w) ∈ claimCandidates t pc u h) as Hin.
  { rewrite <- (sort_by_perm (λ e, workerScore now e.2 p t)), Hs. left. }
  apply claimCandidates_elem in Hin as [Hin Hc]. split_and!; [by apply jm_elem_get | done | done].
Qed.

Lemma claimWorker_None t p pc u now h h' :
  claimWorker t p pc u now h = (None, h') →
  h' = h ∧ ∀ id w, jm_get id (workers h) = Some w → ¬ can_take h t pc u w.
Proof.
  unfold claimWorker. destruct (sort_by _ _) as [|e l] eqn:Hs; [|done]. intros [= <-].
  split; [done|]. intros id w Hw%jm_get_elem Hc.
  assert ((id, w) ∈ claimCandidates t pc u h) as Hin by (by apply claimCandidates_elem).
  rewrite <- (sort_by_perm (λ e, workerScore now e.2 p t)), Hs in Hin. by apply elem_of_nil in Hin.
Qed.

Lemma tryAssign_Some j t p pc u pl now h h' :
  jm_wf (workers h) → tryAssign j t p pc u pl now h = Some h' →
  ∃ id w, jm_get id (workers h) = Some w ∧ can_take h t pc u w ∧
    hparts h' = (jm_mutate (set_status_active Busy (Some j)) id (workers h),
                 update_assigned (w_pubkey w) j (db h), boltDistributor h, wrappedBoltDistributor h).
Proof.
  unfold tryAssign. intros Hwf.
  destruct (claimWorker t p pc u now h) as [[[id w]|] h1] eqn:Hc; [|done]. intros [= <-].
  destruct (claimWorker_Some _ _ _ _ _ _ _ _ _ Hwf Hc) as (Hw & Hcan & ->).
  exists id, w. split_and!; [done | done |]. unfold assignJob. simpl.
  rewrite (frame_parts _ _ (send_frame _ _ _)). unfold hparts; simpl.
  by rewrite jm_mutate_mutate.
Qed.

Lemma tryAssign_None j t p pc u pl now h :
  tryAssign j t p pc u pl now h = None →
  ∀ id w, jm_get id (workers h) = Some w → ¬ can_take h t pc u w.
Proof.
  unfold tryAssign. destruct (claimWorker t p pc u now h) as [[[id w]|] h1] eqn:Hc; [done|].
  intros _. by apply claimWorker_None in Hc as [_ ?].
Qed.
End Facts.
