(* ===== verification/Coordinator.v ===== *)
(** * The coordinator as a transition system

    A state of the running server (server.ts): the hub, the [workerId] variable
    of every connection, the retry intervals of routes/jobs.ts and the demo
    mode.  An [Event] is one turn of the Node event loop: an HTTP request, a
    socket event, a timer or a settled promise.  [exec] runs the code of the
    event; [Throw] is an exception that leaves a socket handler, which ends the
    process.  When the process has ended, between two turns, [restart] is a new
    one that opens the same database file: the tables are as they were
    (db.ts creates them IF NOT EXISTS) and everything else is gone.

    [drawn] records the uuids drawn so far, to state that [uuid()] does not
    repeat, and [found] the jobs table the process found when it opened the
    database; no code reads them. *)

From stdpp Require Import base list gmap strings option relations.
From Stdlib Require Import ZArith Lia Ascii.
From S2P Require Import Prelude Js Protocol Interfaces Db WorkerHub Jobs Routes.
Local Open Scope string_scope.

(** The characters of a v4 uuid: lower-case hexadecimal digits and dashes. *)
Definition uuid_char (c : ascii) : bool :=
  let n := nat_of_ascii c in
  ((48 <=? n) && (n <=? 57) || (97 <=? n) && (n <=? 102) || (n =? 45))%nat.
Definition is_uuid (s : string) : bool :=
  (String.length s =? 36)%nat && forallb uuid_char (String.list_ascii_of_string s).

Record Sys (B W : Type) := mkSys {
  hub : Hub B W;
  conns : gmap nat (option string);
  loops : list RetryLoop;
  demo : Demo;
  drawn : gset string;
  found : gmap string JobRow }.
Arguments mkSys {B W}. Arguments hub {B W}. Arguments conns {B W}. Arguments loops {B W}.
Arguments demo {B W}. Arguments drawn {B W}. Arguments found {B W}.

Inductive Event (B W : Type) :=
  | EConnect (c : nat)
  | EMessage (c : nat) (raw : RawMsg) (id rid : string) (now : Z)
  | EClose (c : nat)
  | EPrune (now : Z)
  | EReputation (i : nat) (score : option jsnum)
  | EStake (i : nat) (tier : option StakeTier)
  | EFeedback (i : nat) (r : option string + string)
  | EBolt (d' : B)
  | EWbolt (d' : W)
  | ECommit (tier : Policy) (body : CommitBody) (jobId : string) (now : Z)
  | ERetry (i : nat) (now : Z)
  | ETrustCreate (user_id : option string) (id code : string) (now : Z)
  | ETrustClaim (code pubkey : option string) (now : Z)
  | EDemoStart (tid : nat)
  | EDemoStop
  | EDemoTick (fired tid iw it ip : nat) (uuid : string).
Arguments EConnect {B W}. Arguments EMessage {B W}. Arguments EClose {B W}. Arguments EPrune {B W}.
Arguments EReputation {B W}. Arguments EStake {B W}. Arguments EFeedback {B W}.
Arguments EBolt {B W}. Arguments EWbolt {B W}. Arguments ECommit {B W}. Arguments ERetry {B W}.
Arguments ETrustCreate {B W}. Arguments ETrustClaim {B W}. Arguments EDemoStart {B W}.
Arguments EDemoStop {B W}. Arguments EDemoTick {B W}.

Section System.
  Context {B W : Type} `{!PayoutQueue B} `{!PayoutQueue W} `{!Ed25519}.
  Context (cfg : HubConfig).
  Implicit Types (s : Sys B W) (h : Hub B W).

Definition with_hub h s : Sys B W := mkSys h (conns s) (loops s) (demo s) (drawn s) (found s).
Definition draw (ids : list string) s : Sys B W :=
  mkSys (hub s) (conns s) (loops s) (demo s) (drawn s ∪ list_to_set ids) (found s).

(** The uuids an event draws. *)
Definition draws (e : Event B W) : list string :=
  match e with
  | EMessage _ _ id rid _ => [id; rid]
  | ECommit _ _ jobId _ => [jobId]
  | ETrustCreate _ id _ _ => [id]
  | EDemoTick _ _ _ _ _ u => [u]
  | _ => []
  end.

Definition exec_event (e : Event B W) s : outcome (Sys B W) :=
  match e with
  | EConnect c =>
      Ok (mkSys (on_sockets (<[c := SockOpen]>) (hub s)) (<[c := None]> (conns s))
            (loops s) (demo s) (drawn s) (found s))
  | EMessage c raw id rid now =>
      r <-- handleMessage cfg c (default None (conns s !! c)) raw id rid now (hub s) ;;
      Ok (mkSys r.2 (<[c := r.1]> (conns s)) (loops s) (demo s) (drawn s) (found s))
  | EClose c => Ok (with_hub (handleClose (default None (conns s !! c)) c (hub s)) s)
  | EPrune now => Ok (with_hub (pruneStale now (hub s)) s)
  | EReputation i score => Ok (with_hub (reputationFetched i score (hub s)) s)
  | EStake i tier => Ok (with_hub (stakeFetched i tier (hub s)) s)
  | EFeedback i r => Ok (with_hub (feedbackSettled i r (hub s)) s)
  | EBolt d' => Ok (match boltDistributor (hub s) with
                    | Some d => with_hub (bolt_advance d d' (hub s)) s | None => s end)
  | EWbolt d' => Ok (match wrappedBoltDistributor (hub s) with
                     | Some d => with_hub (wbolt_advance d d' (hub s)) s | None => s end)
  | ECommit tier body jobId now =>
      (* a throw inside an Express handler becomes a 500 response *)
      Ok (match handleCommit tier body jobId now (hub s) with
          | Ok (_, l, h) => mkSys h (conns s) (loops s ++ option_list l)%list (demo s) (drawn s) (found s)
          | Throw _ => s
          end)
  | ERetry i now =>
      Ok (match loops s !! i with
          | Some l =>
              let '(l', h) := retryTick l now (hub s) in
              mkSys h (conns s)
                (take i (loops s) ++ option_list l' ++ drop (S i) (loops s))%list (demo s) (drawn s) (found s)
          | None => s
          end)
  | ETrustCreate user id code now => Ok (with_hub (on_db (λ d, (trustCreate user id code now d).2) (hub s)) s)
  | ETrustClaim code pk now => Ok (with_hub (on_db (λ d, (trustClaim code pk now d).2) (hub s)) s)
  | EDemoStart tid => Ok (mkSys (hub s) (conns s) (loops s) (startDemoMode tid (demo s)) (drawn s) (found s))
  | EDemoStop => Ok (mkSys (hub s) (conns s) (loops s) (stopDemoMode (demo s)) (drawn s) (found s))
  | EDemoTick fired tid iw it ip u =>
      let '(dm, h) := demoTick fired tid iw it ip u (demo s) (hub s) in
      Ok (mkSys h (conns s) (loops s) dm (drawn s) (found s))
  end.

Definition exec (e : Event B W) s : outcome (Sys B W) :=
  s' <-- exec_event e s ;; Ok (draw (draws e) s').

(** What the environment guarantees when an event occurs. *)
Definition enabled (e : Event B W) s : Prop :=
  (∀ u, u ∈ draws e → is_uuid u = true ∧ u ∉ drawn s) ∧ NoDup (draws e) ∧
  match e with
  | EConnect c => conns s !! c = None
  | EMessage c _ _ _ _ => sockets (hub s) !! c = Some SockOpen ∨ sockets (hub s) !! c = Some SockClosing
  | EClose c => sockets (hub s) !! c = Some SockOpen ∨ sockets (hub s) !! c = Some SockClosing
  | EBolt d' => ∃ d, boltDistributor (hub s) = Some d ∧ pq_step d d'
  | EWbolt d' => ∃ d, wrappedBoltDistributor (hub s) = Some d ∧ pq_step d d'
  | ECommit tier _ _ _ => tier = FAST ∨ tier = CHEAP
  | EDemoStart tid => tid ∉ armed (demo s)
  | EDemoTick fired tid _ _ _ _ => fired ∈ armed (demo s) ∧ tid ∉ armed (demo s) ∧ tid ≠ fired
  | _ => True
  end.

Inductive step s : Sys B W → Prop :=
  | step_event e s' : enabled e s → exec e s = Ok s' → step s s'.

Definition initSys (bd : option B) (wd : option W) : Sys B W :=
  mkSys (mkHub [] emptyDb bd wd ∅ [] [] [] []) ∅ [] initDemo ∅ ∅.

(** The distributors a process starts with have been given no payout. *)
Definition idle_distributors (bd : option B) (wd : option W) : Prop :=
  (∀ d, bd = Some d → pq_inv d ∧ pq_accounted d = []) ∧
  (∀ d, wd = Some d → pq_inv d ∧ pq_accounted d = []).

(** The first process starts on an empty database. *)
Definition initial s : Prop := ∃ bd wd, s = initSys bd wd ∧ idle_distributors bd wd.

(** A later one opens the database the previous one left. *)
Definition restartSys (bd : option B) (wd : option W) s : Sys B W :=
  mkSys (mkHub [] (db (hub s)) bd wd ∅ [] [] [] []) ∅ [] initDemo (drawn s) (jobs (db (hub s))).

Inductive restart s : Sys B W → Prop :=
  | restarted bd wd : idle_distributors bd wd → restart s (restartSys bd wd s).

(** What happens to a coordinator over its life. *)
Inductive life s : Sys B W → Prop :=
  | life_step s' : step s s' → life s s'
  | life_restart s' : restart s s' → life s s'.

Definition reachable s : Prop := ∃ s0, initial s0 ∧ rtc life s0 s.

Lemma steps_life s s' : rtc step s s' → rtc life s s'.
Proof. apply rtc_subrel. by constructor. Qed.

Lemma reachable_life s s' : reachable s → rtc life s s' → reachable s'.
Proof. intros (s0 & Hi & Hr) Hl. exists s0. split; [done | by etrans]. Qed.

Lemma reachable_steps s s' : reachable s → rtc step s s' → reachable s'.
Proof. intros Hr Hs. eapply reachable_life; [done | by apply steps_life]. Qed.

Lemma exec_found e s s' : exec e s = Ok s' → found s' = found s.
Proof.
  unfold exec. destruct (exec_event e s) as [s1|] eqn:He; [|done]. simpl. intros [= <-]. simpl.
  destruct e; simpl in He; simplify_eq/=; try done; repeat case_match; simplify_eq/=; try done.
  destruct (handleMessage _ _ _ _ _ _ _ _); by simplify_eq/=.
Qed.

Lemma steps_found s s' : rtc step s s' → found s' = found s.
Proof. induction 1 as [|s1 s2 s3 [e s' _ Hex] _ IH]; [done|]. apply exec_found in Hex. congruence. Qed.

(** ** Running a list of events *)

(** [enabled] as a test, for the events that involve no distributor. *)
Definition enabledb (e : Event B W) s : bool :=
  forallb (λ u, is_uuid u && bool_decide (u ∉ drawn s)) (draws e) && bool_decide (NoDup (draws e)) &&
  match e with
  | EConnect c => bool_decide (conns s !! c = None)
  | EMessage c _ _ _ _ | EClose c =>
      bool_decide (sockets (hub s) !! c = Some SockOpen) || bool_decide (sockets (hub s) !! c = Some SockClosing)
  | EBolt _ | EWbolt _ => false
  | ECommit tier _ _ _ => bool_decide (tier = FAST) || bool_decide (tier = CHEAP)
  | EDemoStart tid => bool_decide (tid ∉ armed (demo s))
  | EDemoTick fired tid _ _ _ _ =>
      bool_decide (fired ∈ armed (demo s)) && bool_decide (tid ∉ armed (demo s)) && bool_decide (tid ≠ fired)
  | _ => true
  end.

Fixpoint run (es : list (Event B W)) s : outcome (Sys B W) :=
  match es with
  | [] => Ok s
  | e :: es => if enabledb e s then obind (exec e s) (run es) else Throw "not enabled"
  end.

Lemma enabledb_sound e s : enabledb e s = true → enabled e s.
Proof.
  unfold enabledb, enabled. rewrite !andb_true_iff, bool_decide_eq_true, forallb_forall.
  intros [[Hu Hnd] He]. split_and!; [|done|].
  - intros u Hin. apply list_elem_of_In in Hin. apply Hu in Hin.
    apply andb_true_iff in Hin as [? ?%bool_decide_eq_true]. done.
  - destruct e; simpl in *; try done;
      repeat (rewrite orb_true_iff in He || rewrite andb_true_iff in He);
      rewrite ?bool_decide_eq_true in He; naive_solver.
Qed.

Lemma run_cons e es s s' : run (e :: es) s = Ok s' → ∃ s1, step s s1 ∧ run es s1 = Ok s'.
Proof.
  simpl. destruct (enabledb e s) eqn:He; [|done]. destruct (exec e s) as [s1|] eqn:Hex; [|done].
  simpl. intros Hr. exists s1. split; [|done]. econstructor; [by apply enabledb_sound | done].
Qed.

Lemma run_steps es s s' : run es s = Ok s' → rtc step s s'.
Proof.
  revert s. induction es as [|e es IH]; intros s; [by intros [= ->]|].
  intros (s1 & Hs & Hr)%run_cons. eapply rtc_l; [done | by apply IH].
Qed.
End System.
