(* ===== verification/Scenario.v ===== *)
(** * A concrete coordinator

    Both distributors of Payout.v behind the hub, a toy signature scheme that
    satisfies the law of [Ed25519Laws], and a run with two workers and five
    jobs.  The states of the run are the inputs at which the theorems on
    reachable states are instantiated. *)

From stdpp Require Import base list gmap strings option relations.
From Stdlib Require Import ZArith Lia.
From S2P Require Import Prelude Js JsNum Protocol Interfaces Payout Db WorkerHub Jobs Routes Coordinator.
Local Open Scope string_scope.

Definition BoltD : Type := DistState.
Definition WboltD : Type := DistState.
#[global] Typeclasses Opaque BoltD WboltD.

#[global] Instance BoltD_queue : PayoutQueue BoltD := dist_PQ (bolt_config (λ _, false)).
#[global] Instance WboltD_queue : PayoutQueue WboltD := dist_PQ wbolt_config.
#[global] Instance BoltD_laws : PayoutQueueLaws BoltD := dist_PQ_laws (bolt_config (λ _, false)).
#[global] Instance WboltD_laws : PayoutQueueLaws WboltD := dist_PQ_laws wbolt_config.

(** A signature is the key followed by the message. *)
#[global] Instance toy_Ed25519 : Ed25519 := {|
  secret_key := string; pubkey_hex := λ sk, sk;
  sign_detached := λ sk m, sk ++ m;
  verify_detached := λ m sig pk, String.eqb sig (pk ++ m) |}.

#[global] Instance toy_Ed25519_laws : Ed25519Laws.
Proof. split. intros sk m. simpl. apply String.eqb_refl. Qed.

(** The [n]-th uuid of the run. *)
Definition sc_uuid (n : nat) : string :=
  "00000000-0000-4000-8000-0000000000" ++
  String (hex_digit (n / 16)) (String (hex_digit (n mod 16)) "").

Definition sc_key1 : string := "1111111111111111111111111111111111111111111111111111111111111111".
Definition sc_key2 : string := "2222222222222222222222222222222222222222222222222222222222222222".

Definition sc_secret (key : string) : @secret_key toy_Ed25519 := key.

Definition sc_cfg : HubConfig := {| hc_erc8004 := true; hc_postFeedback := true; hc_stakeConfig := true |}.

Definition sc_init : Sys BoltD WboltD := initSys (Some (initDist : BoltD)) (Some (initDist : WboltD)).

Definition sc_body (t privacy user : string) : CommitBody :=
  {| cb_job_type := Some t; cb_payload := Some (JObj [("input", JStr "hello")]);
     cb_privacy_class := Some privacy; cb_user_id := Some user |}.

Definition sc_receipt (job key : string) : Receipt :=
  {| r_job_id := job; r_provider_pubkey := key; r_output_hash := "00";
     r_completed_at := "2026-01-01T00:00:00.000Z"; r_payment_ref := None |}.

Definition sc_complete (job key : string) (r : Receipt) : RawMsg :=
  GoodMsg (MsgJobComplete {| jc_job_id := job; jc_output := JStr "done"; jc_output_hash := "00";
    jc_receipt := Some r; jc_receipt_signature := Some (sign_detached (sc_secret key) (receipt_canonical r)) |}).

(** Two workers register. *)
Definition sc_events0 : list (Event BoltD WboltD) :=
  [ EConnect 1;
    EMessage 1 (GoodMsg (MsgRegister {| reg_provider_pubkey := sc_key1; reg_provider_type := DESKTOP;
      reg_capabilities := [LLM_INFER; TASK] |})) (sc_uuid 1) (sc_uuid 2) 1000;
    EConnect 2;
    EMessage 2 (GoodMsg (MsgRegister {| reg_provider_pubkey := sc_key2; reg_provider_type := SEEKER;
      reg_capabilities := [TASK] |})) (sc_uuid 3) (sc_uuid 4) 1000 ].

(** Alice pairs with the first and submits a PRIVATE job, which runs on it. *)
Definition sc_events1 : list (Event BoltD WboltD) :=
  [ ETrustCreate (Some "alice") (sc_uuid 5) "A1B2C3" 2000;
    ETrustClaim (Some "A1B2C3") (Some sc_key1) 3000;
    ECommit FAST (sc_body "LLM_INFER" "PRIVATE" "alice") (sc_uuid 6) 4000 ].

(** The job of [sc_events1] is completed; a second one runs on the other worker. *)
Definition sc_events2 : list (Event BoltD WboltD) :=
  [ EMessage 1 (sc_complete (sc_uuid 6) sc_key1 (sc_receipt (sc_uuid 6) sc_key1)) (sc_uuid 7) (sc_uuid 8) 5000;
    ECommit CHEAP (sc_body "TASK" "PUBLIC" "bob") (sc_uuid 9) 6000 ].

(** The second job is rejected; a third one finds no worker that can run it
    and waits. *)
Definition sc_events3 : list (Event BoltD WboltD) :=
  [ EMessage 2 (GoodMsg (MsgJobReject {| jr_job_id := sc_uuid 9; jr_reason := "busy" |})) (sc_uuid 10) (sc_uuid 11) 7000;
    EClose 1;
    ECommit FAST (sc_body "LLM_INFER" "PUBLIC" "bob") (sc_uuid 12) 8000 ].

Definition sc_from (s : Sys BoltD WboltD) (es : list (Event BoltD WboltD)) : Sys BoltD WboltD :=
  match run sc_cfg es s with Ok s' => s' | Throw _ => s end.

Definition sc_state0 : Sys BoltD WboltD := Eval vm_compute in sc_from sc_init sc_events0.
Definition sc_state1 : Sys BoltD WboltD := Eval vm_compute in sc_from sc_state0 sc_events1.
Definition sc_state2 : Sys BoltD WboltD := Eval vm_compute in sc_from sc_state1 sc_events2.
Definition sc_state3 : Sys BoltD WboltD := Eval vm_compute in sc_from sc_state2 sc_events3.

Lemma sc_run0 : run sc_cfg sc_events0 sc_init = Ok sc_state0.
Proof. vm_compute. reflexivity. Qed.
Lemma sc_run1 : run sc_cfg sc_events1 sc_state0 = Ok sc_state1.
Proof. vm_compute. reflexivity. Qed.
Lemma sc_run2 : run sc_cfg sc_events2 sc_state1 = Ok sc_state2.
Proof. vm_compute. reflexivity. Qed.
Lemma sc_run3 : run sc_cfg sc_events3 sc_state2 = Ok sc_state3.
Proof. vm_compute. reflexivity. Qed.

Lemma sc_initial : initial sc_init.
Proof.
  exists (Some (initDist : BoltD)), (Some (initDist : WboltD)).
  split; [done|]. split; intros d [= <-]; split; by try apply dist_wf_init.
Qed.

Lemma sc_extend es (s s' : Sys BoltD WboltD) : reachable sc_cfg s → run sc_cfg es s = Ok s' → reachable sc_cfg s'.
Proof. intros Hr Hrun. eapply reachable_steps; [done | by eapply run_steps]. Qed.

Lemma sc_reachable0 : reachable sc_cfg sc_state0.
Proof.
  apply (sc_extend sc_events0 sc_init); [|apply sc_run0]. exists sc_init. split; [apply sc_initial | done].
Qed.
Lemma sc_reachable1 : reachable sc_cfg sc_state1.
Proof. exact (sc_extend _ _ _ sc_reachable0 sc_run1). Qed.
Lemma sc_reachable2 : reachable sc_cfg sc_state2.
Proof. exact (sc_extend _ _ _ sc_reachable1 sc_run2). Qed.
Lemma sc_reachable3 : reachable sc_cfg sc_state3.
Proof. exact (sc_extend _ _ _ sc_reachable2 sc_run3). Qed.

(** The row of the [n]-th uuid. *)
Definition sc_row (s : Sys BoltD WboltD) (n : nat) : JobRow :=
  default (mkJob TASK AUTO "" "" Running JNull None None 0 None) (jobs (db (hub s)) !! sc_uuid n).
