(* ===== verification/Workers.v ===== *)
(** * Workers: wire messages, receipts and job handling

    What the desktop worker (apps/worker-desktop), the simulator
    (apps/seeker-simulator) and the CLI worker (packages/cli) send: their
    messages as JSON texts, as the coordinator reads them back; the signed
    receipt of a job; and the handler of an assignment, from its payload to the
    completion message.  SHA-256 is a parameter of the receipts. *)

From stdpp Require Import base list gmap strings option.
From Stdlib Require Import ZArith Lia Ascii.
From S2P Require Import Prelude Js Json Protocol Interfaces Executors Db WorkerHub Scenario.
Local Open Scope string_scope.

(** ** Messages as JSON *)

Definition ProviderType_str (t : ProviderType) : string :=
  match t with DESKTOP => "DESKTOP" | SEEKER => "SEEKER" end.

Definition receipt_json (r : Receipt) : json :=
  JObj [("job_id", JStr (r_job_id r)); ("provider_pubkey", JStr (r_provider_pubkey r));
        ("output_hash", JStr (r_output_hash r)); ("completed_at", JStr (r_completed_at r));
        ("payment_ref", match r_payment_ref r with None => JNull | Some p => JStr p end)].

(** A member whose value is [undefined] is not printed. *)
Definition member (k : string) (v : option json) : list (string * json) :=
  match v with Some j => [(k, j)] | None => [] end.

Definition worker_json (m : WorkerToCoordinator) : json :=
  match m with
  | MsgRegister r =>
      JObj [("type", JStr "register"); ("provider_pubkey", JStr (reg_provider_pubkey r));
            ("provider_type", JStr (ProviderType_str (reg_provider_type r)));
            ("capabilities", JArr (map (λ t, JStr (JobType_str t)) (reg_capabilities r)))]
  | MsgHeartbeat pk => JObj [("type", JStr "heartbeat"); ("provider_pubkey", JStr pk)]
  | MsgJobComplete c =>
      JObj ([("type", JStr "job_complete"); ("job_id", JStr (jc_job_id c)); ("output", jc_output c);
             ("output_hash", JStr (jc_output_hash c))] ++
            member "receipt" (receipt_json <$> jc_receipt c) ++
            member "receipt_signature" (JStr <$> jc_receipt_signature c))%list
  | MsgJobReject r => JObj [("type", JStr "job_reject"); ("job_id", JStr (jr_job_id r)); ("reason", JStr (jr_reason r))]
  | MsgReceiptSubmit r =>
      JObj [("type", JStr "receipt_submit"); ("receipt", receipt_json (rs_receipt r)); ("signature", JStr (rs_signature r))]
  end.

Definition send_text (m : WorkerToCoordinator) : string := JSON_stringify (worker_json m).

(** ** Reading them back *)

Definition str_of (j : json) : option string := match j with JStr s => Some s | _ => None end.
Definition str_field (k : string) (l : jsmap json) : option string := j ← jm_get k l; str_of j.

Definition read_ProviderType (s : string) : option ProviderType :=
  if String.eqb s "DESKTOP" then Some DESKTOP else if String.eqb s "SEEKER" then Some SEEKER else None.

(** A receipt is stored and verified as it prints, so its members must come in
    this order and be no others. *)
Definition RECEIPT_MEMBERS : list string :=
  ["job_id"; "provider_pubkey"; "output_hash"; "completed_at"; "payment_ref"].

Definition read_receipt (j : json) : option Receipt :=
  match j with
  | JObj l =>
      if negb (bool_decide (map fst l = RECEIPT_MEMBERS)) then None else
      a ← str_field "job_id" l; b ← str_field "provider_pubkey" l; c ← str_field "output_hash" l;
      d ← str_field "completed_at" l;
      e ← (match jm_get "payment_ref" l with
           | Some JNull => Some None | Some (JStr p) => Some (Some p) | _ => None end);
      Some {| r_job_id := a; r_provider_pubkey := b; r_output_hash := c; r_completed_at := d; r_payment_ref := e |}
  | _ => None
  end.

(** An optional member: absent, or of the expected form. *)
Definition opt_field {A} (f : json → option A) (k : string) (l : jsmap json) : option (option A) :=
  match jm_get k l with None => Some None | Some j => Some <$> f j end.

(** Of an array of capabilities only [includes(jobType)] is asked. *)
Definition read_caps (j : json) : option (list JobType) :=
  match j with JArr l => Some (omap (λ j, s ← str_of j; parse_JobType s) l) | _ => None end.

(** [v.m(...)] where [v] is no text and no array. *)
Definition call_error (expr m : string) (v : option json) : string :=
  match v with
  | None => reading "undefined" m
  | Some JNull => reading "null" m
  | Some _ => expr ++ "." ++ m ++ " is not a function"
  end.

Definition no_value (v : option json) : bool := match v with None | Some JNull => true | _ => false end.
Definition no_sql_value (v : option json) : bool :=
  match v with Some (JBool _ | JArr _ | JObj _) => true | _ => false end.

(** What the INSERT of a receipt that is not [null] throws whatever the tables:
    better-sqlite3 binds no booleans or objects and binds [undefined] as NULL;
    the columns are NOT NULL; no job has a number as its id. *)
Definition bind_error (receipt : json) (signature : option json) : option string :=
  let l := match receipt with JObj l => l | _ => [] end in
  let j := jm_get "job_id" l in let pk := jm_get "provider_pubkey" l in
  if existsb no_sql_value [j; pk; signature] then Some BIND_TYPE_ERROR
  else if no_value j then Some (NOT_NULL_VIOLATION "job_id")
  else if no_value pk then Some (NOT_NULL_VIOLATION "provider_pubkey")
  else if no_value signature then Some (NOT_NULL_VIOLATION "signature")
  else match j with Some (JNum _) => Some FOREIGN_KEY_VIOLATION | _ => None end.

(** The log lines of a failed verification print the receipt's job id. *)
Definition printable (receipt : json) : bool :=
  match receipt with JObj l => oconverts (jm_get "job_id" l) | _ => true end.

(** The members of a completion of job [i] with output [o]. *)
Definition read_complete (i : string) (o : json) (l : jsmap json) : option RawMsg :=
  let m r s := {| jc_job_id := i; jc_output := o; jc_output_hash := default "" (str_field "output_hash" l);
                  jc_receipt := r; jc_receipt_signature := s |} in
  match opt_field read_receipt "receipt" l, opt_field str_of "receipt_signature" l with
  | Some r, Some s => Some (GoodMsg (MsgJobComplete (m r s)))
  | _, _ =>
      (* [if (msg.receipt && msg.receipt_signature)] *)
      match jm_get "receipt" l, jm_get "receipt_signature" l with
      | Some r, Some s =>
          if json_truthy r && json_truthy s
          then if printable r then BadReceiptMsg (m None None) <$> bind_error r (Some s) else None
          else Some (GoodMsg (MsgJobComplete (m None None)))
      | _, _ => Some (GoodMsg (MsgJobComplete (m None None)))
      end
  end.

Definition read_submitted (l : jsmap json) : option RawMsg :=
  match jm_get "receipt" l with
  | None | Some JNull => Some (ThrowMsg (call_error "" "provider_pubkey" (jm_get "receipt" l)))
  | Some r =>
      match read_receipt r, str_field "signature" l with
      | Some r, Some s => Some (GoodMsg (MsgReceiptSubmit {| rs_receipt := r; rs_signature := s |}))
      | _, _ => if printable r then ThrowMsg <$> bind_error r (jm_get "signature" l) else None
      end
  end.

(** The message handler's [switch (msg.type)].  [None] for what the hub's model
    leaves out: a registration whose key is an array, whose type is not one of
    the two or whose capabilities are no array; a completion without output; a
    rejection whose reason has no text; a receipt that can be bound but has not
    exactly the members of [Receipt], or whose job id has no text. *)
Definition read_members (t : string) (l : jsmap json) : option RawMsg :=
  if String.eqb t "register" then
    if negb (oconverts (jm_get "provider_type" l)) then Some (ThrowMsg CONVERT_ERROR)
    else match jm_get "provider_pubkey" l with
    | Some (JStr pk) =>
        pt ← str_field "provider_type" l; pt ← read_ProviderType pt;
        caps ← (j ← jm_get "capabilities" l; read_caps j);
        Some (GoodMsg (MsgRegister {| reg_provider_pubkey := pk; reg_provider_type := pt; reg_capabilities := caps |}))
    | Some (JArr _) => None
    | v => Some (ThrowMsg (call_error "msg.provider_pubkey" "slice" v))
    end
  else if String.eqb t "heartbeat" then
    Some (match str_field "provider_pubkey" l with
          | Some pk => GoodMsg (MsgHeartbeat pk)
          | None => IgnoredMsg
          end)
  else if String.eqb t "job_complete" then
    match jm_get "job_id" l with
    | Some (JStr i) => o ← jm_get "output" l; read_complete i o l
    | Some JNull => Some NullJobMsg
    | _ => Some IgnoredMsg
    end
  else if String.eqb t "job_reject" then
    match jm_get "job_id" l with
    | Some (JStr i) =>
        if oconverts (jm_get "reason" l)
        then Some (GoodMsg (MsgJobReject {| jr_job_id := i; jr_reason := ojs_String (jm_get "reason" l) |}))
        else None
    | Some JNull => Some NullJobMsg
    | _ => Some IgnoredMsg
    end
  else if String.eqb t "receipt_submit" then read_submitted l
  else Some (UnknownMsg t).

Definition read_message (raw : string) : option RawMsg :=
  match JSON_parse raw with
  | None => Some BadJson
  | Some JNull => Some NullMsg
  | Some (JObj l) =>
      match jm_get "type" l with
      | Some (JStr t) => read_members t l
      | Some t => Some (if converts t then UnknownMsg (js_String t) else ThrowMsg CONVERT_ERROR)
      | None => Some (UnknownMsg "undefined")
      end
  | Some _ => Some (UnknownMsg "undefined")
  end.

(** ** Receipts *)

Section Receipts.
  Context `{!Ed25519} (sha256_hex : string → string).

(** [iso]: [new Date().toISOString()] when the receipt is built. *)
Definition buildReceipt (jobId : string) (output : json) (pubkey : string) (secretKey : secret_key)
    (iso : string) : ReceiptSubmitMsg :=
  let outputHash := sha256_hex (JSON_stringify output) in
  let receipt := {| r_job_id := jobId; r_provider_pubkey := pubkey; r_output_hash := outputHash;
                    r_completed_at := iso; r_payment_ref := None |} in
  let canonical := JSON_stringify (receipt_json receipt) in
  {| rs_receipt := receipt; rs_signature := sign_detached secretKey canonical |}.

(** ** Handling an assignment *)

Definition error_json (e : string) : json := JObj [("error", JStr e)].

(** The output of a job; [reply]: what a local Ollama server answers. *)
Definition job_output (jobType : JobType) (p : JobPayload) (jobId : string) (base_url : option string)
    (reply : OllamaReply) : json :=
  match jobType, p_task_type p, p_input p, p_prompt p with
  | TASK, Some t, Some i, _ =>
      if str_truthy t && str_truthy i then executeTask t i else error_json "Unsupported job payload"
  | LLM_INFER, _, _, Some prompt =>
      if str_truthy prompt then executeLLM base_url reply prompt jobId else error_json "Unsupported job payload"
  | _, _, _, _ => error_json "Unsupported job payload"
  end.

Definition complete_with (jobId : string) (output : json) (r : ReceiptSubmitMsg) : JobCompleteMsg :=
  {| jc_job_id := jobId; jc_output := output; jc_output_hash := sha256_hex (JSON_stringify output);
     jc_receipt := Some (rs_receipt r); jc_receipt_signature := Some (rs_signature r) |}.

(** The desktop worker's [handleJob]: what it sends. *)
Definition desktop_handleJob (jobId : string) (jobType : JobType) (p : JobPayload) (base_url : option string)
    (reply : OllamaReply) (sk : secret_key) (iso : string) : JobCompleteMsg :=
  let output := job_output jobType p jobId base_url reply in
  complete_with jobId output (buildReceipt jobId output (pubkey_hex sk) sk iso).

(** The simulator executes tasks only and does not look at the type of the job. *)
Definition sim_handleJob (jobId : string) (p : JobPayload) (sk : secret_key) (iso : string) : JobCompleteMsg :=
  let output := match p_task_type p, p_input p with
                | Some t, Some i => if str_truthy t && str_truthy i then sim_executeTask t i
                                    else error_json "Missing task_type or input"
                | _, _ => error_json "Missing task_type or input"
                end in
  complete_with jobId output (buildReceipt jobId output (pubkey_hex sk) sk iso).

(** The CLI worker's output, and whether it counts as failed. *)
Definition cli_job_output (jobType : JobType) (p : JobPayload) (jobId : string) (ollamaUrl : option string)
    (reply : OllamaReply) : json * bool :=
  match jobType, p_task_type p, p_input p, p_prompt p with
  | TASK, Some t, Some i, _ =>
      if str_truthy t && str_truthy i then (cli_executeTask t i, false)
      else (error_json "Unsupported job payload", true)
  | LLM_INFER, _, _, Some prompt =>
      if str_truthy prompt then (executeLLM ollamaUrl reply prompt jobId, false)
      else (error_json "Unsupported job payload", true)
  | _, _, _, _ => (error_json "Unsupported job payload", true)
  end.

Definition cli_complete (jobId : string) (output : json) (sk : secret_key) (iso : string) : JobCompleteMsg :=
  let r := buildReceipt jobId output (pubkey_hex sk) sk iso in
  {| jc_job_id := jobId; jc_output := output; jc_output_hash := r_output_hash (rs_receipt r);
     jc_receipt := Some (rs_receipt r); jc_receipt_signature := Some (rs_signature r) |}.

(** *** The phone *)

Definition hashOutput (output : json) : string := sha256_hex (JSON_stringify output).

Definition buildSignedReceipt (jobId : string) (output : json) (pubkeyHex : string) (secretKey : secret_key)
    (iso : string) : Receipt * string :=
  let receipt := {| r_job_id := jobId; r_provider_pubkey := pubkeyHex;
                    r_output_hash := sha256_hex (JSON_stringify output);
                    r_completed_at := iso; r_payment_ref := None |} in
  (receipt, sign_detached secretKey (JSON_stringify (receipt_json receipt))).

Definition buildJobCompleteWithReceipt (jobId : string) (output : json) (pubkeyHex : string)
    (secretKey : secret_key) (iso : string) : JobCompleteMsg :=
  let '(receipt, signature) := buildSignedReceipt jobId output pubkeyHex secretKey iso in
  {| jc_job_id := jobId; jc_output := output; jc_output_hash := hashOutput output;
     jc_receipt := Some receipt; jc_receipt_signature := Some signature |}.

(** [signMessage] fails when the user declines in the wallet. *)
Record SigningProvider := { getPublicKeyHex : string; signMessage : string → outcome string }.

Definition DeviceKeyProvider (sk : secret_key) : SigningProvider :=
  {| getPublicKeyHex := pubkey_hex sk; signMessage := λ m, Ok (sign_detached sk m) |}.

Definition buildJobCompleteWithProvider (jobId : string) (output : json) (provider : SigningProvider)
    (iso : string) : outcome JobCompleteMsg :=
  let outputHash := sha256_hex (JSON_stringify output) in
  let receipt := {| r_job_id := jobId; r_provider_pubkey := getPublicKeyHex provider; r_output_hash := outputHash;
                    r_completed_at := iso; r_payment_ref := None |} in
  signature <-- signMessage provider (JSON_stringify (receipt_json receipt)) ;;
  Ok {| jc_job_id := jobId; jc_output := output; jc_output_hash := outputHash;
        jc_receipt := Some receipt; jc_receipt_signature := Some signature |}.
End Receipts.

(** ** Lemmas *)

Lemma receipt_canonical_json r : receipt_canonical r = JSON_stringify (receipt_json r).
Proof.
  unfold receipt_canonical. cbn [JSON_stringify receipt_json map fst snd String.concat].
  destruct (r_payment_ref r); cbn [JSON_stringify]; rewrite !string_app_assoc; reflexivity.
Qed.

Lemma read_receipt_json r : read_receipt (receipt_json r) = Some r.
Proof. destruct r as [a b c d [e|]]; reflexivity. Qed.

Lemma receipt_json_ok r : json_ok (receipt_json r) = true.
Proof. destruct r as [a b c d [e|]]; reflexivity. Qed.

Lemma read_caps_json ts : read_caps (JArr (map (λ t, JStr (JobType_str t)) ts)) = Some ts.
Proof.
  unfold read_caps. f_equal. induction ts as [|t ts IH]; [done|]. etrans; [|exact (f_equal (cons t) IH)].
  cbn. by rewrite parse_JobType_str.
Qed.

(** The output of a completion must print and read back; the other members do. *)
Definition wire_ok (m : WorkerToCoordinator) : bool :=
  match m with MsgJobComplete c => json_ok (jc_output c) | _ => true end.

Lemma worker_json_ok m : wire_ok m = true → json_ok (worker_json m) = true.
Proof.
  destruct m as [[pk pt caps]|pk|[i o h r s]|[i r]|[r s]]; cbn [wire_ok jc_output worker_json]; intros Ho; try done.
  - cbn. rewrite !andb_true_r. induction caps; [done|]. simpl. done.
  - destruct r as [r|], s as [s|]; simpl; rewrite Ho; pose proof receipt_json_ok as Hr; simpl in *; rewrite ?Hr; done.
  - pose proof (receipt_json_ok r) as Hr. simpl in *. by rewrite Hr.
Qed.

Lemma read_members_json m t l : worker_json m = JObj l → jm_get "type" l = Some (JStr t) →
  read_members t l = Some (GoodMsg m).
Proof.
  destruct m as [[pk pt caps]|pk|[i o h r s]|[i r]|[r s]]; intros [= <-] Ht; injection Ht as <-.
  - change (read_members "register" _) with
      (pt ← read_ProviderType (ProviderType_str pt); caps ← read_caps (JArr (map (λ t, JStr (JobType_str t)) caps));
       Some (GoodMsg (MsgRegister {| reg_provider_pubkey := pk; reg_provider_type := pt; reg_capabilities := caps |}))).
    rewrite read_caps_json. by destruct pt.
  - done.
  - by destruct r as [[a b c d [e|]]|], s as [s|].
  - done.
  - by destruct r as [a b c d [e|]].
Qed.

Lemma read_send m : wire_ok m = true → read_message (send_text m) = Some (GoodMsg m).
Proof.
  intros Hok%worker_json_ok. unfold read_message, send_text. rewrite parse_stringify by done.
  destruct (worker_json m) as [| | | | |l] eqn:E; try (by destruct m).
  assert (∃ t, jm_get "type" l = Some (JStr t)) as [t Ht].
  { destruct m; injection E as <-; by eexists. }
  rewrite Ht. by eapply read_members_json.
Qed.

Section Completion.
  Context `{!Ed25519} `{!Ed25519Laws} (sha256_hex : string → string).

(** What the hub needs of a completion message of the worker with key [sk]. *)
Definition completes (sk : secret_key) (jobId : string) (output : json) (c : JobCompleteMsg) : Prop :=
  jc_job_id c = jobId ∧ jc_output c = output ∧ jc_output_hash c = sha256_hex (JSON_stringify output) ∧
  ∃ r sig, jc_receipt c = Some r ∧ jc_receipt_signature c = Some sig ∧
    r_job_id r = jobId ∧ r_provider_pubkey r = pubkey_hex sk ∧ r_output_hash r = jc_output_hash c ∧
    verifyReceiptSignature r sig (pubkey_hex sk) = true.

Lemma buildReceipt_verifies jobId output sk iso :
  let r := buildReceipt sha256_hex jobId output (pubkey_hex sk) sk iso in
  verifyReceiptSignature (rs_receipt r) (rs_signature r) (pubkey_hex sk) = true.
Proof. simpl. unfold verifyReceiptSignature. rewrite receipt_canonical_json. apply verify_sign. Qed.

Lemma complete_with_completes jobId output sk iso :
  completes sk jobId output (complete_with sha256_hex jobId output (buildReceipt sha256_hex jobId output (pubkey_hex sk) sk iso)).
Proof.
  split_and!; [done..|]. do 2 eexists. split_and!; [done..|]. apply buildReceipt_verifies.
Qed.

(** C26: workers and coordinator understand each other.  Whatever the job, the
    completion message of the desktop worker, of the simulator, of the CLI
    worker and of the phone, with its own key or a key provider, names the job, carries the output with its hash and a receipt that
    the coordinator verifies under the worker's key; and the coordinator reads
    back from the text on the socket the very message that was sent, when the
    output reads back from its own text. *)
Theorem completions_reach_the_coordinator jobId jobType p url reply sk iso :
  (let out := job_output jobType p jobId url reply in
   let c := desktop_handleJob sha256_hex jobId jobType p url reply sk iso in
   completes sk jobId out c ∧
   (json_ok out = true → read_message (send_text (MsgJobComplete c)) = Some (GoodMsg (MsgJobComplete c)))) ∧
  (let c := sim_handleJob sha256_hex jobId p sk iso in
   completes sk jobId (jc_output c) c ∧
   (json_ok (jc_output c) = true → read_message (send_text (MsgJobComplete c)) = Some (GoodMsg (MsgJobComplete c)))) ∧
  (let out := (cli_job_output jobType p jobId url reply).1 in
   let c := cli_complete sha256_hex jobId out sk iso in
   completes sk jobId out c ∧
   (json_ok out = true → read_message (send_text (MsgJobComplete c)) = Some (GoodMsg (MsgJobComplete c)))) ∧
  (∀ out, let c := buildJobCompleteWithReceipt sha256_hex jobId out (pubkey_hex sk) sk iso in
   buildJobCompleteWithProvider sha256_hex jobId out (DeviceKeyProvider sk) iso = Ok c ∧
   completes sk jobId out c ∧
   (json_ok out = true → read_message (send_text (MsgJobComplete c)) = Some (GoodMsg (MsgJobComplete c)))).
Proof.
  split; [|split; [|split]]; cbv zeta.
  - split; [apply complete_with_completes | intros Hok; by apply read_send].
  - split; [apply complete_with_completes | intros Hok; by apply read_send].
  - split; [exact (complete_with_completes jobId _ sk iso) | intros Hok; by apply read_send].
  - intros out. split; [done|].
    split; [exact (complete_with_completes jobId out sk iso) | intros Hok; by apply read_send].
Qed.
End Completion.

(** With a toy hash, the length of the text. *)
Definition toy_sha256 (s : string) : string := num_to_string (num_of_Z (Z.of_nat (String.length s))).

Definition summarize_payload : JobPayload :=
  {| p_prompt := None; p_max_tokens := None; p_task_type := Some "summarize"; p_input := Some "two words" |}.

Lemma completions_reach_the_coordinator_witness :
  let c := desktop_handleJob toy_sha256 "j1" TASK summarize_payload None (OllamaFails "") (sc_secret "key") "now" in
  read_message (send_text (MsgJobComplete c)) = Some (GoodMsg (MsgJobComplete c)).
Proof.
  apply (completions_reach_the_coordinator toy_sha256 "j1" TASK summarize_payload None (OllamaFails "")
           (sc_secret "key") "now"). vm_compute. reflexivity.
Defined.
