(* ===== verification/CliWorker.v ===== *)
(** * The CLI worker's runtime

    [WorkerRuntime] of packages/cli/src/lib/worker-runtime.ts as a state
    machine.  [start] is cut at its awaits: the connection, the
    acknowledgement, the claim of a trust pairing; a job that waits for a local
    model is cut at that await.  An event is one turn of the event loop, except
    that the continuation of [start] after the acknowledgement is a turn of its
    own, since a socket can deliver several messages of one packet in a row.
    [Throw] is an exception that no handler catches: it rejects the promise of
    [handleMessage] or [start]. *)

From stdpp Require Import base list gmap strings option relations.
From Stdlib Require Import ZArith Lia.
From S2P Require Import Prelude Js Json Protocol Interfaces Executors Scenario Workers.
Local Open Scope string_scope.

Inductive WStatus := WConnecting | WRegistered | WWorking | WDisconnected.

Record WorkerStats := mkStats {
  workerId : option string; pubkeyHex : string; jobsCompleted : Z; jobsFailed : Z;
  uptime : Z; lastJobAt : option Z; status : WStatus }.

Record RuntimeConfig := {
  rc_capabilities : list JobType; rc_ollamaUrl : option string; rc_trustPairingCode : option string }.

Inductive ReadyState := CONNECTING | OPEN | CLOSED.
#[global] Instance ReadyState_eq_dec : EqDecision ReadyState.
Proof. solve_decision. Defined.

(** How far [start] has come. *)
Inductive Phase :=
  | NotStarted
  | Connecting                     (* connectWebSocket *)
  | Registering                    (* registerWorker, listening for the acknowledgement *)
  | Acked (worker_id : string)     (* its promise is resolved *)
  | Claiming                       (* claimTrustPairing *)
  | Running                        (* start has returned *)
  | StartFailed (error : string).
#[global] Instance Phase_eq_dec : EqDecision Phase.
Proof. solve_decision. Defined.

(** What the socket delivers, as far as the runtime looks at it. *)
Inductive InMsg :=
  | InBad                                                  (* not JSON *)
  | InNull
  | InAck (ok : bool) (worker_id error : option string)
  | InAssign (jobId : string) (jobType : JobType) (p : JobPayload)
  | InOther.

(** What the runtime emits to the CLI. *)
Inductive Emit :=
  | EmStatus (s : WorkerStats)
  | EmRegistered (worker_id : string)
  | EmTrustClaimed (user : string)
  | EmWarning (e : string)
  | EmDisconnected
  | EmError (e : string)
  | EmJobComplete (jobId : string) (jobType : JobType) (durationMs : Z) (failed : bool).

(** A job whose inference is awaited. *)
Record Waiting := { wj_id : string; wj_prompt : string; wj_started : Z }.

Section Runtime.
  Context `{!Ed25519} (sha256_hex : string → string) (cfg : RuntimeConfig).

Record Runtime := mkRuntime {
  phase : Phase;
  socket : ReadyState;              (* of the socket [start] created *)
  ws : bool;                        (* this.ws is set *)
  ackListening : bool;              (* registerWorker's onMessage is attached *)
  attached : bool;                  (* message, close and error are listened to *)
  heartbeatTimer : bool;
  startedAt : Z;
  keypair : option secret_key;
  stats : WorkerStats;
  waiting : list Waiting;
  sent : list WorkerToCoordinator;  (* what was sent, oldest first *)
  emitted : list Emit }.

Definition init : Runtime :=
  mkRuntime NotStarted CLOSED false false false false 0 None
    (mkStats None "" 0 0 0 None WDisconnected) [] [] [].

(** ** Field updates *)

Definition set_phase p r := mkRuntime p (socket r) (ws r) (ackListening r) (attached r) (heartbeatTimer r)
  (startedAt r) (keypair r) (stats r) (waiting r) (sent r) (emitted r).
Definition set_socket st r := mkRuntime (phase r) st (ws r) (ackListening r) (attached r) (heartbeatTimer r)
  (startedAt r) (keypair r) (stats r) (waiting r) (sent r) (emitted r).
Definition set_ws b r := mkRuntime (phase r) (socket r) b (ackListening r) (attached r) (heartbeatTimer r)
  (startedAt r) (keypair r) (stats r) (waiting r) (sent r) (emitted r).
Definition set_listeners a b r := mkRuntime (phase r) (socket r) (ws r) a b (heartbeatTimer r)
  (startedAt r) (keypair r) (stats r) (waiting r) (sent r) (emitted r).
Definition set_timer b r := mkRuntime (phase r) (socket r) (ws r) (ackListening r) (attached r) b
  (startedAt r) (keypair r) (stats r) (waiting r) (sent r) (emitted r).
Definition set_started t k r := mkRuntime (phase r) (socket r) (ws r) (ackListening r) (attached r) (heartbeatTimer r)
  t k (stats r) (waiting r) (sent r) (emitted r).
Definition set_stats st r := mkRuntime (phase r) (socket r) (ws r) (ackListening r) (attached r) (heartbeatTimer r)
  (startedAt r) (keypair r) st (waiting r) (sent r) (emitted r).
Definition set_waiting l r := mkRuntime (phase r) (socket r) (ws r) (ackListening r) (attached r) (heartbeatTimer r)
  (startedAt r) (keypair r) (stats r) l (sent r) (emitted r).
Definition wsend m r := mkRuntime (phase r) (socket r) (ws r) (ackListening r) (attached r) (heartbeatTimer r)
  (startedAt r) (keypair r) (stats r) (waiting r) (sent r ++ [m])%list (emitted r).
Definition emit e r := mkRuntime (phase r) (socket r) (ws r) (ackListening r) (attached r) (heartbeatTimer r)
  (startedAt r) (keypair r) (stats r) (waiting r) (sent r) (emitted r ++ [e])%list.

(** ** Methods *)

Definition getStats (now : Z) r : WorkerStats :=
  let s := stats r in
  mkStats (workerId s) (pubkeyHex s) (jobsCompleted s) (jobsFailed s)
    (if (startedAt r =? 0)%Z then 0 else (now - startedAt r)%Z) (lastJobAt s) (status s).

Definition with_status st s := mkStats (workerId s) (pubkeyHex s) (jobsCompleted s) (jobsFailed s)
  (uptime s) (lastJobAt s) st.

Definition setStatus (st : WStatus) (now : Z) r : Runtime :=
  let r := set_stats (with_status st (stats r)) r in emit (EmStatus (getStats now r)) r.

Definition cleanupHeartbeat r : Runtime := if heartbeatTimer r then set_timer false r else r.
Definition startHeartbeat r : Runtime := set_timer true (cleanupHeartbeat r).

(** The interval's callback. *)
Definition heartbeat r : Runtime :=
  match keypair r with
  | Some sk => if ws r && bool_decide (socket r = OPEN) then wsend (MsgHeartbeat (pubkey_hex sk)) r else r
  | None => r
  end.

(** [start] up to its first await. *)
Definition start_begin (sk : secret_key) (now : Z) r : Runtime :=
  let r := set_started now (Some sk) r in
  let s := stats r in
  let r := set_stats (mkStats (workerId s) (pubkey_hex sk) (jobsCompleted s) (jobsFailed s) (uptime s)
                        (lastJobAt s) (status s)) r in
  let r := setStatus WConnecting now r in
  set_phase Connecting (set_socket CONNECTING r).

(** The socket opened: [this.ws] is set and [registerWorker] sends. *)
Definition start_connected r : Runtime :=
  let r := set_phase Registering (set_listeners true (attached r) (set_ws true (set_socket OPEN r))) in
  match keypair r with
  | Some sk => wsend (MsgRegister {| reg_provider_pubkey := pubkey_hex sk; reg_provider_type := DESKTOP;
                                     reg_capabilities := rc_capabilities cfg |}) r
  | None => r
  end.

(** The three [ws.on] calls at the end of [start]. *)
Definition start_listen r : outcome Runtime :=
  if ws r then Ok (set_phase Running (set_listeners (ackListening r) true r))
  else Throw "Cannot read properties of null (reading 'on')".

Definition start_registered (id : string) (now : Z) r : outcome Runtime :=
  let s := stats r in
  let r := set_stats (mkStats (Some id) (pubkeyHex s) (jobsCompleted s) (jobsFailed s) (uptime s)
                        (lastJobAt s) (status s)) r in
  let r := setStatus WRegistered now r in
  let r := startHeartbeat (emit (EmRegistered id) r) in
  if ostr_truthy (rc_trustPairingCode cfg) then Ok (set_phase Claiming r) else start_listen r.

Definition start_claimed (res : string + string) r : outcome Runtime :=
  start_listen (emit (match res with inl e => EmWarning e | inr u => EmTrustClaimed u end) r).

Definition stop (now : Z) r : Runtime :=
  let r := cleanupHeartbeat r in
  let r := if ws r then
             let r := set_listeners false false r in
             match socket r with OPEN | CONNECTING => set_socket CLOSED r | CLOSED => r end
           else r in
  setStatus WDisconnected now (set_ws false r).

(** registerWorker's [onMessage]. *)
Definition onAck (m : InMsg) r : Runtime :=
  match m with
  | InAck ok id err =>
      let r := set_listeners false (attached r) r in
      match id with
      | Some i => if ok && str_truthy i then set_phase (Acked i) r
                  else set_phase (StartFailed ("Registration failed: " ++ default "unknown" err)) r
      | None => set_phase (StartFailed ("Registration failed: " ++ default "unknown" err)) r
      end
  | _ => r
  end.

(** [handleJob] from the output to its end. *)
Definition finishJob (jobId : string) (jobType : JobType) (output : json) (failed : bool)
    (started now : Z) (iso : string) r : outcome Runtime :=
  match keypair r with
  | None => Ok r
  | Some sk =>
      let s := stats r in
      let r := set_stats (mkStats (workerId s) (pubkeyHex s)
                            (if failed then jobsCompleted s else jobsCompleted s + 1)
                            (if failed then jobsFailed s + 1 else jobsFailed s)
                            (uptime s) (Some now) (status s)) r in
      let msg := cli_complete sha256_hex jobId output sk iso in
      if ws r then
        let r := if bool_decide (socket r = OPEN) then wsend (MsgJobComplete msg) r else r in
        let r := emit (EmJobComplete jobId jobType (now - started) failed) r in
        Ok (setStatus WRegistered now r)
      else Throw "Cannot read properties of null (reading 'readyState')"
  end.

(** [handleJob]: an inference is awaited, everything else is computed at once. *)
Definition handleJob (jobId : string) (jobType : JobType) (p : JobPayload) (now : Z) (iso : string) r
    : outcome Runtime :=
  match keypair r with
  | Some _ =>
      if ws r then
        let r := setStatus WWorking now r in
        match jobType, p_prompt p with
        | LLM_INFER, Some prompt =>
            if str_truthy prompt
            then Ok (set_waiting (waiting r ++ [{| wj_id := jobId; wj_prompt := prompt; wj_started := now |}])%list r)
            else finishJob jobId jobType (error_json "Unsupported job payload") true now now iso r
        | _, _ =>
            let '(output, failed) := cli_job_output jobType p jobId (rc_ollamaUrl cfg) (OllamaFails "") in
            finishJob jobId jobType output failed now now iso r
        end
      else Ok r
  | None => Ok r
  end.

Definition handleMessage (m : InMsg) (now : Z) (iso : string) r : outcome Runtime :=
  match m with
  | InNull => Throw "Cannot read properties of null (reading 'type')"
  | InAssign jobId jobType p => handleJob jobId jobType p now iso r
  | _ => Ok r
  end.

(** A message reaches the listeners attached when it arrives. *)
Definition deliver (m : InMsg) (now : Z) (iso : string) r : outcome Runtime :=
  let r := if ackListening r then onAck m r else r in
  if attached r then handleMessage m now iso r else Ok r.

Definition onClose (now : Z) r : Runtime :=
  let r := set_socket CLOSED r in
  if attached r then emit EmDisconnected (setStatus WDisconnected now (cleanupHeartbeat r)) else r.

(** ** Events *)

Inductive RtEvent :=
  | RStart (sk : secret_key) (now : Z)
  | ROpen
  | RConnectFails (error : string)           (* the error event of a connecting socket *)
  | RConnectTimeout                          (* the ten seconds of connectWebSocket *)
  | RMessage (m : InMsg) (now : Z) (iso : string)
  | RAckTimeout
  | RResume (now : Z)                        (* start continues after the acknowledgement *)
  | RClaimed (res : string + string)
  | RHeartbeat
  | RInferred (i : nat) (reply : OllamaReply) (now : Z) (iso : string)
  | RClose (now : Z)
  | RError (e : string)
  | RStop (now : Z).

Definition exec_rt (e : RtEvent) r : outcome Runtime :=
  match e with
  | RStart sk now => if bool_decide (phase r = NotStarted) then Ok (start_begin sk now r) else Ok r
  | ROpen =>
      match phase r with
      | Connecting => Ok (start_connected r)
      | StartFailed _ => if bool_decide (socket r = CONNECTING) then Ok (set_socket OPEN r) else Ok r
      | _ => Ok r
      end
  | RConnectFails e =>
      match phase r with
      | Connecting => Ok (set_phase (StartFailed e) (set_socket CLOSED r))
      | StartFailed _ => if bool_decide (socket r = CONNECTING) then Throw e else Ok r   (* nobody listens *)
      | _ => Ok r
      end
  | RConnectTimeout =>
      (* the listeners are removed; the socket goes on connecting *)
      if bool_decide (phase r = Connecting) then Ok (set_phase (StartFailed "WebSocket connection timeout") r) else Ok r
  | RMessage m now iso => if bool_decide (socket r = OPEN) then deliver m now iso r else Ok r
  | RAckTimeout =>
      if bool_decide (phase r = Registering)
      then Ok (set_phase (StartFailed "Registration timeout") (set_listeners false (attached r) r)) else Ok r
  | RResume now => match phase r with Acked id => start_registered id now r | _ => Ok r end
  | RClaimed res => if bool_decide (phase r = Claiming) then start_claimed res r else Ok r
  | RHeartbeat => if heartbeatTimer r then Ok (heartbeat r) else Ok r
  | RInferred i reply now iso =>
      match waiting r !! i with
      | Some w =>
          finishJob (wj_id w) LLM_INFER (executeLLM (rc_ollamaUrl cfg) reply (wj_prompt w) (wj_id w)) false
            (wj_started w) now iso (set_waiting (delete i (waiting r)) r)
      | None => Ok r
      end
  | RClose now => if bool_decide (socket r = OPEN) then Ok (onClose now r) else Ok r
  | RError e => if attached r then Ok (emit (EmError e) r) else Ok r
  | RStop now => Ok (stop now r)
  end.

Fixpoint run_rt (es : list RtEvent) r : outcome Runtime :=
  match es with
  | [] => Ok r
  | e :: es => r' <-- exec_rt e r ;; run_rt es r'
  end.
End Runtime.

(** ** Invariant *)

Definition working_emit (e : Emit) : bool :=
  match e with EmStatus s => match status s with WWorking => true | _ => false end | _ => false end.
Definition done_emit (f : bool) (e : Emit) : bool :=
  match e with EmJobComplete _ _ _ failed => Bool.eqb failed f | _ => false end.
Definition done_id (e : Emit) : option string :=
  match e with EmJobComplete i _ _ _ => Some i | _ => None end.
Definition done_job (e : Emit) : option (string * JobType) :=
  match e with EmJobComplete i t _ _ => Some (i, t) | _ => None end.
Definition complete_id (m : WorkerToCoordinator) : option string :=
  match m with MsgJobComplete c => Some (jc_job_id c) | _ => None end.

Definition count {A} (p : A → bool) (l : list A) : nat := length (List.filter p l).

Lemma count_app {A} (p : A → bool) l l' : count p (l ++ l')%list = (count p l + count p l')%nat.
Proof. unfold count. by rewrite List.filter_app, length_app. Qed.

Section Facts.
  Context `{!Ed25519} (sha256_hex : string → string) (cfg : RuntimeConfig).
  Implicit Types r : Runtime.

(** The job an event assigns: one in a message that reaches the listener
    [start] attaches. *)
Definition assigned (e : RtEvent) r : option (string * JobType) :=
  match e with
  | RMessage (InAssign jobId jobType _) _ _ =>
      if bool_decide (socket r = OPEN) && attached r then Some (jobId, jobType) else None
  | _ => None
  end.

(** The jobs assigned in a run, in order. *)
Fixpoint assigned_jobs (es : list RtEvent) r : list (string * JobType) :=
  match es with
  | [] => []
  | e :: es => (option_list (assigned e r) ++
                match exec_rt sha256_hex cfg e r with Ok r' => assigned_jobs es r' | Throw _ => [] end)%list
  end.

(** The jobs reported, and those whose inference is awaited. *)
Definition reported r : list (string * JobType) := omap done_job (emitted r).
Definition awaited r : list (string * JobType) := map (λ w, (wj_id w, LLM_INFER)) (waiting r).

(** Which listeners can be attached when. *)
Record control_inv r : Prop := {
  ci_attached : attached r = true → phase r = Running ∧ ws r = true;
  ci_ack : ackListening r = true → phase r = Registering;
  ci_key : phase r ≠ NotStarted → is_Some (keypair r);
  ci_fresh : phase r = NotStarted → ws r = false ∧ heartbeatTimer r = false ∧ attached r = false ∧ waiting r = [] }.

(** The statistics and the emitted events account for every job accepted. *)
Record account_inv r : Prop := {
  ai_ok : jobsCompleted (stats r) = Z.of_nat (count (done_emit false) (emitted r));
  ai_failed : jobsFailed (stats r) = Z.of_nat (count (done_emit true) (emitted r));
  ai_working : count working_emit (emitted r) =
    (count (done_emit false) (emitted r) + count (done_emit true) (emitted r) + length (waiting r))%nat;
  ai_sent : omap complete_id (sent r) `sublist_of` omap done_id (emitted r) }.

(** What [account_inv] depends on. *)
Definition accounts r := (jobsCompleted (stats r), jobsFailed (stats r), emitted r, length (waiting r), sent r).

Lemma account_eq r r' : accounts r = accounts r' → account_inv r → account_inv r'.
Proof. unfold accounts. intros [= E1 E2 E3 E4 E5] []. constructor; congruence. Qed.

Lemma account_send m r : complete_id m = None → account_inv r → account_inv (wsend m r).
Proof.
  intros Hm []. constructor; simpl; [done..|]. rewrite omap_app. simpl. rewrite Hm. by rewrite app_nil_r.
Qed.

(** Emitting an event that is neither the start nor the end of a job. *)
Lemma account_emit e r :
  working_emit e = false → done_id e = None → account_inv r → account_inv (emit e r).
Proof.
  intros Hw Hd []. destruct e; try discriminate Hd; (constructor; simpl in *; rewrite ?count_app, ?omap_app; unfold count in *; simpl in *;
    rewrite ?Hw; simpl; rewrite ?Nat.add_0_r, ?app_nil_r; auto).
Qed.

Lemma account_setStatus st now r : st ≠ WWorking → account_inv r → account_inv (setStatus st now r).
Proof.
  intros Hst Hr. unfold setStatus. apply account_emit; [|done|by eapply account_eq; [|exact Hr]].
  simpl. by destruct st.
Qed.

Lemma account_finishJob j t o f st now iso r r' :
  finishJob sha256_hex j t o f st now iso r = Ok r' →
  jobsCompleted (stats r) = Z.of_nat (count (done_emit false) (emitted r)) →
  jobsFailed (stats r) = Z.of_nat (count (done_emit true) (emitted r)) →
  count working_emit (emitted r) = (count (done_emit false) (emitted r) + count (done_emit true) (emitted r) + S (length (waiting r)))%nat →
  omap complete_id (sent r) `sublist_of` omap done_id (emitted r) → is_Some (keypair r) →
  account_inv r'.
Proof.
  intros Hf H1 H2 H3 H4 [sk Hk]. unfold finishJob in Hf. rewrite Hk in Hf. simpl in Hf.
  destruct (ws r); [|done]. injection Hf as <-. apply account_setStatus; [done|].
  assert (∀ snt, snt = sent r ∨ snt = (sent r ++ [MsgJobComplete (cli_complete sha256_hex j o sk iso)])%list →
    omap complete_id snt `sublist_of` omap done_id (emitted r ++ [EmJobComplete j t (now - st) f])%list) as Hs.
  { intros snt [-> | ->]; rewrite !omap_app; simpl; [by apply sublist_inserts_r|].
    by apply sublist_app. }
  destruct f, (bool_decide (socket _ = OPEN)); constructor; simpl;
    rewrite ?count_app; unfold count in *; simpl; try lia; apply Hs; auto.
Qed.

Lemma handleJob_account j t p now iso r r' :
  handleJob sha256_hex cfg j t p now iso r = Ok r' → account_inv r → account_inv r'.
Proof.
  unfold handleJob. intros Hj Hr. destruct (keypair r) as [sk|] eqn:Hk; [|by injection Hj as <-].
  destruct (ws r) eqn:Hw; [|by injection Hj as <-].
  set (r1 := setStatus WWorking now r) in *.
  assert (jobsCompleted (stats r1) = Z.of_nat (count (done_emit false) (emitted r1)) ∧
    jobsFailed (stats r1) = Z.of_nat (count (done_emit true) (emitted r1)) ∧
    count working_emit (emitted r1) = (count (done_emit false) (emitted r1) + count (done_emit true) (emitted r1) + S (length (waiting r1)))%nat ∧
    omap complete_id (sent r1) `sublist_of` omap done_id (emitted r1) ∧ is_Some (keypair r1)) as (H1 & H2 & H3 & H4 & H5).
  { destruct Hr. subst r1. simpl. rewrite !count_app, omap_app. unfold count in *. simpl.
    rewrite Hk, app_nil_r. split_and!; [lia | lia | lia | done | eauto]. }
  clearbody r1. destruct t.
  - destruct (p_prompt p) as [prompt|]; [destruct (str_truthy prompt)|].
    + injection Hj as <-. constructor; simpl; rewrite ?length_app; simpl; [done | done | lia | done].
    + by eapply account_finishJob.
    + destruct (cli_job_output _ _ _ _ _) as [o f]. by eapply account_finishJob.
  - destruct (cli_job_output _ _ _ _ _) as [o f]. destruct (p_prompt p); by eapply account_finishJob.
Qed.

Lemma finishJob_control j t o f st now iso r r' :
  finishJob sha256_hex j t o f st now iso r = Ok r' →
  phase r' = phase r ∧ attached r' = attached r ∧ ws r' = ws r ∧ ackListening r' = ackListening r ∧
  keypair r' = keypair r ∧ heartbeatTimer r' = heartbeatTimer r ∧ waiting r' = waiting r.
Proof.
  unfold finishJob. destruct (keypair r) as [sk|] eqn:Hk; [|by intros [= <-]; rewrite Hk].
  simpl. destruct (ws r) eqn:Hw; [|done]. intros [= <-]. by destruct (bool_decide _).
Qed.

Lemma handleJob_control j t p now iso r r' :
  handleJob sha256_hex cfg j t p now iso r = Ok r' →
  phase r' = phase r ∧ attached r' = attached r ∧ ws r' = ws r ∧ ackListening r' = ackListening r ∧
  keypair r' = keypair r ∧ heartbeatTimer r' = heartbeatTimer r.
Proof.
  unfold handleJob. destruct (keypair r) as [sk|] eqn:Hk; [|by intros [= <-]; rewrite Hk].
  destruct (ws r) eqn:Hw; [|by intros [= <-]; rewrite Hk, Hw].
  intros Hj. destruct t, (p_prompt p) as [prompt|]; try destruct (str_truthy prompt);
    try destruct (cli_job_output _ _ _ _ _) as [o f];
    try (apply finishJob_control in Hj as (-> & -> & -> & -> & -> & -> & _); simpl; by rewrite ?Hk, ?Hw);
    injection Hj as <-; simpl; by rewrite ?Hk, ?Hw.
Qed.

Lemma control_eq r r' :
  phase r' = phase r → attached r' = attached r → ws r' = ws r → ackListening r' = ackListening r →
  keypair r' = keypair r → (phase r = NotStarted → heartbeatTimer r' = heartbeatTimer r ∧ waiting r' = waiting r) →
  control_inv r → control_inv r'.
Proof.
  intros E1 E2 E3 E4 E5 E6 [H1 H2 H3 H4]. constructor; rewrite ?E1, ?E2, ?E3, ?E4, ?E5; auto.
  intros Hp. destruct (E6 Hp) as [-> ->]. auto.
Qed.

Lemma deliver_attached m now iso r :
  control_inv r → attached r = true → deliver sha256_hex cfg m now iso r = handleMessage sha256_hex cfg m now iso r.
Proof.
  intros [H1 H2 _ _] Ha. unfold deliver. destruct (H1 Ha) as [Hp _].
  destruct (ackListening r); [rewrite (H2 eq_refl) in Hp; done|]. by rewrite Ha.
Qed.

Lemma deliver_unattached m now iso r :
  attached r = false → deliver sha256_hex cfg m now iso r = Ok (if ackListening r then onAck m r else r).
Proof.
  intros Ha. unfold deliver. assert (attached (if ackListening r then onAck m r else r) = false) as ->; [|done].
  destruct (ackListening r), m as [| |ok [i|] err| |]; simpl; try done. by destruct (_ && _).
Qed.

Ltac control :=
  constructor; simpl; intros; simplify_eq;
  repeat match goal with
  | Ha : attached ?r = true, H : attached ?r = true → _ |- _ => destruct (H Ha); clear H
  | Ha : ackListening ?r = true, H : ackListening ?r = true → _ |- _ => specialize (H Ha)
  end; try congruence; eauto.

Lemma exec_rt_control e r r' : control_inv r → exec_rt sha256_hex cfg e r = Ok r' → control_inv r'.
Proof.
  intros Hr. pose proof Hr as [H1 H2 H3 H4]. destruct e as [sk now| |err| |m now iso| |now|res| |i reply now iso|now|err|now]; simpl.
  - case_bool_decide as Hp; intros [= <-]; [|done]. destruct (H4 Hp) as (Hw & Hh & Ha & Hl). control.
  - destruct (phase r) as [| | |id| | |err] eqn:Hp; try (by intros [= <-]).
    + intros [= <-]. unfold start_connected. simpl. destruct (H3 ltac:(congruence)) as [sk Hk]. rewrite Hk. control.
    + case_bool_decide; intros [= <-]; [by apply (control_eq r) | done].
  - destruct (phase r) as [| | |id| | |err'] eqn:Hp; try (by intros [= <-]); [|by case_bool_decide; intros [= <-]].
    intros [= <-]. control.
  - case_bool_decide as Hp; intros [= <-]; [|done].
    control. apply H3. congruence.
  - case_bool_decide as Hp; [|by intros [= <-]]. destruct (attached r) eqn:Ha.
    + rewrite deliver_attached by done. destruct (H1 eq_refl) as [Hph Hws].
      destruct m; simpl; try (by intros [= <-]); try done.
      intros (E1 & E2 & E3 & E4 & E5 & E6)%handleJob_control. eapply (control_eq r); try done. congruence.
    + rewrite deliver_unattached by done. intros [= <-]. destruct (ackListening r) eqn:Hack; [|done].
      pose proof (H2 eq_refl) as Hph. destruct (H3 ltac:(congruence)) as [sk Hk].
      destruct m as [| |ok [i|] err| |]; simpl; try done; [destruct (_ && _)|]; control.
  - case_bool_decide as Hp; intros [= <-]; [|done]. control. apply H3. congruence.
  - destruct (phase r) as [| | |id| | |] eqn:Hp; try (by intros [= <-]).
    assert (attached r = false) as Ha by (destruct (attached r); [by destruct (H1 eq_refl)|done]).
    assert (ackListening r = false) as Hack by (destruct (ackListening r); [by specialize (H2 eq_refl)|done]).
    destruct (H3 ltac:(congruence)) as [sk Hk].
    unfold start_registered, start_listen, startHeartbeat, cleanupHeartbeat. simpl.
    destruct (ostr_truthy _), (heartbeatTimer r); simpl; try (destruct (ws r) eqn:Hw; [|done]);
      intros [= <-]; control.
  - case_bool_decide as Hp; [|by intros [= <-]]. unfold start_claimed, start_listen. simpl.
    destruct (ws r) eqn:Hw; [|done]. intros [= <-]. control. apply H3. congruence.
  - destruct (heartbeatTimer r) eqn:Hh; intros [= <-]; [|done]. unfold heartbeat.
    destruct (keypair r) eqn:Hk; [|done]. destruct (_ && _); [|done]. by apply (control_eq r).
  - destruct (waiting r !! i) as [w|] eqn:Hi; [|by intros [= <-]].
    intros (E1 & E2 & E3 & E4 & E5 & E6 & E7)%finishJob_control. eapply (control_eq r); try done.
    intros Hp. destruct (H4 Hp) as (_ & _ & _ & Hl). by rewrite Hl in Hi.
  - case_bool_decide as Hp; intros [= <-]; [|done]. unfold onClose, cleanupHeartbeat. simpl.
    destruct (attached r) eqn:Ha; [|by apply (control_eq r)].
    destruct (H1 eq_refl) as [Hph Hw]. destruct (heartbeatTimer r); control; apply H3; congruence.
  - destruct (attached r); intros [= <-]; [by apply (control_eq r) | done].
  - intros [= <-]. unfold stop, cleanupHeartbeat.
    destruct (heartbeatTimer r) eqn:Hh, (ws r) eqn:Hw, (socket r) eqn:Hs; simpl; rewrite ?Hw, ?Hs; simpl; control;
      match goal with Hp : phase r = NotStarted |- _ => destruct (H4 Hp) as (? & ? & ? & ?); try congruence; auto end.
Qed.

Lemma exec_rt_account e r r' :
  control_inv r → account_inv r → exec_rt sha256_hex cfg e r = Ok r' → account_inv r'.
Proof.
  intros Hc Hr. pose proof Hc as [H1 H2 H3 H4].
  destruct e as [sk now| |err| |m now iso| |now|res| |i reply now iso|now|err|now]; simpl.
  - case_bool_decide; intros [= <-]; [|done]. unfold start_begin.
    set (r1 := set_stats _ _).
    assert (account_inv (setStatus WConnecting now r1)) as H5
      by (apply account_setStatus; [done|]; by eapply account_eq; [|exact Hr]).
    by eapply account_eq; [|exact H5].
  - destruct (phase r); try (by intros [= <-]).
    + intros [= <-]. unfold start_connected. simpl.
      destruct (keypair r); [apply account_send; [done|]|]; by eapply account_eq; [|exact Hr].
    + case_bool_decide; intros [= <-]; [by eapply account_eq; [|exact Hr] | done].
  - destruct (phase r); try (by intros [= <-]); [|by case_bool_decide; intros [= <-]].
    intros [= <-]. by eapply account_eq; [|exact Hr].
  - case_bool_decide; intros [= <-]; [|done]. by eapply account_eq; [|exact Hr].
  - case_bool_decide; [|by intros [= <-]]. destruct (attached r) eqn:Ha.
    + rewrite deliver_attached by done. destruct m; simpl; try (by intros [= <-]); try done.
      intros Hj. by eapply handleJob_account.
    + rewrite deliver_unattached by done. intros [= <-]. destruct (ackListening r); [|done].
      destruct m as [| |ok [id|] err| |]; simpl; try done; [destruct (_ && _)|]; by eapply account_eq; [|exact Hr].
  - case_bool_decide; intros [= <-]; [|done]. by eapply account_eq; [|exact Hr].
  - destruct (phase r) as [| | |id| | |]; try (by intros [= <-]).
    unfold start_registered.
    set (r1 := emit (EmRegistered id) _).
    assert (account_inv (startHeartbeat r1)) as H5.
    { unfold startHeartbeat, cleanupHeartbeat.
      assert (account_inv r1) as H6.
      { apply account_emit; [done|done|]. apply account_setStatus; [done|]. by eapply account_eq; [|exact Hr]. }
      destruct (heartbeatTimer r1); by eapply account_eq; [|exact H6]. }
    generalize dependent (startHeartbeat r1). intros r2 H5.
    unfold start_listen. destruct (ostr_truthy _), (ws r2); try done;
      intros [= <-]; by eapply account_eq; [|exact H5].
  - case_bool_decide; [|by intros [= <-]]. unfold start_claimed, start_listen.
    set (r1 := emit _ r). assert (account_inv r1) as H5 by (apply account_emit; [by destruct res | by destruct res | done]).
    destruct (ws r1); [|done]. intros [= <-]. by eapply account_eq; [|exact H5].
  - destruct (heartbeatTimer r); intros [= <-]; [|done]. unfold heartbeat.
    destruct (keypair r); [|done]. destruct (_ && _); [by apply account_send | done].
  - destruct (waiting r !! i) as [w|] eqn:Hi; [|by intros [= <-]]. intros Hf.
    assert (phase r ≠ NotStarted) as Hp.
    { intros Hp. destruct (H4 Hp) as (_ & _ & _ & Hl). by rewrite Hl in Hi. }
    destruct Hr as [A1 A2 A3 A4]. eapply account_finishJob; [exact Hf | done | done | | done | by apply H3].
    simpl. rewrite A3, length_delete by eauto. apply lookup_lt_Some in Hi. lia.
  - case_bool_decide; intros [= <-]; [|done]. unfold onClose. simpl. destruct (attached r).
    + apply account_emit; [done|done|]. apply account_setStatus; [done|]. unfold cleanupHeartbeat. simpl.
      destruct (heartbeatTimer r); by eapply account_eq; [|exact Hr].
    + by eapply account_eq; [|exact Hr].
  - destruct (attached r); intros [= <-]; [by apply account_emit | done].
  - intros [= <-]. unfold stop. apply account_setStatus; [done|]. unfold cleanupHeartbeat.
    destruct (heartbeatTimer r), (ws r) eqn:Hw, (socket r) eqn:Hs; simpl; rewrite ?Hw, ?Hs; by eapply account_eq; [|exact Hr].
Qed.

Lemma finishJob_jobs j t o f st now iso r r' :
  finishJob sha256_hex j t o f st now iso r = Ok r' → is_Some (keypair r) →
  reported r' = (reported r ++ [(j, t)])%list ∧ awaited r' = awaited r.
Proof.
  unfold finishJob. intros Hf [sk Hk]. rewrite Hk in Hf. simpl in Hf. destruct (ws r); [|done]. injection Hf as <-.
  unfold reported, awaited. destruct (bool_decide _); simpl; by rewrite !omap_app, <- app_assoc.
Qed.

Lemma handleJob_jobs j t p now iso r r' :
  handleJob sha256_hex cfg j t p now iso r = Ok r' → is_Some (keypair r) → ws r = true →
  (reported r' ++ awaited r' ≡ₚ (j, t) :: reported r ++ awaited r)%list.
Proof.
  unfold handleJob. intros Hj [sk Hk] Hw. rewrite Hk, Hw in Hj.
  set (r1 := setStatus WWorking now r) in *.
  assert (reported r1 = reported r ∧ awaited r1 = awaited r ∧ is_Some (keypair r1)) as (<- & <- & Hk1).
  { unfold reported, awaited. simpl. rewrite omap_app, app_nil_r. simpl. rewrite Hk. eauto. }
  assert (∀ o f, finishJob sha256_hex j t o f now now iso r1 = Ok r' →
    (reported r' ++ awaited r' ≡ₚ (j, t) :: reported r1 ++ awaited r1)%list) as Hfin.
  { intros o f Hf. destruct (finishJob_jobs _ _ _ _ _ _ _ _ _ Hf Hk1) as [-> ->].
    rewrite <- app_assoc. simpl. by rewrite Permutation_middle. }
  clearbody r1. destruct t, (p_prompt p) as [prompt|]; try destruct (str_truthy prompt);
    try destruct (cli_job_output _ _ _ _ _) as [o f]; try (by eapply Hfin).
  injection Hj as <-. unfold reported, awaited. simpl. rewrite map_app, app_assoc. simpl.
  by rewrite <- Permutation_cons_append.
Qed.

Lemma done_job_count l : length (omap done_job l) = (count (done_emit false) l + count (done_emit true) l)%nat.
Proof.
  unfold count. induction l as [|e l IH]; [done|].
  change (omap done_job (e :: l)) with (match done_job e with Some b => b :: omap done_job l | None => omap done_job l end).
  destruct e as [| | | | | |i t n []]; cbn [done_job done_emit List.filter Bool.eqb length]; rewrite IH; lia.
Qed.

(** One event adds the job it assigns. *)
Lemma exec_rt_jobs e r r' :
  control_inv r → exec_rt sha256_hex cfg e r = Ok r' →
  (reported r' ++ awaited r' ≡ₚ option_list (assigned e r) ++ reported r ++ awaited r)%list.
Proof.
  intros Hc. pose proof Hc as [H1 H2 H3 H4].
  assert (∀ r1, reported r1 = reported r → awaited r1 = awaited r → Ok r1 = Ok r' →
    (reported r' ++ awaited r' ≡ₚ reported r ++ awaited r)%list) as Hsame by (intros r1 E1 E2 [= <-]; by rewrite E1, E2).
  destruct e as [sk now| |err| |m now iso| |now|res| |i reply now iso|now|err|now]; cbn [exec_rt assigned option_list app].
  - case_bool_decide; apply Hsame; unfold reported, start_begin; simpl; by rewrite ?omap_app, ?app_nil_r.
  - destruct (phase r); try (by apply Hsame); [|case_bool_decide; by apply Hsame].
    apply Hsame; unfold reported, awaited, start_connected; simpl; by destruct (keypair r).
  - destruct (phase r); try (by apply Hsame). by case_bool_decide; [|apply Hsame].
  - case_bool_decide; by apply Hsame.
  - case_bool_decide as Ho; cbn [andb]; [|by destruct m; apply Hsame]. destruct (attached r) eqn:Ha.
    + rewrite deliver_attached by done. destruct (H1 eq_refl) as [Hp Hw].
      destruct m; cbn [handleMessage option_list app]; try (by apply Hsame); [done|].
      intros Hj. eapply handleJob_jobs; [exact Hj | apply H3; congruence | done].
    + rewrite deliver_unattached by done. destruct m as [| |ok [i|] err| |]; cbn [option_list app];
        apply Hsame; destruct (ackListening r); simpl; try done; by destruct (_ && _).
  - case_bool_decide; by apply Hsame.
  - destruct (phase r) as [| | |id| | |]; try (by apply Hsame).
    unfold start_registered, start_listen, startHeartbeat, cleanupHeartbeat. simpl.
    destruct (ostr_truthy _), (heartbeatTimer r); simpl; try (destruct (ws r); [|done]);
      apply Hsame; unfold reported; simpl; by rewrite ?omap_app, ?app_nil_r.
  - case_bool_decide; [|by apply Hsame]. unfold start_claimed, start_listen. simpl. destruct (ws r); [|done].
    apply Hsame; unfold reported; simpl; [|done]. rewrite omap_app. destruct res; by rewrite app_nil_r.
  - destruct (heartbeatTimer r); apply Hsame; unfold heartbeat; try done; destruct (keypair r); try done;
      by destruct (_ && _).
  - destruct (waiting r !! i) as [w|] eqn:Hi; [|by apply Hsame]. intros Hf.
    destruct (finishJob_jobs _ _ _ _ _ _ _ _ _ Hf) as [-> ->].
    { apply H3. intros Hp. destruct (H4 Hp) as (_ & _ & _ & Hl). by rewrite Hl in Hi. }
    unfold reported, awaited. simpl. rewrite <- app_assoc. apply Permutation_app_head.
    symmetry. exact (Permutation_map (λ w, (wj_id w, LLM_INFER)) (delete_Permutation (waiting r) i w Hi)).
  - case_bool_decide; [|by apply Hsame]. unfold onClose, cleanupHeartbeat. simpl.
    destruct (attached r), (heartbeatTimer r); apply Hsame; unfold reported; simpl; by rewrite ?omap_app, ?app_nil_r.
  - destruct (attached r); apply Hsame; unfold reported; simpl; by rewrite ?omap_app, ?app_nil_r.
  - apply Hsame; unfold stop, cleanupHeartbeat, reported, awaited;
      destruct (heartbeatTimer r), (ws r) eqn:Hw, (socket r) eqn:Hs; simpl; rewrite ?Hw, ?Hs; simpl;
      by rewrite ?omap_app, ?app_nil_r.
Qed.

Lemma run_rt_jobs es r r' :
  control_inv r → run_rt sha256_hex cfg es r = Ok r' →
  (reported r' ++ awaited r' ≡ₚ assigned_jobs es r ++ reported r ++ awaited r)%list.
Proof.
  revert r. induction es as [|e es IH]; intros r Hc; simpl; [by intros [= <-]|].
  destruct (exec_rt sha256_hex cfg e r) as [r1|] eqn:He; [|done]. simpl. intros Hr.
  rewrite (IH r1 (exec_rt_control _ _ _ Hc He) Hr), (exec_rt_jobs e r r1 Hc He).
  rewrite !app_assoc. do 2 apply Permutation_app_tail. apply Permutation_app_comm.
Qed.

Lemma run_rt_inv es r r' :
  control_inv r → account_inv r → run_rt sha256_hex cfg es r = Ok r' → control_inv r' ∧ account_inv r'.
Proof.
  revert r. induction es as [|e es IH]; intros r Hc Ha; simpl; [by intros [= <-]|].
  destruct (exec_rt sha256_hex cfg e r) as [r1|] eqn:He; [|done]. simpl.
  apply IH; [by eapply exec_rt_control | by eapply exec_rt_account].
Qed.

Lemma init_inv : control_inv init ∧ account_inv init.
Proof. split; by constructor. Qed.

Lemma reachable_inv es r : run_rt sha256_hex cfg es init = Ok r → control_inv r ∧ account_inv r.
Proof. destruct init_inv. by apply run_rt_inv. Qed.


(** Assignments need a listener.  Between the acknowledgement of its
    registration and the end of [start], which spans the claim of a trust
    pairing, the worker is registered with the coordinator but every message
    that arrives is lost and leaves it unchanged; from then on an assigned task
    is executed and its completion sent in the same turn. *)
Theorem assignments_before_listening_are_lost es r m now iso :
  run_rt sha256_hex cfg es init = Ok r → socket r = OPEN →
  match phase r with
  | Acked _ | Claiming => exec_rt sha256_hex cfg (RMessage m now iso) r = Ok r
  | _ => True
  end ∧
  (attached r = true → ∀ jobId p, m = InAssign jobId TASK p →
    ∃ sk r', keypair r = Some sk ∧ exec_rt sha256_hex cfg (RMessage m now iso) r = Ok r' ∧
      sent r' = (sent r ++ [MsgJobComplete (cli_complete sha256_hex jobId
                   (cli_job_output TASK p jobId (rc_ollamaUrl cfg) (OllamaFails "")).1 sk iso)])%list).
Proof.
  intros [Hc _]%reachable_inv Ho. pose proof Hc as [H1 H2 H3 _]. cbn [exec_rt]. rewrite bool_decide_true by done.
  assert (∀ p, phase r = p → p ≠ Running → p ≠ Registering → deliver sha256_hex cfg m now iso r = Ok r) as Hlost.
  { intros p Hp Hr Hg. rewrite deliver_unattached.
    - destruct (ackListening r); [|done]. specialize (H2 eq_refl). congruence.
    - destruct (attached r); [|done]. destruct (H1 eq_refl). congruence. }
  split.
  - destruct (phase r) eqn:Hp; try done; by apply (Hlost _ eq_refl).
  - intros Ha jobId p ->. destruct (H1 Ha) as [Hp Hw]. destruct (H3 ltac:(congruence)) as [sk Hk].
    rewrite deliver_attached by done. unfold handleMessage, handleJob. rewrite Hk, Hw.
    destruct (cli_job_output _ _ _ _ _) as [o f] eqn:E. unfold finishJob. simpl. rewrite Hk, Hw, bool_decide_true by done.
    exists sk. destruct (p_prompt p); eexists; split_and!; reflexivity.
Qed.

(** After [stop] of a running worker. *)
Definition stopped r : Prop :=
  phase r = Running ∧ ws r = false ∧ attached r = false ∧ ackListening r = false ∧ heartbeatTimer r = false ∧
  is_Some (keypair r) ∧ status (stats r) = WDisconnected.

Lemma stopped_exec e r r' : stopped r → exec_rt sha256_hex cfg e r = Ok r' → stopped r' ∧ sent r' = sent r.
Proof.
  intros (Hp & Hw & Ha & Hl & Hh & [sk Hk] & Hs).
  assert (stopped r) as Hr by (unfold stopped; eauto 10).
  destruct e as [sk' now| |err| |m now iso| |now|res| |i reply now iso|now|err|now]; simpl;
    rewrite ?Hp, ?Hh, ?Ha; try (by intros [= <-]);
    try (rewrite bool_decide_false by done; by intros [= <-]).
  - case_bool_decide; [|by intros [= <-]]. rewrite deliver_unattached by done. rewrite Hl. by intros [= <-].
  - destruct (waiting r !! i) as [w|]; [|by intros [= <-]]. unfold finishJob. simpl. by rewrite Hk, Hw.
  - case_bool_decide; intros [= <-]; [|done]. unfold onClose. simpl. rewrite Ha. split; [|done].
    unfold stopped. simpl. eauto 10.
  - intros [= <-]. unfold stop, cleanupHeartbeat. rewrite Hh, Hw. split; [|done].
    unfold stopped. simpl. eauto 10.
Qed.

Lemma stop_running now r : control_inv r → phase r = Running → stopped (stop now r) ∧ sent (stop now r) = sent r.
Proof.
  intros [H1 H2 H3 _] Hp. assert (ackListening r = false) as Hl.
  { destruct (ackListening r); [|done]. specialize (H2 eq_refl). congruence. }
  unfold stop, cleanupHeartbeat, stopped.
  destruct (heartbeatTimer r) eqn:Hh, (ws r) eqn:Hw, (attached r) eqn:Ha, (socket r) eqn:Hs; simpl;
    rewrite ?Hw, ?Hs; simpl; try (by destruct (H1 eq_refl));
    (split; [|done]); split_and!; try done; apply H3; congruence.
Qed.

Lemma run_rt_cons e es r r1 :
  exec_rt sha256_hex cfg e r = Ok r1 → run_rt sha256_hex cfg (e :: es) r = run_rt sha256_hex cfg es r1.
Proof. intros He. cbn [run_rt]. by rewrite He. Qed.

(** From a connecting worker, whether stopped or not, the rest of [start]. *)
Lemma connecting_registers t id err iso r sk :
  phase r = Connecting → attached r = false → keypair r = Some sk → str_truthy id = true →
  ostr_truthy (rc_trustPairingCode cfg) = false → ∃ r',
  run_rt sha256_hex cfg [ROpen; RMessage (InAck true (Some id) err) t iso; RResume t] r = Ok r' ∧
  status (stats r') = WRegistered ∧ heartbeatTimer r' = true ∧ attached r' = true.
Proof.
  intros Hp Ha Hk Hid Htr. cbn [run_rt exec_rt]. rewrite Hp. cbn [obind].
  assert (phase (start_connected cfg r) = Registering ∧ attached (start_connected cfg r) = false ∧
    ackListening (start_connected cfg r) = true ∧ socket (start_connected cfg r) = OPEN ∧
    ws (start_connected cfg r) = true) as (Hp1 & Ha1 & Hl1 & Ho1 & Hw1).
  { unfold start_connected. simpl. by rewrite Hk. }
  generalize dependent (start_connected cfg r). clear Hp Ha Hk r. intros r Hp Ha Hl Ho Hw.
  rewrite bool_decide_true by done. rewrite deliver_unattached by done. rewrite Hl. cbn [onAck andb obind].
  rewrite Hid. cbn [phase set_phase]. unfold start_registered. rewrite Htr.
  unfold startHeartbeat, cleanupHeartbeat, start_listen. simpl.
  destruct (heartbeatTimer r); simpl; rewrite Hw; eexists; split; reflexivity || done.
Qed.

(** [stop].  Once [start] has returned, stopping the worker is final:
    whatever follows, it stays disconnected and sends nothing more.  Stopping
    it while it is still connecting has no effect: when the socket opens and
    the coordinator acknowledges, the worker is registered, its heartbeats run
    and it listens for jobs. *)
Theorem stop_is_final_once_started :
  (∀ es r now es' r', run_rt sha256_hex cfg es init = Ok r → phase r = Running →
     run_rt sha256_hex cfg es' (stop now r) = Ok r' →
     status (stats r') = WDisconnected ∧ heartbeatTimer r' = false ∧ sent r' = sent r) ∧
  (∀ sk t id err iso, str_truthy id = true → ostr_truthy (rc_trustPairingCode cfg) = false → ∃ r,
     run_rt sha256_hex cfg [RStart sk t; RStop t; ROpen; RMessage (InAck true (Some id) err) t iso; RResume t] init = Ok r ∧
     status (stats r) = WRegistered ∧ heartbeatTimer r = true ∧ attached r = true).
Proof.
  split.
  - intros es r now es' r' [Hc _]%reachable_inv Hp.
    destruct (stop_running now r Hc Hp) as [Hst <-]. generalize dependent (stop now r). clear.
    induction es' as [|e es' IH]; intros r Hst; simpl.
    + intros [= <-]. by destruct Hst as (_ & _ & _ & _ & ? & _ & ?).
    + destruct (exec_rt sha256_hex cfg e r) as [r1|] eqn:He; [|done]. simpl.
      destruct (stopped_exec e r r1 Hst He) as [H1 <-]. by apply IH.
  - intros sk t id err iso Hid Htr.
    rewrite (run_rt_cons _ _ _ (start_begin sk t init)) by (cbn [exec_rt]; by rewrite bool_decide_true by done).
    rewrite (run_rt_cons _ _ _ (stop t (start_begin sk t init))) by reflexivity.
    exact (connecting_registers t id err iso (stop t (start_begin sk t init)) sk eq_refl eq_refl eq_refl Hid Htr).
Qed.
End Facts.

(** ** Instances *)

Definition sc_runtime_cfg : RuntimeConfig :=
  {| rc_capabilities := [LLM_INFER; TASK]; rc_ollamaUrl := None; rc_trustPairingCode := Some "code" |}.

Definition sc_claiming : list RtEvent :=
  [RStart (sc_secret "key") 1000; ROpen; RMessage (InAck true (Some "w1") None) 1010 ""; RResume 1010].

Definition sc_working : list RtEvent :=
  (sc_claiming ++ [RClaimed (inr "alice"); RMessage (InAssign "j1" TASK summarize_payload) 2000 "t"])%list.

Definition question_payload : JobPayload :=
  {| p_prompt := Some "why?"; p_max_tokens := None; p_task_type := None; p_input := None |}.

Definition sc_two_jobs : list RtEvent :=
  (sc_working ++ [RMessage (InAssign "j2" LLM_INFER question_payload) 2100 "t"])%list.


(** The coordinator assigns a job while the worker claims its pairing. *)
Lemma assignments_before_listening_are_lost_witness :
  ∃ r, run_rt toy_sha256 sc_runtime_cfg sc_claiming init = Ok r ∧
    exec_rt toy_sha256 sc_runtime_cfg (RMessage (InAssign "j1" TASK summarize_payload) 1020 "t") r = Ok r.
Proof.
  destruct (run_rt toy_sha256 sc_runtime_cfg sc_claiming init) as [r|e] eqn:E; [|vm_compute in E; discriminate E].
  exists r. split; [reflexivity|].
  pose proof (assignments_before_listening_are_lost toy_sha256 sc_runtime_cfg sc_claiming r
    (InAssign "j1" TASK summarize_payload) 1020 "t" E) as H.
  vm_compute in E. injection E as <-. apply (H eq_refl).
Defined.
