(* ===== verification/MobileWs.v ===== *)
(** * The phone's connection to a coordinator

    [WebSocketService] of mobile/seeker-solana/src/services, as a state machine,
    and the counters that contexts/WalletProvider.tsx derives from its events.
    An event is a user action, a socket callback, a timer or a settled promise;
    [connect] is cut at the await of the keys and a job at the await of its
    signature.  Every socket and every timer ever created is kept, since the
    service can lose track of one that is still active. *)

From stdpp Require Import base list gmap strings option relations.
From Stdlib Require Import ZArith Lia.
From S2P Require Import Prelude Js Json Protocol Interfaces Executors Scenario Workers.
Local Open Scope string_scope.

(** ** State *)

Inductive ConnectionStatus := Disconnected | Connecting | Connected | Reconnecting.
#[global] Instance ConnectionStatus_eq_dec : EqDecision ConnectionStatus.
Proof. solve_decision. Defined.

Inductive SockState := SConnecting | SOpen | SClosing | SClosed.
#[global] Instance SockState_eq_dec : EqDecision SockState.
Proof. solve_decision. Defined.

(** A socket and whether its four callbacks are set. *)
Record MSock := mkSock { ms_state : SockState; ms_handlers : bool }.

Record CompletedJob := mkJob {
  c_jobId : string; c_taskType : string; c_prompt : option string; c_durationMs : Z;
  c_success : bool; c_error : option string;
  c_feedbackTx : option string; c_paymentTx : option string; c_paymentAmount : option string;
  c_feedbackFailed : option bool; c_paymentFailed : option bool }.

Inductive MEmit :=
  | MStatus (s : ConnectionStatus)
  | MJobCompleted (j : CompletedJob)
  | MJobReceived (jobId : string)
  | MError (e : string)
  | MRegistered (workerId : string)
  | MEarnings (total : jsnum)
  | MFeedbackPosted (jobId tx : string)
  | MPaymentPosted (jobIds : list string) (tx : string).

(** The messages of the coordinator, as far as they are looked at. *)
Inductive MIn :=
  | MiAck (ok : bool) (worker_id error : option string)
  | MiAssign (jobId : string) (jobType : JobType) (p : JobPayload)
  | MiError (code message : string)
  | MiFeedbackPosted (job_id tx_hash : string)
  | MiPaymentPosted (job_ids : list string) (tx_hash amount : string) (token : option string)
  | MiFeedbackFailed (job_id : string)
  | MiPaymentFailed (job_ids : list string)
  | MiOther.        (* heartbeat_ack, unknown types, texts that do not parse *)

Section Service.
  Context `{!Ed25519} (sha256_hex : string → string).

Record MKeys := { mk_pubkeyHex : string; mk_secret : option secret_key }.

(** A job whose signature is awaited. *)
Record SignJob := {
  sj_id : string; sj_taskType : string; sj_prompt : option string; sj_output : json; sj_duration : Z;
  sj_provider : option SigningProvider; sj_keys : MKeys }.

Record Conn := mkConn {
  socks : list MSock; cur : option nat;          (* this.ws *)
  keys : option MKeys; workerId : option string;
  heartbeat : bool;
  armed : list (nat * Z); timers : nat;          (* armed timeouts, how many were created *)
  reconnectTimeout : option nat; reconnectAttempts : nat;
  status : ConnectionStatus; shouldReconnect : bool;
  awaitingKeys : nat }.

Record Service := mkService {
  conn : Conn; provider : option SigningProvider; signing : list SignJob;
  jobHistory : list CompletedJob; totalEarnings : jsnum;
  sent : list (nat * WorkerToCoordinator);       (* with the socket, oldest first *)
  log : list MEmit }.

Definition init : Service :=
  mkService (mkConn [] None None None false [] 0 None 0 Disconnected false 0) None [] [] (num_of_Z 0) [] [].

(** ** Field updates *)

Definition on_conn f m := mkService (f (conn m)) (provider m) (signing m) (jobHistory m) (totalEarnings m) (sent m) (log m).
Definition on_signing f m := mkService (conn m) (provider m) (f (signing m)) (jobHistory m) (totalEarnings m) (sent m) (log m).
Definition on_history f m := mkService (conn m) (provider m) (signing m) (f (jobHistory m)) (totalEarnings m) (sent m) (log m).
Definition on_earnings f m := mkService (conn m) (provider m) (signing m) (jobHistory m) (f (totalEarnings m)) (sent m) (log m).
Definition push_sent x m := mkService (conn m) (provider m) (signing m) (jobHistory m) (totalEarnings m) (sent m ++ [x])%list (log m).
Definition emit e m := mkService (conn m) (provider m) (signing m) (jobHistory m) (totalEarnings m) (sent m) (log m ++ [e])%list.

Definition c_socks f c := mkConn (f (socks c)) (cur c) (keys c) (workerId c) (heartbeat c) (armed c) (timers c)
  (reconnectTimeout c) (reconnectAttempts c) (status c) (shouldReconnect c) (awaitingKeys c).
Definition c_cur x c := mkConn (socks c) x (keys c) (workerId c) (heartbeat c) (armed c) (timers c)
  (reconnectTimeout c) (reconnectAttempts c) (status c) (shouldReconnect c) (awaitingKeys c).
Definition c_keys x c := mkConn (socks c) (cur c) x (workerId c) (heartbeat c) (armed c) (timers c)
  (reconnectTimeout c) (reconnectAttempts c) (status c) (shouldReconnect c) (awaitingKeys c).
Definition c_workerId x c := mkConn (socks c) (cur c) (keys c) x (heartbeat c) (armed c) (timers c)
  (reconnectTimeout c) (reconnectAttempts c) (status c) (shouldReconnect c) (awaitingKeys c).
Definition c_heartbeat x c := mkConn (socks c) (cur c) (keys c) (workerId c) x (armed c) (timers c)
  (reconnectTimeout c) (reconnectAttempts c) (status c) (shouldReconnect c) (awaitingKeys c).
Definition c_timers a n t c := mkConn (socks c) (cur c) (keys c) (workerId c) (heartbeat c) a n
  t (reconnectAttempts c) (status c) (shouldReconnect c) (awaitingKeys c).
Definition c_attempts n c := mkConn (socks c) (cur c) (keys c) (workerId c) (heartbeat c) (armed c) (timers c)
  (reconnectTimeout c) n (status c) (shouldReconnect c) (awaitingKeys c).
Definition c_status s c := mkConn (socks c) (cur c) (keys c) (workerId c) (heartbeat c) (armed c) (timers c)
  (reconnectTimeout c) (reconnectAttempts c) s (shouldReconnect c) (awaitingKeys c).
Definition c_should b c := mkConn (socks c) (cur c) (keys c) (workerId c) (heartbeat c) (armed c) (timers c)
  (reconnectTimeout c) (reconnectAttempts c) (status c) b (awaitingKeys c).
Definition c_awaiting n c := mkConn (socks c) (cur c) (keys c) (workerId c) (heartbeat c) (armed c) (timers c)
  (reconnectTimeout c) (reconnectAttempts c) (status c) (shouldReconnect c) n.

Definition sock_state s x := mkSock s (ms_handlers x).

(** ** Helpers *)

Definition setStatus s m :=
  if bool_decide (status (conn m) = s) then m else emit (MStatus s) (on_conn (c_status s) m).

Definition cur_open (c : Conn) : option nat :=
  i ← cur c; x ← socks c !! i; if bool_decide (ms_state x = SOpen) then Some i else None.

Definition send (msg : WorkerToCoordinator) m :=
  match cur_open (conn m) with Some i => push_sent (i, msg) m | None => m end.

Definition stopHeartbeat m := on_conn (c_heartbeat false) m.
Definition startHeartbeat m := on_conn (c_heartbeat true) (stopHeartbeat m).

Definition maxReconnectDelay : Z := 30000.
Definition reconnectDelay (attempts : nat) : Z := Z.min (1000 * 2 ^ Z.of_nat attempts) maxReconnectDelay.

Definition scheduleReconnect m :=
  let c := conn m in
  if shouldReconnect c then
    let delay := reconnectDelay (reconnectAttempts c) in
    on_conn (λ c, c_timers (armed c ++ [(timers c, delay)])%list (S (timers c)) (Some (timers c))
                    (c_attempts (S (reconnectAttempts c)) c)) m
  else m.

(** [ok]: the constructor of the socket does not throw. *)
Definition doConnect (ok : bool) m :=
  match keys (conn m) with
  | None => m
  | Some _ =>
      let m := setStatus Connecting m in
      if ok then on_conn (λ c, c_cur (Some (length (socks c))) (c_socks (λ l, l ++ [mkSock SConnecting true])%list c)) m
      else scheduleReconnect (emit (MError "WebSocket creation failed") m)
  end.

(** ** User actions *)

Definition connect m :=
  match status (conn m) with
  | Connected | Connecting => m
  | _ => on_conn (λ c, c_awaiting (S (awaitingKeys c)) (c_attempts 0 (c_should true c))) m
  end.

(** [connect] continues with the keys, or with what their loading threw. *)
Definition connect_keys (res : string + MKeys) (ok : bool) m :=
  let m := on_conn (λ c, c_awaiting (pred (awaitingKeys c)) c) m in
  match res with
  | inl e => emit (MError e) m
  | inr k => doConnect ok (on_conn (c_keys (Some k)) m)
  end.

Definition detach (x : MSock) : MSock :=
  mkSock (match ms_state x with SOpen | SConnecting => SClosing | s => s end) false.

Definition cleanup m :=
  let m := stopHeartbeat m in
  let m := on_conn (λ c, match reconnectTimeout c with
                         | Some t => c_timers (List.filter (λ e, negb (Nat.eqb e.1 t)) (armed c)) (timers c) None c
                         | None => c end) m in
  let m := on_conn (λ c, match cur c with
                         | Some i => c_cur None (c_socks (alter detach i) c)
                         | None => c end) m in
  on_conn (c_workerId None) m.

Definition disconnect m := setStatus Disconnected (cleanup (on_conn (c_should false) m)).

(** ** Callbacks *)

Definition createRegisterMsg (pubkey : string) (capabilities : list JobType) : WorkerToCoordinator :=
  MsgRegister {| reg_provider_pubkey := pubkey; reg_provider_type := SEEKER; reg_capabilities := capabilities |}.
Definition createHeartbeatMsg (pubkey : string) : WorkerToCoordinator := MsgHeartbeat pubkey.
Definition createJobRejectMsg (jobId reason : string) : WorkerToCoordinator :=
  MsgJobReject {| jr_job_id := jobId; jr_reason := reason |}.

Definition sendRegister m :=
  match keys (conn m), cur (conn m) with
  | Some k, Some _ => send (createRegisterMsg (mk_pubkeyHex k) [TASK]) m
  | _, _ => m
  end.

Definition onopen m := sendRegister (on_conn (c_attempts 0) m).

Definition onclose m :=
  let m := stopHeartbeat m in
  if shouldReconnect (conn m) then scheduleReconnect (setStatus Reconnecting m) else setStatus Disconnected m.

(** [this.ws?.close()] *)
Definition close_cur m :=
  on_conn (λ c, match cur c with
                | Some i => c_socks (alter (λ x, match ms_state x with
                                                 | SOpen | SConnecting => sock_state SClosing x | _ => x end) i) c
                | None => c end) m.

Definition handleRegisterAck (ok : bool) (id err : option string) m :=
  match id with
  | Some i => if ok && str_truthy i
              then emit (MRegistered i) (startHeartbeat (setStatus Connected (on_conn (c_workerId (Some i)) m)))
              else close_cur (emit (MError ("Registration failed: " ++ default "unknown" err)) m)
  | None => close_cur (emit (MError ("Registration failed: " ++ default "unknown" err)) m)
  end.

(** [handleJobAssign] up to the await of the signature. *)
Definition handleJobAssign (jobId : string) (jobType : JobType) (p : JobPayload) (d : Z) m :=
  match keys (conn m) with
  | None => m
  | Some k =>
      let m := emit (MJobReceived jobId) m in
      let reject := send (createJobRejectMsg jobId "SEEKER worker does not support LLM_INFER jobs") m in
      match jobType, p_task_type p, p_input p with
      | TASK, Some t, Some i =>
          if str_truthy t && str_truthy i then
            on_signing (λ l, l ++ [{| sj_id := jobId; sj_taskType := t; sj_prompt := Some i;
                                      sj_output := mobile_executeTask t i; sj_duration := d;
                                      sj_provider := provider m; sj_keys := k |}])%list m
          else reject
      | _, _, _ => reject
      end
  end.

Definition sign_job (j : SignJob) (iso : string) : outcome JobCompleteMsg :=
  match sj_provider j with
  | Some p => buildJobCompleteWithProvider sha256_hex (sj_id j) (sj_output j) p iso
  | None => match mk_secret (sj_keys j) with
            | Some sk => Ok (buildJobCompleteWithReceipt sha256_hex (sj_id j) (sj_output j) (mk_pubkeyHex (sj_keys j)) sk iso)
            | None => Throw "bad secret key size"
            end
  end.

Definition TASK_PRICE_BOLT : jsnum := num_lit 1 1000.

(** [handleJobAssign] from the signature to its end. *)
Definition finishJob (j : SignJob) (iso : string) m :=
  let '(m, success, err) := match sign_job j iso with
                            | Ok c => (send (MsgJobComplete c) m, true, None)
                            | Throw e => (m, false, Some ("Receipt signing failed: " ++ e))
                            end in
  let job := mkJob (sj_id j) (sj_taskType j) (sj_prompt j) (sj_duration j) success err None None None None None in
  let m := on_history (λ l, take 50 (job :: l)) m in
  let m := if success : bool then
             let m := on_earnings (λ x, num_add x TASK_PRICE_BOLT) m in emit (MEarnings (totalEarnings m)) m
           else m in
  emit (MJobCompleted job) m.

(** [find] and the assignments to what it returns. *)
Fixpoint update_first (p : CompletedJob → bool) (f : CompletedJob → CompletedJob) (l : list CompletedJob) :=
  match l with
  | [] => []
  | j :: l => if p j then f j :: l else j :: update_first p f l
  end.

Definition has_id (i : string) (j : CompletedJob) : bool := String.eqb (c_jobId j) i.

Definition update_job (i : string) (f : CompletedJob → CompletedJob) m :=
  match List.find (has_id i) (jobHistory m) with
  | Some j => emit (MJobCompleted (f j)) (on_history (update_first (has_id i) f) m)
  | None => m
  end.

Definition set_feedback tx j := mkJob (c_jobId j) (c_taskType j) (c_prompt j) (c_durationMs j) (c_success j) (c_error j)
  (Some tx) (c_paymentTx j) (c_paymentAmount j) (Some false) (c_paymentFailed j).
Definition set_feedback_failed j := mkJob (c_jobId j) (c_taskType j) (c_prompt j) (c_durationMs j) (c_success j) (c_error j)
  (c_feedbackTx j) (c_paymentTx j) (c_paymentAmount j) (Some true) (c_paymentFailed j).
Definition set_payment tx amount j := mkJob (c_jobId j) (c_taskType j) (c_prompt j) (c_durationMs j) (c_success j) (c_error j)
  (c_feedbackTx j) (Some tx) (Some amount) (c_feedbackFailed j) (Some false).
Definition set_payment_failed j := mkJob (c_jobId j) (c_taskType j) (c_prompt j) (c_durationMs j) (c_success j) (c_error j)
  (c_feedbackTx j) (c_paymentTx j) (c_paymentAmount j) (c_feedbackFailed j) (Some true).

Definition handleFeedbackPosted (job_id tx : string) m :=
  match List.find (has_id job_id) (jobHistory m) with
  | Some _ => emit (MFeedbackPosted job_id tx) (update_job job_id (set_feedback tx) m)
  | None => m
  end.

Definition handlePaymentPosted (job_ids : list string) (tx amount : string) (token : option string) m :=
  let m := foldl (λ m i, update_job i (set_payment tx (amount ++ " " ++ default "BOLT" token)) m) m job_ids in
  emit (MPaymentPosted job_ids tx) m.

Definition handleFeedbackFailed (job_id : string) m := update_job job_id set_feedback_failed m.

Definition handlePaymentFailed (job_ids : list string) m :=
  foldl (λ m i, update_job i set_payment_failed m) m job_ids.

Definition handleMessage (msg : MIn) (d : Z) m :=
  match msg with
  | MiAck ok id err => handleRegisterAck ok id err m
  | MiAssign j t p => handleJobAssign j t p d m
  | MiError code text => emit (MError ("[" ++ code ++ "] " ++ text)) m
  | MiFeedbackPosted j tx => handleFeedbackPosted j tx m
  | MiPaymentPosted js tx a token => handlePaymentPosted js tx a token m
  | MiFeedbackFailed j => handleFeedbackFailed j m
  | MiPaymentFailed js => handlePaymentFailed js m
  | MiOther => m
  end.

(** ** Events *)

Inductive MEvent :=
  | EvConnect
  | EvKeys (res : string + MKeys) (ok : bool)
  | EvDisconnect
  | EvSetProvider (p : option SigningProvider)
  | EvOpen (i : nat)
  | EvMessage (i : nat) (msg : MIn) (d : Z)
  | EvSockError (i : nat)
  | EvClose (i : nat)
  | EvTimer (t : nat) (ok : bool)
  | EvHeartbeat
  | EvSigned (k : nat) (iso : string).

Definition set_sock i s m := on_conn (c_socks (alter (sock_state s) i)) m.

Definition exec_m (e : MEvent) m : Service :=
  match e with
  | EvConnect => connect m
  | EvKeys res ok => if decide (awaitingKeys (conn m) = 0%nat) then m else connect_keys res ok m
  | EvDisconnect => disconnect m
  | EvSetProvider p => mkService (conn m) p (signing m) (jobHistory m) (totalEarnings m) (sent m) (log m)
  | EvOpen i =>
      match socks (conn m) !! i with
      | Some (mkSock SConnecting h) => let m := set_sock i SOpen m in if h then onopen m else m
      | _ => m
      end
  | EvMessage i msg d =>
      match socks (conn m) !! i with
      | Some (mkSock SOpen true) => handleMessage msg d m
      | _ => m
      end
  | EvSockError i =>
      match socks (conn m) !! i with
      | Some (mkSock _ true) => emit (MError "WebSocket connection error") m
      | _ => m
      end
  | EvClose i =>
      match socks (conn m) !! i with
      | Some (mkSock SClosed _) | None => m
      | Some (mkSock _ h) => let m := set_sock i SClosed m in if h then onclose m else m
      end
  | EvTimer t ok =>
      if existsb (λ e, Nat.eqb e.1 t) (armed (conn m)) then
        let m := on_conn (λ c, c_timers (List.filter (λ e, negb (Nat.eqb e.1 t)) (armed c)) (timers c) (reconnectTimeout c) c) m in
        if shouldReconnect (conn m) then doConnect ok m else m
      else m
  | EvHeartbeat =>
      if heartbeat (conn m) then
        match keys (conn m), cur_open (conn m) with
        | Some k, Some _ => send (createHeartbeatMsg (mk_pubkeyHex k)) m
        | _, _ => m
        end
      else m
  | EvSigned k iso =>
      match signing m !! k with
      | Some j => finishJob j iso (on_signing (delete k) m)
      | None => m
      end
  end.

Definition run_m (es : list MEvent) m : Service := foldl (λ m e, exec_m e m) m es.
End Service.

(** ** What the app shows (contexts/WalletProvider.tsx) *)

(** The counters of the context; the history as the identifiers of its entries. *)
Record Ui := mkUi { ui_jobsCompleted : Z; ui_jobHistory : list string; ui_totalEarnings : jsnum }.

Definition ui_step (e : MEmit) (u : Ui) : Ui :=
  match e with
  | MJobCompleted j =>
      mkUi (if c_success j then ui_jobsCompleted u + 1 else ui_jobsCompleted u)
        (take 50 (c_jobId j :: ui_jobHistory u)) (ui_totalEarnings u)
  | MEarnings x => mkUi (ui_jobsCompleted u) (ui_jobHistory u) x
  | _ => u
  end.

Definition ui_of (l : list MEmit) : Ui := foldl (λ u e, ui_step e u) (mkUi 0 [] (num_of_Z 0)) l.

(** ** Connections *)

Section Connections.
  Context `{!Ed25519} (sha256_hex : string → string).
  Implicit Types (m : Service) (c : Conn).

(** A socket that can still call the service. *)
Definition live c (i : nat) : Prop :=
  ∃ x, socks c !! i = Some x ∧ ms_handlers x = true ∧ ms_state x ≠ SClosed.

(** [connect] and [disconnect] are called one after the other: not while a
    call of [connect] awaits its keys, and [connect] not while a reconnection
    is scheduled. *)
Definition sequential (e : MEvent) m : bool :=
  match e with
  | EvConnect => bool_decide (awaitingKeys (conn m) = 0%nat) && bool_decide (armed (conn m) = [])
  | EvDisconnect => bool_decide (awaitingKeys (conn m) = 0%nat)
  | _ => true
  end.

Fixpoint sequential_run (es : list MEvent) m : bool :=
  match es with
  | [] => true
  | e :: es => sequential e m && sequential_run es (exec_m sha256_hex e m)
  end.

Record conn_inv c : Prop := {
  ki_cur i : live c i → cur c = Some i;
  ki_armed : armed c = [] ∨ ∃ t d, armed c = [(t, d)] ∧ reconnectTimeout c = Some t;
  ki_excl i : live c i → armed c = [] ∧ awaitingKeys c = 0%nat;
  ki_keys : awaitingKeys c ≠ 0%nat → awaitingKeys c = 1%nat ∧ armed c = [];
  ki_status i : live c i → status c = Connecting ∨ status c = Connected }.

(** Steps that keep the sockets that are live. *)
Lemma conn_keep c c' :
  (∀ i, live c' i → live c i) → cur c' = cur c → armed c' = armed c → reconnectTimeout c' = reconnectTimeout c →
  awaitingKeys c' = awaitingKeys c → (status c' = status c ∨ status c' = Connected) → conn_inv c → conn_inv c'.
Proof.
  intros Hl E1 E2 E3 E4 E5 [H1 H2 H3 H4 H5]. constructor; rewrite ?E1, ?E2, ?E3, ?E4.
  - intros i Hi. by apply H1, Hl.
  - exact H2.
  - intros i Hi. by eapply H3, Hl.
  - exact H4.
  - intros i Hi%Hl%H5. destruct E5 as [-> | ->]; auto.
Qed.

Lemma conn_setStatus s m : conn (setStatus s m) = c_status s (conn m).
Proof.
  unfold setStatus. case_bool_decide as E; [|done]. rewrite <- E. by destruct (conn m).
Qed.

Lemma conn_send msg m : conn (send msg m) = conn m.
Proof. unfold send. by destruct (cur_open _). Qed.

Lemma live_alter c f i j :
  (∀ x, ms_handlers (f x) = true → ms_state (f x) ≠ SClosed → ms_handlers x = true ∧ ms_state x ≠ SClosed) →
  live (c_socks (alter f i) c) j → live c j.
Proof.
  intros Hf (x & Hx & Hh & Hs). simpl in Hx. destruct (decide (j = i)) as [->|Hne].
  - rewrite list_lookup_alter_eq in Hx. destruct (socks c !! i) as [y|] eqn:Hy; [|done].
    injection Hx as <-. destruct (Hf y Hh Hs). by exists y.
  - rewrite list_lookup_alter_ne in Hx by done. by exists x.
Qed.

(** Connecting, from a state where nothing is live or scheduled. *)
Lemma doConnect_inv ok m :
  (∀ i, ¬ live (conn m) i) → armed (conn m) = [] → awaitingKeys (conn m) = 0%nat → conn_inv (conn m) →
  conn_inv (conn (doConnect ok m)).
Proof.
  intros Hl Ha Hk Hinv. unfold doConnect. destruct (keys (conn m)); [|done].
  set (m1 := setStatus Connecting m).
  assert (conn m1 = c_status Connecting (conn m)) as E by apply conn_setStatus.
  destruct ok; simpl.
  - rewrite E. simpl. constructor; simpl; rewrite ?Ha, ?Hk; auto; [|done].
    intros i (x & Hx & Hh & Hs). simpl in Hx. apply lookup_app_Some in Hx as [Hx|[Hge Hx]].
    + destruct (Hl i). by exists x.
    + simpl in Hx. apply list_lookup_singleton_Some in Hx as [Hi _]. f_equal. lia.
  - unfold scheduleReconnect. simpl. rewrite E. simpl. destruct (shouldReconnect (conn m)); simpl; rewrite ?E.
    + constructor; simpl; rewrite ?Ha, ?Hk; try (intros i Hi; by destruct (Hl i)); [right; eauto | done].
    + constructor; simpl; rewrite ?Ha, ?Hk; try (intros i Hi; by destruct (Hl i)); [by left | done].
Qed.

Lemma conn_update_job i f m : conn (update_job i f m) = conn m.
Proof. unfold update_job. by destruct (List.find _ _). Qed.

Lemma conn_foldl_update (f : string → CompletedJob → CompletedJob) l m :
  conn (foldl (λ m i, update_job i (f i) m) m l) = conn m.
Proof. revert m. induction l as [|i l IH]; intros m; simpl; [done|]. by rewrite IH, conn_update_job. Qed.

Lemma handleMessage_inv msg d m : conn_inv (conn m) → conn_inv (conn (handleMessage msg d m)).
Proof.
  intros Hinv.
  assert (∀ e, conn_inv (conn (close_cur (emit (MError e) m)))) as Hclose.
  { intros e. unfold close_cur. simpl. destruct (cur (conn m)) as [i|] eqn:Hc; [|done].
    apply (conn_keep (conn m)); auto. intros j. apply live_alter. intros [[] h]; simpl; auto. }
  destruct msg as [ok [id|] err|j t p|code text|j tx|js tx a tok|j|js|];
    cbn [handleMessage]; auto.
  - unfold handleRegisterAck. destruct (_ && _); [|apply Hclose]. simpl. rewrite conn_setStatus. simpl.
    apply (conn_keep (conn m)); auto.
  - apply Hclose.
  - unfold handleJobAssign. destruct (keys (conn m)); [|done].
    destruct t, (p_task_type p), (p_input p); try destruct (_ && _); try done; by rewrite conn_send.
  - unfold handleFeedbackPosted. destruct (List.find _ _); [|done]. simpl. by rewrite conn_update_job.
  - unfold handlePaymentPosted. simpl. by rewrite (conn_foldl_update (λ _, set_payment tx _)).
  - unfold handleFeedbackFailed. by rewrite conn_update_job.
  - unfold handlePaymentFailed. by rewrite (conn_foldl_update (λ _, set_payment_failed)).
Qed.

Lemma conn_finishJob j iso m : conn (finishJob sha256_hex j iso m) = conn m.
Proof. unfold finishJob. destruct (sign_job _ _ _); simpl; [apply conn_send | done]. Qed.

Lemma cleanup_quiet m : conn_inv (conn m) →
  let c := conn (disconnect m) in
  (∀ i, ¬ live c i) ∧ armed c = [] ∧ cur c = None ∧ heartbeat c = false ∧ shouldReconnect c = false ∧
  status c = Disconnected ∧ awaitingKeys c = awaitingKeys (conn m).
Proof.
  intros [H1 H2 H3 H4 H5]. unfold disconnect. cbv zeta. rewrite conn_setStatus. simpl.
  assert (∀ l t d, l = [(t, d)] → List.filter (λ e : nat * Z, negb (Nat.eqb e.1 t)) l = []) as Hf.
  { intros l t d ->. simpl. by rewrite Nat.eqb_refl. }
  destruct H2 as [Ha|(t & d & Ha & Ht)].
  - destruct (reconnectTimeout (conn m)); simpl; rewrite ?Ha; destruct (cur (conn m)) as [k|] eqn:Hc; simpl;
      rewrite ?Ha; split_and!; try done; intros i Hi.
    all: destruct Hi as (x & Hx & Hh & Hs); simpl in Hx.
    all: try (specialize (H1 i (ex_intro _ x (conj Hx (conj Hh Hs)))); congruence).
    all: destruct (decide (i = k)) as [->|Hne];
      [rewrite list_lookup_alter_eq in Hx; destruct (socks (conn m) !! k); [injection Hx as <-; done | done]
      |rewrite list_lookup_alter_ne in Hx by done;
       specialize (H1 i (ex_intro _ x (conj Hx (conj Hh Hs)))); congruence].
  - rewrite Ht. simpl. assert (∀ i, ¬ live (conn m) i) as Hn.
    { intros i Hi. destruct (H3 i Hi). congruence. }
    destruct (cur (conn m)) as [k|] eqn:Hc; simpl; rewrite (Hf _ _ _ Ha); split_and!; try done.
    intros i Hi. apply (Hn i). eapply (live_alter _ detach k). 2: exact Hi. by intros [[] h].
Qed.

Lemma onclose_inv m :
  (∀ i, ¬ live (conn m) i) → armed (conn m) = [] → awaitingKeys (conn m) = 0%nat → conn_inv (conn (onclose m)).
Proof.
  intros Hn Ha Hk. unfold onclose. simpl. destruct (shouldReconnect (conn m)) eqn:Hsh.
  - unfold scheduleReconnect. rewrite conn_setStatus. simpl. rewrite Hsh. simpl. rewrite conn_setStatus. simpl.
    constructor; simpl; rewrite ?Ha, ?Hk; try (intros j Hj; by destruct (Hn j)); [right; eauto | done].
  - rewrite conn_setStatus. simpl.
    constructor; simpl; rewrite ?Ha, ?Hk; try (intros j Hj; by destruct (Hn j)); [by left | done].
Qed.

Lemma exec_conn_inv e m :
  sequential e m = true → conn_inv (conn m) → conn_inv (conn (exec_m sha256_hex e m)).
Proof.
  intros Hseq Hinv. pose proof Hinv as [H1 H2 H3 H4 H5].
  destruct e as [|res ok| |p|i|i msg d|i|i|t ok| |k iso]; cbn [exec_m].
  - apply andb_prop in Hseq as [Hk%bool_decide_eq_true Ha%bool_decide_eq_true].
    unfold connect. destruct (status (conn m)) eqn:Hs; try done;
      (constructor; simpl; rewrite ?Ha, ?Hk; auto;
       intros i Hi; destruct (H5 i Hi); congruence).
  - destruct (decide (awaitingKeys (conn m) = 0%nat)) as [|Hk]; [done|].
    destruct (H4 Hk) as [Hk1 Ha]. assert (∀ i, ¬ live (conn m) i) as Hn.
    { intros i Hi. by destruct (H3 i Hi). }
    unfold connect_keys. destruct res as [e|k].
    + constructor; simpl; rewrite ?Ha, ?Hk1; try (intros i Hi; by destruct (Hn i)); [by left | done].
    + apply doConnect_inv; simpl; rewrite ?Hk1; done.
  - apply bool_decide_eq_true in Hseq. destruct (cleanup_quiet m Hinv) as (Hn & Ha & _ & _ & _ & _ & Hk).
    rewrite Hseq in Hk. constructor; try (intros i Hi; by destruct (Hn i)); [by left | congruence].
  - done.
  - destruct (socks (conn m) !! i) as [[[] h]|] eqn:Hi; try done.
    assert (conn_inv (conn (set_sock i SOpen m))) as Ho.
    { apply (conn_keep (conn m)); auto. intros j (x & Hx & Hh & Hs). simpl in Hx. destruct (decide (j = i)) as [->|Hne].
      - rewrite list_lookup_alter_eq, Hi in Hx. injection Hx as <-. eexists. by split.
      - rewrite list_lookup_alter_ne in Hx by done. by exists x. }
    destruct h; [|done]. unfold onopen, sendRegister. simpl.
    destruct (keys (conn m)); [destruct (cur (conn m)) eqn:Hc; [rewrite conn_send|]|];
      by apply (conn_keep (conn (set_sock i SOpen m))); auto.
  - destruct (socks (conn m) !! i) as [[[] []]|] eqn:Hi; try done. by apply handleMessage_inv.
  - by destruct (socks (conn m) !! i) as [[? []]|].
  - destruct (socks (conn m) !! i) as [[st h]|] eqn:Hi; [|done].
    assert (∀ j, live (conn (set_sock i SClosed m)) j → live (conn m) j ∧ j ≠ i) as Hl.
    { intros j (x & Hx & Hh & Hs). simpl in Hx. destruct (decide (j = i)) as [->|Hne].
      - rewrite list_lookup_alter_eq, Hi in Hx. injection Hx as <-. done.
      - rewrite list_lookup_alter_ne in Hx by done. split; [by exists x | done]. }
    assert (conn_inv (conn (set_sock i SClosed m))) as Hc.
    { apply (conn_keep (conn m)); auto. intros j Hj. by apply Hl. }
    assert (st ≠ SClosed → h = true → conn_inv (conn (onclose (set_sock i SClosed m)))) as Hon.
    { intros Hst ->. assert (live (conn m) i) as Hli by (by exists (mkSock st true)).
      destruct (H3 i Hli) as [Ha Hk]. apply onclose_inv; [|done|done].
      intros j [Hj Hne]%Hl. pose proof (H1 j Hj). pose proof (H1 i Hli). congruence. }
    destruct st; try done; (destruct h; [by apply Hon | done]).
  - destruct (existsb _ (armed (conn m))) eqn:Hex; [|done].
    destruct H2 as [Ha|(t' & d & Ha & Ht)]; [by rewrite Ha in Hex|].
    assert (t' = t) as ->.
    { rewrite Ha in Hex. simpl in Hex. by destruct (Nat.eqb_spec t' t). }
    assert (∀ i, ¬ live (conn m) i) as Hn by (intros i Hi; destruct (H3 i Hi); congruence).
    assert (awaitingKeys (conn m) = 0%nat) as Hk.
    { destruct (decide (awaitingKeys (conn m) = 0%nat)) as [|Hk]; [done|]. destruct (H4 Hk). congruence. }
    set (m1 := on_conn _ m).
    assert (conn m1 = c_timers [] (timers (conn m)) (reconnectTimeout (conn m)) (conn m)) as E.
    { simpl. rewrite Ha. simpl. by rewrite Nat.eqb_refl. }
    assert (conn_inv (conn m1)) as Hc.
    { rewrite E. constructor; simpl; rewrite ?Hk; try (intros i Hi; by destruct (Hn i)); [by left | done]. }
    destruct (shouldReconnect (conn m1)); [|done]. apply doConnect_inv; [|by rewrite E|by rewrite E|done].
    intros i. rewrite E. apply Hn.
  - destruct (heartbeat (conn m)); [|done]. destruct (keys (conn m)); [|done].
    destruct (cur_open (conn m)); [|done]. by rewrite conn_send.
  - destruct (signing m !! k); [|done]. by rewrite conn_finishJob.
Qed.

Lemma run_conn_inv es m :
  sequential_run es m = true → conn_inv (conn m) → conn_inv (conn (run_m sha256_hex es m)).
Proof.
  revert m. induction es as [|e es IH]; intros m; simpl; [done|].
  intros [Hs Hr]%andb_prop Hinv. apply IH; [done|]. by apply exec_conn_inv.
Qed.

Lemma init_conn_inv : conn_inv (conn init).
Proof. constructor; simpl; [intros i (x & Hx & _); done | by left | intros i (x & Hx & _); done | done | intros i (x & Hx & _); done]. Qed.

(** Nothing can call the service, and no call waits. *)
Definition quiet m : Prop :=
  (∀ i, ¬ live (conn m) i) ∧ armed (conn m) = [] ∧ cur (conn m) = None ∧ heartbeat (conn m) = false ∧
  awaitingKeys (conn m) = 0%nat ∧ status (conn m) = Disconnected.

Definition is_connect (e : MEvent) : bool := match e with EvConnect => true | _ => false end.

Lemma quiet_cur_open m : quiet m → cur_open (conn m) = None.
Proof. intros (_ & _ & Hc & _). unfold cur_open. by rewrite Hc. Qed.

Lemma quiet_send msg m : quiet m → send msg m = m.
Proof. intros Hq. unfold send. by rewrite quiet_cur_open. Qed.

Lemma quiet_exec e m : is_connect e = false → quiet m →
  quiet (exec_m sha256_hex e m) ∧ sent (exec_m sha256_hex e m) = sent m.
Proof.
  intros He Hq. pose proof Hq as (Hn & Ha & Hc & Hh & Hk & Hs).
  destruct e as [|res ok| |p|i|i msg d|i|i|t ok| |k iso]; cbn [exec_m]; try done.
  - by rewrite decide_True.
  - assert (conn_inv (conn m)) as Hinv by (constructor; rewrite ?Ha, ?Hk; try (intros i Hi; by destruct (Hn i)); [by left | done]).
    destruct (cleanup_quiet m Hinv) as (? & ? & ? & ? & _ & ? & Hk').
    split; [unfold quiet; rewrite Hk'; auto 10|]. unfold disconnect, setStatus. by case_bool_decide.
  - destruct (socks (conn m) !! i) as [[[] h]|] eqn:Hi; try done.
    destruct h; [destruct (Hn i); by eexists|]. split; [|done]. unfold quiet. simpl. split_and!; try done.
    intros j (x & Hx & Hx1 & Hx2). simpl in Hx. destruct (decide (j = i)) as [->|Hne].
    + rewrite list_lookup_alter_eq, Hi in Hx. injection Hx as <-. done.
    + rewrite list_lookup_alter_ne in Hx by done. apply (Hn j). by exists x.
  - destruct (socks (conn m) !! i) as [[[] []]|] eqn:Hi; try done. destruct (Hn i). by eexists.
  - by destruct (socks (conn m) !! i) as [[? []]|].
  - destruct (socks (conn m) !! i) as [[st h]|] eqn:Hi; [|done].
    assert (h = true → st = SClosed) as Hcl.
    { intros ->. destruct (decide (st = SClosed)); [done|]. destruct (Hn i). by exists (mkSock st true). }
    assert (quiet (set_sock i SClosed m)) as Hq'.
    { unfold quiet. simpl. split_and!; try done. intros j. intros Hj%live_alter; [by apply (Hn j)|]. by intros [] ?. }
    destruct st, h; try (by specialize (Hcl eq_refl)); done.
  - by rewrite Ha.
  - by rewrite Hh.
  - destruct (signing m !! k) as [j|]; [|done].
    assert (conn (finishJob sha256_hex j iso (on_signing (delete k) m)) = conn m) as E by (by rewrite conn_finishJob).
    split; [unfold quiet; by rewrite E|]. unfold finishJob. destruct (sign_job _ _ _); simpl; [|done].
    by rewrite quiet_send.
Qed.

Lemma sequential_run_app es es' m :
  sequential_run (es ++ es')%list m = sequential_run es m && sequential_run es' (run_m sha256_hex es m).
Proof.
  revert m. induction es as [|e es IH]; intros m; simpl; [done|]. by rewrite IH, andb_assoc.
Qed.

Lemma quiet_run es m : forallb (λ e, negb (is_connect e)) es = true → quiet m →
  quiet (run_m sha256_hex es m) ∧ sent (run_m sha256_hex es m) = sent m.
Proof.
  revert m. induction es as [|e es IH]; intros m; simpl; [done|].
  intros [He%negb_true_iff Hes]%andb_prop Hq. destruct (quiet_exec e m He Hq) as [Hq' <-]. by apply IH.
Qed.

(** A connected phone whose socket closes; then [connect] is called before the
    scheduled reconnection, and both go through. *)
Definition overlapping (k : MKeys) (id : string) : list MEvent :=
  [EvConnect; EvKeys (inr k) true; EvOpen 0; EvMessage 0 (MiAck true (Some id) None) 0; EvClose 0;
   EvConnect; EvKeys (inr k) true; EvTimer 0 true].

(** The phone's connection.  When [connect] and [disconnect] are called one
    after the other, at most one socket can call the service, it is the current
    one, and then no reconnection is scheduled; at most one ever is.  After
    [disconnect] the phone stays disconnected and sends nothing until [connect]
    is called.  A [connect] during a scheduled reconnection breaks this: the
    timer is not cleared and two sockets are live. *)
Theorem sequential_use_keeps_one_connection :
  (∀ es, sequential_run es init = true →
     let c := conn (run_m sha256_hex es init) in
     (∀ i, live c i → cur c = Some i ∧ armed c = []) ∧ (length (armed c) ≤ 1)%nat) ∧
  (∀ es es', sequential_run (es ++ [EvDisconnect])%list init = true →
     forallb (λ e, negb (is_connect e)) es' = true →
     let m := run_m sha256_hex (es ++ EvDisconnect :: es')%list init in
     status (conn m) = Disconnected ∧ sent m = sent (run_m sha256_hex es init)) ∧
  (∀ k id, str_truthy id = true →
     let c := conn (run_m sha256_hex (overlapping k id) init) in live c 1 ∧ live c 2 ∧ cur c = Some 2%nat).
Proof.
  split; [|split].
  - intros es Hs. destruct (run_conn_inv es init Hs init_conn_inv) as [H1 H2 H3 _ _]. split.
    + intros i Hi. split; [by apply H1 | by eapply H3].
    + destruct H2 as [-> | (t & d & -> & _)]; simpl; lia.
  - intros es es' Hs Hes'. rewrite sequential_run_app in Hs. apply andb_prop in Hs as [Hs Hd].
    simpl in Hd. rewrite andb_true_r in Hd. apply bool_decide_eq_true in Hd.
    pose proof (run_conn_inv es init Hs init_conn_inv) as Hinv. unfold run_m. rewrite foldl_app. simpl.
    fold (run_m sha256_hex es init). set (m := run_m sha256_hex es init) in *.
    destruct (cleanup_quiet m Hinv) as (Hn & Ha & Hc & Hh & _ & Hst & Hk).
    assert (quiet (disconnect m)) as Hq by (unfold quiet; rewrite Hk; auto 10).
    destruct (quiet_run es' (disconnect m) Hes' Hq) as [(_ & _ & _ & _ & _ & Hst') Hsent].
    split; [exact Hst'|]. fold (run_m sha256_hex es' (disconnect m)). rewrite Hsent.
    unfold disconnect, setStatus. by case_bool_decide.
  - intros k id Hid. destruct id as [|a id]; [done|]. vm_compute.
    split_and!; [eexists; split_and!; [reflexivity | reflexivity | done] |
                 eexists; split_and!; [reflexivity | reflexivity | done] | reflexivity].
Qed.
End Connections.

(** ** Jobs, earnings and what the app shows *)

Section Accounting.
  Context `{!Ed25519} (sha256_hex : string → string).
  Implicit Types (m : Service).

Definition is_earning (e : MEmit) : bool := match e with MEarnings _ => true | _ => false end.
Definition paid (l : list MEmit) : nat := length (List.filter is_earning l).
(** Neither a job nor an amount. *)
Definition neutral (e : MEmit) : bool := match e with MJobCompleted _ | MEarnings _ => false | _ => true end.

Lemma ui_snoc l e : ui_of (l ++ [e])%list = ui_step e (ui_of l).
Proof. unfold ui_of. by rewrite foldl_app. Qed.

Lemma paid_snoc l e : paid (l ++ [e])%list = ((if is_earning e then 1 else 0) + paid l)%nat.
Proof. unfold paid. rewrite List.filter_app, length_app. simpl. destruct (is_earning e); simpl; lia. Qed.

(** [n] payments of the price of a task, summed in binary64. *)
Definition earned (n : nat) : jsnum := Nat.iter n (λ x, num_add x TASK_PRICE_BOLT) (num_of_Z 0).

Record job_inv m : Prop := {
  ji_history : (length (jobHistory m) ≤ 50)%nat;
  ji_earnings : totalEarnings m = earned (paid (log m));
  ji_ui_earnings : ui_totalEarnings (ui_of (log m)) = totalEarnings m;
  ji_ui_jobs : (Z.of_nat (paid (log m)) <= ui_jobsCompleted (ui_of (log m)))%Z }.

Lemma job_eq m m' : jobHistory m' = jobHistory m → totalEarnings m' = totalEarnings m → log m' = log m →
  job_inv m → job_inv m'.
Proof. intros E1 E2 E3 []. constructor; congruence. Qed.

Lemma job_emit e m : neutral e = true → job_inv m → job_inv (emit e m).
Proof.
  intros He [H1 H2 H3 H4]. destruct e; try done; constructor; simpl; rewrite ?paid_snoc, ?ui_snoc; done.
Qed.

Lemma job_emit_completed j m : job_inv m → job_inv (emit (MJobCompleted j) m).
Proof.
  intros [H1 H2 H3 H4]. constructor; simpl; rewrite ?paid_snoc, ?ui_snoc; simpl; try done.
  destruct (c_success j); lia.
Qed.

Lemma job_setStatus s m : job_inv m → job_inv (setStatus s m).
Proof.
  intros Hm. unfold setStatus. case_bool_decide; [done|]. apply job_emit; [done|]. by apply (job_eq m).
Qed.

Lemma job_send msg m : job_inv m → job_inv (send msg m).
Proof. intros Hm. unfold send. destruct (cur_open _); [|done]. by apply (job_eq m). Qed.

Lemma job_schedule m : job_inv m → job_inv (scheduleReconnect m).
Proof. intros Hm. unfold scheduleReconnect. destruct (shouldReconnect _); [|done]. by apply (job_eq m). Qed.

Lemma job_doConnect ok m : job_inv m → job_inv (doConnect ok m).
Proof.
  intros Hm. unfold doConnect. destruct (keys _); [|done]. destruct ok.
  - by apply (job_eq (setStatus Connecting m)), job_setStatus.
  - by apply job_schedule, job_emit, job_setStatus.
Qed.

Lemma length_update_first p f l : length (update_first p f l) = length l.
Proof. induction l as [|j l IH]; simpl; [done|]. destruct (p j); simpl; congruence. Qed.

Lemma job_update_job i f m : job_inv m → job_inv (update_job i f m).
Proof.
  intros Hm. unfold update_job. destruct (List.find _ _); [|done]. apply job_emit_completed.
  destruct Hm. constructor; simpl; rewrite ?length_update_first; done.
Qed.

Lemma job_foldl_update (f : string → CompletedJob → CompletedJob) l m :
  job_inv m → job_inv (foldl (λ m i, update_job i (f i) m) m l).
Proof. revert m. induction l as [|i l IH]; intros m Hm; simpl; [done|]. by apply IH, job_update_job. Qed.

Lemma job_handleMessage msg d m : job_inv m → job_inv (handleMessage msg d m).
Proof.
  intros Hm. destruct msg as [ok id err|j t p|code text|j tx|js tx a tok|j|js|]; cbn [handleMessage].
  - unfold handleRegisterAck, close_cur, startHeartbeat, stopHeartbeat.
    assert (∀ e, job_inv (close_cur (emit (MError e) m))) as Hc
      by (intros e; by apply (job_eq (emit (MError e) m)), job_emit).
    destruct id as [i|]; [destruct (_ && _)|]; [|apply Hc..].
    apply job_emit; [done|]. eapply job_eq; [..|apply (job_setStatus Connected), (job_eq m); [..|exact Hm]]; done.
  - unfold handleJobAssign. destruct (keys _); [|done].
    destruct t, (p_task_type p), (p_input p); try destruct (_ && _);
      try (by apply job_send, job_emit); by apply (job_eq (emit (MJobReceived j) m)), job_emit.
  - by apply job_emit.
  - unfold handleFeedbackPosted. destruct (List.find _ _); [|done]. by apply job_emit, job_update_job.
  - unfold handlePaymentPosted. apply job_emit; [done|]. by apply (job_foldl_update (λ _, set_payment tx _)).
  - by apply job_update_job.
  - by apply (job_foldl_update (λ _, set_payment_failed)).
  - done.
Qed.

Lemma job_finishJob j iso m : job_inv m → job_inv (finishJob sha256_hex j iso m).
Proof.
  intros Hm. unfold finishJob.
  destruct (match sign_job sha256_hex j iso with
            | Ok c => (send (MsgJobComplete c) m, true, None)
            | Throw e => (m, false, Some ("Receipt signing failed: " ++ e)) end) as [[m1 success] err] eqn:E.
  assert (job_inv m1) as [H1 H2 H3 H4].
  { destruct (sign_job _ _ _); injection E as <- <- <-; [by apply job_send | done]. }
  destruct success.
  - constructor; simpl; rewrite ?paid_snoc, ?ui_snoc; simpl.
    + rewrite length_take. lia.
    + by rewrite H2.
    + done.
    + lia.
  - apply job_emit_completed. constructor; simpl; try done. rewrite length_take. lia.
Qed.

Lemma job_exec e m : job_inv m → job_inv (exec_m sha256_hex e m).
Proof.
  intros Hm. destruct e as [|res ok| |p|i|i msg d|i|i|t ok| |k iso]; cbn [exec_m].
  - unfold connect. destruct (status (conn m)); try done; by apply (job_eq m).
  - destruct (decide _); [done|]. unfold connect_keys. destruct res as [e|k].
    + by apply job_emit, (job_eq m).
    + by apply job_doConnect, (job_eq m).
  - unfold disconnect. apply job_setStatus. by apply (job_eq m).
  - by apply (job_eq m).
  - destruct (socks (conn m) !! i) as [[[] []]|]; try done; [|by apply (job_eq m)].
    unfold onopen, sendRegister. set (m1 := on_conn _ _).
    assert (job_inv m1) as Hm1 by (by apply (job_eq m)).
    destruct (keys (conn m1)); [|done]. destruct (cur (conn m1)); [by apply job_send | done].
  - destruct (socks (conn m) !! i) as [[[] []]|]; try done. by apply job_handleMessage.
  - destruct (socks (conn m) !! i) as [[? []]|]; try done. by apply job_emit.
  - assert (job_inv (onclose (set_sock i SClosed m))) as Hc.
    { unfold onclose. destruct (shouldReconnect _); [apply job_schedule|]; apply job_setStatus; by apply (job_eq m). }
    destruct (socks (conn m) !! i) as [[[] []]|]; try done; by apply (job_eq m).
  - destruct (existsb _ _); [|done]. destruct (shouldReconnect _); [apply job_doConnect|]; by apply (job_eq m).
  - destruct (heartbeat _); [|done]. destruct (keys (conn m)), (cur_open (conn m)); try done. by apply job_send.
  - destruct (signing m !! k) as [j|]; [|done]. by apply job_finishJob, (job_eq m).
Qed.

Lemma job_run es m : job_inv m → job_inv (run_m sha256_hex es m).
Proof. revert m. induction es as [|e es IH]; intros m Hm; simpl; [done|]. by apply IH, job_exec. Qed.

Lemma init_job_inv : job_inv init.
Proof. constructor; simpl; try done; lia. Qed.

(** The four messages about a job after its completion. *)
Definition job_update (i : string) (msg : MIn) : Prop :=
  (∃ tx, msg = MiFeedbackPosted i tx) ∨ msg = MiFeedbackFailed i ∨
  (∃ tx a token, msg = MiPaymentPosted [i] tx a token) ∨ msg = MiPaymentFailed [i].

Lemma update_job_ui i f m j : (∀ x, c_success (f x) = c_success x ∧ c_jobId (f x) = c_jobId x) →
  List.find (has_id i) (jobHistory m) = Some j → c_success j = true →
  let m' := update_job i f m in
  ui_jobsCompleted (ui_of (log m')) = (ui_jobsCompleted (ui_of (log m)) + 1)%Z ∧
  ui_jobHistory (ui_of (log m')) = take 50 (i :: ui_jobHistory (ui_of (log m))) ∧
  totalEarnings m' = totalEarnings m ∧ length (jobHistory m') = length (jobHistory m).
Proof.
  intros Hf Hj Hs. unfold update_job. rewrite Hj. simpl. rewrite ui_snoc. simpl.
  destruct (Hf j) as [-> ->]. rewrite Hs. apply List.find_some in Hj as [_ Hi%String.eqb_eq].
  rewrite Hi, length_update_first. done.
Qed.

(** The phone's history and counters.  The history keeps at most fifty
    jobs; the earnings are the price of a task summed once per job completed,
    and the app shows that amount.  But the number of completed jobs that the
    app shows, and stores, also counts every later message about a job: a
    posted or failed feedback or payment adds one to it and another copy of the
    job to the list. *)
Theorem app_counts_updates_as_jobs es :
  let m := run_m sha256_hex es init in
  (length (jobHistory m) ≤ 50)%nat ∧ totalEarnings m = earned (paid (log m)) ∧
  ui_totalEarnings (ui_of (log m)) = totalEarnings m ∧
  (Z.of_nat (paid (log m)) <= ui_jobsCompleted (ui_of (log m)))%Z ∧
  ∀ i j msg d, List.find (has_id i) (jobHistory m) = Some j → c_success j = true → job_update i msg →
    let m' := handleMessage msg d m in
    paid (log m') = paid (log m) ∧ length (jobHistory m') = length (jobHistory m) ∧
    ui_jobsCompleted (ui_of (log m')) = (ui_jobsCompleted (ui_of (log m)) + 1)%Z ∧
    ui_jobHistory (ui_of (log m')) = take 50 (i :: ui_jobHistory (ui_of (log m))).
Proof.
  intros m. destruct (job_run es init init_job_inv) as [H1 H2 H3 H4]. split_and!; try done.
  intros i j msg d Hj Hs Hm.
  assert (∀ f, paid (log (update_job i f m)) = paid (log m)) as Hp.
  { intros f. unfold update_job. rewrite Hj. simpl. by rewrite paid_snoc. }
  assert (∀ l e, neutral e = true → ui_of (l ++ [e])%list = ui_of l ∧ paid (l ++ [e])%list = paid l) as Hneu.
  { intros l e He. rewrite ui_snoc, paid_snoc. by destruct e. }
  destruct Hm as [[tx ->]|[->|[(tx & a & token & ->)| ->]]]; cbv zeta; cbn [handleMessage].
  - unfold handleFeedbackPosted. rewrite Hj. simpl. destruct (Hneu (log (update_job i (set_feedback tx) m)) (MFeedbackPosted i tx) eq_refl) as [-> ->].
    destruct (update_job_ui i (set_feedback tx) m j) as (? & ? & ? & ?); [done..|]. by rewrite Hp.
  - destruct (update_job_ui i set_feedback_failed m j) as (? & ? & ? & ?); [done..|].
    unfold handleFeedbackFailed. by rewrite Hp.
  - unfold handlePaymentPosted. simpl. set (f := set_payment tx _).
    destruct (Hneu (log (update_job i f m)) (MPaymentPosted [i] tx) eq_refl) as [-> ->].
    destruct (update_job_ui i f m j) as (? & ? & ? & ?); [done..|]. by rewrite Hp.
  - destruct (update_job_ui i set_payment_failed m j) as (? & ? & ? & ?); [done..|].
    unfold handlePaymentFailed. simpl. by rewrite Hp.
Qed.
End Accounting.
