(* ===== verification/Router.v ===== *)
(** * The compute router

    packages/compute-router: the SDK that submits a job to a coordinator,
    waits for its result and falls back to hosted providers.  Its code only
    talks to the network and to the clock, so it runs here against an
    environment that answers every request from the requests made before it,
    after some time; nothing else is assumed of the environment.  The world
    keeps the clock and the requests made so far. *)

From stdpp Require Import base list strings option.
From Stdlib Require Import ZArith Lia.
From S2P Require Import Prelude Js Json Protocol Workers.
Local Open Scope string_scope.

(** ** The network *)

Inductive Req :=
  | HttpReq (method url : string) (headers : list (string * string)) (body : option string)
  | HostedReq (provider prompt : string) (max_tokens : Z).     (* a call of a provider's SDK *)

Inductive Resp :=
  | NetError (message : string)                                (* fetch rejects *)
  | HttpResp (status : Z) (text : string).

(** Answers, each with the milliseconds it takes; timers fire late. *)
Record Env := {
  env_http : list Req → Req → Resp * nat;
  env_hosted : list Req → Req → outcome json * nat;
  env_late : list Req → nat;
  env_openai_key : option string;
  env_anthropic_key : option string }.

Record World := mkWorld { w_now : Z; w_log : list Req }.

Definition M (A : Type) : Type := Env → World → outcome A * World.

Definition ret {A} (a : A) : M A := λ _ w, (Ok a, w).
Definition throw {A} (e : string) : M A := λ _ w, (Throw e, w).
Definition bind {A B} (m : M A) (k : A → M B) : M B := λ env w,
  match m env w with (Ok a, w') => k a env w' | (Throw e, w') => (Throw e, w') end.
(** [try { return await m } catch { k }] *)
Definition catch {A} (m : M A) (k : string → M A) : M A := λ env w,
  match m env w with (Ok a, w') => (Ok a, w') | (Throw e, w') => k e env w' end.

Declare Scope router_scope.
Notation "x ⇐ m ;; k" := (bind m (λ x, k)) (at level 100, m at next level, right associativity) : router_scope.
Local Open Scope router_scope.

Definition now : M Z := λ _ w, (Ok (w_now w), w).
Definition sleep (ms : Z) : M unit := λ env w,
  (Ok tt, mkWorld (w_now w + ms + Z.of_nat (env_late env (w_log w))) (w_log w)).

Definition fetch (r : Req) : M (Z * string) := λ env w,
  let '(resp, t) := env_http env (w_log w) r in
  let w' := mkWorld (w_now w + Z.of_nat t) (w_log w ++ [r])%list in
  match resp with NetError e => (Throw e, w') | HttpResp s x => (Ok (s, x), w') end.

Definition hosted_call (r : Req) : M json := λ env w,
  let '(res, t) := env_hosted env (w_log w) r in
  (res, mkWorld (w_now w + Z.of_nat t) (w_log w ++ [r])%list).

(** [res.ok] and [res.json()] *)
Definition resp_ok (status : Z) : bool := (200 <=? status)%Z && (status <=? 299)%Z.
Definition resp_json (text : string) : M json :=
  match JSON_parse text with Some j => ret j | None => throw "Unexpected token in JSON" end.

Definition Z_str (z : Z) : string := num_to_string (num_of_Z z).

(** util.ts *)
Definition fetchJson (url : string) : M json :=
  r ⇐ fetch (HttpReq "GET" url [] None) ;;
  let '(status, text) := r in
  if resp_ok status then resp_json text else throw ("HTTP " ++ Z_str status ++ ": " ++ text).

(** A property of a JSON value; of [null] it throws. *)
Definition prop (k : string) (j : json) : M (option json) :=
  match j with
  | JNull => throw ("Cannot read properties of null (reading '" ++ k ++ "')")
  | JObj l => ret (jm_get k l)
  | _ => ret None
  end.

(** ** Requests and results *)

Record LLMRequest := {
  lr_prompt : string; lr_max_tokens : option Z; lr_policy : string; lr_privacy : string; lr_user_id : string }.
Record TaskRequest := {
  tr_task_type : string; tr_input : string; tr_policy : string; tr_privacy : string; tr_user_id : string }.

(** [output], [price] and [receipt] as the answers had them; [None] is [undefined]. *)
Record ComputeResult := {
  cr_output : option json; cr_route : string; cr_price : option json; cr_latency_ms : Z; cr_receipt : option json }.

(** ** The decentralized adapter *)

(** The x402 client, code outside the repository: it turns the body of a 402
    answer into payment headers, or fails. *)
Abbreviation X402Client := (option json → outcome (list (string * string))).

Record Decentralized := { da_url : string; da_label : string; da_x402 : option X402Client }.
Abbreviation da_name a := ("decentralized:" ++ da_label a)%string.

Definition is_str (s : string) (j : option json) : bool :=
  match j with Some (JStr t) => String.eqb t s | _ => false end.

Definition json_or_undefined (j : option json) : string :=
  match j with Some j => JSON_stringify j | None => "undefined" end.

(** [fuel] bounds the polls; [pollResult] gives it one more than fit before the deadline. *)
Fixpoint poll_loop (a : Decentralized) (jobId : string) (timeoutMs deadline : Z) (fuel : nat)
    : M (option json * option json) :=
  t ⇐ now ;;
  if (t <? deadline)%Z then
    match fuel with
    | O => throw "poll fuel exhausted"
    | S fuel =>
        job ⇐ fetchJson (da_url a ++ "/v1/jobs/" ++ jobId) ;;
        status ⇐ prop "status" job ;;
        result ⇐ prop "result" job ;;
        receipt ⇐ prop "receipt" job ;;
        if is_str "completed" status then ret (result, receipt)
        else if is_str "failed" status then
          throw ("Job " ++ jobId ++ " failed: " ++ json_or_undefined result)
        else _x ⇐ sleep 500 ;; poll_loop a jobId timeoutMs deadline fuel
    end
  else throw ("Job " ++ jobId ++ " timed out after " ++ Z_str timeoutMs ++ "ms").

Definition poll_fuel (timeoutMs : Z) : nat := S (Z.to_nat (timeoutMs / 500)).

Definition pollResult (a : Decentralized) (jobId : string) (timeoutMs : Z) : M (option json * option json) :=
  t ⇐ now ;;
  poll_loop a jobId timeoutMs (t + timeoutMs)%Z (poll_fuel timeoutMs).

Definition commit (url body : string) (headers : list (string * string)) : M (Z * string) :=
  fetch (HttpReq "POST" url (("Content-Type", "application/json") :: headers) (Some body)).

Definition jobTimeout (t : JobType) : Z := match t with TASK => 30000 | LLM_INFER => 60000 end.

Definition submit (a : Decentralized) (jobType : JobType) (policy privacyClass userId : string)
    (payload : json) : M ComputeResult :=
  start ⇐ now ;;
  quote ⇐ fetchJson (da_url a ++ "/v1/quote?job_type=" ++ JobType_str jobType ++ "&policy=" ++ policy) ;;
  let tier := if String.eqb policy "FAST" then "fast" else "cheap" in
  let commitUrl := da_url a ++ "/v1/jobs/commit/" ++ tier in
  let body := JSON_stringify (JObj [("job_type", JStr (JobType_str jobType)); ("payload", payload);
                                    ("privacy_class", JStr privacyClass); ("user_id", JStr userId)]) in
  r ⇐ commit commitUrl body [] ;;
  r ⇐ (if (r.1 =? 402)%Z then
         match da_x402 a with
         | None => throw "x402 payment required but no x402Client configured. Set TESTNET_MODE=true on coordinator or provide an x402Client."
         | Some client => match client (JSON_parse r.2) with
                          | Ok headers => commit commitUrl body headers
                          | Throw e => throw e
                          end
         end
       else ret r) ;;
  if (r.1 =? 422)%Z then
    j ⇐ resp_json r.2 ;; e ⇐ prop "error" j ;; throw ("Privacy enforcement: " ++ ojs_String e)
  else if negb (resp_ok r.1) then throw ("Commit failed: " ++ Z_str r.1 ++ " " ++ r.2)
  else
    j ⇐ resp_json r.2 ;;
    job_id ⇐ prop "job_id" j ;;
    res ⇐ pollResult a (ojs_String job_id) (jobTimeout jobType) ;;
    price ⇐ prop "price" quote ;;
    t ⇐ now ;;
    ret {| cr_output := res.1; cr_route := da_name a; cr_price := price;
           cr_latency_ms := (t - start)%Z; cr_receipt := res.2 |}.

Definition num_member (k : string) (n : option Z) : list (string * json) :=
  member k ((λ z, JNum (num_of_Z z)) <$> n).

Definition d_runLLM (a : Decentralized) (req : LLMRequest) : M ComputeResult :=
  submit a LLM_INFER (resolvePolicy (lr_policy req) LLM_INFER) (lr_privacy req) (lr_user_id req)
    (JObj ([("job_type", JStr "LLM_INFER"); ("prompt", JStr (lr_prompt req))] ++
           num_member "max_tokens" (lr_max_tokens req))%list).

Definition d_runTask (a : Decentralized) (req : TaskRequest) : M ComputeResult :=
  submit a TASK (resolvePolicy (tr_policy req) TASK) (tr_privacy req) (tr_user_id req)
    (JObj [("job_type", JStr "TASK"); ("task_type", JStr (tr_task_type req)); ("input", JStr (tr_input req))]).

(** ** The hosted adapters *)

Inductive Provider := OpenAI | Anthropic.
Definition provider_name (p : Provider) : string :=
  match p with OpenAI => "hosted:openai" | Anthropic => "hosted:anthropic" end.

Definition api_key (p : Provider) (env : Env) : option string :=
  match p with OpenAI => env_openai_key env | Anthropic => env_anthropic_key env end.
Definition no_key (p : Provider) : string :=
  match p with OpenAI => "OPENAI_API_KEY not set" | Anthropic => "ANTHROPIC_API_KEY not set" end.

Definition h_runLLM (p : Provider) (prompt : string) (max_tokens : option Z) : M ComputeResult := λ env w,
  if ostr_truthy (api_key p env) then
    (start ⇐ now ;;
     out ⇐ hosted_call (HostedReq (provider_name p) prompt (default 256%Z max_tokens)) ;;
     t ⇐ now ;;
     ret {| cr_output := Some out; cr_route := provider_name p; cr_price := Some JNull;
            cr_latency_ms := (t - start)%Z; cr_receipt := Some JNull |}) env w
  else (Throw (no_key p), w).

Definition nl2 : string := String (Ascii.ascii_of_nat 10) (String (Ascii.ascii_of_nat 10) EmptyString).

Definition buildTaskPrompt (p : Provider) (taskType input : string) : string :=
  if String.eqb taskType "summarize" then "Summarize the following text concisely:" ++ nl2 ++ input
  else if String.eqb taskType "classify" then
    "Classify the sentiment of the following text as positive, negative, or neutral. Respond with JSON: {" ++
    json_quote "sentiment" ++ ": " ++ json_quote "..." ++ ", " ++ json_quote "confidence" ++ ": 0.0-1.0}" ++ nl2 ++ input
  else if String.eqb taskType "extract_json" then
    "Extract all JSON objects from the following text. Respond with a JSON array" ++
    match p with OpenAI => " of the extracted objects:" | Anthropic => ":" end ++ nl2 ++ input
  else input.

Definition h_runTask (p : Provider) (req : TaskRequest) : M ComputeResult :=
  h_runLLM p (buildTaskPrompt p (tr_task_type req) (tr_input req)) None.

(** ** The router *)

Inductive Chain := Monad | Solana.
Record RouterConfig := {
  rt_monad : string; rt_solana : string; rt_preferredHosted : option Provider;
  rt_x402 : Chain → option X402Client }.

Definition adapter (cfg : RouterConfig) (c : Chain) : Decentralized :=
  match c with
  | Monad => {| da_url := rt_monad cfg; da_label := "monad"; da_x402 := rt_x402 cfg Monad |}
  | Solana => {| da_url := rt_solana cfg; da_label := "solana"; da_x402 := rt_x402 cfg Solana |}
  end.

Definition hostedAdapters (cfg : RouterConfig) : list Provider :=
  match default OpenAI (rt_preferredHosted cfg) with
  | OpenAI => [OpenAI; Anthropic] | Anthropic => [Anthropic; OpenAI] end.

Definition ALL_FAILED : string :=
  "All compute adapters failed. Ensure workers are running or BYOK API keys are set.".

Fixpoint hostedFallback (l : list Provider) (run : Provider → M ComputeResult) : M ComputeResult :=
  match l with
  | [] => throw ALL_FAILED
  | p :: l => catch (run p) (λ _, hostedFallback l run)
  end.

Record RunOpts := {
  ro_policy : option string; ro_privacy : option string; ro_user_id : string; ro_chain : option Chain }.

Definition runLLM (cfg : RouterConfig) (prompt : string) (max_tokens : option Z) (o : RunOpts) : M ComputeResult :=
  let req := {| lr_prompt := prompt; lr_max_tokens := max_tokens; lr_policy := default "AUTO" (ro_policy o);
                lr_privacy := default "PUBLIC" (ro_privacy o); lr_user_id := ro_user_id o |} in
  catch (d_runLLM (adapter cfg (default Monad (ro_chain o))) req)
    (λ _, hostedFallback (hostedAdapters cfg) (λ p, h_runLLM p (lr_prompt req) (lr_max_tokens req))).

Definition runTask (cfg : RouterConfig) (task_type input : string) (o : RunOpts) : M ComputeResult :=
  let req := {| tr_task_type := task_type; tr_input := input; tr_policy := default "AUTO" (ro_policy o);
                tr_privacy := default "PUBLIC" (ro_privacy o); tr_user_id := ro_user_id o |} in
  catch (d_runTask (adapter cfg (default Monad (ro_chain o))) req)
    (λ _, hostedFallback (hostedAdapters cfg) (λ p, h_runTask p req)).

(** ** Polling *)

Definition poll_req (a : Decentralized) (jobId : string) : Req :=
  HttpReq "GET" (da_url a ++ "/v1/jobs/" ++ jobId) [] None.

(** What one answer decides: [None] to poll again. *)
Definition poll_verdict (jobId : string) (r : Resp) : option (outcome (option json * option json)) :=
  match r with
  | NetError e => Some (Throw e)
  | HttpResp status text =>
      if resp_ok status then
        match JSON_parse text with
        | None => Some (Throw "Unexpected token in JSON")
        | Some JNull => Some (Throw "Cannot read properties of null (reading 'status')")
        | Some j =>
            let get k := match j with JObj l => jm_get k l | _ => None end in
            if is_str "completed" (get "status") then Some (Ok (get "result", get "receipt"))
            else if is_str "failed" (get "status")
            then Some (Throw ("Job " ++ jobId ++ " failed: " ++ json_or_undefined (get "result")))
            else None
        end
      else Some (Throw ("HTTP " ++ Z_str status ++ ": " ++ text))
  end.

Definition after_fetch (env : Env) (r : Req) (w : World) : World :=
  mkWorld (w_now w + Z.of_nat (env_http env (w_log w) r).2) (w_log w ++ [r])%list.
Definition after_sleep (env : Env) (w : World) : World :=
  mkWorld (w_now w + 500 + Z.of_nat (env_late env (w_log w))) (w_log w).

Section Polling.
  Context (a : Decentralized) (jobId : string) (timeoutMs : Z) (env : Env).
  Local Abbreviation req := (poll_req a jobId).
  Local Abbreviation loop := (poll_loop a jobId timeoutMs).

(** One turn of the loop before the deadline. *)
Lemma poll_turn deadline fuel w : (w_now w < deadline)%Z →
  loop deadline (S fuel) env w =
    match poll_verdict jobId (env_http env (w_log w) req).1 with
    | Some r => (r, after_fetch env req w)
    | None => loop deadline fuel env (after_sleep env (after_fetch env req w))
    end.
Proof.
  intros Hlt%Z.ltb_lt. cbn [poll_loop]. unfold bind at 1. cbn [now]. rewrite Hlt.
  unfold after_fetch. unfold bind at 1. unfold fetchJson, bind at 1, fetch. fold req.
  destruct (env_http env (w_log w) req) as [[e|status text] t]; cbn [fst snd poll_verdict]; [done|].
  destruct (resp_ok status); [|done]. unfold resp_json.
  destruct (JSON_parse text) as [j|]; [|done].
  destruct j as [|b|n|s|l|l]; try done. unfold prop, bind, ret. cbn [fst snd].
  destruct (is_str "completed" (jm_get "status" l)); [reflexivity|].
  destruct (is_str "failed" (jm_get "status" l)); done.
Qed.

Lemma poll_late deadline fuel w : (deadline <= w_now w)%Z →
  loop deadline fuel env w = (Throw ("Job " ++ jobId ++ " timed out after " ++ Z_str timeoutMs ++ "ms"), w).
Proof.
  intros Hge. assert ((w_now w <? deadline)%Z = false) as Hlt by (by apply Z.ltb_ge).
  destruct fuel; cbn [poll_loop]; unfold bind at 1; cbn [now]; by rewrite Hlt.
Qed.

(** The answers to [k] polls from the log [l]. *)
Definition answer (l : list Req) (k : nat) : Resp := (env_http env (l ++ replicate k req)%list req).1.

Lemma poll_spec deadline fuel w :
  (deadline - w_now w <= 500 * Z.of_nat fuel)%Z →
  let '(r, w') := loop deadline fuel env w in
  ∃ k, (k ≤ fuel)%nat ∧ w_log w' = (w_log w ++ replicate k req)%list ∧
    (∀ i, (S i < k)%nat → poll_verdict jobId (answer (w_log w) i) = None) ∧
    ((deadline <= w_now w')%Z ∧
       r = Throw ("Job " ++ jobId ++ " timed out after " ++ Z_str timeoutMs ++ "ms") ∧
       (∀ i, (i < k)%nat → poll_verdict jobId (answer (w_log w) i) = None) ∨
     ∃ i, k = S i ∧ poll_verdict jobId (answer (w_log w) i) = Some r).
Proof.
  revert w. induction fuel as [|fuel IH]; intros w Hf.
  - rewrite poll_late by lia. exists 0%nat. rewrite app_nil_r.
    split_and!; [done | done | lia |]. left. split_and!; [lia | done | lia].
  - destruct (Z.lt_ge_cases (w_now w) deadline) as [Hlt|Hge].
    + rewrite poll_turn by done. assert (answer (w_log w) 0 = (env_http env (w_log w) req).1) as H0
        by (unfold answer; by rewrite app_nil_r).
      destruct (poll_verdict _ _) as [r|] eqn:Hv.
      * exists 1%nat. split_and!; [lia | done | lia |]. right. exists 0%nat. by rewrite H0.
      * specialize (IH (after_sleep env (after_fetch env req w)) ltac:(simpl; lia)).
        destruct (loop _ _ _ _) as [r w'], IH as (k & Hk & Hlog & Hn & Hr).
        assert (∀ i, answer (w_log (after_sleep env (after_fetch env req w))) i = answer (w_log w) (S i)) as Ha.
        { intros i. unfold answer. simpl. by rewrite <- app_assoc. }
        exists (S k). split_and!.
        -- lia.
        -- rewrite Hlog. simpl. by rewrite <- app_assoc.
        -- intros [|i] Hi; [by rewrite H0|]. rewrite <- Ha. apply Hn. lia.
        -- destruct Hr as [(Hd & -> & Hall)|(i & -> & Hv')].
           ++ left. split_and!; [done | done |]. intros [|i] Hi; [by rewrite H0|]. rewrite <- Ha. apply Hall. lia.
           ++ right. exists (S i). by rewrite <- Ha.
    + rewrite poll_late by done. exists 0%nat. rewrite app_nil_r.
      split_and!; [lia | done | lia |]. left. split_and!; [done | done | lia].
Qed.

(** More fuel changes nothing. *)
Lemma poll_fuel_irrelevant deadline fuel fuel' w :
  (deadline - w_now w <= 500 * Z.of_nat fuel)%Z → (fuel ≤ fuel')%nat →
  loop deadline fuel' env w = loop deadline fuel env w.
Proof.
  revert fuel' w. induction fuel as [|fuel IH]; intros fuel' w Hf Hle; [by rewrite !poll_late by lia|].
  destruct fuel' as [|fuel']; [lia|].
  destruct (Z.lt_ge_cases (w_now w) deadline) as [Hlt|Hge]; [|by rewrite !poll_late].
  rewrite !poll_turn by done. destruct (poll_verdict _ _); [done|]. apply IH; [simpl; lia | lia].
Qed.
End Polling.

(** C29: waiting for a result ends.  Against any network, [pollResult] makes at
    most one request per half second of the timeout and one more, always the
    same, and stops at the first answer that decides: a completed job is
    returned, a failed job or a bad answer is thrown; if none decides it throws
    the timeout, and only after the deadline.  The bound on the polls is never
    what stops it. *)
Theorem polling_stops_at_the_first_verdict a jobId timeoutMs env w :
  (0 <= timeoutMs)%Z →
  let '(r, w') := pollResult a jobId timeoutMs env w in
  (∀ fuel, (poll_fuel timeoutMs ≤ fuel)%nat →
     poll_loop a jobId timeoutMs (w_now w + timeoutMs) fuel env w = (r, w')) ∧
  ∃ k, (Z.of_nat k <= timeoutMs / 500 + 1)%Z ∧ w_log w' = (w_log w ++ replicate k (poll_req a jobId))%list ∧
    (∀ i, (S i < k)%nat → poll_verdict jobId (answer a jobId env (w_log w) i) = None) ∧
    ((w_now w + timeoutMs <= w_now w')%Z ∧
       r = Throw ("Job " ++ jobId ++ " timed out after " ++ Z_str timeoutMs ++ "ms") ∧
       (∀ i, (i < k)%nat → poll_verdict jobId (answer a jobId env (w_log w) i) = None) ∨
     ∃ i, k = S i ∧ poll_verdict jobId (answer a jobId env (w_log w) i) = Some r).
Proof.
  intros Ht. unfold pollResult, bind. cbn [now].
  assert (w_now w + timeoutMs - w_now w <= 500 * Z.of_nat (poll_fuel timeoutMs))%Z as Hf.
  { unfold poll_fuel. rewrite Nat2Z.inj_succ, Z2Nat.id by (apply Z.div_pos; lia).
    pose proof (Z.mod_pos_bound timeoutMs 500). pose proof (Z.div_mod timeoutMs 500). lia. }
  pose proof (poll_spec a jobId timeoutMs env _ _ w Hf) as Hspec.
  destruct (poll_loop a jobId timeoutMs (w_now w + timeoutMs) (poll_fuel timeoutMs) env w) as [r w'] eqn:E.
  split.
  - intros fuel Hle. rewrite <- E. by apply poll_fuel_irrelevant.
  - destruct Hspec as (k & Hk & Hrest). exists k. split; [|exact Hrest].
    unfold poll_fuel in Hk. assert (0 <= timeoutMs / 500)%Z by (apply Z.div_pos; lia). lia.
Qed.

(** ** Where a request goes *)

Definition is_http (r : Req) : bool := match r with HttpReq _ _ _ _ => true | _ => false end.

(** Code that makes only HTTP requests. *)
Definition http_only {A} (m : M A) : Prop :=
  ∀ env w, ∃ l, w_log (m env w).2 = (w_log w ++ l)%list ∧ forallb is_http l = true.

(** Code whose results satisfy [P]. *)
Definition returns {A} (P : A → Prop) (m : M A) : Prop :=
  ∀ env w x w', m env w = (Ok x, w') → P x.

Lemma http_only_pure {A} (m : M A) : (∀ env w, w_log (m env w).2 = w_log w) → http_only m.
Proof. intros H env w. exists []. by rewrite H, app_nil_r. Qed.

Lemma http_only_bind {A B} (m : M A) (k : A → M B) :
  http_only m → (∀ x, http_only (k x)) → http_only (bind m k).
Proof.
  intros Hm Hk env w. unfold bind. destruct (Hm env w) as (l & Hl & Hh).
  destruct (m env w) as [[x|e] w']; simpl in *; [|by exists l].
  destruct (Hk x env w') as (l' & Hl' & Hh'). exists (l ++ l')%list.
  by rewrite Hl', Hl, app_assoc, forallb_app, Hh, Hh'.
Qed.

Lemma http_only_fetch m u h b : http_only (fetch (HttpReq m u h b)).
Proof.
  intros env w. exists [HttpReq m u h b]. unfold fetch.
  by destruct (env_http env (w_log w) _) as [[] t].
Qed.

Lemma returns_bind {A B} (P : B → Prop) (m : M A) (k : A → M B) :
  (∀ x, returns P (k x)) → returns P (bind m k).
Proof.
  intros Hk env w y w'. unfold bind. destruct (m env w) as [[x|e] w1]; [apply Hk | done].
Qed.

Create HintDb router.
#[export] Hint Resolve http_only_fetch : router.
#[export] Hint Extern 1 (http_only (bind _ _)) => (apply http_only_bind; [|intros ?]) : router.
#[export] Hint Extern 1 (http_only (ret _)) => (by apply http_only_pure) : router.
#[export] Hint Extern 1 (http_only (throw _)) => (by apply http_only_pure) : router.
#[export] Hint Extern 1 (http_only now) => (by apply http_only_pure) : router.
#[export] Hint Extern 1 (http_only (sleep _)) => (by apply http_only_pure) : router.
#[export] Hint Extern 1 (http_only (prop _ ?j)) => (destruct j; by apply http_only_pure) : router.
#[export] Hint Extern 1 (http_only (resp_json ?t)) => (unfold resp_json; destruct (JSON_parse t); by apply http_only_pure) : router.
#[export] Hint Extern 2 (http_only (if ?b then _ else _)) => (destruct b) : router.
#[export] Hint Extern 2 (http_only (match ?b with _ => _ end)) => (destruct b) : router.

Lemma http_only_fetchJson u : http_only (fetchJson u).
Proof. unfold fetchJson. auto 10 with router. Qed.
#[export] Hint Resolve http_only_fetchJson : router.

Lemma http_only_poll a jobId timeoutMs deadline fuel : http_only (poll_loop a jobId timeoutMs deadline fuel).
Proof. induction fuel as [|fuel IH]; cbn [poll_loop]; auto 20 with router. Qed.
#[export] Hint Resolve http_only_poll : router.

Lemma http_only_submit a t pol priv user p : http_only (submit a t pol priv user p).
Proof. unfold submit, commit, pollResult. auto 30 with router. Qed.
#[export] Hint Resolve http_only_submit : router.

Lemma submit_route a t pol priv user p : returns (λ r, cr_route r = da_name a) (submit a t pol priv user p).
Proof.
  unfold submit. repeat (apply returns_bind; intros ?). destruct (_ =? _)%Z.
  - by repeat (apply returns_bind; intros ?).
  - destruct (negb _); [done|]. repeat (apply returns_bind; intros ?). by intros env w res w' [= <- _].
Qed.

(** The first hosted provider with a key, which is the first one asked. *)
Definition first_with_key (env : Env) (l : list Provider) : option Provider :=
  List.find (λ p, ostr_truthy (api_key p env)) l.

(** A hosted attempt: what it asks, and the route of its result. *)
Definition asks (run : Provider → M ComputeResult) (text : Provider → string) (n : Z) : Prop :=
  ∀ p env w,
    if ostr_truthy (api_key p env) then
      w_log (run p env w).2 = (w_log w ++ [HostedReq (provider_name p) (text p) n])%list ∧
      ∀ r w', run p env w = (Ok r, w') → cr_route r = provider_name p ∧ cr_receipt r = Some JNull
    else run p env w = (Throw (no_key p), w).

Lemma h_runLLM_asks (text : Provider → string) mt :
  asks (λ p, h_runLLM p (text p) mt) text (default 256%Z mt).
Proof.
  intros p env w. unfold h_runLLM. destruct (ostr_truthy _); [|done].
  unfold bind, hosted_call, now, ret.
  destruct (env_hosted env (w_log w) _) as [[out|e] t]; simpl; (split; [done|]); [by intros r w' [= <- _] | done].
Qed.

Lemma hostedFallback_spec run text n l env w : asks run text n →
  let '(r, w') := hostedFallback l run env w in
  match first_with_key env l with
  | None => r = Throw ALL_FAILED ∧ w' = w
  | Some p => ∃ more, w_log w' = (w_log w ++ HostedReq (provider_name p) (text p) n :: more)%list
  end ∧
  match r with
  | Ok res => ∃ p, p ∈ l ∧ ostr_truthy (api_key p env) = true ∧ cr_route res = provider_name p
  | Throw e => e = ALL_FAILED
  end.
Proof.
  intros Hasks. revert w. induction l as [|p l IH]; intros w; [done|].
  cbn [hostedFallback]. unfold catch. pose proof (Hasks p env w) as Hp. cbn [first_with_key List.find] in *.
  unfold first_with_key in *. cbn [List.find].
  destruct (ostr_truthy (api_key p env)) eqn:Hk.
  - destruct Hp as [Hlog Hr]. destruct (run p env w) as [[res|e] w1] eqn:E; simpl in Hlog.
    + split; [by exists []|]. exists p. split_and!; [left | done | by destruct (Hr res w1 eq_refl)].
    + specialize (IH w1). destruct (hostedFallback l run env w1) as [r w'], IH as [Hw Hres]. split.
      * destruct (List.find _ l) as [q|].
        -- destruct Hw as [more ->]. rewrite Hlog. eexists. by rewrite <- app_assoc.
        -- destruct Hw as [_ ->]. by exists [].
      * destruct r as [res|]; [|done]. destruct Hres as (q & Hq & Hrest). exists q. split; [by right | done].
  - rewrite Hp. specialize (IH w). destruct (hostedFallback l run env w) as [r w'], IH as [Hw Hres].
    split; [done|]. destruct r as [res|]; [|done]. destruct Hres as (q & Hq & Hrest). exists q. split; [by right | done].
Qed.

Lemma catch_fallback (m : M ComputeResult) run text n l env w : http_only m → asks run text n →
  let '(r, w') := catch m (λ _, hostedFallback l run) env w in
  match m env w with
  | (Ok res, w1) => r = Ok res ∧ w' = w1 ∧ ∃ more, w_log w' = (w_log w ++ more)%list ∧ forallb is_http more = true
  | (Throw _, w1) =>
      match first_with_key env l with
      | None => r = Throw ALL_FAILED ∧ w' = w1
      | Some p => ∃ more, w_log w' = (w_log w1 ++ HostedReq (provider_name p) (text p) n :: more)%list
      end ∧
      match r with
      | Ok res => ∃ p, p ∈ l ∧ ostr_truthy (api_key p env) = true ∧ cr_route res = provider_name p
      | Throw e => e = ALL_FAILED
      end
  end.
Proof.
  intros Hm Hasks. unfold catch. destruct (Hm env w) as (more & Hmore & Hh).
  destruct (m env w) as [[res|e] w1]; [split_and!; try done; by exists more|].
  by apply hostedFallback_spec.
Qed.

(** Whatever failed, the error of the fallback is the same. *)
Lemma fallback_error (m : M ComputeResult) run l env w e w' :
  catch m (λ _, hostedFallback l run) env w = (Throw e, w') → e = ALL_FAILED.
Proof.
  revert m w. induction l as [|p l IH]; intros m w; unfold catch; destruct (m env w) as [[r|e'] w1]; try done.
  - by intros [= <-].
  - apply (IH (run p)).
Qed.

(** C30: where the router sends a job.  If the coordinator of the chosen chain
    delivers, its result is returned and no hosted provider hears of the job.
    If that fails for any reason, whatever the privacy class (a PRIVATE job
    refused for want of a trusted worker included), the text of the job goes
    to the first hosted provider that has a key, in the preferred order; the
    result comes from a provider with a key, and when all fail, or none has a
    key, the error no longer says why. *)
Theorem router_falls_back cfg prompt max_tokens o env w :
  let chain := default Monad (ro_chain o) in
  let req := {| lr_prompt := prompt; lr_max_tokens := max_tokens; lr_policy := default "AUTO" (ro_policy o);
                lr_privacy := default "PUBLIC" (ro_privacy o); lr_user_id := ro_user_id o |} in
  let '(r, w') := runLLM cfg prompt max_tokens o env w in
  match d_runLLM (adapter cfg chain) req env w with
  | (Ok res, w1) => r = Ok res ∧ w' = w1 ∧ cr_route res = da_name (adapter cfg chain) ∧
      ∃ more, w_log w' = (w_log w ++ more)%list ∧ forallb is_http more = true
  | (Throw _, w1) =>
      match first_with_key env (hostedAdapters cfg) with
      | None => r = Throw ALL_FAILED ∧ w' = w1
      | Some p => ∃ more, w_log w' = (w_log w1 ++ HostedReq (provider_name p) prompt (default 256%Z max_tokens) :: more)%list
      end ∧
      match r with
      | Ok res => ∃ p, p ∈ hostedAdapters cfg ∧ ostr_truthy (api_key p env) = true ∧ cr_route res = provider_name p
      | Throw e => e = ALL_FAILED
      end
  end.
Proof.
  intros chain req. unfold runLLM. fold chain req.
  pose proof (catch_fallback (d_runLLM (adapter cfg chain) req)
    (λ p, h_runLLM p prompt max_tokens) (λ _, prompt) (default 256%Z max_tokens) (hostedAdapters cfg) env w
    ltac:(unfold d_runLLM; auto with router) (h_runLLM_asks (λ _, prompt) max_tokens)) as H.
  cbn [lr_prompt lr_max_tokens req]. destruct (catch _ _ env w) as [r w'].
  destruct (d_runLLM (adapter cfg chain) req env w) as [[res|e] w1] eqn:E; [|exact H].
  destruct H as (-> & -> & Hmore). split_and!; try done.
  exact (submit_route _ _ _ _ _ _ env w res w1 E).
Qed.

(** A coordinator that answers every request with the same text, in ten milliseconds. *)
Definition constant_env (status : Z) (text : string) : Env :=
  {| env_http := λ _ _, (HttpResp status text, 10%nat); env_hosted := λ _ _, (Throw "no network", 10%nat);
     env_late := λ _, 0%nat; env_openai_key := None; env_anthropic_key := None |}.

Definition sc_adapter : Decentralized := {| da_url := "http://c"; da_label := "monad"; da_x402 := None |}.

(** A pending job is polled three times in 1.2 seconds. *)
Lemma polling_stops_at_the_first_verdict_witness :
  ∃ w', pollResult sc_adapter "j1" 1200 (constant_env 200 (JSON_stringify (JObj [("status", JStr "pending")])))
          (mkWorld 0 []) = (Throw "Job j1 timed out after 1200ms", w') ∧
    w_log w' = replicate 3 (poll_req sc_adapter "j1").
Proof.
  pose proof (polling_stops_at_the_first_verdict sc_adapter "j1" 1200
    (constant_env 200 (JSON_stringify (JObj [("status", JStr "pending")]))) (mkWorld 0 []) ltac:(lia)) as H.
  destruct (pollResult _ _ _ _ _) as [r w'] eqn:E. vm_compute in E. injection E as <- <-.
  destruct H as [_ (k & _ & Hlog & _)].
  eexists. split; [reflexivity|]. rewrite Hlog.
  assert (k = 3%nat) as ->.
  { apply (f_equal length) in Hlog. rewrite length_app, length_replicate in Hlog. simpl in Hlog. lia. }
  reflexivity.
Defined.
