(* ===== verification/Cli.v ===== *)
(** * The command line

    packages/cli: the mappings and checks of arguments (types.ts), the
    configuration file (lib/config.ts), the client of a coordinator
    (lib/coordinator-client.ts) and the commands, run against the network of
    Router.v.  Paths are resolved up to the normalisation of dot segments, and
    a configuration is read as its JSON values, since the code does not check
    their types. *)

From stdpp Require Import base list strings option.
From Stdlib Require Import ZArith Lia Ascii.
From S2P Require Import Prelude Js Json JsonPretty Protocol Workers Router.
Local Open Scope string_scope.
Local Open Scope router_scope.

(** ** Arguments (types.ts) *)

Record ErrorMessages := {
  m_NO_CONFIG : string;
  m_PAYMENT_REQUIRED : string;
  m_NO_TRUSTED_WORKER : string;
  m_JOB_TIMEOUT_30 : string;
  m_JOB_TIMEOUT_60 : string;
  m_MISSING_PRIVATE_KEY : string;
  m_PROMPT_FOR_TASK : string;
  m_INPUT_FOR_LLM : string;
  m_TASK_TYPE_REQUIRED : string;
  m_PROMPT_REQUIRED : string;
  m_INPUT_REQUIRED : string }.

Definition ERROR_MESSAGES : ErrorMessages := {|
  m_NO_CONFIG := "No .dispatchrc found. Run 'dispatch init' to set up.";
  m_PAYMENT_REQUIRED :=
    "Payment required (x402). Set TESTNET_MODE=1 on the coordinator for free usage.";
  m_NO_TRUSTED_WORKER :=
    "No trusted worker available for PRIVATE job. Run 'dispatch worker start --trust-code <code>' to pair a worker first.";
  m_JOB_TIMEOUT_30 := "Job timed out after 30s. The worker may be overloaded.";
  m_JOB_TIMEOUT_60 := "Job timed out after 60s. The worker may be overloaded.";
  m_MISSING_PRIVATE_KEY :=
    "Error: Private key required. Use --private-key or set WORKER_PRIVATE_KEY env var.";
  m_PROMPT_FOR_TASK := "Error: --prompt is for LLM jobs. Use --input for task jobs.";
  m_INPUT_FOR_LLM := "Error: --input is for task jobs. Use --prompt for LLM jobs.";
  m_TASK_TYPE_REQUIRED :=
    "Error: --task-type is required for task jobs. Options: summarize, classify, extract_json";
  m_PROMPT_REQUIRED := "Error: --prompt is required for LLM jobs.";
  m_INPUT_REQUIRED := "Error: --input is required for task jobs." |}.

Abbreviation NO_CONFIG := (m_NO_CONFIG ERROR_MESSAGES).
Abbreviation PAYMENT_REQUIRED := (m_PAYMENT_REQUIRED ERROR_MESSAGES).
Abbreviation NO_TRUSTED_WORKER := (m_NO_TRUSTED_WORKER ERROR_MESSAGES).
Abbreviation JOB_TIMEOUT_30 := (m_JOB_TIMEOUT_30 ERROR_MESSAGES).
Abbreviation JOB_TIMEOUT_60 := (m_JOB_TIMEOUT_60 ERROR_MESSAGES).
Abbreviation MISSING_PRIVATE_KEY := (m_MISSING_PRIVATE_KEY ERROR_MESSAGES).
Abbreviation PROMPT_FOR_TASK := (m_PROMPT_FOR_TASK ERROR_MESSAGES).
Abbreviation INPUT_FOR_LLM := (m_INPUT_FOR_LLM ERROR_MESSAGES).
Abbreviation TASK_TYPE_REQUIRED := (m_TASK_TYPE_REQUIRED ERROR_MESSAGES).
Abbreviation PROMPT_REQUIRED := (m_PROMPT_REQUIRED ERROR_MESSAGES).
Abbreviation INPUT_REQUIRED := (m_INPUT_REQUIRED ERROR_MESSAGES).

Definition coordinatorUnreachableMessage (url : string) : string :=
  "Cannot reach coordinator at " ++ url ++ ". Is it running?".

Definition normalize (value : string) : string := toLowerCase (trim value).

Definition mapJobType (value : string) : outcome JobType :=
  let n := normalize value in
  if String.eqb n "llm" || String.eqb n "llm_infer" then Ok LLM_INFER
  else if String.eqb n "task" then Ok TASK
  else Throw ("Unsupported job type: " ++ value).

Definition mapPolicy (value : string) : outcome Policy :=
  let n := normalize value in
  if String.eqb n "fast" then Ok FAST else if String.eqb n "cheap" then Ok CHEAP
  else if String.eqb n "auto" then Ok AUTO else Throw ("Unsupported policy: " ++ value).

Definition mapPrivacy (value : string) : outcome PrivacyClass :=
  let n := normalize value in
  if String.eqb n "public" then Ok PUBLIC else if String.eqb n "private" then Ok PRIVATE
  else Throw ("Unsupported privacy: " ++ value).

Definition mapTaskType (value : string) : outcome TaskType :=
  let n := normalize value in
  if String.eqb n "summarize" then Ok summarize_t else if String.eqb n "classify" then Ok classify_t
  else if String.eqb n "extract_json" then Ok extract_json_t else Throw ("Unsupported task type: " ++ value).

Definition mapChain (value : string) : outcome Chain :=
  let n := normalize value in
  if String.eqb n "monad" then Ok Monad else if String.eqb n "solana" then Ok Solana
  else Throw ("Unsupported chain: " ++ value).

Definition mapCapability (item : string) : outcome JobType :=
  if String.eqb item "llm" || String.eqb item "llm_infer" then Ok LLM_INFER
  else if String.eqb item "task" then Ok TASK
  else Throw ("Unsupported capability: " ++ item).

Fixpoint omapM {A B} (f : A → outcome B) (l : list A) : outcome (list B) :=
  match l with
  | [] => Ok []
  | x :: l => y <-- f x ;; ys <-- omapM f l ;; Ok (y :: ys)
  end.

Definition mapCapabilities (l : string) : outcome (list JobType) :=
  mapped <-- omapM mapCapability (List.filter str_truthy (map normalize (split_commas l))) ;;
  Ok (match mapped with [] => [LLM_INFER; TASK] | _ => mapped end).

Record AgentRunOptions := {
  ar_type : string; ar_prompt : option string; ar_input : option string; ar_taskType : option string;
  ar_policy : option string; ar_privacy : option string; ar_chain : option string;
  ar_maxTokens : option Z; ar_json : bool }.

Definition validateAgentRunArgs (o : AgentRunOptions) : outcome string :=
  let type := normalize (ar_type o) in
  let task := String.eqb type "task" in let llm := String.eqb type "llm" in
  if task && ostr_truthy (ar_prompt o) then Throw PROMPT_FOR_TASK
  else if llm && ostr_truthy (ar_input o) then Throw INPUT_FOR_LLM
  else if task && negb (ostr_truthy (ar_taskType o)) then Throw TASK_TYPE_REQUIRED
  else if llm && negb (ostr_truthy (ar_prompt o)) then Throw PROMPT_REQUIRED
  else if task && negb (ostr_truthy (ar_input o)) then Throw INPUT_REQUIRED
  else if negb llm && negb task then Throw "Error: --type must be llm or task."
  else Ok type.

(** ** Configuration (lib/config.ts) *)

Record DispatchConfig := mkConfig {
  mode : json; co_monad : json; co_solana : json;
  wk_keyPath : json; wk_capabilities : json; wk_ollamaUrl : json; wk_providerType : json;
  ag_defaultChain : json; ag_defaultPolicy : json; ag_defaultPrivacy : json; ag_userId : json }.

Definition DEFAULT_CONFIG : DispatchConfig :=
  mkConfig (JStr "both") (JStr "http://localhost:4010") (JStr "http://localhost:4020")
    (JStr "./data/worker-key.json") (JArr [JStr "LLM_INFER"; JStr "TASK"]) (JStr "http://localhost:11434") (JStr "DESKTOP")
    (JStr "monad") (JStr "AUTO") (JStr "PUBLIC") (JStr "cli-00000000").

(** [j?.k] *)
Definition opt_prop (k : string) (j : option json) : option json :=
  match j with Some (JObj l) => jm_get k l | _ => None end.
(** [v ?? d] *)
Definition nullish (v : option json) (d : json) : json :=
  match v with None | Some JNull => d | Some v => v end.

Definition mergeDefaults (partial : json) : outcome DispatchConfig :=
  let d := DEFAULT_CONFIG in
  let get k := opt_prop k (Some partial) in
  let co := get "coordinator" in let wk := get "worker" in let ag := get "agent" in
  match partial with
  | JNull => Throw "Cannot read properties of null (reading 'mode')"
  | _ => Ok (mkConfig (nullish (get "mode") (mode d))
      (nullish (opt_prop "monad" co) (co_monad d)) (nullish (opt_prop "solana" co) (co_solana d))
      (nullish (opt_prop "keyPath" wk) (wk_keyPath d)) (nullish (opt_prop "capabilities" wk) (wk_capabilities d))
      (nullish (opt_prop "ollamaUrl" wk) (wk_ollamaUrl d)) (nullish (opt_prop "providerType" wk) (wk_providerType d))
      (nullish (opt_prop "defaultChain" ag) (ag_defaultChain d)) (nullish (opt_prop "defaultPolicy" ag) (ag_defaultPolicy d))
      (nullish (opt_prop "defaultPrivacy" ag) (ag_defaultPrivacy d)) (nullish (opt_prop "userId" ag) (ag_userId d)))
  end.

Definition config_json (c : DispatchConfig) : json :=
  JObj [("mode", mode c);
        ("coordinator", JObj [("monad", co_monad c); ("solana", co_solana c)]);
        ("worker", JObj [("keyPath", wk_keyPath c); ("capabilities", wk_capabilities c);
                         ("ollamaUrl", wk_ollamaUrl c); ("providerType", wk_providerType c)]);
        ("agent", JObj [("defaultChain", ag_defaultChain c); ("defaultPolicy", ag_defaultPolicy c);
                        ("defaultPrivacy", ag_defaultPrivacy c); ("userId", ag_userId c)])].

(** The files, by resolved path, and where the command runs. *)
Record Host := { files : jsmap string; cwd : string; homedir : string; overridePath : option string }.

Definition resolve (h : Host) (p : string) : string :=
  if startsWith p "/" then p else cwd h ++ "/" ++ p.

Definition existingPath (h : Host) (candidate : string) : option string :=
  let resolved := resolve h candidate in
  match jm_get resolved (files h) with Some _ => Some resolved | None => None end.

Definition or_else {A} (a b : option A) : option A := match a with Some _ => a | None => b end.

Definition resolveConfigPath (h : Host) (explicit : option string) : option string :=
  match or_else explicit (overridePath h) with
  | Some forced => if str_truthy forced then existingPath h forced
                   else or_else (existingPath h (cwd h ++ "/.dispatchrc")) (existingPath h (homedir h ++ "/.dispatchrc"))
  | None => or_else (existingPath h (cwd h ++ "/.dispatchrc")) (existingPath h (homedir h ++ "/.dispatchrc"))
  end.

Definition getConfigPath (h : Host) : string :=
  default (cwd h ++ "/.dispatchrc") (resolveConfigPath h None).

Definition loadConfig (h : Host) (explicit : option string) : outcome DispatchConfig :=
  match resolveConfigPath h explicit with
  | None => Throw NO_CONFIG
  | Some p =>
      match jm_get p (files h) with
      | None => Throw "ENOENT"
      | Some raw => match JSON_parse raw with
                    | Some j => mergeDefaults j
                    | None => Throw ("Invalid JSON in " ++ p)
                    end
      end
  end.

Definition write_file (p text : string) (h : Host) : Host :=
  {| files := jm_set p text (files h); cwd := cwd h; homedir := homedir h; overridePath := overridePath h |}.

Definition saveConfig (c : DispatchConfig) (target : option string) (h : Host) : Host :=
  write_file (resolve h (default (getConfigPath h) target)) (JSON_stringify_2 (config_json c) ++ newline) h.

(** ** The coordinator's client (lib/coordinator-client.ts) *)

(** The text before the path of a URL: up to the first slash after [://]. *)
Fixpoint upto_slash (s : string) : string :=
  match s with
  | EmptyString => EmptyString
  | String c s' => if Ascii.eqb c "/" then EmptyString else String c (upto_slash s')
  end.

Fixpoint url_origin (s : string) : option string :=
  match drop_prefix "://" s with
  | Some rest => Some ("://" ++ upto_slash rest)
  | None => match s with
            | String c s' => String c <$> url_origin s'
            | EmptyString => None
            end
  end.

(** [new URL(route, base)] for a route that starts with a slash. *)
Definition buildUrl (baseUrl route : string) : outcome string :=
  match url_origin baseUrl with Some o => Ok (o ++ route) | None => Throw "Invalid URL" end.

(** The message for an answer that is not a success. *)
Definition request_error (status : Z) (text : string) : string :=
  let data := if str_truthy text then match JSON_parse text with Some j => j | None => JStr text end else JNull in
  let errorCode := match data with
                   | JObj l => ojs_String (or_else (match jm_get "error" l with Some JNull => None | e => e end) (Some (JStr "")))
                   | _ => "" end in
  if (status =? 402)%Z then PAYMENT_REQUIRED
  else if (status =? 422)%Z then
    if String.eqb errorCode "no_trusted_worker" then NO_TRUSTED_WORKER
    else "Unprocessable entity: " ++ (if str_truthy errorCode then errorCode else "unknown")
  else if (status =? 404)%Z then "Requested resource not found."
  else match data with
       | JObj l => match jm_get "error" l with
                   | Some e => js_String e
                   | None => "HTTP " ++ Z_str status ++ ": " ++ text
                   end
       | JStr s => "HTTP " ++ Z_str status ++ ": " ++ s
       | _ => "HTTP " ++ Z_str status ++ ": " ++ text
       end.

Definition lift {A} (o : outcome A) : M A := match o with Ok a => ret a | Throw e => throw e end.

Definition requestJson (coordinatorUrl route method : string) (headers : list (string * string))
    (body : option string) : M json :=
  url ⇐ lift (buildUrl coordinatorUrl route) ;;
  r ⇐ catch (fetch (HttpReq method url headers body))
        (λ _, throw (coordinatorUnreachableMessage coordinatorUrl)) ;;
  if resp_ok r.1 then resp_json r.2 else throw (request_error r.1 r.2).

Definition getHealth (url : string) : M json := requestJson url "/v1/health" "GET" [] None.

Definition getQuote (url : string) (jobType : JobType) (policy : Policy) : M json :=
  requestJson url ("/v1/quote?job_type=" ++ JobType_str jobType ++ "&policy=" ++ Policy_str policy) "GET" [] None.

(** [encodeURIComponent]: percent-encoded UTF-8. *)
Definition uri_unreserved (c : ascii) : bool :=
  let n := nat_of_ascii c in
  ((65 <=? n) && (n <=? 90) || (97 <=? n) && (n <=? 122) || (48 <=? n) && (n <=? 57) ||
   existsb (Nat.eqb n) [45; 95; 46; 33; 126; 42; 39; 40; 41])%nat.
Definition HEX (n : nat) : ascii := if (n <? 10)%nat then ascii_of_nat (48 + n) else ascii_of_nat (55 + n).
Definition percent (n : nat) : string := String "%" (String (HEX (n / 16)) (String (HEX (n mod 16)) EmptyString)).

Fixpoint encodeURIComponent (s : string) : string :=
  match s with
  | EmptyString => EmptyString
  | String c s' =>
      let n := nat_of_ascii c in
      (if uri_unreserved c then String c EmptyString
       else if (n <? 128)%nat then percent n
       else percent (192 + n / 64) ++ percent (128 + n mod 64)) ++ encodeURIComponent s'
  end.

Definition getJobStatus (url jobId : string) : M json :=
  requestJson url ("/v1/jobs/" ++ encodeURIComponent jobId) "GET" [] None.

Definition claimTrustPairing (url pairingCode providerPubkey : string) : M json :=
  requestJson url "/v1/trust/claim" "POST" [("Content-Type", "application/json")]
    (Some (JSON_stringify (JObj [("pairing_code", JStr pairingCode); ("provider_pubkey", JStr providerPubkey)]))).

(** ** Commands

    A command writes to standard output and ends, or prints an error and exits
    with 1 ([Throw] here holds the line [printCommandError] prints). *)

Definition printCommandError (message : string) : string :=
  if startsWith message "Error:" then message else "Error: " ++ message.

Definition exits {A} (m : M A) : M A := catch m (λ e, throw (printCommandError e)).

(** A configuration value where a method of strings is called on it. *)
Definition as_string (j : json) : outcome string :=
  match j with JStr s => Ok s | _ => Throw "value.trim is not a function" end.

Definition config_chain (chain : option string) (c : DispatchConfig) : outcome Chain :=
  match chain with
  | Some s => mapChain s
  | None => s <-- as_string (ag_defaultChain c) ;; mapChain s
  end.

Definition coordinator_of (c : DispatchConfig) (chain : Chain) : string :=
  js_String (match chain with Monad => co_monad c | Solana => co_solana c end).

Definition line (s : string) : string := s ++ newline.

(** [String(v ?? "")] of a member *)
Definition member_text (k : string) (l : jsmap json) : string :=
  js_String (nullish (jm_get k l) (JStr "")).

Definition formatReceipt (receipt : option json) : string :=
  match receipt with
  | Some (JObj l) =>
      let hash := member_text "output_hash" l in let worker := member_text "provider_pubkey" l in
      if str_truthy hash && str_truthy worker
      then "hash=" ++ String.substring 0 8 hash ++ "... worker=" ++ String.substring 0 8 worker ++ "..."
      else JSON_stringify (JObj l)
  | Some (JArr l) => JSON_stringify (JArr l)
  | _ => "none"
  end.

Definition writeResultPayload (output : option json) : string :=
  match output with
  | Some (JStr s) => line s
  | Some (JObj l) => match jm_get "text" l with
                     | Some t => line (js_String t)
                     | None => line (JSON_stringify_2 (JObj l))
                     end
  | Some j => line (JSON_stringify_2 j)
  | None => line "undefined"
  end.

Definition mapRunError (message type coordinatorUrl : string) : string :=
  if includes message "HTTP 402" || includes message "x402 payment required" then PAYMENT_REQUIRED
  else if includes message "no_trusted_worker" then NO_TRUSTED_WORKER
  else if includes message "timed out" then (if String.eqb type "llm" then JOB_TIMEOUT_60 else JOB_TIMEOUT_30)
  else if includes message "fetch failed" || includes message "Cannot reach coordinator"
  then coordinatorUnreachableMessage coordinatorUrl
  else message.

(** What [agent run] settles before it talks to the network. *)
Record RunPlan := {
  rp_cfg : RouterConfig; rp_job : JobType; rp_task : option TaskType; rp_opts : RunOpts }.

Definition run_plan (h : Host) (o : AgentRunOptions) : outcome RunPlan :=
  c <-- loadConfig h None ;;
  type <-- validateAgentRunArgs o ;;
  chain <-- config_chain (ar_chain o) c ;;
  policy <-- mapPolicy (default (js_String (ag_defaultPolicy c)) (ar_policy o)) ;;
  privacy <-- mapPrivacy (default (js_String (ag_defaultPrivacy c)) (ar_privacy o)) ;;
  jobType <-- mapJobType type ;;
  task <-- (match jobType with
            | LLM_INFER => Ok None
            | TASK => t <-- mapTaskType (default "" (ar_taskType o)) ;; Ok (Some t)
            end) ;;
  Ok {| rp_cfg := {| rt_monad := coordinator_of c Monad; rt_solana := coordinator_of c Solana;
                     rt_preferredHosted := None; rt_x402 := λ _, None |};
        rp_job := jobType; rp_task := task;
        rp_opts := {| ro_policy := Some (Policy_str policy); ro_privacy := Some (PrivacyClass_str privacy);
                      ro_user_id := js_String (ag_userId c); ro_chain := Some chain |} |}.

Definition run_job (o : AgentRunOptions) (p : RunPlan) : M ComputeResult :=
  match rp_task p with
  | None => runLLM (rp_cfg p) (default "" (ar_prompt o)) (Some (default 256%Z (ar_maxTokens o))) (rp_opts p)
  | Some t => runTask (rp_cfg p) (TaskType_str t) (default "" (ar_input o)) (rp_opts p)
  end.

Definition write_run (o : AgentRunOptions) (r : ComputeResult) : string :=
  if ar_json o then
    line (JSON_stringify_2 (JObj (member "result" (cr_output r) ++ [("route", JStr (cr_route r))] ++
      member "price" (cr_price r) ++ [("latency_ms", JNum (num_of_Z (cr_latency_ms r)))] ++
      member "receipt" (cr_receipt r))%list))
  else writeResultPayload (cr_output r).

(** What goes to standard error after the result, key by key. *)
Definition run_summary (r : ComputeResult) : list (string * string) :=
  [("Route:", cr_route r); ("Price:", js_String (nullish (cr_price r) (JStr "n/a")));
   ("Latency:", Z_str (cr_latency_ms r) ++ "ms"); ("Receipt:", formatReceipt (cr_receipt r))].

Definition run_fallback_coordinator (o : AgentRunOptions) : string :=
  match ar_chain o with
  | Some c => if String.eqb (toLowerCase c) "solana" then "http://localhost:4020" else "http://localhost:4010"
  | None => "http://localhost:4010"
  end.

Definition agent_run (h : Host) (o : AgentRunOptions) : M (string * list (string * string)) :=
  catch (p ⇐ lift (run_plan h o) ;;
         r ⇐ run_job o p ;;
         ret (write_run o r, run_summary r))
    (λ message, throw (printCommandError
       (mapRunError message (toLowerCase (ar_type o)) (run_fallback_coordinator o)))).

Record AgentQuoteOptions := {
  aq_type : string; aq_policy : option string; aq_chain : option string; aq_json : bool }.

Definition agent_quote (h : Host) (o : AgentQuoteOptions) : M string :=
  exits (c ⇐ lift (loadConfig h None) ;;
         chain ⇐ lift (config_chain (aq_chain o) c) ;;
         policy ⇐ lift (mapPolicy (default (js_String (ag_defaultPolicy c)) (aq_policy o))) ;;
         jobType ⇐ lift (mapJobType (aq_type o)) ;;
         quote ⇐ getQuote (coordinator_of c chain) jobType policy ;;
         if aq_json o then ret (line (JSON_stringify_2 quote)) else
         price ⇐ prop "price" quote ;; endpoint ⇐ prop "endpoint" quote ;;
         resolved ⇐ prop "policy_resolved" quote ;; network ⇐ prop "network" quote ;;
         ret (line ("Price: " ++ ojs_String price) ++ line ("Endpoint: " ++ ojs_String endpoint) ++
              line ("Policy: " ++ ojs_String resolved) ++ line ("Network: " ++ ojs_String network))).

Definition ojson_truthy (j : option json) : bool := match j with Some j => json_truthy j | None => false end.

Definition writeHumanStatus (status : json) : M string :=
  id ⇐ prop "id" status ;; st ⇐ prop "status" status ;; completed ⇐ prop "completed_at" status ;;
  result ⇐ prop "result" status ;; receipt ⇐ prop "receipt" status ;;
  ret (line ("Job: " ++ ojs_String id) ++ line ("Status: " ++ ojs_String st) ++
       (if ojson_truthy completed then line ("Completed: " ++ ojs_String completed) else "") ++
       (match result with
        | None | Some JNull => ""
        | Some r => line ("Result: " ++ JSON_stringify r)
        end) ++
       (if ojson_truthy receipt then line ("Receipt: " ++ json_or_undefined receipt) else "")).

(** The loop of [--poll]; [None] when it is still polling after [fuel] polls. *)
Fixpoint poll_status (url jobId : string) (fuel : nat) (status : json) : M (option json) :=
  st ⇐ prop "status" status ;;
  if is_str "completed" st || is_str "failed" st then ret (Some status) else
  match fuel with
  | O => ret None
  | S fuel => _x ⇐ sleep 1000 ;; status ⇐ getJobStatus url jobId ;; poll_status url jobId fuel status
  end.

Record AgentStatusOptions := {
  as_coordinator : option string; as_chain : option string; as_json : bool; as_poll : bool }.

Definition agent_status (h : Host) (jobId : string) (o : AgentStatusOptions) (fuel : nat) : M (option string) :=
  exits (c ⇐ lift (loadConfig h None) ;;
         chain ⇐ lift (config_chain (as_chain o) c) ;;
         let coordinator := default (coordinator_of c chain) (as_coordinator o) in
         status ⇐ getJobStatus coordinator jobId ;;
         final ⇐ (if as_poll o then poll_status coordinator jobId fuel status else ret (Some status)) ;;
         match final with
         | None => ret None
         | Some s => if as_json o then ret (Some (line (JSON_stringify_2 s)))
                     else t ⇐ writeHumanStatus s ;; ret (Some t)
         end).

(** ** Setup (commands/init.ts, lib/keys.ts) *)

(** A key pair of [nacl.sign.keyPair], as bytes. *)
Record Keypair := { publicKey : list Z; secretKey : list Z }.

Definition bytes_json (l : list Z) : json := JArr (map (λ b, JNum (num_of_Z b)) l).

Definition keypair_text (k : Keypair) : string :=
  JSON_stringify_2 (JObj [("publicKey", bytes_json (publicKey k)); ("secretKey", bytes_json (secretKey k))]) ++ newline.

Definition saveKeypair (keyPath : string) (k : Keypair) (h : Host) : Host :=
  write_file (resolve h keyPath) (keypair_text k) h.

(** The reply to each prompt of the terminal. *)
Definition ask (reply : string → string) (question fallback : string) : string :=
  let response := trim (reply (question ++ " [" ++ fallback ++ "]: ")) in
  if str_truthy response then response else fallback.

Definition init_mode (reply : string → string) : string :=
  let m := toLowerCase (ask reply "Choose mode (worker / agent / both)" "both") in
  if String.eqb m "worker" || String.eqb m "agent" || String.eqb m "both" then m else "both".

Definition Chain_str (c : Chain) : string := match c with Monad => "monad" | Solana => "solana" end.
Definition KEY_PATH : string := "./data/worker-key.json".

Definition jobtypes_json (l : list JobType) : json := JArr (map (λ t, JStr (JobType_str t)) l).

(** [random] is the hex text of the four random bytes. *)
Definition init_config (reply : string → string) (random : string) : outcome DispatchConfig :=
  let m := init_mode reply in
  let monad := ask reply "Monad coordinator URL" "http://localhost:4010" in
  let solana := ask reply "Solana coordinator URL" "http://localhost:4020" in
  let is_worker := String.eqb m "worker" || String.eqb m "both" in
  let is_agent := String.eqb m "agent" || String.eqb m "both" in
  let ollamaUrl := if is_worker then ask reply "Ollama URL" "http://localhost:11434" else "http://localhost:11434" in
  capabilities <-- (if is_worker then mapCapabilities (ask reply "Capabilities" "LLM_INFER,TASK")
                    else Ok [LLM_INFER; TASK]) ;;
  defaultChain <-- (if is_agent then mapChain (ask reply "Default chain" "monad") else Ok Monad) ;;
  defaultPolicy <-- (if is_agent then mapPolicy (ask reply "Default policy" "auto") else Ok AUTO) ;;
  Ok (mkConfig (JStr m) (JStr monad) (JStr solana) (JStr KEY_PATH)
        (jobtypes_json capabilities) (JStr ollamaUrl) (JStr "DESKTOP")
        (JStr (Chain_str defaultChain)) (JStr (Policy_str defaultPolicy)) (JStr (PrivacyClass_str PUBLIC))
        (JStr ("cli-" ++ random))).

Definition init (reply : string → string) (k : Keypair) (random : string) (h : Host) : outcome Host :=
  c <-- init_config reply random ;;
  let h := saveKeypair KEY_PATH k h in
  Ok (saveConfig c (Some (cwd h ++ "/.dispatchrc")) h).

(** ** Starting a worker (commands/worker/start.ts) *)

Definition formatUptime (ms : Z) : string :=
  let totalSeconds := (ms / 1000)%Z in
  let hours := (totalSeconds / 3600)%Z in
  let minutes := (totalSeconds mod 3600 / 60)%Z in
  let seconds := (totalSeconds mod 60)%Z in
  if (0 <? hours)%Z then Z_str hours ++ "h " ++ Z_str minutes ++ "m"
  else if (0 <? minutes)%Z then Z_str minutes ++ "m " ++ Z_str seconds ++ "s"
  else Z_str seconds ++ "s".

Record WorkerStartOptions := {
  ws_coordinator : option string; ws_capabilities : option string; ws_ollamaUrl : option string;
  ws_trustCode : option string; ws_keyPath : option string }.

Record StartConfig := {
  sc_coordinatorUrl : json; sc_capabilities : json; sc_ollamaUrl : json; sc_keyPath : json;
  sc_trustPairingCode : option string }.

(** [v.length > 0], for a [length] that is a number *)
Definition has_length (j : json) : outcome bool :=
  match j with
  | JArr l => Ok (negb (Nat.eqb (length l) 0))
  | JStr s => Ok (str_truthy s)
  | JObj l => match jm_get "length" l with
              | Some (JNum n) => Ok (num_ltb (num_of_Z 0) n)
              | _ => Ok false
              end
  | JNull => Throw "Cannot read properties of null (reading 'length')"
  | _ => Ok false
  end.

Definition worker_start_config (h : Host) (o : WorkerStartOptions) : outcome StartConfig :=
  c <-- loadConfig h None ;;
  let or_config v d := match v with Some s => JStr s | None => d end in
  capabilities <-- (if ostr_truthy (ws_capabilities o)
                    then l <-- mapCapabilities (default "" (ws_capabilities o)) ;; Ok (jobtypes_json l)
                    else Ok (wk_capabilities c)) ;;
  some <-- has_length capabilities ;;
  Ok {| sc_coordinatorUrl := or_config (ws_coordinator o) (co_monad c);
        sc_capabilities := if (some : bool) then capabilities else jobtypes_json [LLM_INFER; TASK];
        sc_ollamaUrl := or_config (ws_ollamaUrl o) (wk_ollamaUrl c);
        sc_keyPath := or_config (ws_keyPath o) (wk_keyPath c);
        sc_trustPairingCode := ws_trustCode o |}.

(** ** The configuration is read back *)

Definition is_null (j : json) : bool := match j with JNull => true | _ => false end.

(** Values JSON can hold and that no default replaces. *)
Definition storable (c : DispatchConfig) : Prop :=
  Forall (λ j, json_ok j = true ∧ is_null j = false)
    [mode c; co_monad c; co_solana c; wk_keyPath c; wk_capabilities c; wk_ollamaUrl c; wk_providerType c;
     ag_defaultChain c; ag_defaultPolicy c; ag_defaultPrivacy c; ag_userId c].

Lemma nullish_some j d : is_null j = false → nullish (Some j) d = j.
Proof. by destruct j. Qed.

Lemma mergeDefaults_config c : storable c → mergeDefaults (config_json c) = Ok c.
Proof.
  unfold storable. rewrite !list.Forall_cons. intros H. destruct_and! H. destruct c.
  cbn in *. unfold mergeDefaults, config_json. cbv -[nullish is_null DEFAULT_CONFIG json_ok].
  rewrite !nullish_some by done. reflexivity.
Qed.

Lemma config_json_ok c : storable c → json_ok (config_json c) = true.
Proof.
  unfold storable. rewrite !list.Forall_cons. intros H. destruct_and! H. destruct c.
  unfold config_json. cbn [json_ok forallb snd mode co_monad co_solana wk_keyPath wk_capabilities wk_ollamaUrl
    wk_providerType ag_defaultChain ag_defaultPolicy ag_defaultPrivacy ag_userId] in *.
  repeat match goal with E : json_ok _ = true |- _ => rewrite E; clear E end. reflexivity.
Qed.

(** What is written at a path is what is loaded from it. *)
Lemma load_written h p c : jm_get p (files h) = Some (JSON_stringify_2 (config_json c) ++ newline) →
  storable c → resolveConfigPath h None = Some p → loadConfig h None = Ok c.
Proof.
  intros Hf Hc Hp. unfold loadConfig. rewrite Hp, Hf, (parse_pretty_line _ (config_json_ok c Hc)).
  by apply mergeDefaults_config.
Qed.

Lemma jobtypes_json_ok l : json_ok (jobtypes_json l) = true.
Proof. induction l as [|t l IH]; [done|]. exact IH. Qed.

Lemma bind_ok {A B} (m : outcome A) (k : A → outcome B) b :
  (x <-- m ;; k x) = Ok b → ∃ a, m = Ok a ∧ k a = Ok b.
Proof. destruct m as [a|e]; simpl; [eauto | done]. Qed.

Lemma init_config_ok reply random c : init_config reply random = Ok c →
  storable c ∧ (∃ chain, config_chain None c = Ok chain) ∧
  (∃ policy, mapPolicy (js_String (ag_defaultPolicy c)) = Ok policy) ∧
  mapPrivacy (js_String (ag_defaultPrivacy c)) = Ok PUBLIC.
Proof.
  unfold init_config. intros (caps & _ & H)%bind_ok. apply bind_ok in H as (chain & _ & H).
  apply bind_ok in H as (policy & _ & [= <-]). split_and!.
  - unfold storable. repeat (apply list.Forall_cons_2; [split; [exact (jobtypes_json_ok caps) || done | done]|]).
    by apply list.Forall_nil_2.
  - exists chain. by destruct chain.
  - exists policy. by destruct policy.
  - done.
Qed.

Lemma string_app_inj_l (p s t : string) : p ++ s = p ++ t → s = t.
Proof. induction p as [|c p IH]; [done|]. intros [= H]. by apply IH. Qed.

Lemma startsWith_app (s t : string) : startsWith s "/" = true → startsWith (s ++ t) "/" = true.
Proof.
  destruct s as [|c s]; [done|]. unfold startsWith. change (String c s ++ t) with (String c (s ++ t)).
  cbn [String.prefix]. by destruct (ascii_dec "/" c), s, t.
Qed.

Lemma resolve_absolute h p : startsWith p "/" = true → resolve h p = p.
Proof. unfold resolve. by intros ->. Qed.

(** The two files [init] writes. *)
Lemma init_files c k h : startsWith (cwd h) "/" = true →
  files (saveConfig c (Some (cwd h ++ "/.dispatchrc")) (saveKeypair KEY_PATH k h)) =
  jm_set (cwd h ++ "/.dispatchrc") (JSON_stringify_2 (config_json c) ++ newline)
    (jm_set (cwd h ++ "/" ++ KEY_PATH) (keypair_text k) (files h)).
Proof.
  intros Hcwd. unfold saveConfig, default, from_option, id.
  by rewrite (resolve_absolute _ (cwd h ++ _)) by by apply startsWith_app.
Qed.

Lemma validate_type o t : validateAgentRunArgs o = Ok t → t = "llm" ∨ t = "task".
Proof.
  unfold validateAgentRunArgs. generalize (normalize (ar_type o)). intros n.
  destruct (String.eqb_spec n "task") as [->|Ht]; [|destruct (String.eqb_spec n "llm") as [->|Hl]].
  - repeat case_match; naive_solver.
  - repeat case_match; naive_solver.
  - by cbn.
Qed.

(** C31: setup works.  From an absolute directory and without an override,
    [init] either rejects an answer and writes nothing, or writes the key pair
    over whatever key file was there and a [.dispatchrc] that every later
    command loads, through its text, as exactly the configuration chosen;
    its defaults are accepted by the commands, so [agent run] needs no chain,
    policy or privacy on the command line, and its jobs are public. *)
Theorem init_is_read_back reply k random h :
  overridePath h = None → startsWith (cwd h) "/" = true →
  match init reply k random h with
  | Throw e => init_config reply random = Throw e
  | Ok h' => ∃ c, init_config reply random = Ok c ∧ loadConfig h' None = Ok c ∧
      jm_get (cwd h ++ "/" ++ KEY_PATH) (files h') = Some (keypair_text k) ∧
      (∀ o t, validateAgentRunArgs o = Ok t → ar_chain o = None → ar_policy o = None → ar_privacy o = None →
         (t = "llm" ∨ ∃ ty, mapTaskType (default "" (ar_taskType o)) = Ok ty) →
         ∃ p, run_plan h' o = Ok p ∧ ro_privacy (rp_opts p) = Some "PUBLIC" ∧
              (rp_task p = None ↔ t = "llm"))
  end.
Proof.
  intros Hov Hcwd. unfold init. destruct (init_config reply random) as [c|e] eqn:Hc; [|done].
  destruct (init_config_ok _ _ _ Hc) as (Hst & [chain Hchain] & [policy Hpolicy] & Hpriv).
  cbn [obind]. change (cwd (saveKeypair KEY_PATH k h)) with (cwd h). set (h' := saveConfig _ _ _).
  assert (jm_get (cwd h ++ "/.dispatchrc") (files h') = Some (JSON_stringify_2 (config_json c) ++ newline)) as Hf.
  { unfold h'. rewrite init_files by done. by rewrite jm_get_set_eq. }
  assert (loadConfig h' None = Ok c) as Hload.
  { eapply load_written; [exact Hf | done |]. unfold resolveConfigPath.
    change (overridePath h') with (overridePath h). change (cwd h') with (cwd h). rewrite Hov. cbn [or_else].
    unfold existingPath at 1. rewrite resolve_absolute by by apply startsWith_app. by rewrite Hf. }
  exists c. split_and!; [done | done | |].
  - unfold h'. rewrite init_files, jm_get_set_ne by (done || intros E%string_app_inj_l; done).
    by rewrite jm_get_set_eq.
  - intros o t Ht Ho1 Ho2 Ho3 Hty. unfold run_plan. rewrite Hload, Ht, Ho1, Ho2, Ho3. cbn [obind default].
    rewrite Hchain, Hpolicy, Hpriv. cbn [obind].
    destruct (validate_type _ _ Ht) as [-> | ->]; [by eexists|].
    destruct Hty as [? | [ty Hty]]; [done|].
    change (mapJobType "task") with (Ok TASK). cbn [obind]. rewrite Hty. by eexists.
Qed.

(** C32: how [agent run] fails.  Either the configuration or an argument was
    wrong and no request was made, or every adapter failed and the message is
    the router's: the payment, trust, timeout and connection messages that
    [mapRunError] has for a failed job are never shown for one. *)
Theorem agent_run_failures h o env w message w' :
  agent_run h o env w = (Throw message, w') →
  (w' = w ∧ ∃ e, run_plan h o = Throw e ∧
     message = printCommandError (mapRunError e (toLowerCase (ar_type o)) (run_fallback_coordinator o))) ∨
  message = "Error: " ++ ALL_FAILED.
Proof.
  unfold agent_run, catch, bind, lift. destruct (run_plan h o) as [p|e].
  - cbn. intros H. right.
    destruct (run_job o p env w) as [[r|e] w1] eqn:E; [done|]. injection H as <- _.
    assert (e = ALL_FAILED) as ->.
    { unfold run_job in E. by destruct (rp_task p); apply fallback_error in E. }
    by vm_compute.
  - cbn. intros [= <- <-]. left. eauto.
Qed.

(** A coordinator that answers 402 to everything, and no keys: the user is not told about the payment. *)
Definition sc_host : Host := {| files := [("/w/.dispatchrc", "{}")]; cwd := "/w"; homedir := "/home/u"; overridePath := None |}.
Definition sc_run : AgentRunOptions :=
  {| ar_type := "llm"; ar_prompt := Some "What is gravity?"; ar_input := None; ar_taskType := None; ar_policy := None;
     ar_privacy := None; ar_chain := None; ar_maxTokens := None; ar_json := false |}.

Lemma agent_run_failures_witness :
  ∃ message w', agent_run sc_host sc_run (constant_env 402 "payment") (mkWorld 0 []) = (Throw message, w') ∧
    message = "Error: " ++ ALL_FAILED ∧ length (w_log w') = 1%nat.
Proof.
  destruct (agent_run sc_host sc_run (constant_env 402 "payment") (mkWorld 0 [])) as [r w'] eqn:E.
  destruct r as [r|message]; [vm_compute in E; discriminate E|].
  exists message, w'. split; [reflexivity|].
  pose proof (agent_run_failures sc_host sc_run (constant_env 402 "payment") (mkWorld 0 []) message w' E) as H.
  vm_compute in E. injection E as <- <-. destruct H as [[H _]|H]; [discriminate H|]. split; [exact H | reflexivity].
Defined.

(** Answers that choose the Solana chain, and the defaults otherwise. *)
Definition sc_reply (q : string) : string := if startsWith q "Default chain" then " Solana " else "".

Lemma init_is_read_back_witness :
  ∃ h' c, init sc_reply {| publicKey := [1]; secretKey := [2] |}%Z "00ff00ff" sc_host = Ok h' ∧
    loadConfig h' None = Ok c ∧ ag_defaultChain c = JStr "solana" ∧ ag_userId c = JStr "cli-00ff00ff" ∧
    ∃ p, run_plan h' sc_run = Ok p.
Proof.
  pose proof (init_is_read_back sc_reply {| publicKey := [1]; secretKey := [2] |}%Z "00ff00ff" sc_host
    eq_refl eq_refl) as H.
  destruct (init _ _ _ sc_host) as [h'|e] eqn:E; [|vm_compute in E; discriminate E].
  destruct H as (c & Hc & Hload & _ & Hrun). exists h', c. split; [reflexivity|]. split; [exact Hload|].
  vm_compute in Hc. injection Hc as <-. split; [reflexivity|]. split; [reflexivity|].
  destruct (Hrun sc_run "llm" eq_refl eq_refl eq_refl eq_refl (or_introl eq_refl)) as (p & Hp & _). by exists p.
Defined.
