(* ===== verification/WorkerKeys.v ===== *)
(** * Key files of the workers

    packages/cli/src/lib/keys.ts, apps/worker-desktop/src/keys.ts and the keys
    of the simulator: a key pair is created once, stored as two JSON arrays of
    bytes, and read back at every later start.  Files are those of [Host]
    (Cli.v); directories exist. *)

From stdpp Require Import base list strings option.
From Stdlib Require Import ZArith Lia Ascii SpecFloat.
From S2P Require Import Prelude Js Json JsonPretty Cli.
Local Open Scope string_scope.

(** ** Bytes *)

(** ToUint8: truncation towards zero, modulo 256. *)
Definition to_uint8 (x : jsnum) : Z :=
  match x with
  | S754_finite s m e =>
      let a := if (0 <=? e)%Z then Zpos m * 2 ^ e else Zpos m / 2 ^ (- e) in
      (if s then - a else a) mod 256
  | _ => 0
  end%Z.

Definition uint8_element (j : json) : option Z :=
  match j with
  | JNum x => Some (to_uint8 x)
  | JNull => Some 0%Z
  | JBool b => Some (if b then 1 else 0)%Z
  | _ => None
  end.

(** [Uint8Array.from(j)]: [None] for elements whose conversion to a number is
    not modelled (strings, arrays and objects). *)
Definition Uint8Array_from (j : option json) : option (outcome (list Z)) :=
  match j with
  | None | Some JNull => Some (Throw "undefined is not iterable")
  | Some (JArr l) => Ok <$> mapM uint8_element l
  | Some (JNum _) | Some (JBool _) => Some (Ok [])
  | Some (JObj l) => if decide (jm_get "length" l = None) then Some (Ok []) else None
  | Some (JStr _) => None
  end.

(** [Buffer.from(bytes).toString("hex")] *)
Fixpoint bytes_hex (l : list Z) : string :=
  match l with
  | [] => ""
  | b :: l => String (hex_digit (Z.to_nat (b / 16))) (String (hex_digit (Z.to_nat (b mod 16))) (bytes_hex l))
  end.

Definition pubkeyHex (k : Keypair) : string := bytes_hex (publicKey k).

(** [null.publicKey] throws; a property of another value is undefined. *)
Definition data_prop (k : string) (j : json) : outcome (option json) :=
  match j with
  | JNull => Throw ("Cannot read properties of null (reading '" ++ k ++ "')")
  | JObj l => Ok (jm_get k l)
  | _ => Ok None
  end.

(** The two arrays of a parsed key file, read in the order [first], [second]. *)
Definition read_arrays (first second : string) (data : json) : option (outcome (list Z * list Z)) :=
  match data_prop first data, data_prop second data with
  | Ok a, Ok b =>
      match Uint8Array_from a with
      | Some (Ok x) => match Uint8Array_from b with
                       | Some (Ok y) => Some (Ok (x, y))
                       | Some (Throw e) => Some (Throw e)
                       | None => None
                       end
      | Some (Throw e) => Some (Throw e)
      | None => None
      end
  | Throw e, _ | _, Throw e => Some (Throw e)
  end.

(** ** lib/keys.ts *)

Definition toKeypair (stored : json) : option (outcome Keypair) :=
  match read_arrays "publicKey" "secretKey" stored with
  | Some (Ok (p, s)) => Some (Ok {| publicKey := p; secretKey := s |})
  | Some (Throw e) => Some (Throw e)
  | None => None
  end.

Definition loadKeypair (keyPath : string) (h : Host) : option (outcome Keypair) :=
  match jm_get (resolve h keyPath) (files h) with
  | None => Some (Throw "ENOENT: no such file or directory")
  | Some raw => match JSON_parse raw with
                | None => Some (Throw "Unexpected token in JSON")
                | Some parsed => toKeypair parsed
                end
  end.

(** [generated]: what [nacl.sign.keyPair()] returns. *)
Definition loadOrCreateKeypair (keyPath : string) (generated : Keypair) (h : Host)
    : option (outcome Keypair * Host) :=
  let filePath := resolve h keyPath in
  match jm_get filePath (files h) with
  | Some _ => r ← loadKeypair filePath h; Some (r, h)
  | None => Some (Ok generated, saveKeypair filePath generated h)
  end.

(** ** The desktop worker and the simulator *)

Definition compact_text (k : Keypair) : string :=
  JSON_stringify (JObj [("publicKey", bytes_json (publicKey k)); ("secretKey", bytes_json (secretKey k))]).

(** Both read [data.secretKey] before [data.publicKey]. *)
Definition app_loadOrCreateKeypair (keyPath : string) (generated : Keypair) (h : Host)
    : option (outcome Keypair * Host) :=
  let keyFile := resolve h keyPath in
  match jm_get keyFile (files h) with
  | Some raw =>
      match JSON_parse raw with
      | None => Some (Throw "Unexpected token in JSON", h)
      | Some data =>
          match read_arrays "secretKey" "publicKey" data with
          | Some (Ok (s, p)) => Some (Ok {| publicKey := p; secretKey := s |}, h)
          | Some (Throw e) => Some (Throw e, h)
          | None => None
          end
      end
  | None => Some (Ok generated, write_file keyFile (compact_text generated) h)
  end.

(** The path of the desktop worker's file. *)
Abbreviation desktop_key_path WORKER_KEY_PATH := (default "./data/worker-key.json" WORKER_KEY_PATH)%string.
Definition desktop_loadOrCreateKeypair (WORKER_KEY_PATH : option string) :=
  app_loadOrCreateKeypair (desktop_key_path WORKER_KEY_PATH).
Definition sim_loadOrCreateKeypair := app_loadOrCreateKeypair "./data/seeker-key.json".

(** ** Reading back *)

Definition byte (b : Z) : Prop := (0 <= b < 256)%Z.
Definition good_keys (k : Keypair) : Prop := Forall byte (publicKey k) ∧ Forall byte (secretKey k).

Definition byte_ok (b : Z) : bool := num_reads_back (num_of_Z b) && (to_uint8 (num_of_Z b) =? b)%Z.

Lemma all_bytes : forallb (λ n, byte_ok (Z.of_nat n)) (seq 0 256) = true.
Proof. vm_compute. reflexivity. Qed.

Lemma byte_back b : byte b → num_reads_back (num_of_Z b) = true ∧ to_uint8 (num_of_Z b) = b.
Proof.
  intros Hb. pose proof (proj1 (forallb_forall _ _) all_bytes (Z.to_nat b)) as H.
  unfold byte, byte_ok in *. rewrite in_seq, Z2Nat.id, andb_true_iff, Z.eqb_eq in H by lia. apply H. lia.
Qed.

Lemma bytes_json_ok l : Forall byte l → json_ok (bytes_json l) = true.
Proof.
  intros Hl. cbn. induction Hl as [|b l Hb _ IH]; [done|]. cbn. by rewrite (proj1 (byte_back b Hb)).
Qed.

Lemma Uint8Array_from_bytes l : Forall byte l → Uint8Array_from (Some (bytes_json l)) = Some (Ok l).
Proof.
  intros Hl. cbn. replace (mapM uint8_element _) with (Some l); [done|].
  induction Hl as [|b l Hb _ IH]; [done|]. cbn. rewrite (proj2 (byte_back b Hb)).
  cbn in IH. by rewrite <- IH.
Qed.

Lemma stored_ok k : good_keys k →
  json_ok (JObj [("publicKey", bytes_json (publicKey k)); ("secretKey", bytes_json (secretKey k))]) = true.
Proof.
  intros [Hp Hs]. cbn [json_ok forallb snd]. by rewrite !bytes_json_ok.
Qed.

Lemma stored_arrays k : good_keys k →
  let data := JObj [("publicKey", bytes_json (publicKey k)); ("secretKey", bytes_json (secretKey k))] in
  read_arrays "publicKey" "secretKey" data = Some (Ok (publicKey k, secretKey k)) ∧
  read_arrays "secretKey" "publicKey" data = Some (Ok (secretKey k, publicKey k)).
Proof.
  intros [Hp Hs]. unfold read_arrays. cbv -[Uint8Array_from bytes_json publicKey secretKey].
  by rewrite !Uint8Array_from_bytes.
Qed.

Lemma resolve_idem h p : startsWith (cwd h) "/" = true → resolve h (resolve h p) = resolve h p.
Proof.
  intros Hc. unfold resolve. destruct (startsWith p "/") eqn:Hp; [by rewrite Hp|].
  assert (startsWith (cwd h ++ "/" ++ p) "/" = true) as ->; [|done].
  destruct (cwd h) as [|c s]; [done|]. change (String c s ++ "/" ++ p) with (String c (s ++ "/" ++ p)).
  unfold startsWith in *. cbn [String.prefix] in *. destruct (ascii_dec "/" c); [by destruct (s ++ _) | done].
Qed.

Lemma cli_key_created keyPath k k2 h :
  startsWith (cwd h) "/" = true → good_keys k → jm_get (resolve h keyPath) (files h) = None →
  ∃ h', loadOrCreateKeypair keyPath k h = Some (Ok k, h') ∧ loadOrCreateKeypair keyPath k2 h' = Some (Ok k, h').
Proof.
  intros Hc Hk Hn. destruct (stored_arrays k Hk) as [Hps _]. cbv zeta in Hps.
  unfold loadOrCreateKeypair. rewrite Hn. eexists. split; [done|].
  unfold saveKeypair. rewrite resolve_idem by done.
  change (resolve (write_file ?p ?t h) keyPath) with (resolve h keyPath).
  cbn [files write_file]. rewrite jm_get_set_eq. unfold loadKeypair.
  change (resolve (write_file ?p ?t h) (resolve h keyPath)) with (resolve h (resolve h keyPath)).
  rewrite resolve_idem by done. cbn [files write_file]. rewrite jm_get_set_eq.
  unfold keypair_text. rewrite parse_pretty_line by (by apply stored_ok).
  unfold toKeypair. rewrite Hps. by destruct k.
Qed.

(** C36: a worker keeps its identity.  The first start of a worker without a key
    file creates one; from then on every start reads the same pair of keys back
    from it, whatever the generator would return, and writes nothing: so for
    the CLI, the desktop worker and the simulator.  A file that does not parse
    stops the worker and is not overwritten. *)
Theorem worker_keys_survive_restarts keyPath k k2 h :
  startsWith (cwd h) "/" = true → good_keys k → jm_get (resolve h keyPath) (files h) = None →
  (∃ h', loadOrCreateKeypair keyPath k h = Some (Ok k, h') ∧
         loadOrCreateKeypair keyPath k2 h' = Some (Ok k, h')) ∧
  (∃ h', app_loadOrCreateKeypair keyPath k h = Some (Ok k, h') ∧
         app_loadOrCreateKeypair keyPath k2 h' = Some (Ok k, h')) ∧
  (∀ raw h', JSON_parse raw = None → jm_get (resolve h' keyPath) (files h') = Some raw →
     startsWith (cwd h') "/" = true →
     loadOrCreateKeypair keyPath k2 h' = Some (Throw "Unexpected token in JSON", h') ∧
     app_loadOrCreateKeypair keyPath k2 h' = Some (Throw "Unexpected token in JSON", h')).
Proof.
  intros Hc Hk Hn. destruct (stored_arrays k Hk) as [_ Hsp]. cbv zeta in Hsp.
  split_and!; [by apply cli_key_created | |].
  - unfold app_loadOrCreateKeypair. rewrite Hn. eexists. split; [done|].
    change (resolve (write_file ?p ?t h) keyPath) with (resolve h keyPath).
    cbn [files write_file]. rewrite jm_get_set_eq. unfold compact_text.
    rewrite parse_stringify by (by apply stored_ok). rewrite Hsp. by destruct k.
  - intros raw h' Hbad Hraw Hc'. unfold loadOrCreateKeypair, app_loadOrCreateKeypair, loadKeypair.
    rewrite resolve_idem by done. by rewrite Hraw, Hbad.
Qed.

Definition sc_keys : Keypair := {| publicKey := [1; 255]%Z; secretKey := [7; 0]%Z |}.
Definition sc_other_keys : Keypair := {| publicKey := [2]%Z; secretKey := [3]%Z |}.
Definition sc_bare_host : Host := {| files := []; cwd := "/w"; homedir := "/root"; overridePath := None |}.

Lemma worker_keys_survive_restarts_witness :
  ∃ h', sim_loadOrCreateKeypair sc_keys sc_bare_host = Some (Ok sc_keys, h') ∧
    sim_loadOrCreateKeypair sc_other_keys h' = Some (Ok sc_keys, h').
Proof.
  apply (proj1 (proj2 (worker_keys_survive_restarts "./data/seeker-key.json" sc_keys sc_other_keys sc_bare_host
    eq_refl ltac:(split; repeat constructor; unfold byte; lia) eq_refl))).
Defined.
