(* ===== verification/CliStart.v ===== *)
(** * The worker commands of the CLI

    commands/worker/start.ts as a process around the runtime of CliWorker.v:
    what it shows of the runtime's events and how it ends; worker status and
    version.  The lines are shown without their colours. *)

From stdpp Require Import base list strings option.
From Stdlib Require Import ZArith Lia.
From S2P Require Import Prelude Js Json Protocol Interfaces Executors Scenario Workers Router Cli CliWorker WorkerKeys.
Local Open Scope string_scope.
Local Open Scope router_scope.

(** [header], [keyValue] and [console.error] *)
Inductive Shown :=
  | SHeader (title : string)
  | SPair (key value : string)
  | SLine (text : string).

(** How a process ends: [process.exit], or the default action of a signal. *)
Inductive End :=
  | Exit (code : Z)
  | Signalled.

(** ** worker start *)

Section Start.
  Context `{!Ed25519} (sha256_hex : string → string) (cfg : RuntimeConfig).
  Context (version coordinatorUrl : string) (toLocaleTimeString : Z → string).

Record Proc := mkProc { p_rt : Runtime; p_lastJobLine : string; p_shown : list Shown; p_end : option End }.

Definition show (l : list Shown) (p : Proc) : Proc := mkProc (p_rt p) (p_lastJobLine p) (p_shown p ++ l)%list (p_end p).
Definition process_exit (code : Z) (p : Proc) : Proc := mkProc (p_rt p) (p_lastJobLine p) (p_shown p) (Some (Exit code)).
Definition with_rt (r : Runtime) (p : Proc) : Proc := mkProc r (p_lastJobLine p) (p_shown p) (p_end p).

Definition stats_lines (now : Z) (p : Proc) : list Shown :=
  let stats := getStats now (p_rt p) in
  [SLine ""; SPair "Jobs:" (Z_str (jobsCompleted stats) ++ " completed | " ++ Z_str (jobsFailed stats) ++
                           " failed | Uptime: " ++ formatUptime (uptime stats));
   SPair "Last job:" (p_lastJobLine p)].

(** The listeners.  There is none for [error], so that [emit] throws. *)
Definition on_runtime (now : Z) (p : Proc) (e : Emit) : Proc :=
  match p_end p with
  | Some _ => p
  | None =>
      match e with
      | EmJobComplete _ jobType durationMs _ =>
          let p := mkProc (p_rt p) (JobType_str jobType ++ " (" ++ Z_str durationMs ++ "ms) at " ++ toLocaleTimeString now)
                     (p_shown p) None in
          show (stats_lines now p) p
      | EmWarning message => show [SLine ("  Warning: " ++ message)] p
      | EmDisconnected => process_exit 0 (show [SLine "  Worker disconnected."] p)
      | EmError _ => process_exit 1 p
      | _ => p
      end
  end.

(** The time of an event; [clock] for those that do not carry it. *)
Definition event_now (e : RtEvent) (clock : Z) : Z :=
  match e with
  | RStart _ now | RMessage _ now _ | RResume now | RInferred _ _ now _ | RClose now | RStop now => now
  | _ => clock
  end.

(** [start] has returned. *)
Definition started_lines (now : Z) (p : Proc) : list Shown :=
  let stats := getStats now (p_rt p) in
  ([SHeader ("Worker v" ++ version); SPair "Public key:" (slice0 16 (CliWorker.pubkeyHex stats) ++ "...");
    SPair "Coordinator:" coordinatorUrl;
    SPair "Status:" ("Registered (" ++ default "unknown" (workerId stats) ++ ")")] ++ stats_lines now p)%list.

(** [printCommandError] *)
Definition command_failed (message : string) (p : Proc) : Proc :=
  process_exit 1 (show [SLine ("  " ++ printCommandError message)] p).

(** What follows a turn of the runtime that began in phase [before]. *)
Definition after_turn (now : Z) (before : Phase) (p : Proc) : Proc :=
  match p_end p with
  | Some _ => p
  | None =>
      match phase (p_rt p) with
      | StartFailed e => command_failed e p
      | Running => if bool_decide (before = Running) then p else show (started_lines now p) p
      | _ => p
      end
  end.

Inductive PEvent :=
  | PRuntime (e : RtEvent) (clock : Z)   (* the socket, the timers, the claim and the model *)
  | PSignal (now : Z).                   (* SIGINT or SIGTERM *)

Definition proc_turn (e : RtEvent) (clock : Z) (p : Proc) : Proc :=
  let r := p_rt p in
  let now := event_now e clock in
  match exec_rt sha256_hex cfg e r with
  | Throw err =>
      match phase r with
      | Running => process_exit 1 p               (* an unhandled rejection *)
      | _ => command_failed err p
      end
  | Ok r' => after_turn now (phase r) (foldl (on_runtime now) (with_rt r' p) (drop (length (emitted r)) (emitted r')))
  end.

(** Only the command stops the runtime, on a signal once [start] has returned. *)
Definition proc_step (p : Proc) (e : PEvent) : Proc :=
  match p_end p with
  | Some _ => p
  | None =>
      match e with
      | PRuntime (RStop _) _ => p
      | PRuntime e clock => proc_turn e clock p
      | PSignal now =>
          match phase (p_rt p) with
          | Running => process_exit 0 (with_rt (stop now (p_rt p)) p)
          | _ => mkProc (p_rt p) (p_lastJobLine p) (p_shown p) (Some Signalled)
          end
      end
  end.

Definition proc_init : Proc := mkProc CliWorker.init "none" [] None.
Definition proc_run (es : list PEvent) (p : Proc) : Proc := foldl proc_step p es.

(** ** How it ends *)

Definition mild (e : Emit) : Prop := match e with EmDisconnected | EmError _ => False | _ => True end.

(** [r'] continues [r], emitting only mild events. *)
Definition mildly (r r' : Runtime) : Prop := ∃ new, emitted r' = (emitted r ++ new)%list ∧ Forall mild new.

Lemma mildly_same r r' : emitted r' = emitted r → mildly r r'.
Proof. intros E. exists []. by rewrite app_nil_r. Qed.
Lemma mildly_emit e r r' : mild e → emitted r' = (emitted r ++ [e])%list → mildly r r'.
Proof. intros He E. exists [e]. split; [done | by constructor]. Qed.
Lemma mildly_trans r1 r2 r3 : mildly r1 r2 → mildly r2 r3 → mildly r1 r3.
Proof.
  intros (n1 & E1 & M1) (n2 & E2 & M2). exists (n1 ++ n2)%list. rewrite E2, E1, app_assoc.
  split; [done | by apply Forall_app].
Qed.
Lemma mildly_status st now r r' : emitted r' = emitted r → mildly r (setStatus st now r').
Proof. intros E. eapply mildly_emit; [|unfold setStatus; cbn [emitted emit set_stats]; by rewrite E]. done. Qed.

Lemma finishJob_mild j t o f st now iso r r' :
  finishJob sha256_hex j t o f st now iso r = Ok r' → mildly r r'.
Proof.
  unfold finishJob. destruct (keypair r) as [sk|]; [|intros [= <-]; by apply mildly_same]. cbn [ws set_stats].
  destruct (ws r); [|done]. intros [= <-].
  eapply mildly_trans; [|by apply mildly_status]. apply (mildly_emit (EmJobComplete j t (now - st) f)); [done|]. cbn [emitted emit].
  by destruct (bool_decide _).
Qed.

Lemma handleJob_mild j t p now iso r r' : handleJob sha256_hex cfg j t p now iso r = Ok r' → mildly r r'.
Proof.
  unfold handleJob. destruct (keypair r) as [sk|]; [|intros [= <-]; by apply mildly_same].
  destruct (ws r); [|intros [= <-]; by apply mildly_same]. intros Hj.
  eapply mildly_trans; [by apply (mildly_status WWorking now r r)|].
  destruct t, (p_prompt p) as [prompt|]; try destruct (str_truthy prompt);
    try destruct (cli_job_output _ _ _ _ _) as [o f]; try (by eapply finishJob_mild).
  injection Hj as <-. by apply mildly_same.
Qed.

Definition ending (e : RtEvent) : bool := match e with RClose _ | RError _ | RStop _ => true | _ => false end.

Lemma exec_mild e r r' : exec_rt sha256_hex cfg e r = Ok r' → ending e = false → mildly r r'.
Proof.
  intros He Hn. destruct e as [sk now| |err| |m now iso| |now|res| |i reply now iso|now|err|now]; try done; cbn [exec_rt] in He.
  - case_bool_decide; injection He as <-; [|by apply mildly_same]. by apply (mildly_status WConnecting now r).
  - destruct (phase r); [..|case_bool_decide]; injection He as <-; apply mildly_same; try done. unfold start_connected.
    cbn [keypair set_phase set_listeners set_ws set_socket]. by destruct (keypair r).
  - destruct (phase r); [..|case_bool_decide]; try done; injection He as <-; by apply mildly_same.
  - case_bool_decide; injection He as <-; by apply mildly_same.
  - case_bool_decide; [|injection He as <-; by apply mildly_same]. unfold deliver in He.
    set (r1 := if ackListening r then onAck m r else r) in *.
    assert (emitted r1 = emitted r) as E1 by (unfold r1; destruct (ackListening r); [|done]; unfold onAck; by repeat case_match).
    assert (mildly r r1) as M1 by (by apply mildly_same).
    destruct (attached r1); [|by injection He as <-]. destruct m; cbn [handleMessage] in He; try (by injection He as <-); [done|].
    eapply mildly_trans; [exact M1|]. by eapply handleJob_mild.
  - case_bool_decide; injection He as <-; by apply mildly_same.
  - destruct (phase r) as [| | |id| | |]; try (injection He as <-; by apply mildly_same).
    unfold start_registered in He.
    match type of He with context [CliWorker.emit (EmRegistered id) ?x] => set (r1 := x) in * end.
    set (r2 := CliWorker.emit (EmRegistered id) r1) in *.
    assert (mildly r (startHeartbeat r2)) as M2.
    { apply (mildly_trans r r1); [by apply mildly_status|]. apply (mildly_emit (EmRegistered id)); [done|].
      unfold startHeartbeat, cleanupHeartbeat. by destruct (heartbeatTimer r2). }
    destruct (ostr_truthy _); [injection He as <-; exact M2|]. unfold start_listen in He.
    destruct (ws (startHeartbeat r2)); [|done]. injection He as <-. exact M2.
  - case_bool_decide; [|injection He as <-; by apply mildly_same]. unfold start_claimed, start_listen in He.
    destruct (ws (CliWorker.emit _ r)); [|done]. injection He as <-. by destruct res; (eapply mildly_emit; [|reflexivity]).
  - destruct (heartbeatTimer r); injection He as <-; apply mildly_same; [|done]. unfold heartbeat. by repeat case_match.
  - destruct (waiting r !! i) as [w|]; [|injection He as <-; by apply mildly_same].
    apply finishJob_mild in He as (new & E & M). by exists new.
Qed.

Lemma fold_mild now es : ∀ p, Forall mild es → p_end p = None →
  let p' := foldl (on_runtime now) p es in p_end p' = None ∧ p_rt p' = p_rt p.
Proof.
  induction es as [|e es IH]; intros p Hes Hp; [done|]. apply list.Forall_cons in Hes as [He Hes]. cbn [foldl].
  destruct (IH (on_runtime now p e) Hes) as [-> ->]; unfold on_runtime; rewrite Hp; by destruct e.
Qed.

(** While the process lives, a runtime whose [start] has returned listens. *)
Record proc_inv p : Prop := {
  pi_control : control_inv (p_rt p);
  pi_listens : phase (p_rt p) = Running → attached (p_rt p) = true ∧ ws (p_rt p) = true }.

Lemma exec_listens e r r' : exec_rt sha256_hex cfg e r = Ok r' → ending e = false →
  (phase r = Running → attached r = true ∧ ws r = true) → phase r' = Running → attached r' = true ∧ ws r' = true.
Proof.
  intros He Hn Hr Hp. destruct e as [sk now| |err| |m now iso| |now|res| |i reply now iso|now|err|now]; try done; cbn [exec_rt] in He.
  - case_bool_decide; injection He as <-; [done | auto].
  - destruct (phase r) eqn:E; [..|case_bool_decide]; injection He as <-; try congruence; [|by apply Hr | by cbn in *; congruence].
    revert Hp. unfold start_connected. by case_match.
  - destruct (phase r) eqn:E; [..|case_bool_decide]; try done; injection He as <-; try done; try congruence. by apply Hr.
  - case_bool_decide; injection He as <-; [done | auto].
  - case_bool_decide; [|injection He as <-; auto]. unfold deliver in He.
    set (r1 := if ackListening r then onAck m r else r) in *.
    assert (phase r1 = Running → attached r1 = true ∧ ws r1 = true) as H1.
    { unfold r1. destruct (ackListening r); [|done]. unfold onAck. by repeat case_match. }
    clearbody r1. destruct (attached r1) eqn:Ha; [|injection He as <-; by destruct (H1 Hp)].
    destruct m; cbn [handleMessage] in He; try (injection He as <-; rewrite Ha; by apply H1); [done|].
    apply handleJob_control in He as (E1 & E2 & E3 & _). rewrite E2, E3, Ha. apply H1. congruence.
  - case_bool_decide; injection He as <-; [done | auto].
  - destruct (phase r) as [| | |id| | |] eqn:E; try (injection He as <-; first [congruence | by apply Hr]). unfold start_registered, start_listen in He.
    case_match; [injection He as <-; done|]. case_match eqn:Hw; [|done]. injection He as <-. by rewrite <- Hw.
  - case_bool_decide; [|injection He as <-; auto]. unfold start_claimed, start_listen in He.
    case_match eqn:Hw; [|done]. injection He as <-. by rewrite <- Hw.
  - destruct (heartbeatTimer r); injection He as <-; [|auto]. revert Hp. unfold heartbeat. repeat case_match; auto.
  - destruct (waiting r !! i) as [w|]; [|injection He as <-; auto].
    apply finishJob_control in He as (E1 & E2 & E3 & _). rewrite E2, E3. apply Hr. exact (eq_trans (eq_sym E1) Hp).
Qed.

Lemma after_turn_rt now before p : p_rt (after_turn now before p) = p_rt p.
Proof. unfold after_turn. by repeat case_match. Qed.

Lemma turn_mild e clock p r' : exec_rt sha256_hex cfg e (p_rt p) = Ok r' → ending e = false → p_end p = None →
  let p' := proc_turn e clock p in
  p_rt p' = r' ∧ (phase (p_rt p) = Running → phase r' = Running → p_end p' = None).
Proof.
  intros He Hn Hp. destruct (exec_mild e _ _ He Hn) as (new & E & M). unfold proc_turn. rewrite He, E, drop_app_length.
  set (now := event_now e clock). destruct (fold_mild now new (with_rt r' p) M Hp) as [F1 F2].
  rewrite after_turn_rt, F2. split; [done|]. intros Hb Hr. unfold after_turn. rewrite F1, F2. cbn [p_rt with_rt]. rewrite Hr.
  case_bool_decide; done.
Qed.

(** The turns that can end a process that listens. *)
Lemma turn_close now clock p : p_end p = None →
  let p' := proc_turn (RClose now) clock p in
  if bool_decide (socket (p_rt p) = OPEN) && attached (p_rt p) then p_end p' = Some (Exit 0)
  else p_rt p' = (if bool_decide (socket (p_rt p) = OPEN) then set_socket CLOSED (p_rt p) else p_rt p) ∧
       (phase (p_rt p) = Running → p_end p' = None).
Proof.
  intros Hp. unfold proc_turn. cbn [exec_rt]. case_bool_decide as Ho; cbn [andb].
  - destruct (attached (p_rt p)) eqn:Ha.
    + unfold onClose. cbn [attached set_socket]. rewrite Ha.
      assert (∀ r, emitted (CliWorker.emit EmDisconnected (setStatus WDisconnected now (cleanupHeartbeat r))) =
        (emitted r ++ [EmStatus (getStats now (set_stats (with_status WDisconnected (stats (cleanupHeartbeat r))) (cleanupHeartbeat r)));
                       EmDisconnected])%list) as Hem.
      { intros r. cbn. rewrite <- app_assoc. unfold cleanupHeartbeat. by destruct (heartbeatTimer r). }
      rewrite Hem. cbn [emitted set_socket]. rewrite drop_app_length. cbn [foldl]. unfold on_runtime at 2. cbn [p_end with_rt].
      rewrite Hp. unfold on_runtime. cbn [p_end with_rt]. rewrite Hp. done.
    + unfold onClose. cbn [attached set_socket]. rewrite Ha. cbn [emitted set_socket]. rewrite drop_all. cbn [foldl].
      rewrite after_turn_rt. split; [done|]. intros Hr. unfold after_turn. cbn [p_end with_rt p_rt phase set_socket].
      rewrite Hp, Hr. done.
  - rewrite drop_all. cbn [foldl]. rewrite after_turn_rt. split; [done|]. intros Hr. unfold after_turn.
    cbn [p_end with_rt p_rt]. rewrite Hp, Hr. done.
Qed.

Lemma turn_error err clock p : p_end p = None →
  let p' := proc_turn (RError err) clock p in
  if attached (p_rt p) then p_end p' = Some (Exit 1) else p_rt p' = p_rt p.
Proof.
  intros Hp. unfold proc_turn. cbn [exec_rt]. destruct (attached (p_rt p)).
  - cbn [emitted CliWorker.emit]. rewrite drop_app_length. cbn [foldl]. unfold on_runtime. cbn [p_end with_rt]. by rewrite Hp.
  - rewrite drop_all. cbn [foldl]. by rewrite after_turn_rt.
Qed.

Lemma step_alive p e : proc_inv p → p_end (proc_step p e) = None → proc_inv (proc_step p e).
Proof.
  intros [Hc Hl] Hend. unfold proc_step in *. destruct (p_end p) eqn:Hp; [done|].
  destruct e as [e clock|now]; [|by destruct (phase (p_rt p))].
  destruct (ending e) eqn:Hn.
  - destruct e as [| | | | | | | | | |now|err|now]; try done.
    + pose proof (turn_close now clock p Hp) as Ht. cbv zeta in Ht.
      destruct (bool_decide (socket (p_rt p) = OPEN)) eqn:Ho; [destruct (attached (p_rt p)) eqn:Ha|]; cbn [andb] in Ht.
      * congruence.
      * destruct Ht as [E _]. split; rewrite E; [|intros Hr; by destruct (Hl Hr)]. by apply (control_eq (p_rt p)).
      * destruct Ht as [E _]. split; by rewrite E.
    + pose proof (turn_error err clock p Hp) as Ht. cbv zeta in Ht. destruct (attached (p_rt p)) eqn:Ha; [congruence|].
      split; rewrite Ht; [done | intros Hr; by destruct (Hl Hr)].
  - assert (p_end (proc_turn e clock p) = None ∧ proc_inv (proc_turn e clock p)) as [_ Hx]; [|by destruct e].
    assert (p_end (proc_turn e clock p) = None) as Hend' by (by destruct e). split; [done|]. clear Hend.
    destruct (exec_rt sha256_hex cfg e (p_rt p)) as [r'|err] eqn:He.
    + destruct (turn_mild e clock p r' He Hn Hp) as [E _]. split; rewrite E; [by eapply exec_rt_control|].
      intros Hr. by eapply exec_listens.
    + exfalso. unfold proc_turn in Hend'. rewrite He in Hend'. by destruct (phase (p_rt p)).
Qed.

Lemma finishJob_ok j t o f st now iso r : ws r = true → ∃ r', finishJob sha256_hex j t o f st now iso r = Ok r' ∧ socket r' = socket r.
Proof.
  intros Hw. unfold finishJob. destruct (keypair r); [|eauto]. cbn [ws set_stats]. rewrite Hw. eexists. split; [done|].
  cbn. by destruct (bool_decide _).
Qed.

Lemma handleJob_ok j t p now iso r : ∃ r', handleJob sha256_hex cfg j t p now iso r = Ok r' ∧ socket r' = socket r.
Proof.
  unfold handleJob. destruct (keypair r); [|eauto]. destruct (ws r) eqn:Hw; [|eauto].
  destruct t, (p_prompt p) as [prompt|]; try destruct (str_truthy prompt);
    try destruct (cli_job_output _ _ _ _ _) as [o f]; eauto; by apply (finishJob_ok _ _ _ _ _ _ _ (setStatus WWorking now r)).
Qed.

Lemma running_exec e r : control_inv r → phase r = Running → attached r = true → ws r = true → ending e = false →
  (∀ now iso, e = RMessage InNull now iso → socket r ≠ OPEN) →
  ∃ r', exec_rt sha256_hex cfg e r = Ok r' ∧ phase r' = Running ∧ socket r' = socket r.
Proof.
  intros Hc Hr Ha Hw Hn Hnull.
  destruct e as [sk now| |err| |m now iso| |now|res| |i reply now iso|now|err|now]; try done; cbn [exec_rt]; rewrite ?Hr;
    try (by eexists); try (rewrite bool_decide_false by done; by eexists).
  - case_bool_decide as Ho; [|by eexists]. rewrite deliver_attached by done.
    destruct m as [| |ok id er|j t p|]; cbn [handleMessage]; try (by eexists); [by destruct (Hnull now iso)|].
    destruct (handleJob_ok j t p now iso r) as (r' & Hj & Hs). exists r'. split; [done|].
    apply handleJob_control in Hj as [-> _]. done.
  - destruct (heartbeatTimer r); [|by eexists]. eexists. split; [done|]. unfold heartbeat. by repeat case_match.
  - destruct (waiting r !! i) as [w|]; [|by eexists].
    destruct (finishJob_ok (wj_id w) LLM_INFER (executeLLM (rc_ollamaUrl cfg) reply (wj_prompt w) (wj_id w)) false
      (wj_started w) now iso (set_waiting (delete i (waiting r)) r)) as (r' & Hj & Hs); [done|].
    exists r'. split; [done|]. apply finishJob_control in Hj as [-> _]. done.
Qed.

Lemma run_alive es : ∀ p, proc_inv p → p_end (proc_run es p) = None → proc_inv (proc_run es p).
Proof.
  assert (∀ es p t, p_end p = Some t → p_end (proc_run es p) = Some t) as Hdead.
  { intros es'. induction es' as [|e es' IH]; intros p t Hp; [done|]. cbn. apply IH. unfold proc_step. by rewrite Hp. }
  induction es as [|e es IH]; intros p Hp Hend; [done|].
  change (proc_run (e :: es) p) with (proc_run es (proc_step p e)) in *. apply IH; [|done]. apply step_alive; [done|].
  destruct (p_end (proc_step p e)) eqn:E; [|done]. by rewrite (Hdead es _ _ E) in Hend.
Qed.

Lemma init_proc_inv : proc_inv proc_init.
Proof. split; [apply init_inv | done]. Qed.

(** What an event does to a process that listens. *)
Definition fate (p : Proc) (e : PEvent) : option End :=
  let o := bool_decide (socket (p_rt p) = OPEN) in
  match e with
  | PSignal _ => Some (Exit 0)
  | PRuntime (RClose _) _ => if o then Some (Exit 0) else None
  | PRuntime (RError _) _ => Some (Exit 1)
  | PRuntime (RMessage InNull _ _) _ => if o then Some (Exit 1) else None
  | _ => None
  end.

Lemma running_step p e : proc_inv p → p_end p = None → phase (p_rt p) = Running →
  p_end (proc_step p e) = fate p e ∧
  (fate p e = None → phase (p_rt (proc_step p e)) = Running ∧ socket (p_rt (proc_step p e)) = socket (p_rt p)).
Proof.
  intros [Hc Hl] Hp Hr. destruct (Hl Hr) as [Ha Hw]. unfold proc_step. rewrite Hp.
  destruct e as [e clock|now]; [|by rewrite Hr].
  destruct (ending e) eqn:Hn.
  - destruct e as [| | | | | | | | | |now|err|now]; try done; cbn [fate].
    + pose proof (turn_close now clock p Hp) as Ht. cbv zeta in Ht. rewrite Ha, andb_true_r in Ht.
      destruct (bool_decide (socket (p_rt p) = OPEN)); [by rewrite Ht|]. destruct Ht as [E Hx]. by rewrite E, Hx.
    + pose proof (turn_error err clock p Hp) as Ht. cbv zeta in Ht. rewrite Ha in Ht. by rewrite Ht.
  - assert ((∃ now iso, e = RMessage InNull now iso ∧ socket (p_rt p) = OPEN) ∨
      fate p (PRuntime e clock) = None ∧ ∀ now iso, e = RMessage InNull now iso → socket (p_rt p) ≠ OPEN) as [Hnull|[Hf Hnull]].
    { destruct e as [| | | |m now iso| | | | | | | |]; try (by right). destruct m; try (by right). cbn [fate].
      case_bool_decide; [left; by exists now, iso | by right; split; [|intros ?? [= <- <-]]]. }
    + destruct Hnull as (now & iso & -> & Ho). unfold proc_turn. cbn [exec_rt fate]. rewrite bool_decide_true by done.
      rewrite deliver_attached by done. cbn [handleMessage]. rewrite Hr. done.
    + rewrite Hf. destruct (running_exec e (p_rt p) Hc Hr Ha Hw Hn Hnull) as (r' & He & Hr' & Hs).
      destruct (turn_mild e clock p r' He Hn Hp) as [E Hx]. specialize (Hx Hr Hr').
      assert (∀ P : Proc → Prop, P (proc_turn e clock p) → P (match e with RStop _ => p | _ => proc_turn e clock p end)) as Hm
        by (intros P HP; by destruct e).
      apply (Hm (λ q, p_end q = None ∧ (None = None → phase (p_rt q) = Running ∧ socket (p_rt q) = socket (p_rt p)))).
      by rewrite E.
Qed.

(** Events that leave a process whose socket has closed waiting. *)
Definition quiet_event (e : PEvent) : Prop :=
  match e with PSignal _ | PRuntime (RError _) _ => False | _ => True end.

End Start.

Definition sc_proc_run (es : list RtEvent) : Proc :=
  proc_run toy_sha256 sc_runtime_cfg "0.1.0" "http://c" (λ _, "noon") ((λ e, PRuntime e 0%Z) <$> es) proc_init.


(** ** worker status and version *)

Record WorkerStatusOptions := { wso_coordinator : option string; wso_pubkey : option string }.

(** The lines it shows and the files it leaves; [None] for a key path in the
    configuration that is not a string. *)
Definition worker_status (h : Host) (o : WorkerStatusOptions) (generated : Keypair) : option (M (list Shown) * Host) :=
  match loadConfig h None with
  | Throw e => Some (exits (throw e), h)
  | Ok c =>
      keyPath ← match wk_keyPath c with JStr p => Some p | _ => None end;
      '(pubkey, h) ← match wso_pubkey o with
                     | Some pk => Some (Ok pk, h)
                     | None => '(r, h) ← loadOrCreateKeypair keyPath generated h;
                               Some (k <-- r ;; Ok (WorkerKeys.pubkeyHex k), h)
                     end;
      let coordinator := default (js_String (co_monad c)) (wso_coordinator o) in
      Some (exits (pk ⇐ lift pubkey ;;
                   health ⇐ getHealth coordinator ;;
                   match health with
                   | JNull => throw "Cannot read properties of null (reading 'status')"
                   | _ =>
                       let prop k := ojs_String (opt_prop k (Some health)) in
                       ret [SHeader "Worker Identity"; SPair "Public key:" (slice0 16 pk ++ "..."); SPair "Key file:" keyPath;
                            SLine ""; SPair "Coordinator:" coordinator;
                            SPair "Network:" (prop "status" ++ " (" ++ prop "workers_online" ++ " workers)");
                            SPair "Resolved key:" (resolve h keyPath)]
                   end), h)
  end.

Definition version_line (cli protocol : string) : string := line ("dispatch v" ++ cli ++ " (protocol v" ++ protocol ++ ")").

(** Asking for the status of a worker that has no key yet creates its key,
    whatever the coordinator answers: a worker started later uses it. *)
Theorem status_creates_the_key h o generated other c keyPath :
  loadConfig h None = Ok c → wk_keyPath c = JStr keyPath → wso_pubkey o = None →
  startsWith (cwd h) "/" = true → good_keys generated → jm_get (resolve h keyPath) (files h) = None →
  ∃ m h', worker_status h o generated = Some (m, h') ∧ loadOrCreateKeypair keyPath other h' = Some (Ok generated, h').
Proof.
  intros Hc Hk Ho Hcwd Hg Hn. destruct (cli_key_created keyPath generated other h Hcwd Hg Hn) as (h' & H1 & H2).
  unfold worker_status. rewrite Hc, Hk. cbn [mbind option_bind]. rewrite Ho, H1. cbn [mbind option_bind]. eauto.
Qed.
