(* ===== verification/PhoneKeys.v ===== *)
(** * Keys of the phone

    services/KeyManager.ts, DeviceKeyProvider.ts and MWAProvider.ts: the key
    pair in secure storage with the worker id beside it, the provider that
    signs with it, and the provider that asks a wallet app.  The two storages
    are maps; tweetnacl, the wallet's answers and the decoding of its address
    are parameters. *)

From stdpp Require Import base list strings option.
From Stdlib Require Import ZArith Lia.
From S2P Require Import Prelude Js Json Cli WorkerKeys.
Local Open Scope string_scope.

(** What is stored on the phone: expo-secure-store and AsyncStorage. *)
Record Disk := mkDisk { secure : jsmap string; async : jsmap string }.

Definition set_secure (k v : string) (d : Disk) : Disk := mkDisk (jm_set k v (secure d)) (async d).
Definition setItem (k v : string) (d : Disk) : Disk := mkDisk (secure d) (jm_set k v (async d)).
Definition getItem (k : string) (d : Disk) : option string := jm_get k (async d).
Definition removeItem (k : string) (d : Disk) : Disk := mkDisk (secure d) (jm_delete k (async d)).

(** tweetnacl's signing keys. *)
Class Nacl := {
  key_from_seed : list Z → Keypair;
  key_from_secret : list Z → outcome Keypair }.
Class NaclLaws `{Nacl} := {
  seed_key_bytes seed : good_keys (key_from_seed seed);
  secret_of_seed seed : key_from_secret (secretKey (key_from_seed seed)) = Ok (key_from_seed seed) }.

(** ** KeyManager.ts *)

Abbreviation SECURE_KEY := ("dispatch_secret_key"%string).
Abbreviation STORAGE_PUBKEY := ("dispatch_worker_id"%string).

Section KeyManager.
  Context `{!Nacl}.

(** [new Uint8Array(v)] of an array; [None] for other values. *)
Definition new_Uint8Array (j : json) : option (list Z) :=
  match j with JArr l => mapM uint8_element l | _ => None end.

Definition stored_key (text : string) : option (outcome Keypair) :=
  match JSON_parse text with
  | None => Some (Throw "Unexpected token in JSON")
  | Some j => bytes ← new_Uint8Array j; Some (key_from_secret bytes)
  end.

(** The two writes of a new key are separate awaits: the app may be killed
    after the first ([killed]). *)
Definition getOrCreateKeypair (seed : list Z) (killed : bool) (d : Disk) : option (outcome Keypair * Disk) :=
  match jm_get SECURE_KEY (secure d) with
  | Some text =>
      if str_truthy text then r ← stored_key text; Some (r, d)
      else let k := key_from_seed seed in
           let d := set_secure SECURE_KEY (JSON_stringify (bytes_json (secretKey k))) d in
           Some (Ok k, if killed then d else setItem STORAGE_PUBKEY (pubkeyHex k) d)
  | None =>
      let k := key_from_seed seed in
      let d := set_secure SECURE_KEY (JSON_stringify (bytes_json (secretKey k))) d in
      Some (Ok k, if killed then d else setItem STORAGE_PUBKEY (pubkeyHex k) d)
  end.

Definition getWorkerId (d : Disk) : option string := getItem STORAGE_PUBKEY d.

Definition resetKeypair (d : Disk) : Disk :=
  removeItem STORAGE_PUBKEY (mkDisk (jm_delete SECURE_KEY (secure d)) (async d)).

(** ** DeviceKeyProvider.ts *)

(** [this.keys], which both methods load when it is null. *)
Definition device_load (seed : list Z) (keys : option Keypair) (d : Disk) : option (outcome Keypair * Disk) :=
  match keys with Some k => Some (Ok k, d) | None => getOrCreateKeypair seed false d end.

Definition device_connect (seed : list Z) (keys : option Keypair) (d : Disk)
    : option (outcome unit * option Keypair * Disk) :=
  '(r, d) ← getOrCreateKeypair seed false d;
  Some (match r with Ok k => (Ok tt, Some k, d) | Throw e => (Throw e, keys, d) end).

Definition device_getPublicKeyHex (seed : list Z) (keys : option Keypair) (d : Disk)
    : option (outcome string * option Keypair * Disk) :=
  '(r, d) ← device_load seed keys d;
  Some (match r with Ok k => (Ok (pubkeyHex k), Some k, d) | Throw e => (Throw e, keys, d) end).
End KeyManager.

(** ** MWAProvider.ts *)

Abbreviation AUTH_TOKEN_KEY := ("dispatch_mwa_auth_token"%string).
Abbreviation WALLET_ADDRESS_KEY := ("dispatch_mwa_wallet_address"%string).
Abbreviation NOT_CONNECTED := ("Wallet not connected. Call connect() first."%string).

Record MWA := mkMwa {
  authToken : option string; walletAddress : option string; publicKeyBytes : option (list Z) }.

Definition initMwa : MWA := mkMwa None None None.

Section Wallet.
  (** [wallet.authorize] with or without a token: the new token and the first
      account's address; [new PublicKey(address).toBytes()]; [wallet.signMessages]. *)
  Context (authorize : option string → outcome (string * string)).
  Context (address_bytes : string → outcome (list Z)).
  Context (sign : string → string → outcome string).

Definition mwa_getPublicKeyHex (m : MWA) : outcome string :=
  match publicKeyBytes m with Some b => Ok (bytes_hex b) | None => Throw NOT_CONNECTED end.

Definition mwa_connect (m : MWA) (d : Disk) : outcome unit * MWA * Disk :=
  let cachedToken := getItem AUTH_TOKEN_KEY d in
  let m := mkMwa cachedToken (walletAddress m) (publicKeyBytes m) in
  match authorize (if ostr_truthy cachedToken then cachedToken else None) with
  | Throw e => (Throw e, m, d)
  | Ok (token, address) =>
      let m := mkMwa (Some token) (Some address) (publicKeyBytes m) in
      match address_bytes address with
      | Throw e => (Throw e, m, d)
      | Ok bytes => (Ok tt, mkMwa (Some token) (Some address) (Some bytes),
                     setItem WALLET_ADDRESS_KEY address (setItem AUTH_TOKEN_KEY token d))
      end
  end.

Definition mwa_disconnect (d : Disk) : MWA * Disk :=
  (initMwa, removeItem WALLET_ADDRESS_KEY (removeItem AUTH_TOKEN_KEY d)).

(** A fresh authorisation inside [signMessage]. *)
Definition mwa_reauthorize (m : MWA) (d : Disk) : outcome unit * MWA * Disk :=
  match authorize None with
  | Throw e => (Throw e, m, d)
  | Ok (token, _) => (Ok tt, mkMwa (Some token) (walletAddress m) (publicKeyBytes m), setItem AUTH_TOKEN_KEY token d)
  end.

Definition mwa_signMessage (message : string) (m : MWA) (d : Disk) : outcome string * MWA * Disk :=
  if ostr_truthy (walletAddress m) then
    let address := default "" (walletAddress m) in
    let '(r, m, d) := if ostr_truthy (authToken m)
                      then match authorize (authToken m) with
                           | Ok _ => (Ok tt, m, d)
                           | Throw _ => mwa_reauthorize m d
                           end
                      else mwa_reauthorize m d in
    match r with
    | Throw e => (Throw e, m, d)
    | Ok _ => (sign address message, m, d)
    end
  else (Throw NOT_CONNECTED, m, d).

Definition isAvailable (os : string) : bool := String.eqb os "android".
End Wallet.

(** ** Identity *)

Lemma stored_key_back `{!Nacl} `{!NaclLaws} seed :
  stored_key (JSON_stringify (bytes_json (secretKey (key_from_seed seed)))) = Some (Ok (key_from_seed seed)).
Proof.
  destruct (seed_key_bytes seed) as [_ Hs]. unfold stored_key.
  rewrite parse_stringify by (by apply bytes_json_ok).
  pose proof (Uint8Array_from_bytes _ Hs) as Hu. cbn in Hu |- *.
  destruct (mapM uint8_element _) as [l|]; [|done]. injection Hu as ->. cbn. by rewrite secret_of_seed.
Qed.

Lemma printed_truthy l : str_truthy (JSON_stringify (bytes_json l)) = true.
Proof. done. Qed.

Lemma create_key `{!Nacl} seed killed d : jm_get SECURE_KEY (secure d) = None →
  let k := key_from_seed seed in
  let d' := set_secure SECURE_KEY (JSON_stringify (bytes_json (secretKey k))) d in
  getOrCreateKeypair seed killed d = Some (Ok k, if killed then d' else setItem STORAGE_PUBKEY (pubkeyHex k) d').
Proof. intros Hn. unfold getOrCreateKeypair. by rewrite Hn. Qed.

(** C38: the phone keeps its identity.  Without a stored key the first call
    creates one and stores its worker id; every later call returns the same
    pair, whatever the random seed, and changes nothing, until the key is reset:
    then the worker id is gone and the next call makes a new identity from its
    own seed.  If the app is killed between the two writes of a new key, the key
    is kept but no later call ever stores the worker id. *)
Theorem phone_keeps_its_identity `{!Nacl} `{!NaclLaws} seed seed' killed k d :
  jm_get SECURE_KEY (secure d) = None → jm_wf (secure d) → jm_wf (async d) →
  let id := key_from_seed seed in
  (∃ d', getOrCreateKeypair seed false d = Some (Ok id, d') ∧ getWorkerId d' = Some (pubkeyHex id) ∧
     getOrCreateKeypair seed' k d' = Some (Ok id, d') ∧
     getWorkerId (resetKeypair d') = None ∧
     ∃ d'', getOrCreateKeypair seed' false (resetKeypair d') = Some (Ok (key_from_seed seed'), d'') ∧
       getWorkerId d'' = Some (pubkeyHex (key_from_seed seed'))) ∧
  (∃ d', getOrCreateKeypair seed true d = Some (Ok id, d') ∧
     getOrCreateKeypair seed' killed d' = Some (Ok id, d') ∧ getWorkerId d' = getWorkerId d).
Proof.
  intros Hn Hws Hwa id. split.
  - eexists. split; [by apply create_key|]. unfold getWorkerId, getItem. cbn [async setItem set_secure secure].
    rewrite jm_get_set_eq. split; [done|]. split.
    + unfold getOrCreateKeypair. cbn [secure setItem set_secure]. rewrite jm_get_set_eq, printed_truthy.
      unfold id. by rewrite stored_key_back.
    + split.
      * unfold resetKeypair, removeItem. cbn [async secure].
        rewrite jm_get_delete by (by apply jm_wf_set). by rewrite decide_True.
      * unfold getOrCreateKeypair, resetKeypair, removeItem. cbn [async secure].
        rewrite jm_get_delete by (by apply jm_wf_set). rewrite decide_True by done.
        eexists. split; [done|]. cbn [async setItem set_secure]. by rewrite jm_get_set_eq.
  - eexists. split; [by apply create_key|]. split; [|done].
    unfold getOrCreateKeypair. cbn [secure set_secure]. rewrite jm_get_set_eq, printed_truthy.
    unfold id. by rewrite stored_key_back.
Qed.

(** A toy scheme: the secret key is the seed's first byte, twice. *)
#[local] Instance toy_Nacl : Nacl := {|
  key_from_seed := λ s, {| publicKey := [default 0%Z (head s) mod 256]%Z; secretKey := [default 0%Z (head s) mod 256]%Z |};
  key_from_secret := λ l, Ok {| publicKey := l; secretKey := l |} |}.
#[local] Instance toy_NaclLaws : NaclLaws.
Proof.
  split; [|done]. intros seed. cbn.
  split; repeat constructor; unfold byte; apply Z.mod_pos_bound; lia.
Qed.

Lemma phone_keeps_its_identity_witness :
  ∃ d', getOrCreateKeypair [7]%Z true (mkDisk [] []) = Some (Ok (key_from_seed [7]%Z), d') ∧ getWorkerId d' = None.
Proof.
  destruct (phone_keeps_its_identity [7]%Z [8]%Z false false (mkDisk [] []) eq_refl ltac:(constructor) ltac:(constructor))
    as [_ (d' & H1 & _ & H2)].
  exists d'. split; [exact H1 | exact H2].
Defined.
