(* ===== verification/PhoneApp.v ===== *)
(** * The phone app

    contexts/WalletProvider.tsx on top of the connection service of MobileWs.v:
    the React state, what it persists and restores, the choice of the signing
    provider and of the coordinator; hooks/useWorker.ts and the actions of the
    settings and onboarding screens.  A listener of the service runs when the
    service emits, a state update of React right after it.  The app and the
    service share objects: the entries of the job history, and after a restart
    the history array itself. *)

From stdpp Require Import base list gmap strings option.
From Stdlib Require Import ZArith Lia.
From S2P Require Import Prelude Js Json Protocol Interfaces Executors Scenario Workers MobileWs Cli WorkerKeys PhoneKeys.
Local Open Scope string_scope.

(** ** Stored values *)

Inductive SigningMode := Wallet | DeviceKey.
#[global] Instance SigningMode_eq_dec : EqDecision SigningMode.
Proof. solve_decision. Defined.
Definition mode_str (m : SigningMode) : string := match m with Wallet => "wallet" | DeviceKey => "device-key" end.

Abbreviation STORAGE_EARNINGS := ("dispatch_total_earnings"%string).
Abbreviation STORAGE_JOBS_COMPLETED := ("dispatch_jobs_completed"%string).
Abbreviation STORAGE_JOB_HISTORY := ("dispatch_job_history"%string).
Abbreviation STORAGE_COORDINATOR_URL := ("dispatch_coordinator_url"%string).
Abbreviation STORAGE_SIGNING_MODE := ("dispatch_signing_mode"%string).
Abbreviation ONBOARDED_KEY := ("dispatch_has_onboarded"%string).

Definition DEFAULT_COORDINATOR_URL (EXPO_PUBLIC_COORDINATOR_URL : option string) : string :=
  default "wss://dispatch-solana-production.up.railway.app" EXPO_PUBLIC_COORDINATOR_URL.
(** The initial URL of the service itself. *)
Abbreviation SERVICE_URL := ("ws://localhost:4020"%string).

(** A job of the history as JSON (its time stamp and explorer links, which
    nothing reads back, are left out). *)
Definition job_json (j : CompletedJob) : json :=
  JObj ([("jobId", JStr (c_jobId j)); ("taskType", JStr (c_taskType j))] ++ member "prompt" (JStr <$> c_prompt j) ++
        [("durationMs", JNum (num_of_Z (c_durationMs j))); ("success", JBool (c_success j))] ++
        member "error" (JStr <$> c_error j) ++ member "feedbackTxHash" (JStr <$> c_feedbackTx j) ++
        member "paymentTxHash" (JStr <$> c_paymentTx j) ++ member "paymentAmount" (JStr <$> c_paymentAmount j) ++
        member "feedbackFailed" (JBool <$> c_feedbackFailed j) ++ member "paymentFailed" (JBool <$> c_paymentFailed j))%list.

Definition bool_of (j : json) : option bool := match j with JBool b => Some b | _ => None end.
Definition int_of (j : json) : option Z := match j with JNum x => math_floor x | _ => None end.

(** The cast of a stored entry; [None] for one that does not have the declared types. *)
Definition read_job (j : json) : option CompletedJob :=
  match j with
  | JObj l =>
      i ← str_field "jobId" l; t ← str_field "taskType" l; p ← opt_field str_of "prompt" l;
      d ← (v ← jm_get "durationMs" l; int_of v); s ← (v ← jm_get "success" l; bool_of v);
      e ← opt_field str_of "error" l; ft ← opt_field str_of "feedbackTxHash" l;
      pt ← opt_field str_of "paymentTxHash" l; pa ← opt_field str_of "paymentAmount" l;
      ff ← opt_field bool_of "feedbackFailed" l; pf ← opt_field bool_of "paymentFailed" l;
      Some (mkJob i t p d s e ft pt pa ff pf)
  | _ => None
  end.

(** ** State *)

Section App.
  Context `{!Ed25519} (sha256_hex : string → string) (default_url : string).
  (** The two providers, as the service sees them. *)
  Context (provider_of : SigningMode → SigningProvider).

(** The React state. *)
Record Ctx := mkCtx {
  x_workerId : option string; x_status : ConnectionStatus; x_totalEarnings : jsnum; x_jobsCompleted : jsnum;
  x_jobHistory : list string;       (* the objects, by their job ids *)
  x_coordinatorUrl : string; x_isLoading : bool; x_signingMode : SigningMode; x_walletAddress : option string;
  x_shouldAutoConnect : bool; x_isToggling : bool }.

Record App := mkApp {
  ctx : Ctx;
  shared : bool;                    (* the history arrays of React and of the service are the same object *)
  objs : jsmap CompletedJob;        (* the job objects *)
  svc : Service; svc_url : string; installed : option SigningMode;
  disk : Disk; mwa : MWA }.

Definition initApp (d : Disk) : App :=
  mkApp (mkCtx None Disconnected (num_of_Z 0) (num_of_Z 0) [] default_url true DeviceKey None false false)
    false [] MobileWs.init SERVICE_URL None d initMwa.

Definition on_ctx f a := mkApp (f (ctx a)) (shared a) (objs a) (svc a) (svc_url a) (installed a) (disk a) (mwa a).
Definition on_disk f a := mkApp (ctx a) (shared a) (objs a) (svc a) (svc_url a) (installed a) (f (disk a)) (mwa a).
Definition on_svc f a := mkApp (ctx a) (shared a) (objs a) (f (svc a)) (svc_url a) (installed a) (disk a) (mwa a).
Definition with_shared b a := mkApp (ctx a) b (objs a) (svc a) (svc_url a) (installed a) (disk a) (mwa a).
Definition with_objs o a := mkApp (ctx a) (shared a) o (svc a) (svc_url a) (installed a) (disk a) (mwa a).
Definition with_mwa w a := mkApp (ctx a) (shared a) (objs a) (svc a) (svc_url a) (installed a) (disk a) w.
Definition setSvcUrl u a := mkApp (ctx a) (shared a) (objs a) (svc a) u (installed a) (disk a) (mwa a).
Definition persist (k v : string) a := on_disk (setItem k v) a.

Definition x_worker v x := mkCtx v (x_status x) (x_totalEarnings x) (x_jobsCompleted x) (x_jobHistory x)
  (x_coordinatorUrl x) (x_isLoading x) (x_signingMode x) (x_walletAddress x) (x_shouldAutoConnect x) (x_isToggling x).
Definition x_stat v x := mkCtx (x_workerId x) v (x_totalEarnings x) (x_jobsCompleted x) (x_jobHistory x)
  (x_coordinatorUrl x) (x_isLoading x) (x_signingMode x) (x_walletAddress x) (x_shouldAutoConnect x) (x_isToggling x).
Definition x_earn v x := mkCtx (x_workerId x) (x_status x) v (x_jobsCompleted x) (x_jobHistory x)
  (x_coordinatorUrl x) (x_isLoading x) (x_signingMode x) (x_walletAddress x) (x_shouldAutoConnect x) (x_isToggling x).
Definition x_jobs v x := mkCtx (x_workerId x) (x_status x) (x_totalEarnings x) v (x_jobHistory x)
  (x_coordinatorUrl x) (x_isLoading x) (x_signingMode x) (x_walletAddress x) (x_shouldAutoConnect x) (x_isToggling x).
Definition x_hist v x := mkCtx (x_workerId x) (x_status x) (x_totalEarnings x) (x_jobsCompleted x) v
  (x_coordinatorUrl x) (x_isLoading x) (x_signingMode x) (x_walletAddress x) (x_shouldAutoConnect x) (x_isToggling x).
Definition x_url v x := mkCtx (x_workerId x) (x_status x) (x_totalEarnings x) (x_jobsCompleted x) (x_jobHistory x)
  v (x_isLoading x) (x_signingMode x) (x_walletAddress x) (x_shouldAutoConnect x) (x_isToggling x).
Definition x_loading v x := mkCtx (x_workerId x) (x_status x) (x_totalEarnings x) (x_jobsCompleted x) (x_jobHistory x)
  (x_coordinatorUrl x) v (x_signingMode x) (x_walletAddress x) (x_shouldAutoConnect x) (x_isToggling x).
Definition x_mode v x := mkCtx (x_workerId x) (x_status x) (x_totalEarnings x) (x_jobsCompleted x) (x_jobHistory x)
  (x_coordinatorUrl x) (x_isLoading x) v (x_walletAddress x) (x_shouldAutoConnect x) (x_isToggling x).
Definition x_wallet v x := mkCtx (x_workerId x) (x_status x) (x_totalEarnings x) (x_jobsCompleted x) (x_jobHistory x)
  (x_coordinatorUrl x) (x_isLoading x) (x_signingMode x) v (x_shouldAutoConnect x) (x_isToggling x).
Definition x_auto v x := mkCtx (x_workerId x) (x_status x) (x_totalEarnings x) (x_jobsCompleted x) (x_jobHistory x)
  (x_coordinatorUrl x) (x_isLoading x) (x_signingMode x) (x_walletAddress x) v (x_isToggling x).
Definition x_toggling v x := mkCtx (x_workerId x) (x_status x) (x_totalEarnings x) (x_jobsCompleted x) (x_jobHistory x)
  (x_coordinatorUrl x) (x_isLoading x) (x_signingMode x) (x_walletAddress x) (x_shouldAutoConnect x) v.

(** [wsService.setSigningProvider] *)
Definition setSigningProvider (m : SigningMode) a :=
  mkApp (ctx a) (shared a) (objs a) (exec_m sha256_hex (EvSetProvider (Some (provider_of m))) (svc a))
    (svc_url a) (Some m) (disk a) (mwa a).

(** ** The listeners *)

Definition history_text (o : jsmap CompletedJob) (ids : list string) : string :=
  JSON_stringify (JArr (map job_json (omap (λ i, jm_get i o) ids))).
Definition persist_history a := persist STORAGE_JOB_HISTORY (history_text (objs a) (x_jobHistory (ctx a))) a.

Definition on_emit (e : MEmit) a : App :=
  match e with
  | MStatus s => on_ctx (x_stat s) a
  | MRegistered id => on_ctx (x_worker (Some id)) a
  | MJobCompleted j =>
      let a := with_shared false (on_ctx (x_hist (take 50 (c_jobId j :: x_jobHistory (ctx a)))) a) in
      let a := persist_history a in
      if c_success j then
        let next := num_add (x_jobsCompleted (ctx a)) (num_of_Z 1) in
        persist STORAGE_JOBS_COMPLETED (num_to_string next) (on_ctx (x_jobs next) a)
      else a
  | MEarnings x => persist STORAGE_EARNINGS (num_to_string x) (on_ctx (x_earn x) a)
  | MFeedbackPosted _ _ | MPaymentPosted _ _ => with_shared false (persist_history a)
  | MJobReceived _ | MError _ => a
  end.

(** The job whose completion [unshift]s the service's history. *)
Definition pushed (e : MEvent) (m : Service) : list string :=
  match e with EvSigned k _ => match signing m !! k with Some j => [sj_id j] | None => [] end | _ => [] end.

(** A turn of the service, and the listeners it calls. *)
Definition svc_exec (e : MEvent) a : App :=
  let m := svc a in
  let m' := exec_m sha256_hex e m in
  let a := on_svc (λ _, m') a in
  let a := with_objs (foldl (λ o j, jm_set (c_jobId j) j o) (objs a) (jobHistory m')) a in
  let a := if shared a then on_ctx (x_hist (pushed e m ++ x_jobHistory (ctx a))%list) a else a in
  foldl (λ a e, on_emit e a) a (drop (length (log m)) (log m')).

(** ** Loading *)

Definition load_earnings (d : Disk) a : App :=
  match getItem STORAGE_EARNINGS d with
  | Some t => if str_truthy t
              then on_svc (on_earnings (λ _, parseFloat t)) (on_ctx (x_earn (parseFloat t)) a) else a
  | None => a
  end.

(** [parseInt(text, 10)] as a number *)
Definition stored_count (text : string) : jsnum :=
  match parseInt10 text with Some z => num_of_Z z | None => SpecFloat.S754_nan end.

Definition load_jobs (d : Disk) a : App :=
  match getItem STORAGE_JOBS_COMPLETED d with
  | Some t => if str_truthy t
              then on_ctx (x_jobs (stored_count t)) a else a
  | None => a
  end.

(** [None]: a stored history of an unexpected shape. *)
Definition stored_history (d : Disk) : option (outcome (option (list CompletedJob))) :=
  match getItem STORAGE_JOB_HISTORY d with
  | Some t =>
      if str_truthy t then
        match JSON_parse t with
        | None => Some (Throw "Unexpected token in JSON")
        | Some (JArr l) => js ← mapM read_job l; Some (Ok (Some js))
        | Some _ => None
        end
      else Some (Ok None)
  | None => Some (Ok None)
  end.

(** The restored array becomes the state of React and, through
    [restoreHistory], that of the service. *)
Definition load_history (d : Disk) a : option (outcome App) :=
  r ← stored_history d;
  Some match r with
       | Throw e => Throw e
       | Ok None => Ok a
       | Ok (Some js) =>
           Ok (with_shared true (with_objs (foldl (λ o j, jm_set (c_jobId j) j o) (objs a) js)
              (on_svc (on_history (λ _, js)) (on_ctx (x_hist (c_jobId <$> js)) a))))
       end.

Definition stored_url (d : Disk) : string := default default_url (getItem STORAGE_COORDINATOR_URL d).
Definition stored_mode (d : Disk) : SigningMode :=
  match getItem STORAGE_SIGNING_MODE d with
  | Some m => if String.eqb m "wallet" then Wallet else DeviceKey
  | None => DeviceKey
  end.

Definition load_rest (d : Disk) a : App :=
  let url := stored_url d in
  let a := setSvcUrl url (on_ctx (x_url url) a) in
  let mode := stored_mode d in
  let a := setSigningProvider mode (on_ctx (x_mode mode) a) in
  let a := match getWorkerId d with
           | Some w => if str_truthy w then on_ctx (x_worker (Some w)) a else a | None => a end in
  match getItem ONBOARDED_KEY d with
  | Some t => if String.eqb t "true" then on_ctx (x_auto true) a else a
  | None => a
  end.

(** [loadPersistedState]: an exception skips what is left. *)
Definition loadPersistedState a : option App :=
  let d := disk a in
  let a := load_jobs d (load_earnings d a) in
  r ← load_history d a;
  Some (on_ctx (x_loading false) (match r with Ok a => load_rest d a | Throw _ => a end)).

(** ** Actions *)

Definition connect a := svc_exec EvConnect a.
Definition disconnect a := svc_exec EvDisconnect a.

Definition setCoordinatorUrl (url : string) a : App :=
  let nextUrl := trim url in
  if negb (str_truthy nextUrl) || String.eqb nextUrl (x_coordinatorUrl (ctx a)) then a
  else
    let shouldReconnect := bool_decide (x_status (ctx a) = Connected) || bool_decide (x_status (ctx a) = Reconnecting) in
    let a := if shouldReconnect then disconnect a else a in
    let a := persist STORAGE_COORDINATOR_URL nextUrl (setSvcUrl nextUrl (on_ctx (x_url nextUrl) a)) in
    if shouldReconnect then connect a else a.

Abbreviation MWA_ANDROID_ONLY := ("Mobile Wallet Adapter is only available on Android."%string).

Definition connectWallet (os : string) (authorize : option string → outcome (string * string))
    (address_bytes : string → outcome (list Z)) a : outcome unit * App :=
  if isAvailable os then
    let '(r, w, d) := mwa_connect authorize address_bytes (mwa a) (disk a) in
    let a := with_mwa w (on_disk (λ _, d) a) in
    match r with
    | Ok _ => (Ok tt, persist STORAGE_SIGNING_MODE "wallet"
                 (setSigningProvider Wallet (on_ctx (λ x, x_mode Wallet (x_wallet (walletAddress w) x)) a)))
    | Throw e => (Throw e, persist STORAGE_SIGNING_MODE "device-key"
                    (on_ctx (x_mode DeviceKey) (setSigningProvider DeviceKey a)))
    end
  else (Throw MWA_ANDROID_ONLY, a).

Definition disconnectWallet a : App :=
  let '(w, d) := mwa_disconnect (disk a) in
  let a := with_mwa w (on_disk (λ _, d) a) in
  persist STORAGE_SIGNING_MODE "device-key"
    (on_ctx (x_mode DeviceKey) (setSigningProvider DeviceKey (on_ctx (x_wallet None) a))).

Definition switchSigningMode (mode : SigningMode) a : App :=
  let a := match mode with
           | DeviceKey => on_ctx (λ x, x_wallet None (x_mode DeviceKey x)) (setSigningProvider DeviceKey a)
           | Wallet => setSigningProvider Wallet (on_ctx (x_mode Wallet) a)
           end in
  persist STORAGE_SIGNING_MODE (mode_str mode) a.

(** hooks/useWorker.ts; [toggled] is its timeout. *)
Definition toggle a : App :=
  if x_isToggling (ctx a) then a
  else
    let a := on_ctx (x_toggling true) a in
    match x_status (ctx a) with
    | Connected | Reconnecting => disconnect a
    | _ => connect a
    end.
Definition toggled a : App := on_ctx (x_toggling false) a.

(** The settings and onboarding screens. *)
Definition handleSaveUrl (urlInput : string) a : App :=
  let trimmed := trim urlInput in if str_truthy trimmed then setCoordinatorUrl trimmed a else a.
Definition handleResetKeypair a : App := on_disk resetKeypair (disconnect a).
Definition handleDisconnectWallet a : App := disconnectWallet (disconnect a).
Definition handleGetStarted a : App :=
  switchSigningMode DeviceKey (persist STORAGE_SIGNING_MODE "device-key" (persist ONBOARDED_KEY "true" a)).

(** ** Runs *)

Inductive AEvent :=
  | AService (e : MEvent)              (* sockets, timers, keys and signatures of the service *)
  | AConnect | ADisconnect
  | ASaveUrl (urlInput : string)
  | AConnectWallet (os : string) (authorize : option string → outcome (string * string))
      (address_bytes : string → outcome (list Z))
  | ADisconnectWallet
  | ASwitch (mode : SigningMode)
  | AToggle | AToggled
  | AReset
  | AGetStarted.

(** Only the app connects, disconnects and sets providers. *)
Definition by_app (e : MEvent) : bool :=
  match e with EvConnect | EvDisconnect | EvSetProvider _ => true | _ => false end.

Definition app_step (e : AEvent) a : App :=
  match e with
  | AService e => if by_app e then a else svc_exec e a
  | AConnect => connect a
  | ADisconnect => disconnect a
  | ASaveUrl urlInput => handleSaveUrl urlInput a
  | AConnectWallet os au ab => (connectWallet os au ab a).2
  | ADisconnectWallet => handleDisconnectWallet a
  | ASwitch mode => switchSigningMode mode a
  | AToggle => toggle a
  | AToggled => toggled a
  | AReset => handleResetKeypair a
  | AGetStarted => handleGetStarted a
  end.

Definition app_run (es : list AEvent) a : App := foldl (λ a e, app_step e a) a es.
End App.

(** ** What a turn of the service does to the history *)

Section Turns.
  Context `{!Ed25519} (sha256_hex : string → string).
  Implicit Types m : Service.

(** Durations that are read back from their text. *)
Definition dur_ok (d : Z) : Prop := num_reads_back (num_of_Z d) = true ∧ math_floor (num_of_Z d) = Some d.
Definition durs_ok m : Prop :=
  Forall (λ j, dur_ok (c_durationMs j)) (jobHistory m) ∧ Forall (λ s, dur_ok (sj_duration s)) (signing m).
Definition ids m : list string := c_jobId <$> jobHistory m.

(** Completions name a listed job, and the total does not change. *)
Definition quiet (l : list string) (e : MEmit) : Prop :=
  match e with MJobCompleted j => c_jobId j ∈ l | MEarnings _ => False | _ => True end.

(** The same jobs, perhaps with new members. *)
Record calm m m' : Prop := {
  cm_provider : provider m' = provider m;
  cm_ids : ids m' = ids m;
  cm_total : totalEarnings m' = totalEarnings m;
  cm_log : ∃ new, log m' = (log m ++ new)%list ∧ Forall (quiet (ids m)) new;
  cm_durs : durs_ok m → durs_ok m' }.

#[local] Instance calm_preorder : PreOrder calm.
Proof.
  split.
  - intros m. split; try done. exists []. by rewrite app_nil_r.
  - intros m1 m2 m3 [P1 I1 T1 (n1 & L1 & C1) D1] [P2 I2 T2 (n2 & L2 & C2) D2].
    split; [congruence | congruence | congruence | | auto].
    exists (n1 ++ n2)%list. rewrite L2, L1, app_assoc. split; [done|]. rewrite I1 in C2. by apply Forall_app.
Qed.

Lemma calm_refl m : calm m m. Proof. done. Qed.
Lemma calm_conn f m : calm m (on_conn f m).
Proof. split; try done. exists []. by rewrite app_nil_r. Qed.
Lemma calm_say e m : quiet (ids m) e → calm m (MobileWs.emit e m).
Proof. intros He. split; try done. exists [e]. split; [done | by constructor]. Qed.
Lemma calm_send x m : calm m (MobileWs.send x m).
Proof. unfold MobileWs.send. destruct (cur_open (conn m)); [|done]. split; try done. exists []. by rewrite app_nil_r. Qed.
Lemma calm_status st m : calm m (setStatus st m).
Proof. unfold setStatus. case_match; [done|]. etrans; [apply (calm_conn (c_status st))|]. by apply calm_say. Qed.
Lemma calm_reconnect m : calm m (scheduleReconnect m).
Proof. unfold scheduleReconnect. case_match; [apply calm_conn | done]. Qed.

Lemma calm_doConnect ok m : calm m (doConnect ok m).
Proof.
  unfold doConnect. destruct (keys (conn m)); [|done]. etrans; [apply (calm_status Connecting)|].
  destruct ok; [apply calm_conn|]. etrans; [|apply calm_reconnect]. by apply calm_say.
Qed.

Lemma ids_update p f l : (∀ j, c_jobId (f j) = c_jobId j) → c_jobId <$> update_first p f l = c_jobId <$> l.
Proof. intros Hf. induction l as [|j l IH]; [done|]. cbn. destruct (p j); cbn; [by rewrite Hf | by rewrite IH]. Qed.

Lemma calm_update i f m : (∀ j, c_jobId (f j) = c_jobId j ∧ c_durationMs (f j) = c_durationMs j) →
  calm m (update_job i f m).
Proof.
  intros Hf. unfold update_job. destruct (List.find (has_id i) (jobHistory m)) as [j|] eqn:Hj; [|done].
  apply List.find_some in Hj as [Hin Hi].
  set (m1 := on_history (update_first (has_id i) f) m).
  assert (ids m1 = ids m) as Hids by (apply ids_update; intros j'; apply Hf).
  split; [done | done | done | |].
  - exists [MJobCompleted (f j)]. split; [done|]. constructor; [|done]. cbn. rewrite (proj1 (Hf j)). apply list_elem_of_fmap. exists j. split; [done | by apply list_elem_of_In].
  - intros [Hh Hs]. split; [|done]. cbn [jobHistory MobileWs.emit on_history m1].
    clear -Hh Hf. induction Hh as [|x l Hx Hl IH]; [constructor|]. cbn.
    destruct (has_id i x); constructor; try done. by rewrite (proj2 (Hf x)).
Qed.

Lemma calm_fold (g : string → CompletedJob → CompletedJob) js : ∀ m,
  (∀ i j, c_jobId (g i j) = c_jobId j ∧ c_durationMs (g i j) = c_durationMs j) →
  calm m (foldl (λ m i, update_job i (g i) m) m js).
Proof.
  induction js as [|i js IH]; intros m Hg; cbn; [done|]. etrans; [apply (calm_update i (g i)), Hg|]. by apply IH.
Qed.

Lemma calm_message msg d m : dur_ok d → calm m (MobileWs.handleMessage msg d m).
Proof.
  intros Hd. destruct msg as [ok id err|j t p|c x|j tx|js tx am tk|j|js|]; cbn [MobileWs.handleMessage].
  - unfold handleRegisterAck.
    assert (∀ e, calm m (close_cur (MobileWs.emit (MError e) m))) as He.
    { intros e. etrans; [by apply (calm_say (MError e))|]. apply calm_conn. }
    destruct id as [i|]; [|apply He]. case_match; [|apply He].
    etrans; [apply (calm_conn (c_workerId (Some i)))|]. etrans; [apply (calm_status Connected)|].
    etrans; [apply (calm_conn (c_heartbeat false))|]. etrans; [apply (calm_conn (c_heartbeat true))|]. by apply calm_say.
  - unfold handleJobAssign. destruct (keys (conn m)) as [k|]; [|done].
    etrans; [by apply (calm_say (MJobReceived j))|]. set (m1 := MobileWs.emit (MJobReceived j) m).
    assert (calm m1 (MobileWs.send (createJobRejectMsg j "SEEKER worker does not support LLM_INFER jobs") m1)) as Hr by apply calm_send.
    destruct t; [done|]. destruct (p_task_type p) as [t|]; [|done]. destruct (p_input p) as [i|]; [|done].
    case_match; [|done]. split; try done.
    + exists []. by rewrite app_nil_r.
    + intros [Hh Hs]. split; [done|]. cbn. apply Forall_app. split; [done | by constructor].
  - by apply calm_say.
  - unfold handleFeedbackPosted. case_match; [|done].
    etrans; [by apply (calm_update j (set_feedback tx))|]. by apply calm_say.
  - unfold handlePaymentPosted. etrans; [|by apply calm_say]. by apply (calm_fold (λ _, set_payment tx (am ++ " " ++ default "BOLT" tk))).
  - by apply (calm_update j set_feedback_failed).
  - by apply (calm_fold (λ _, set_payment_failed)).
  - done.
Qed.

Definition good_event (e : MEvent) : Prop :=
  match e with EvMessage _ _ d => dur_ok d | EvSetProvider _ => False | _ => True end.

Lemma calm_exec e m : good_event e → (∀ k iso, e ≠ EvSigned k iso) → calm m (exec_m sha256_hex e m).
Proof.
  intros He Hs. destruct e as [|res ok| |p|i|i msg d|i|i|t ok| |k iso]; cbn [exec_m]; try done.
  - unfold MobileWs.connect. destruct (status (conn m)); first [done | apply calm_conn].
  - case_decide; [done|]. unfold connect_keys. etrans; [apply (calm_conn (λ c, c_awaiting (pred (awaitingKeys c)) c))|].
    destruct res as [e|k]; [by apply calm_say|]. etrans; [apply (calm_conn (c_keys (Some k)))|]. apply calm_doConnect.
  - unfold MobileWs.disconnect, cleanup. etrans; [|apply calm_status]. do 5 (etrans; [|apply calm_conn]). done.
  - destruct (socks (conn m) !! i) as [[[] h]|]; try done. etrans; [apply (calm_conn (c_socks (alter (sock_state SOpen) i)))|].
    destruct h; [|done]. unfold onopen, sendRegister. etrans; [apply (calm_conn (c_attempts 0))|].
    repeat case_match; first [done | apply calm_send].
  - destruct (socks (conn m) !! i) as [[[] []]|]; try done. by apply calm_message.
  - destruct (socks (conn m) !! i) as [[st []]|]; try done. by apply calm_say.
  - assert (∀ m, calm m (onclose m)) as Hc.
    { intros m1. unfold onclose. etrans; [apply (calm_conn (c_heartbeat false))|]. case_match; [|apply calm_status].
      etrans; [apply calm_status | apply calm_reconnect]. }
    destruct (socks (conn m) !! i) as [[st h]|]; [|done].
    assert (calm m (let m := set_sock i SClosed m in if h then onclose m else m)) as Hx.
    { cbv zeta. etrans; [apply (calm_conn (c_socks (alter (sock_state SClosed) i)))|]. by destruct h. }
    by destruct st.
  - case_match; [|done]. etrans; [|case_match; [apply calm_doConnect | done]]. apply calm_conn.
  - case_match; [|done]. destruct (keys (conn m)); [|done]. case_match; [apply calm_send | done].
  - by destruct (Hs k iso).
Qed.

(** A signature arrives: one new job at the head of the history. *)
Lemma signed_exec k iso m j : signing m !! k = Some j →
  let m' := exec_m sha256_hex (EvSigned k iso) m in
  provider m' = provider m ∧ (durs_ok m → durs_ok m') ∧ ids m' = take 50 (sj_id j :: ids m) ∧
  ∃ job, c_jobId job = sj_id j ∧
    (c_success job = false ∧ totalEarnings m' = totalEarnings m ∧ log m' = (log m ++ [MJobCompleted job])%list ∨
     c_success job = true ∧ log m' = (log m ++ [MEarnings (totalEarnings m'); MJobCompleted job])%list).
Proof.
  intros Hj m'. unfold m'. cbn [exec_m]. rewrite Hj. unfold finishJob.
  assert (∀ x m0, durs_ok m0 → ∀ job, dur_ok (c_durationMs job) →
    durs_ok (on_history (λ l, take 50 (job :: l)) (MobileWs.send x m0))) as Hd.
  { intros x m0 [Hh Hs] job Hjob. unfold MobileWs.send. destruct (cur_open (conn m0)); cbn; (split; [|done]);
      (constructor; [done | by apply Forall_take]). }
  assert (durs_ok m → dur_ok (sj_duration j) ∧ durs_ok (on_signing (delete k) m)) as Hdel.
  { intros [Hh Hs]. rewrite list.Forall_forall in Hs. split; [apply Hs; by eapply list_elem_of_lookup_2|].
    split; [done|]. cbn. apply list.Forall_forall. intros s Hin. apply Hs. eapply elem_of_submseteq; [exact Hin|].
    apply sublist_submseteq, sublist_delete. }
  destruct (sign_job sha256_hex j iso) as [c|e].
  - set (m0 := on_signing (delete k) m) in *.
    assert (MobileWs.send (MsgJobComplete c) m0 = m0 ∨ ∃ x, MobileWs.send (MsgJobComplete c) m0 = push_sent x m0) as Hsend.
    { unfold MobileWs.send. destruct (cur_open (conn m0)); eauto. }
    split_and!.
    + by destruct Hsend as [-> |[x ->]].
    + intros Hm. destruct (Hdel Hm) as [Hdj Hm0]. by apply (Hd (MsgJobComplete c) m0 Hm0).
    + unfold ids. destruct Hsend as [-> |[x ->]]; cbn -[take]; rewrite fmap_take; done.
    + eexists. split; [|right; split; [|by destruct Hsend as [-> |[x ->]]; cbn; rewrite <- app_assoc]]; done.
  - split_and!; [done | | by unfold ids; cbn -[take]; rewrite fmap_take |].
    + intros Hm. destruct (Hdel Hm) as [Hdj [Hh Hs]]. split; [|done]. cbn. constructor; [done | by apply Forall_take].
    + eexists. split; [|left; split_and!; [| |done]]; done.
Qed.
End Turns.

(** ** Stored entries are read back *)

Lemma get_cons_ne {V} k k' (v : V) l : k' ≠ k → jm_get k ((k', v) :: l) = jm_get k l.
Proof. intros Hk. cbn. by rewrite decide_False. Qed.
Lemma get_cons_eq {V} k (v : V) l : jm_get k ((k, v) :: l) = Some v.
Proof. cbn. by rewrite decide_True. Qed.
Lemma get_member_ne k k' v l : k' ≠ k → jm_get k (member k' v ++ l)%list = jm_get k l.
Proof. destruct v; [apply get_cons_ne | done]. Qed.
Lemma get_member_eq k v l : jm_get k l = None → jm_get k (member k v ++ l)%list = v.
Proof. destruct v; [intros _; apply get_cons_eq | done]. Qed.
Lemma opt_some {A} (f : json → option A) (g : A → json) v : (∀ x, f (g x) = Some x) →
  match g <$> v with None => Some None | Some j => Some <$> f j end = Some v.
Proof. intros Hf. destruct v as [x|]; cbn; [by rewrite Hf | done]. Qed.

Ltac look := repeat first
  [ rewrite get_cons_eq | rewrite get_cons_ne by done | rewrite get_member_ne by done | rewrite get_member_eq by look ]; try done.

Lemma member_ok k v l : (∀ j, v = Some j → json_ok j = true) → array_index k = None → jm_get k l = None →
  named l = true ∧ json_ok (JObj l) = true →
  named (member k v ++ l) = true ∧ json_ok (JObj (member k v ++ l)) = true.
Proof.
  intros Hv Hi Hk%jm_get_None [Hn Hl]. destruct v as [j|]; [|done]. split.
  - cbn [member app named forallb fst]. rewrite bool_decide_eq_true_2 by done. exact Hn.
  - apply json_ok_members; auto. by apply bool_decide_eq_true.
Qed.

Lemma read_job_json j : dur_ok (c_durationMs j) → json_ok (job_json j) = true ∧ read_job (job_json j) = Some j.
Proof.
  intros [Hr Hf]. destruct j as [i t p d s e ft pt pa ff pf]. cbn [c_durationMs] in Hr, Hf. split.
  - change (job_json _) with (JObj (member "jobId" (Some (JStr i)) ++ member "taskType" (Some (JStr t)) ++
      member "prompt" (JStr <$> p) ++ member "durationMs" (Some (JNum (num_of_Z d))) ++
      member "success" (Some (JBool s)) ++ member "error" (JStr <$> e) ++ member "feedbackTxHash" (JStr <$> ft) ++
      member "paymentTxHash" (JStr <$> pt) ++ member "paymentAmount" (JStr <$> pa) ++
      member "feedbackFailed" (JBool <$> ff) ++ member "paymentFailed" (JBool <$> pf))%list).
    rewrite <- (app_nil_r (member "paymentFailed" _)).
    refine (proj2 (_ : named _ = true ∧ _)).
    repeat (apply member_ok; [ | done | by look | ]); try done.
    all: try match goal with |- context [_ <$> ?o] => destruct o; by intros ? [= <-] end.
    all: by intros ? [= <-].
  - unfold job_json, read_job, str_field, opt_field.
    cbn [c_jobId c_taskType c_prompt c_durationMs c_success c_error c_feedbackTx c_paymentTx c_paymentAmount
      c_feedbackFailed c_paymentFailed app].
    rewrite <- (app_nil_r (member "paymentFailed" _)). 
    look. rewrite !opt_some by done. cbn [mbind option_bind str_of int_of bool_of]. by rewrite Hf.
Qed.

Lemma stored_back js : Forall (λ j, dur_ok (c_durationMs j)) js →
  JSON_parse (JSON_stringify (JArr (map job_json js))) = Some (JArr (map job_json js)) ∧
  mapM read_job (map job_json js) = Some js.
Proof.
  intros Hjs. split.
  - apply parse_stringify. cbn. induction Hjs as [|j js Hj _ IH]; [done|]. cbn [map forallb].
    by rewrite (proj1 (read_job_json j Hj)).
  - apply mapM_Some. induction Hjs as [|j js Hj _ IH]; constructor; [by apply read_job_json | done].
Qed.

(** ** What survives a restart *)

Section Restart.
  Context `{!Ed25519} (sha256_hex : string → string) (default_url : string) (provider_of : SigningMode → SigningProvider).
  Implicit Types a : App.

(** Every job object under its own id, with a duration that is read back. *)
Definition objs_ok (o : jsmap CompletedJob) : Prop :=
  ∀ i j, jm_get i o = Some j → c_jobId j = i ∧ dur_ok (c_durationMs j).

(** The shown totals are read back from their texts. *)
Definition reads_back a : bool :=
  num_reads_back (x_totalEarnings (ctx a)) &&
  bool_decide (stored_count (num_to_string (x_jobsCompleted (ctx a))) = x_jobsCompleted (ctx a)).

(** The settings in use are the stored ones. *)
Record settled a : Prop := {
  se_mode : stored_mode (disk a) = x_signingMode (ctx a);
  se_installed : installed a = Some (x_signingMode (ctx a));
  se_provider : provider (svc a) = Some (provider_of (x_signingMode (ctx a)));
  se_url : stored_url default_url (disk a) = x_coordinatorUrl (ctx a);
  se_svc_url : svc_url a = x_coordinatorUrl (ctx a) }.

(** The totals shown are the stored ones. *)
Record counted a : Prop := {
  co_earnings : getItem STORAGE_EARNINGS (disk a) = None ∧ x_totalEarnings (ctx a) = num_of_Z 0 ∨
                getItem STORAGE_EARNINGS (disk a) = Some (num_to_string (x_totalEarnings (ctx a)));
  co_jobs : getItem STORAGE_JOBS_COMPLETED (disk a) = None ∧ x_jobsCompleted (ctx a) = num_of_Z 0 ∨
            getItem STORAGE_JOBS_COMPLETED (disk a) = Some (num_to_string (x_jobsCompleted (ctx a))) }.

(** The objects of every listed job are there. *)
Record held a : Prop := {
  he_objs : objs_ok (objs a);
  he_shown : ∀ i, i ∈ x_jobHistory (ctx a) → is_Some (jm_get i (objs a));
  he_durs : durs_ok (svc a) }.

(** The stored history lists the shown jobs. *)
Definition listed a : Prop :=
  stored_history (disk a) = Some (Ok None) ∧ x_jobHistory (ctx a) = [] ∨
  ∃ js, stored_history (disk a) = Some (Ok (Some js)) ∧ c_jobId <$> js = x_jobHistory (ctx a) ∧
    Forall (λ j, dur_ok (c_durationMs j)) js.

Lemma getItem_set k v d : getItem k (setItem k v d) = Some v.
Proof. apply jm_get_set_eq. Qed.
Lemma getItem_other k k' v d : k ≠ k' → getItem k' (setItem k v d) = getItem k' d.
Proof. apply jm_get_set_ne. Qed.
Lemma stored_mode_other k v d : k ≠ STORAGE_SIGNING_MODE → stored_mode (setItem k v d) = stored_mode d.
Proof. intros Hk. unfold stored_mode. by rewrite getItem_other. Qed.
Lemma stored_url_other k v d : k ≠ STORAGE_COORDINATOR_URL → stored_url default_url (setItem k v d) = stored_url default_url d.
Proof. intros Hk. unfold stored_url. by rewrite getItem_other. Qed.
Lemma stored_history_other k v d : k ≠ STORAGE_JOB_HISTORY → stored_history (setItem k v d) = stored_history d.
Proof. intros Hk. unfold stored_history. by rewrite getItem_other. Qed.

(** *** The listeners *)

Lemma emit_svc e a : svc (on_emit e a) = svc a.
Proof. destruct e as [| []| | | | | |]; try done. cbn. by case_match. Qed.
Lemma emit_objs e a : objs (on_emit e a) = objs a.
Proof. destruct e as [| []| | | | | |]; try done. cbn. by case_match. Qed.

Lemma disk_persist k v a : disk (persist k v a) = setItem k v (disk a).
Proof. done. Qed.

Lemma persist_settled k v a : k ≠ STORAGE_SIGNING_MODE → k ≠ STORAGE_COORDINATOR_URL → settled a → settled (persist k v a).
Proof. 
  intros H1 H2 [M I P U S]. split; unfold persist; cbn [disk ctx on_disk installed svc svc_url]; try done.
  - by rewrite stored_mode_other.
  - by rewrite stored_url_other.
Qed.

Lemma emit_settled e a : settled a → settled (on_emit e a).
Proof.
  intros Ha.
  assert (∀ f, x_signingMode (f (ctx a)) = x_signingMode (ctx a) →
    x_coordinatorUrl (f (ctx a)) = x_coordinatorUrl (ctx a) → settled (on_ctx f a)) as Hc.
  { intros f H1 H2. destruct Ha. split; cbn; by rewrite ?H1, ?H2. }
  destruct e as [st|j|j|t|i|x|j tx|js tx]; try done; cbn [on_emit].
  - by apply Hc.
  - set (a1 := persist_history _). assert (settled a1) as H1.
    { apply persist_settled; [done | done|]. pose proof (Hc (x_hist (take 50 (c_jobId j :: x_jobHistory (ctx a)))) eq_refl eq_refl) as [].
      by split. }
    destruct (c_success j); [|done]. apply persist_settled; [done | done|]. destruct H1. by split.
  - by apply Hc.
  - apply persist_settled; [done | done|]. by apply Hc.
  - assert (settled (persist_history a)) as [] by (by apply persist_settled). by split.
  - assert (settled (persist_history a)) as [] by (by apply persist_settled). by split.
Qed.

Lemma emit_held e a : (∀ j, e = MJobCompleted j → is_Some (jm_get (c_jobId j) (objs a))) → held a → held (on_emit e a).
Proof.
  intros He [Ho Hs Hd]. split; [by rewrite emit_objs | | by rewrite emit_svc].
  rewrite emit_objs. destruct e as [st|j|j|t|i|x|j tx|js tx]; try done. cbn [on_emit].
  assert (∀ i, i ∈ take 50 (c_jobId j :: x_jobHistory (ctx a)) → is_Some (jm_get i (objs a))) as Hx.
  { intros i Hi. apply elem_of_take in Hi as (n & Hi & _). apply list_elem_of_lookup_2 in Hi.
    apply elem_of_cons in Hi as [-> |Hi]; [by apply He | by apply Hs]. }
  by destruct (c_success j).
Qed.

Lemma omap_objs o l : objs_ok o → (∀ i, i ∈ l → is_Some (jm_get i o)) →
  c_jobId <$> omap (λ i, jm_get i o) l = l ∧ Forall (λ j, dur_ok (c_durationMs j)) (omap (λ i, jm_get i o) l).
Proof.
  intros Ho. induction l as [|i l IH]; intros Hl; [by split|]. destruct IH as [I1 I2]; [set_solver|].
  destruct (Hl i) as [j Hj]; [set_solver|]. cbn. rewrite Hj. destruct (Ho _ _ Hj) as [<- Hd]. cbn.
  split; [by rewrite I1 | by constructor].
Qed.

Lemma history_text_truthy o l : str_truthy (history_text o l) = true.
Proof. done. Qed.

Lemma persist_listed a : held a → listed (persist_history a).
Proof.
  intros [Ho Hs Hd]. right. destruct (omap_objs _ _ Ho Hs) as [Hi Hj].
  exists (omap (λ i, jm_get i (objs a)) (x_jobHistory (ctx a))). split; [|done].
  unfold persist_history, persist, stored_history. cbn [disk on_disk]. rewrite getItem_set, history_text_truthy.
  unfold history_text. destruct (stored_back _ Hj) as [-> H2]. by rewrite H2.
Qed.

Lemma emit_listed e a : held (on_emit e a) → (listed a ∨ ∃ j, e = MJobCompleted j) → listed (on_emit e a).
Proof.
  intros [Ho Hs Hd] Hl. rewrite emit_objs in Ho, Hs. rewrite emit_svc in Hd.
  destruct e as [st|j|j|t|i|x|j tx|js tx]; try (destruct Hl as [Hl|[? Hl]]; [exact Hl | done]).
  - clear Hl. cbn [on_emit] in *.
    assert (listed (persist_history (with_shared false (on_ctx (x_hist (take 50 (c_jobId j :: x_jobHistory (ctx a)))) a)))) as Hp.
    { apply persist_listed. split; [done | | done]. by destruct (c_success j). }
    destruct (c_success j); [|done]. destruct Hp as [Hp|(js & Hp & Hx)].
    + left. cbn [disk persist on_disk on_ctx]. by rewrite stored_history_other.
    + right. exists js. cbn [disk persist on_disk on_ctx]. by rewrite stored_history_other.
  - destruct Hl as [Hl|[? Hl]]; [|done]. unfold listed in *. cbn [on_emit disk persist on_disk on_ctx] in *.
    by rewrite stored_history_other.
  - by apply persist_listed.
  - by apply persist_listed.
Qed.

Lemma emit_counted e a : counted a → counted (on_emit e a).
Proof.
  intros [He Hj]. destruct e as [st|j|j|t|i|x|j tx|js tx]; try done; cbn [on_emit].
  - assert (counted (persist_history (with_shared false (on_ctx (x_hist (take 50 (c_jobId j :: x_jobHistory (ctx a)))) a)))) as Hp.
    { split; unfold persist_history, persist; cbn [disk on_disk]; by rewrite getItem_other. }
    destruct (c_success j); [|done]. destruct Hp as [He' Hj']. split.
    + by rewrite disk_persist, getItem_other.
    + right. by rewrite disk_persist, getItem_set.
  - split; [right|]; unfold persist; cbn [disk on_disk]; [by rewrite getItem_set | by rewrite getItem_other].
  - split; unfold persist_history, persist; cbn [disk on_disk with_shared]; by rewrite getItem_other.
  - split; unfold persist_history, persist; cbn [disk on_disk with_shared]; by rewrite getItem_other.
Qed.

(** *** A turn of the service *)

Record saved a : Prop := {
  sv_settled : settled a;
  sv_counted : counted a;
  sv_held : held a;
  sv_listed : listed a;
  sv_total : totalEarnings (svc a) = x_totalEarnings (ctx a) }.

Definition known (o : jsmap CompletedJob) (e : MEmit) : Prop :=
  ∀ j, e = MJobCompleted j → is_Some (jm_get (c_jobId j) o).

Lemma fold_emit es : ∀ a, Forall (known (objs a)) es → settled a → counted a → held a →
  (listed a ∨ ∃ j, MJobCompleted j ∈ es) →
  let a' := foldl (λ a e, on_emit e a) a es in
  settled a' ∧ counted a' ∧ held a' ∧ listed a' ∧ svc a' = svc a.
Proof.
  induction es as [|e es IH]; intros a Hk Hs Hc Hh Hl; cbn.
  - destruct Hl as [Hl|[j Hl]]; [done | by apply not_elem_of_nil in Hl].
  - apply list.Forall_cons in Hk as [He Hes]. pose proof (emit_held e a He Hh) as Hh'.
    destruct (IH (on_emit e a)) as (R1 & R2 & R3 & R4 & R5); [by rewrite emit_objs | by apply emit_settled | by apply emit_counted | done | |].
    + destruct Hl as [Hl|[j [<-|Hj]%elem_of_cons]]; [left | left | eauto]; apply emit_listed; eauto.
    + split_and!; try done. by rewrite R5, emit_svc.
Qed.

Lemma fold_total es : ∀ a, Forall (λ e, ∀ x, e ≠ MEarnings x) es →
  x_totalEarnings (ctx (foldl (λ a e, on_emit e a) a es)) = x_totalEarnings (ctx a).
Proof.
  induction es as [|e es IH]; intros a Hes; [done|]. apply list.Forall_cons in Hes as [He Hes]. cbn. rewrite IH by done.
  destruct e as [st|j|j|t|i|x|j tx|js tx]; try done; [|by destruct (He x)]. cbn. by destruct (c_success j).
Qed.

Definition add_objs (o : jsmap CompletedJob) (l : list CompletedJob) : jsmap CompletedJob :=
  foldl (λ o j, jm_set (c_jobId j) j o) o l.

Lemma add_objs_ok l : ∀ o, objs_ok o → Forall (λ j, dur_ok (c_durationMs j)) l →
  objs_ok (add_objs o l) ∧ ∀ i, is_Some (jm_get i o) ∨ i ∈ c_jobId <$> l → is_Some (jm_get i (add_objs o l)).
Proof.
  induction l as [|j l IH]; intros o Ho Hl.
  - split; [done|]. intros i [Hi|Hi]; [done | by apply not_elem_of_nil in Hi].
  - apply list.Forall_cons in Hl as [Hj Hl]. destruct (IH (jm_set (c_jobId j) j o)) as [I1 I2]; [|done|].
    { intros i x. rewrite jm_get_set. case_decide as Hd; [|apply Ho]. by intros [= <-]. }
    split; [done|]. intros i Hi. apply I2. rewrite jm_get_set.
    case_decide; [left; by eexists|]. destruct Hi as [Hi|[-> |Hi]%elem_of_cons]; auto; done.
Qed.

(** The state in which the listeners start. *)
Definition turned (e : MEvent) a : App :=
  let m' := exec_m sha256_hex e (svc a) in
  let a' := with_objs (add_objs (objs a) (jobHistory m')) (on_svc (λ _, m') a) in
  if shared a then on_ctx (x_hist (pushed e (svc a) ++ x_jobHistory (ctx a))%list) a' else a'.

Lemma svc_exec_turned e a : svc_exec sha256_hex e a =
  foldl (λ a e, on_emit e a) (turned e a) (drop (length (log (svc a))) (log (exec_m sha256_hex e (svc a)))).
Proof. done. Qed.

Lemma turned_parts e a : let m' := exec_m sha256_hex e (svc a) in
  provider m' = provider (svc a) → durs_ok m' → (∀ i, i ∈ pushed e (svc a) → i ∈ ids m') → saved a →
  settled (turned e a) ∧ counted (turned e a) ∧ held (turned e a) ∧ svc (turned e a) = m' ∧
  x_totalEarnings (ctx (turned e a)) = x_totalEarnings (ctx a) ∧
  (pushed e (svc a) = [] → listed (turned e a)) ∧ ∀ i, i ∈ ids m' → is_Some (jm_get i (objs (turned e a))).
Proof.
  intros m' Hp Hd Hpush [[M I P U S] [C1 C2] [Ho Hs Hds] Hl Ht].
  destruct (add_objs_ok (jobHistory m') (objs a) Ho (proj1 Hd)) as [O1 O2].
  unfold turned. fold m'. destruct (shared a) eqn:Hsh; cbn [objs with_objs on_svc on_ctx svc ctx].
  - split_and!; try done; [split; try done; exact (eq_trans Hp P) | | |].
    + split; [done | | done]. cbn. intros i [Hi|Hi]%elem_of_app; apply O2; [right; by apply Hpush | left; by apply Hs].
    + intros Hn. unfold listed in *. cbn. by rewrite Hn.
    + intros i Hi. apply O2. by right.
  - split_and!; try done; [split; try done; exact (eq_trans Hp P) | |].
    + split; [done | | done]. intros i Hi. apply O2. left. by apply Hs.
    + intros i Hi. apply O2. by right.
Qed.

Lemma drop_log {A} (l l' : list A) : drop (length l) (l ++ l') = l'.
Proof. apply drop_app_length. Qed.

Lemma calm_saved e a : calm (svc a) (exec_m sha256_hex e (svc a)) → pushed e (svc a) = [] → saved a →
  saved (svc_exec sha256_hex e a).
Proof.
  intros [P I T (new & L & C) D] Hpush Ha. set (m' := exec_m sha256_hex e (svc a)) in *.
  destruct (turned_parts e a) as (T1 & T2 & T3 & T4 & T5 & T6 & T7); [done | by apply D, Ha | by rewrite Hpush; set_solver | done|].
  fold m' in T4, T7. rewrite svc_exec_turned. fold m'. rewrite L, drop_log.
  destruct (fold_emit new (turned e a)) as (R1 & R2 & R3 & R4 & R5); try done.
  { eapply Forall_impl; [|exact C]. intros em Hq j ->. apply T7. by rewrite I. }
  { left. by apply T6. }
  split; try done. rewrite R5, T4, T, fold_total, T5; [apply Ha|].
  eapply Forall_impl; [|exact C]. by intros em Hq x ->.
Qed.

Lemma signed_saved k iso a : saved a → saved (svc_exec sha256_hex (EvSigned k iso) a).
Proof.
  intros Ha. destruct (signing (svc a) !! k) as [j|] eqn:Hj.
  2: { apply calm_saved; [cbn [exec_m]; rewrite Hj; apply calm_refl | cbn [pushed]; by rewrite Hj | done]. }
  destruct (signed_exec sha256_hex k iso (svc a) j Hj) as (P & D & I & job & Hi & Hcase).
  set (e := EvSigned k iso) in *. set (m' := exec_m sha256_hex e (svc a)) in *.
  assert (sj_id j ∈ ids m') as Hin by (rewrite I; by left).
  destruct (turned_parts e a) as (T1 & T2 & T3 & T4 & T5 & T6 & T7); [done | by apply D, Ha | | done|].
  { intros i. unfold e, pushed. rewrite Hj. by intros ->%list_elem_of_singleton. }
  fold m' in T4, T7. rewrite svc_exec_turned. fold m'.
  assert (∀ x, known (objs (turned e a)) (MEarnings x)) as K1 by done.
  assert (known (objs (turned e a)) (MJobCompleted job)) as K2 by (intros j' [= <-]; rewrite Hi; by apply T7).
  destruct Hcase as [(Hs & T & L)|(Hs & L)]; rewrite L, drop_log.
  - destruct (fold_emit [MJobCompleted job] (turned e a)) as (R1 & R2 & R3 & R4 & R5); try done.
    { by repeat constructor. } { right. exists job. by left. }
    split; try done. rewrite R5, T4, fold_total, T5, T; [apply Ha | by repeat constructor].
  - destruct (fold_emit [MEarnings (totalEarnings m'); MJobCompleted job] (turned e a)) as (R1 & R2 & R3 & R4 & R5); try done.
    { by repeat constructor. } { right. exists job. right. by left. }
    split; try done. rewrite R5, T4. cbn. by rewrite Hs.
Qed.

Lemma svc_saved e a : good_event e → saved a → saved (svc_exec sha256_hex e a).
Proof.
  intros He Ha. assert ((∃ k iso, e = EvSigned k iso) ∨ pushed e (svc a) = [] ∧ ∀ k iso, e ≠ EvSigned k iso) as [Hs|[Hp Hs]].
  { destruct e; eauto; by right. }
  - destruct Hs as (k & iso & ->). by apply signed_saved.
  - apply calm_saved; [by apply calm_exec | done | done].
Qed.

(** *** The actions *)

Definition STORED : list string :=
  [STORAGE_EARNINGS; STORAGE_JOBS_COMPLETED; STORAGE_JOB_HISTORY; STORAGE_COORDINATOR_URL; STORAGE_SIGNING_MODE].

(** Changes of what is neither shown by the theorem nor stored for it. *)
Lemma saved_other f d w a : (∀ k, k ∈ STORED → getItem k d = getItem k (disk a)) →
  (∀ x, x_signingMode (f x) = x_signingMode x ∧ x_coordinatorUrl (f x) = x_coordinatorUrl x ∧
     x_totalEarnings (f x) = x_totalEarnings x ∧ x_jobsCompleted (f x) = x_jobsCompleted x ∧
     x_jobHistory (f x) = x_jobHistory x) →
  saved a → saved (on_ctx f (with_mwa w (on_disk (λ _, d) a))).
Proof.
  intros Hd Hf [[M I P U S] [C1 C2] [Ho Hs Hds] Hl Ht]. destruct (Hf (ctx a)) as (F1 & F2 & F3 & F4 & F5).
  assert (getItem STORAGE_EARNINGS d = getItem STORAGE_EARNINGS (disk a) ∧
    getItem STORAGE_JOBS_COMPLETED d = getItem STORAGE_JOBS_COMPLETED (disk a) ∧
    getItem STORAGE_JOB_HISTORY d = getItem STORAGE_JOB_HISTORY (disk a) ∧
    getItem STORAGE_COORDINATOR_URL d = getItem STORAGE_COORDINATOR_URL (disk a) ∧
    getItem STORAGE_SIGNING_MODE d = getItem STORAGE_SIGNING_MODE (disk a)) as (G1 & G2 & G3 & G4 & G5)
    by (split_and!; apply Hd; unfold STORED; set_solver).
  unfold stored_mode in M. unfold stored_url in U. unfold listed, stored_history in Hl.
  split; [split | split | split | |]; unfold listed, stored_mode, stored_url, stored_history;
    cbn [disk ctx installed svc svc_url objs on_ctx with_mwa on_disk];
    rewrite ?G1, ?G2, ?G3, ?G4, ?G5, ?F1, ?F2, ?F3, ?F4, ?F5; done.
Qed.

Definition choose (mode : SigningMode) a : App :=
  persist STORAGE_SIGNING_MODE (mode_str mode) (on_ctx (x_mode mode) (setSigningProvider sha256_hex provider_of mode a)).

Lemma choose_saved mode a : saved a → saved (choose mode a).
Proof.
  intros [[M I P U S] [C1 C2] [Ho Hs Hds] Hl Ht]. unfold choose, persist.
  split; [split | split | split | |]; unfold listed; cbn [disk ctx installed svc svc_url objs on_ctx on_disk setSigningProvider];
    rewrite ?stored_url_other, ?stored_history_other, ?getItem_other; try done.
  unfold stored_mode. rewrite getItem_set. by destruct mode.
Qed.

Lemma url_saved url a : saved a → saved (persist STORAGE_COORDINATOR_URL url (setSvcUrl url (on_ctx (x_url url) a))).
Proof.
  intros [[M I P U S] [C1 C2] [Ho Hs Hds] Hl Ht]. unfold persist.
  split; [split | split | split | |]; unfold listed; cbn [disk ctx installed svc svc_url objs on_ctx on_disk setSvcUrl];
    rewrite ?stored_mode_other, ?stored_history_other, ?getItem_other; try done.
  unfold stored_url. by rewrite getItem_set.
Qed.

Lemma connect_saved a : saved a → saved (connect sha256_hex a).
Proof. by apply svc_saved. Qed.
Lemma disconnect_saved a : saved a → saved (disconnect sha256_hex a).
Proof. by apply svc_saved. Qed.

Lemma not_stored k d v k' : k ∉ STORED → k' ∈ STORED → getItem k' (setItem k v d) = getItem k' d.
Proof. intros Hk Hk'. apply getItem_other. by intros ->. Qed.
Lemma not_removed k d k' : k ∉ STORED → k' ∈ STORED → getItem k' (removeItem k d) = getItem k' d.
Proof. intros Hk Hk'. apply jm_get_delete_ne. by intros ->. Qed.

Ltac unstored := unfold STORED; apply (bool_decide_eq_false _); vm_compute; reflexivity.

Definition good_action (e : AEvent) : Prop := match e with AService e => good_event e | _ => True end.

Lemma persist_saved k v a : k ∉ STORED → saved a → saved (persist k v a).
Proof.
  intros Hk Ha. apply (saved_other id (setItem k v (disk a)) (mwa a) a); [|done | done].
  intros k'. by apply not_stored.
Qed.

Lemma step_saved e a : good_action e → saved a → saved (app_step sha256_hex provider_of e a).
Proof.
  intros He Ha. destruct e as [e| | |url|os au ab| |mode| | | |]; cbn [app_step].
  - destruct (by_app e); [done | by apply svc_saved].
  - by apply connect_saved.
  - by apply disconnect_saved.
  - unfold handleSaveUrl, setCoordinatorUrl. case_match; [|done]. case_match; [done|]. case_match.
    + by apply connect_saved, url_saved, disconnect_saved.
    + by apply url_saved.
  - unfold connectWallet. case_match; [|done].
    destruct (mwa_connect au ab (mwa a) (disk a)) as [[r w] d] eqn:Hm.
    assert (∀ k, k ∈ STORED → getItem k d = getItem k (disk a)) as Hd.
    { intros k Hk. unfold mwa_connect in Hm. destruct (au _) as [[token address]|]; [|by simplify_eq].
      destruct (ab address); simplify_eq; [|done].
      rewrite !not_stored; [done | unstored | done | unstored | done]. }
    destruct r as [u|e]; cbn [snd].
    + by apply (choose_saved Wallet _ (saved_other (x_wallet (walletAddress w)) d w a Hd (λ _, ltac:(done)) Ha)).
    + by apply (choose_saved DeviceKey _ (saved_other id d w a Hd (λ _, ltac:(done)) Ha)).
  - set (b := disconnect sha256_hex a). set (d := (mwa_disconnect (disk b)).2).
    apply (choose_saved DeviceKey (on_ctx (x_wallet None) (with_mwa initMwa (on_disk (λ _, d) b)))).
    apply saved_other; [|done | by apply disconnect_saved].
    intros k Hk. unfold d. cbn [mwa_disconnect snd]. rewrite !not_removed; [done | unstored | done | unstored | done].
  - unfold switchSigningMode. destruct mode; [by apply (choose_saved Wallet)|].
    apply (saved_other (x_wallet None) _ (mwa a) (choose DeviceKey a)); [done | done | by apply choose_saved].
  - unfold toggle. case_match; [done|].
    assert (saved (on_ctx (x_toggling true) a)) as Ht by (by apply (saved_other (x_toggling true) (disk a) (mwa a) a)).
    case_match; by first [apply connect_saved | apply disconnect_saved].
  - by apply (saved_other (x_toggling false) (disk a) (mwa a) a).
  - set (b := disconnect sha256_hex a).
    apply (saved_other id (resetKeypair (disk b)) (mwa b) b); [|done | by apply disconnect_saved].
    intros k Hk. unfold resetKeypair. by rewrite not_removed; [|unstored|].
  - set (b := persist ONBOARDED_KEY "true" a).
    apply (saved_other (x_wallet None) (disk (choose DeviceKey (persist STORAGE_SIGNING_MODE "device-key" b)))
      (mwa a) (choose DeviceKey b)); [|done | by apply choose_saved, persist_saved; [unstored|]].
    intros k _. unfold choose. rewrite !disk_persist. cbn [disk on_ctx setSigningProvider].
    rewrite disk_persist. unfold getItem. cbn [async setItem]. rewrite !jm_get_set. by case_decide.
Qed.

(** *** Restarts *)

Definition restart (d : Disk) : option App :=
  loadPersistedState sha256_hex default_url provider_of (initApp default_url d).

(** What the screens show of the settings, the totals and the history. *)
Definition shows a : SigningMode * string * jsnum * jsnum * list string :=
  (x_signingMode (ctx a), x_coordinatorUrl (ctx a), x_totalEarnings (ctx a), x_jobsCompleted (ctx a), x_jobHistory (ctx a)).

(** The states of an installed app: any actions and any turns of the service,
    and restarts from totals that are read back. *)
Inductive alive : App → Prop :=
  | alive_install a : restart (mkDisk [] []) = Some a → alive a
  | alive_step e a : alive a → good_action e → alive (app_step sha256_hex provider_of e a)
  | alive_restart a a' : alive a → reads_back a = true → restart (disk a) = Some a' → alive a'.

Lemma load_totals a : counted a → reads_back a = true →
  let b := load_jobs (disk a) (load_earnings (disk a) (initApp default_url (disk a))) in
  b = on_svc (on_earnings (λ _, x_totalEarnings (ctx a)))
        (on_ctx (λ x, x_jobs (x_jobsCompleted (ctx a)) (x_earn (x_totalEarnings (ctx a)) x)) (initApp default_url (disk a))).
Proof.
  intros [C1 C2] [R1 R2%bool_decide_eq_true]%andb_true_iff.
  assert (load_earnings (disk a) (initApp default_url (disk a)) =
    on_svc (on_earnings (λ _, x_totalEarnings (ctx a))) (on_ctx (x_earn (x_totalEarnings (ctx a))) (initApp default_url (disk a)))) as ->.
  { unfold load_earnings. destruct C1 as [[-> ->]| ->]; [done|]. rewrite parseFloat_back by done.
    destruct (num_to_string (x_totalEarnings (ctx a))) eqn:Ht; [|done].
    apply andb_true_iff in R1 as [_ R1%bool_decide_eq_true]. by rewrite Ht in R1. }
  unfold load_jobs. destruct C2 as [[-> ->]| ->]; [done|]. rewrite R2.
  destruct (num_to_string (x_jobsCompleted (ctx a))) eqn:Ht; [|done]. change (SpecFloat.S754_nan = x_jobsCompleted (ctx a)) in R2.
  by rewrite <- R2 in Ht.
Qed.

Lemma load_rest_parts d b : let a := load_rest sha256_hex default_url provider_of d b in
  shows a = (stored_mode d, stored_url default_url d, x_totalEarnings (ctx b), x_jobsCompleted (ctx b), x_jobHistory (ctx b)) ∧
  installed a = Some (stored_mode d) ∧ svc_url a = stored_url default_url d ∧ disk a = disk b ∧ objs a = objs b ∧
  shared a = shared b ∧ svc a = exec_m sha256_hex (EvSetProvider (Some (provider_of (stored_mode d)))) (svc b).
Proof. unfold load_rest. by repeat case_match. Qed.

Lemma rest_saved a b : saved a → disk b = disk a → held b →
  x_totalEarnings (ctx b) = x_totalEarnings (ctx a) → x_jobsCompleted (ctx b) = x_jobsCompleted (ctx a) →
  x_jobHistory (ctx b) = x_jobHistory (ctx a) → totalEarnings (svc b) = x_totalEarnings (ctx a) →
  let a' := on_ctx (x_loading false) (load_rest sha256_hex default_url provider_of (disk a) b) in
  saved a' ∧ shows a' = shows a ∧ shared a' = shared b.
Proof.
  intros [[M I P U S] [C1 C2] _ Hl Ht] Hd [Ho Hs Hds] E1 E2 E3 E4.
  destruct (load_rest_parts (disk a) b) as ([= L1 L2 L3 L4 L5] & L6 & L7 & L8 & L9 & L10 & L11).
  rewrite M in L1, L6, L11. rewrite U in L2, L7. rewrite E1 in L3. rewrite E2 in L4. rewrite E3 in L5, Hs.
  unfold listed in Hl.
  split_and!; [|unfold shows; cbn -[load_rest]; by rewrite L1, L2, L3, L4, L5 | done].
  split; [split | split | split | |]; unfold listed; cbn -[load_rest stored_history stored_mode stored_url getItem num_to_string num_of_Z durs_ok];
    rewrite ?L1, ?L2, ?L3, ?L4, ?L5, ?L6, ?L7, ?L8, ?L9, ?L11, ?Hd; done.
Qed.

Lemma restart_saved a : saved a → reads_back a = true →
  ∃ a', restart (disk a) = Some a' ∧ saved a' ∧ shows a' = shows a ∧
    shared a' = match stored_history (disk a) with Some (Ok (Some _)) => true | _ => false end.
Proof.
  intros Ha R. pose proof (sv_listed a Ha) as Hl. unfold restart, loadPersistedState, load_history. cbn [disk initApp].
  rewrite (load_totals a (sv_counted a Ha) R). destruct Hl as [[Hl Hn]|(js & Hl & Hi & Hj)]; rewrite Hl; cbn [mbind option_bind].
  - eexists. split; [done|]. apply rest_saved; try done.
    split; [by intros | | by split; constructor]. cbn. set_solver.
  - eexists. split; [done|]. apply rest_saved; try done. clear Hl.
    destruct (add_objs_ok js [] ltac:(by intros ? ?) Hj) as [O1 O2].
    split; [done | | by split; [|constructor]]. intros i Hx. apply O2. by right.
Qed.

Lemma install_saved a : restart (mkDisk [] []) = Some a → saved a.
Proof. intros [= <-]. split; [done | by split; left | | by left | done]. split; [by intros | | by split; constructor]. cbn. set_solver. Qed.

Lemma alive_saved a : alive a → saved a.
Proof.
  induction 1 as [a Ha|e a _ IH He|a a' _ IH R Hr]; [by apply install_saved | by apply step_saved|].
  destruct (restart_saved a IH R) as (a1 & H1 & Hs & _). congruence.
Qed.

(** C37: the phone app keeps what it shows.  After any actions, turns of the
    service and restarts, the provider that signs is the one of the shown mode,
    the service dials the shown coordinator and counts the shown earnings; and
    when the totals are read back from their texts, a restart succeeds and shows
    the same mode, coordinator, earnings, number of jobs and list of jobs. *)
Theorem app_survives_restarts a : alive a →
  let mode := x_signingMode (ctx a) in
  installed a = Some mode ∧ provider (svc a) = Some (provider_of mode) ∧ svc_url a = x_coordinatorUrl (ctx a) ∧
  totalEarnings (svc a) = x_totalEarnings (ctx a) ∧
  (reads_back a = true → ∃ a', restart (disk a) = Some a' ∧ shows a' = shows a).
Proof.
  intros Ha%alive_saved. destruct (sv_settled a Ha) as [M I P U S]. split_and!; try done; [apply Ha|].
  intros R. destruct (restart_saved a Ha R) as (a' & H1 & _ & H2 & _). by exists a'.
Qed.

(** After a restart with a stored history the app and the service hold the
    same array, and as long as they do, a job that completes is listed twice:
    once by the service's [unshift] into the shared array and once by the
    listener; the service itself has it once. *)
Theorem restored_history_lists_a_job_twice a k iso j :
  (∀ js, stored_history (disk a) = Some (Ok (Some js)) →
     ∃ a', restart (disk a) = Some a' ∧ shared a' = true ∧ x_jobHistory (ctx a') = c_jobId <$> js ∧ jobHistory (svc a') = js) ∧
  (shared a = true → signing (svc a) !! k = Some j →
     let a' := app_step sha256_hex provider_of (AService (EvSigned k iso)) a in
     x_jobHistory (ctx a') = take 50 (sj_id j :: sj_id j :: x_jobHistory (ctx a)) ∧
     ids (svc a') = take 50 (sj_id j :: ids (svc a)) ∧ shared a' = false).
Proof.
  split.
  - intros js Hjs. unfold restart, loadPersistedState, load_history. cbn [disk initApp]. rewrite Hjs. cbn [mbind option_bind].
    eexists. split; [done|]. match goal with |- context [load_rest _ _ _ _ ?b] => set (b0 := b) end.
    destruct (load_rest_parts (disk a) b0) as ([= L1 L2 L3 L4 L5] & L6 & L7 & L8 & L9 & L10 & L11).
    cbn -[load_rest]. rewrite L5, L10, L11. done.
  - intros Hsh Hj a'. unfold a'. cbn [app_step by_app]. rewrite svc_exec_turned.
    destruct (signed_exec sha256_hex k iso (svc a) j Hj) as (P & D & I & job & Hi & Hcase).
    unfold turned, pushed. rewrite Hsh, Hj. set (m' := exec_m sha256_hex (EvSigned k iso) (svc a)) in *.
    destruct Hcase as [(Hs & T & L)|(Hs & L)]; rewrite L, drop_log; cbn -[take m']; rewrite Hs, Hi; done.
Qed.

(** A stored history that is not JSON makes the app skip the settings
    stored beside it: it shows the default coordinator while the service dials
    localhost, and no provider is installed, whatever the stored coordinator and
    mode; the totals are restored. *)
Theorem corrupt_history_skips_the_settings d text :
  getItem STORAGE_JOB_HISTORY d = Some text → str_truthy text = true → JSON_parse text = None →
  ∃ a, restart d = Some a ∧ x_isLoading (ctx a) = false ∧
    x_coordinatorUrl (ctx a) = default_url ∧ svc_url a = SERVICE_URL ∧
    x_signingMode (ctx a) = DeviceKey ∧ installed a = None ∧ provider (svc a) = None ∧
    totalEarnings (svc a) = x_totalEarnings (ctx a) ∧ x_jobHistory (ctx a) = [].
Proof.
  intros Hg Ht Hp. unfold restart, loadPersistedState, load_history, stored_history. cbn [disk initApp].
  rewrite Hg, Ht, Hp. cbn [mbind option_bind]. eexists. split; [done|].
  unfold load_jobs, load_earnings. by repeat case_match.
Qed.
End Restart.

(** ** A first day *)

Definition sc_url : string := "wss://c".
Definition sc_provider_of (_ : SigningMode) : SigningProvider := DeviceKeyProvider (sc_secret sc_key1).
Definition sc_summarize : JobPayload := {| p_task_type := Some "summarize"; p_input := Some "two words"; p_prompt := None; p_max_tokens := None |}.

(** Connect, register, take a job and sign it. *)
Definition sc_one_job (i : nat) (job : string) : list AEvent :=
  [AConnect; AService (EvKeys (inr {| mk_pubkeyHex := sc_key1; mk_secret := None |}) true); AService (EvOpen i);
   AService (EvMessage i (MiAck true (Some "w1") None) 0); AService (EvMessage i (MiAssign job TASK sc_summarize) 5);
   AService (EvSigned 0 "then")].
Definition sc_day : list AEvent := AGetStarted :: ASaveUrl "wss://d" :: sc_one_job 0 "j1".

Definition sc_restart (d : Disk) : option App := restart toy_sha256 sc_url sc_provider_of d.
Definition sc_app_run (es : list AEvent) (a : App) : App := app_run toy_sha256 sc_provider_of es a.

Lemma run_app_alive `{!Ed25519} sha default_url provider_of es : ∀ a, alive sha default_url provider_of a →
  Forall good_action es → alive sha default_url provider_of (app_run sha provider_of es a).
Proof.
  induction es as [|e es IH]; intros a Ha Hes; [done|]. apply list.Forall_cons in Hes as [He Hes].
  by apply IH; [apply alive_step|].
Qed.

Lemma sc_day_good : Forall good_action sc_day.
Proof. repeat constructor; vm_compute; reflexivity. Qed.

Lemma app_survives_restarts_witness :
  ∃ a a', sc_app_run sc_day <$> sc_restart (mkDisk [] []) = Some a ∧ reads_back a = true ∧
    x_jobHistory (ctx a) = ["j1"] ∧ x_coordinatorUrl (ctx a) = "wss://d" ∧
    sc_restart (disk a) = Some a' ∧ shows a' = shows a.
Proof.
  destruct (sc_restart (mkDisk [] [])) as [a0|] eqn:E0; [|discriminate E0].
  exists (sc_app_run sc_day a0).
  destruct (app_survives_restarts toy_sha256 sc_url sc_provider_of (sc_app_run sc_day a0)) as (_ & _ & _ & _ & H).
  { apply run_app_alive; [by apply alive_install | apply sc_day_good]. }
  injection E0 as <-.
  destruct H as (a' & H1 & H2); [vm_compute; reflexivity|].
  exists a'. split; [reflexivity|]. split; [vm_compute; reflexivity|]. split; [vm_compute; reflexivity|].
  split; [vm_compute; reflexivity|]. by split.
Defined.

Lemma restored_history_lists_a_job_twice_witness :
  ∃ a, (sc_restart (mkDisk [] []) ≫= λ a, let a := sc_app_run sc_day a in
        sc_app_run (take 5 (sc_one_job 0 "j2")) <$> sc_restart (disk a)) = Some a ∧
    x_jobHistory (ctx (app_step toy_sha256 sc_provider_of (AService (EvSigned 0 "then")) a)) = ["j2"; "j2"; "j1"].
Proof.
  match goal with |- ∃ a, ?o = Some a ∧ _ => destruct o as [a|] eqn:E; [|vm_compute in E; discriminate E] end.
  exists a. split; [done|]. destruct (signing (svc a) !! 0) as [j|] eqn:Hj; [|vm_compute in E; injection E as <-; vm_compute in Hj; discriminate Hj].
  destruct (restored_history_lists_a_job_twice toy_sha256 sc_url sc_provider_of a 0 "then" j) as [_ H].
  vm_compute in E. injection E as <-.
  destruct (H eq_refl Hj) as [-> _]. vm_compute in Hj. injection Hj as <-. reflexivity.
Defined.

Lemma corrupt_history_skips_the_settings_witness :
  ∃ a, sc_restart (mkDisk [] [(STORAGE_JOB_HISTORY, "[{"); (STORAGE_COORDINATOR_URL, "wss://d")]) = Some a ∧
    svc_url a = "ws://localhost:4020" ∧ x_coordinatorUrl (ctx a) = sc_url.
Proof.
  destruct (corrupt_history_skips_the_settings toy_sha256 sc_url sc_provider_of
    (mkDisk [] [(STORAGE_JOB_HISTORY, "[{"); (STORAGE_COORDINATOR_URL, "wss://d")]) "[{")
    as (a & H1 & _ & H2 & H3 & _); [reflexivity | reflexivity | reflexivity|].
  by exists a.
Defined.
