(* ===== verification/Screens.v ===== *)
(** * The screens of the phone

    The components of mobile/seeker-solana/src/components and the screens of
    app/: what each one shows for its props and state, which of its controls can
    be pressed, and what a press does to the app of PhoneApp.v; the effect with
    which the dashboard connects by itself and the error banner, as machines over
    their timers.  Styles, icons of the icon font and animations are left out.  A
    symbol beyond Latin-1 is its code point. *)

From stdpp Require Import base list gmap strings option.
From Stdlib Require Import ZArith Lia Ascii SpecFloat.
From S2P Require Import Prelude Views Js Json Protocol Interfaces Executors Scenario Workers MobileWs Cli WorkerKeys PhoneKeys PhoneApp.
Local Open Scope string_scope.

(** ** Actions *)

Inductive UiAct :=
  | PressToggle | PressConnectWallet | PressDisconnectWallet | PressSwitch (m : SigningMode)
  | PressSave | PressReset | PressCopyWorkerId | PressCopyWallet | PressCopy (text : string)
  | PressOpen (url : option string) | PressSelect (jobId : string) | PressClose | PressNothing | PressGetStarted.

Abbreviation View := (Views.View UiAct).

(** [s.slice(-n)] *)
Definition slice_end (n : nat) (s : string) : string := String.substring (String.length s - n) n s.
Definition ellipsis (a b : nat) (s : string) : string := slice0 a s ++ "..." ++ slice_end b s.

(** ** Components *)

(** Colours of theme.ts, by name. *)
Definition STATUS_CONFIG (s : ConnectionStatus) : string * string :=
  match s with
  | Connected => ("success", "Online")
  | Disconnected => ("error", "Offline")
  | Reconnecting => ("warning", "Reconnecting...")
  | Connecting => ("accentLight", "Going live...")
  end.

Definition identityValue (mode : SigningMode) (walletAddress workerId : option string) : string :=
  match mode with
  | Wallet => match walletAddress with
              | Some w => if str_truthy w then ellipsis 6 4 w else "No wallet linked"
              | None => "No wallet linked"
              end
  | DeviceKey => match workerId with
                 | Some w => if str_truthy w then ellipsis 8 8 w else "---"
                 | None => "---"
                 end
  end.

Definition StatusCard (status : ConnectionStatus) (coordinatorUrl : string) (workerId : option string)
    (mode : SigningMode) (walletAddress : option string) : View :=
  VBox [VBox [VText (STATUS_CONFIG status).2; VText (match mode with Wallet => "WALLET" | DeviceKey => "DEVICE KEY" end)];
        VBox [VText "Network"; VText coordinatorUrl];
        VBox [VText (match mode with Wallet => "Identity" | DeviceKey => "Node ID" end);
              VText (identityValue mode walletAddress workerId)]].

Definition EarningsCard (totalEarnings jobsCompleted : jsnum) : View :=
  let parts := split_on (Ascii.eqb ".") (toFixed 4 totalEarnings) in
  VBox [VBox [VText "Earnings";
              VBox [VBox [VText (default "" (parts !! 0%nat)); VText ("." ++ default "" (parts !! 1%nat))];
                    VBox [VText "BOLT"; VText "(Solana devnet)"]];
              VText "0.001 per job"];
        VBox [VText "Completed"; VText (num_to_string jobsCompleted)]].

Definition toggle_label (status : ConnectionStatus) (isToggling needsWallet : bool) : string * string :=
  if needsWallet then ("WALLET", "Link wallet to earn")
  else match status with
       | Connected => ("EARNING", "Tap to go offline")
       | Reconnecting => ("RECONNECTING", "Please wait...")
       | Connecting => ("CONNECTING", "Please wait...")
       | Disconnected => if isToggling then ("CONNECTING", "Please wait...") else ("GO LIVE", "Start earning BOLT")
       end.

Definition WorkerToggle (status : ConnectionStatus) (isToggling : bool) (mode : SigningMode) (walletConnected : bool) : View :=
  let needsWallet := match mode with Wallet => negb walletConnected | DeviceKey => false end in
  let label := toggle_label status isToggling needsWallet in
  VBox [VPress (isToggling || needsWallet) PressToggle [VText label.1; VText label.2]].

Definition EmptyState (icon : option Z) (title subtitle : string) : View :=
  VBox [VBox [match icon with Some c => VGlyph c | None => VText "?" end]; VText title; VText subtitle].

(** JobHistory.tsx.  Times are milliseconds, as integers: below 2^43 the code's
    floating quotients have the same floors. *)
Definition formatRelativeTime (now timestamp : Z) : string :=
  let diff := (now - timestamp)%Z in
  let seconds := (diff / 1000)%Z in
  let text n unit := num_to_string (num_of_Z n) ++ unit ++ " ago" in
  if (seconds <? 60)%Z then text seconds "s" else
  let minutes := (seconds / 60)%Z in
  if (minutes <? 60)%Z then text minutes "m" else
  let hours := (minutes / 60)%Z in
  if (hours <? 24)%Z then text hours "h" else
  text (hours / 24)%Z "d".

(** A job of the history with the members that only the screens read. *)
Record ShownJob := {
  sj_job : CompletedJob; sj_timestamp : Z; sj_feedbackExplorerUrl : option string; sj_paymentExplorerUrl : option string }.

Definition ActivityRow (now : Z) (j : ShownJob) : View :=
  let ok := c_success (sj_job j) in
  VPress false (PressSelect (c_jobId (sj_job j)))
    [VBox [VGlyph (if ok then 10003 else 10007)%Z; VText (if ok then "Earned 0.001 BOLT" else "Job failed")];
     VText (formatRelativeTime now (sj_timestamp j))].

(** JobDetailModal.tsx.  How the platform prints a date is a parameter. *)
Definition truncateId (id : string) (maxLen : nat) : string :=
  if (String.length id <=? maxLen)%nat then id else ellipsis 8 6 id.

Abbreviation formatDuration ms := (toFixed 1 (num_div (num_of_Z ms) (num_of_Z 1000)) ++ " seconds")%string.

Abbreviation DetailRow label value := (VBox [VText label; VText value]).

Definition otrue (b : option bool) : bool := match b with Some b => b | None => false end.

Definition JobDetailModal (toLocaleString : Z → string) (job : option ShownJob) : list View :=
  match job with
  | None => []
  | Some s =>
      let job := sj_job s in
      let hasFeedbackTx := ostr_truthy (c_feedbackTx job) in
      let hasPaymentTx := ostr_truthy (c_paymentTx job) in
      let pendingTx := negb hasFeedbackTx && negb hasPaymentTx && negb (otrue (c_feedbackFailed job)) &&
                       negb (otrue (c_paymentFailed job)) in
      let tx label button url hash :=
        [VPress false (PressOpen url) [VText button];
         VPress false (PressCopy (default "" hash)) [VText label; VText (truncateId (default "" hash) 20)]] in
      [VPress false PressClose [VPress false PressNothing
        [VPress false PressClose [VText "X"];
         VText (if c_success job then "Job Completed" else "Job Failed");
         VText (if c_success job then "0.001 BOLT" else "No earnings");
         VBox [DetailRow "Time" (toLocaleString (sj_timestamp s));
               DetailRow "Duration" (formatDuration (c_durationMs job));
               VPress false (PressCopy (c_jobId job)) [VText "Job ID"; VText (truncateId (c_jobId job) 16)]];
         VBox (when hasPaymentTx (tx "Payment Tx" "View on Solana Explorer" (sj_paymentExplorerUrl s) (c_paymentTx job)) ++
               when hasFeedbackTx (tx "Feedback Tx" "View on Monad Explorer" (sj_feedbackExplorerUrl s) (c_feedbackTx job)) ++
               when (pendingTx && c_success job) [VText "Transaction processing..."] ++
               when (otrue (c_paymentFailed job) && negb hasPaymentTx) [VText "Payment failed"] ++
               when (otrue (c_feedbackFailed job) && negb (otrue (c_paymentFailed job)) && negb hasFeedbackTx)
                 [VText "Reputation update failed"])%list]]]
  end.

(** The state is the selected job id; a press on a row sets it, closing clears it. *)
Definition ActivityList (toLocaleString : Z → string) (now : Z) (jobs : list ShownJob) (isConnected : bool)
    (selectedJobId : option string) : View :=
  let selectedJob := match selectedJobId with
                     | Some i => if str_truthy i then List.find (λ j, String.eqb (c_jobId (sj_job j)) i) jobs else None
                     | None => None
                     end in
  match jobs with
  | [] => if isConnected
          then EmptyState (Some 128270%Z) "Listening for jobs..." "They'll appear here as they complete"
          else EmptyState (Some 9889%Z) "No activity yet" "Go to Dashboard and tap Go Live to start earning"
  | _ => VBox (map (ActivityRow now) jobs ++ JobDetailModal toLocaleString selectedJob)%list
  end.

(** ** Screens *)

Section Screens.
  Context (toLocaleString : Z → string).

(** [connectingWallet] and the input of the settings are local state of a screen. *)
Definition DashboardScreen (x : Ctx) (connectingWallet : bool) (toast : option string) : View :=
  if x_isLoading x then VBox []                             (* DashboardSkeleton *)
  else
    VBox (match toast with Some m => when (str_truthy m) [VText m] | None => [] end ++
          [VBox [VText "Dispatch"; VText "Compute Node"];
           VBox [VText ("Solana Devnet " ++ String (ascii_of_nat 183) " Monad Testnet");
                 VText ("Earning BOLT " ++ String (ascii_of_nat 183) " Building reputation")]] ++
          when (bool_decide (x_signingMode x = Wallet) && negb (ostr_truthy (x_walletAddress x)))
            [VBox [VText "Link your Solana wallet to earn BOLT for compute jobs";
                   VPress connectingWallet PressConnectWallet
                     [if connectingWallet then VSpinner else VText "Connect Wallet"]]] ++
          [StatusCard (x_status x) (x_coordinatorUrl x) (x_workerId x) (x_signingMode x) (x_walletAddress x);
           EarningsCard (x_totalEarnings x) (x_jobsCompleted x);
           WorkerToggle (x_status x) (x_isToggling x) (x_signingMode x) (ostr_truthy (x_walletAddress x))])%list.

Definition ActivityScreen (x : Ctx) (now : Z) (jobs : list ShownJob) (selectedJobId : option string) : View :=
  VBox [VText "Activity"; ActivityList toLocaleString now jobs (bool_decide (x_status x = Connected)) selectedJobId].

Definition wallet_section (x : Ctx) (connectingWallet walletCopied : bool) : View :=
  VBox (VText "Wallet" ::
    if ostr_truthy (x_walletAddress x) then
      [VPress false PressCopyWallet
         [VText "Connected"; VText (ellipsis 6 4 (default "" (x_walletAddress x)));
          VText (if walletCopied then "Copied!" else "Tap to copy")];
       VPress false PressDisconnectWallet [VText "Disconnect Wallet"]]
    else [VPress connectingWallet PressConnectWallet [VText (if connectingWallet then "Connecting..." else "Connect Wallet")]]).

Definition identity_sections (x : Ctx) (copied : bool) : list View :=
  [VBox [VText "Node Identity";
         VText "Your ed25519 public key, used to sign compute receipts and prove work.";
         VPress false PressCopyWorkerId
           [VText (default "Generated on first connection" (x_workerId x)); VText (if copied then "Copied!" else "Tap to copy")]];
   VBox [VText "Danger Zone";
         VPress false PressReset [VText "Reset Identity"; VText "Generates a new keypair. Earnings history will be lost."]]].

Definition SettingsScreen (isAndroid : bool) (x : Ctx) (urlInput : string) (copied walletCopied connectingWallet : bool) : View :=
  let isWalletMode := bool_decide (x_signingMode x = Wallet) in
  VBox ([VText "Settings";
         VBox [VText "Signing Mode";
               VText "Wallet mode signs receipts with your Solana wallet. Device key uses a local keypair for headless operation.";
               VBox [VPress (negb isAndroid) (PressSwitch Wallet)
                       (VText "Wallet" :: when (negb isAndroid) [VText "Android only"]);
                     VPress false (PressSwitch DeviceKey) [VText "Device Key"]];
               VText "Device Key works on all platforms. Wallet mode requires a Solana wallet app on Android."]] ++
        when isWalletMode [wallet_section x connectingWallet walletCopied] ++
        [VBox [VText "Network Endpoint"; VText "Coordinator node that routes jobs to your device.";
               VBox [VInput urlInput; VPress false PressSave [VText "Save"]]]] ++
        when (negb isWalletMode) (identity_sections x copied) ++
        [VBox [VText "About"; VBox [VText "App"; VText "Dispatch"]; VBox [VText "Version"; VText "1.2.0 (beta)"];
               VBox [VText "Network"; VText "Solana Devnet + Monad Testnet"];
               VBox [VText "Signing"; VText (if isWalletMode then "Wallet (MWA)" else "Device Key")]];
         VPress false (PressOpen (Some "https://dispatch.computer")) [VText "dispatch.computer"]])%list.

Definition OnboardingScreen : View :=
  let nl := String (ascii_of_nat 10) "" in
  VBox [VText ("Your phone earns" ++ nl ++ "while you sleep");
        VText ("Dispatch routes AI jobs to your idle phone." ++ nl ++ "Tap below to start earning.");
        VPress false PressGetStarted [VText "Get Started"]].

End Screens.

(** ** The dashboard connects by itself

    The effect of the dashboard depends on [isLoading] and [status]: when one of
    them changed since the last render, its cleanup clears the timer and it runs
    again.  React renders after every event. *)

Record Dash := mkDash {
  hasAutoConnected : bool; autoTimer : bool; refreshing : bool; deps : option (bool * ConnectionStatus) }.

Definition initDash : Dash := mkDash false false false None.

Definition auto_effect (x : Ctx) (d : Dash) : Dash :=
  let now := (x_isLoading x, x_status x) in
  if decide (deps d = Some now) then d
  else if negb (x_isLoading x) && bool_decide (x_status x = Disconnected) && negb (hasAutoConnected d)
  then mkDash true true (refreshing d) (Some now)
  else mkDash (hasAutoConnected d) false (refreshing d) (Some now).

Section Phone.
  Context `{!Ed25519} (sha256_hex : string → string).
  Context (provider_of : SigningMode → SigningProvider).

Record Phone := mkPhone { app : App; dash : Dash }.

Definition onRefresh (p : Phone) : Phone :=
  let d := dash p in
  mkPhone (if bool_decide (x_status (ctx (app p)) = Disconnected) then connect sha256_hex (app p) else app p)
    (mkDash (hasAutoConnected d) (autoTimer d) true (deps d)).

Inductive PEvent :=
  | PService (e : MEvent)                         (* sockets, timers, keys and signatures *)
  | PToggle | PToggled                            (* the button, and the timer of its handler *)
  | PSettings (e : AEvent)                        (* the settings and onboarding screens *)
  | PAutoTimer                                    (* 500 ms after the effect *)
  | PRefresh | PRefreshed.

(** What the settings and onboarding screens do. *)
Definition on_settings (e : AEvent) : bool :=
  match e with
  | ASaveUrl _ | AConnectWallet _ _ _ | ADisconnectWallet | ASwitch _ | AReset | AGetStarted => true
  | AService _ | AConnect | ADisconnect | AToggle | AToggled => false
  end.

(** The button reacts to a press only while the dashboard shows it enabled. *)
Definition can_toggle (a : App) : bool := existsb (λ act, match act with PressToggle => true | _ => false end)
  (enabled (DashboardScreen (ctx a) false None)).

Definition phone_act (e : PEvent) (p : Phone) : Phone :=
  let a := app p in let d := dash p in
  match e with
  | PService e => mkPhone (app_step sha256_hex provider_of (AService e) a) d
  | PToggle => mkPhone (if can_toggle a then toggle sha256_hex a else a) d
  | PToggled => mkPhone (toggled a) d
  | PSettings e => mkPhone (if on_settings e then app_step sha256_hex provider_of e a else a) d
  | PAutoTimer => if autoTimer d
                  then mkPhone (connect sha256_hex a) (mkDash (hasAutoConnected d) false (refreshing d) (deps d))
                  else p
  | PRefresh => onRefresh p
  | PRefreshed => mkPhone a (mkDash (hasAutoConnected d) (autoTimer d) false (deps d))
  end.

Definition phone_step (e : PEvent) (p : Phone) : Phone :=
  let p := phone_act e p in mkPhone (app p) (auto_effect (ctx (app p)) (dash p)).

Definition phone_run (es : list PEvent) (p : Phone) : Phone := foldl (λ p e, phone_step e p) p es.
End Phone.

(** ** The app shows the status of the service *)

Definition last_status (l : list MEmit) (s : ConnectionStatus) : ConnectionStatus :=
  foldl (λ s e, match e with MStatus s' => s' | _ => s end) s l.

Section Tracks.
  Context `{!Ed25519} (sha256_hex : string → string).
  Implicit Types m : Service.

(** What was emitted between [m] and [m'] tells the status of [m']. *)
Definition tracks m m' : Prop :=
  ∃ new, log m' = (log m ++ new)%list ∧ status (conn m') = last_status new (status (conn m)).

#[local] Instance tracks_preorder : PreOrder tracks.
Proof.
  split.
  - intros m. exists []. by rewrite app_nil_r.
  - intros m1 m2 m3 (n1 & L1 & S1) (n2 & L2 & S2). exists (n1 ++ n2)%list.
    rewrite L2, L1, app_assoc. split; [done|]. unfold last_status in *. by rewrite foldl_app, S2, S1.
Qed.

(** Same log, same status. *)
Lemma tracks_same m m' : log m' = log m → status (conn m') = status (conn m) → tracks m m'.
Proof. intros L S. exists []. by rewrite L, app_nil_r. Qed.

Lemma tracks_emit e m : (∀ s, e ≠ MStatus s) → tracks m (MobileWs.emit e m).
Proof. intros He. exists [e]. split; [done|]. destruct e; try done. by destruct (He s). Qed.

Lemma tracks_status s m : tracks m (setStatus s m).
Proof. unfold setStatus. case_bool_decide; [done|]. by exists [MStatus s]. Qed.

Lemma tracks_send x m : tracks m (MobileWs.send x m).
Proof. unfold MobileWs.send. destruct (cur_open (conn m)); by apply tracks_same. Qed.

Lemma tracks_schedule m : tracks m (scheduleReconnect m).
Proof. unfold scheduleReconnect. destruct (shouldReconnect (conn m)); by apply tracks_same. Qed.

Lemma tracks_doConnect ok m : tracks m (doConnect ok m).
Proof.
  unfold doConnect. destruct (keys (conn m)); [|done]. etrans; [apply (tracks_status Connecting)|].
  destruct ok; [by apply tracks_same|]. etrans; [|apply tracks_schedule]. by apply tracks_emit.
Qed.

Lemma tracks_update i f m : tracks m (update_job i f m).
Proof.
  unfold update_job. destruct (List.find _ _); [|done]. etrans; [|by apply tracks_emit]. by apply tracks_same.
Qed.

Lemma tracks_updates (f : string → CompletedJob → CompletedJob) l : ∀ m,
  tracks m (foldl (λ m i, update_job i (f i) m) m l).
Proof. induction l as [|i l IH]; intros m; cbn; [done|]. etrans; [apply (tracks_update i (f i)) | apply IH]. Qed.

Lemma tracks_message msg d m : tracks m (MobileWs.handleMessage msg d m).
Proof.
  assert (∀ e, tracks m (close_cur (MobileWs.emit (MError e) m))) as Hclose.
  { intros e. etrans; [by apply (tracks_emit (MError e))|]. apply tracks_same; [done|].
    cbn. by destruct (cur (conn m)). }
  destruct msg as [ok [id|] err|j t p|code text|j tx|js tx a tok|j|js|]; cbn [MobileWs.handleMessage].
  - unfold handleRegisterAck. destruct (_ && _); [|apply Hclose].
    etrans; [|by apply tracks_emit]. etrans; [|by apply tracks_same]. etrans; [|apply tracks_status]. by apply tracks_same.
  - apply Hclose.
  - unfold handleJobAssign. destruct (keys (conn m)); [|done].
    assert (tracks m (MobileWs.emit (MJobReceived j) m)) as Hr by (by apply tracks_emit).
    destruct t, (p_task_type p), (p_input p); try destruct (_ && _);
      (etrans; [exact Hr|]); first [apply tracks_send | by apply tracks_same].
  - by apply tracks_emit.
  - unfold handleFeedbackPosted. destruct (List.find _ _); [|done]. etrans; [|by apply tracks_emit]. apply tracks_update.
  - unfold handlePaymentPosted. etrans; [|by apply tracks_emit]. apply (tracks_updates (λ _, set_payment tx _)).
  - apply tracks_update.
  - apply (tracks_updates (λ _, set_payment_failed)).
  - done.
Qed.

Lemma tracks_finish j iso m : tracks m (finishJob sha256_hex j iso m).
Proof.
  unfold finishJob. destruct (sign_job sha256_hex j iso) as [c|e].
  - etrans; [apply (tracks_send (MsgJobComplete c))|]. etrans; [|by apply tracks_emit]. etrans; [|by apply tracks_emit].
    by apply tracks_same.
  - etrans; [|by apply tracks_emit]. by apply tracks_same.
Qed.

Lemma tracks_exec e m : tracks m (exec_m sha256_hex e m).
Proof.
  destruct e as [|res ok| |p|i|i msg d|i|i|t ok| |k iso]; cbn [exec_m].
  - unfold MobileWs.connect. destruct (status (conn m)) eqn:E; by apply tracks_same.
  - destruct (decide _); [done|]. unfold connect_keys. destruct res as [e|k].
    + etrans; [|by apply tracks_emit]. by apply tracks_same.
    + etrans; [|apply tracks_doConnect]. by apply tracks_same.
  - unfold MobileWs.disconnect. etrans; [|apply tracks_status]. apply tracks_same; [done|]. cbn.
    destruct (reconnectTimeout (conn m)); cbn; by destruct (cur (conn m)).
  - by apply tracks_same.
  - destruct (socks (conn m) !! i) as [[[] h]|]; try done. destruct h; [|by apply tracks_same].
    unfold onopen, sendRegister. etrans; [|repeat case_match; first [apply tracks_send | done]]. by apply tracks_same.
  - destruct (socks (conn m) !! i) as [[[] []]|]; try done. apply tracks_message.
  - destruct (socks (conn m) !! i) as [[? []]|]; try done. by apply tracks_emit.
  - assert (∀ h, tracks m (let m := set_sock i SClosed m in if h : bool then onclose m else m)) as Hc.
    { intros []; cbv zeta; [|by apply tracks_same]. unfold onclose.
      destruct (shouldReconnect _).
      - etrans; [|apply tracks_schedule]. etrans; [|apply tracks_status]. by apply tracks_same.
      - etrans; [|apply tracks_status]. by apply tracks_same. }
    destruct (socks (conn m) !! i) as [[[] h]|]; first [done | apply Hc].
  - destruct (existsb _ _); [|done]. etrans; [|destruct (shouldReconnect _); [apply tracks_doConnect | done]].
    by apply tracks_same.
  - destruct (heartbeat (conn m)); [|done]. destruct (keys (conn m)); [|done].
    destruct (cur_open (conn m)); [apply tracks_send | done].
  - destruct (signing m !! k); [|done]. etrans; [|apply tracks_finish]. by apply tracks_same.
Qed.
End Tracks.

(** ** One connection *)

Section OneConnection.
  Context `{!Ed25519} (sha256_hex : string → string) (provider_of : SigningMode → SigningProvider).
  Implicit Types (m : Service) (a : App) (p : Phone).

Definition synced a : Prop := x_status (ctx a) = status (conn (svc a)).

Lemma emits_status l : ∀ a, x_status (ctx (foldl (λ a e, on_emit e a) a l)) = last_status l (x_status (ctx a)).
Proof.
  induction l as [|e l IH]; intros a; [done|]. cbn [foldl]. rewrite IH. unfold last_status. cbn [foldl]. f_equal.
  destruct e as [|j| | | | | |]; try done. cbn. by destruct (c_success j).
Qed.

Lemma emits_svc l : ∀ a, svc (foldl (λ a e, on_emit e a) a l) = svc a.
Proof. induction l as [|e l IH]; intros a; [done|]. cbn [foldl]. rewrite IH. apply emit_svc. Qed.

Lemma svc_exec_svc e a : svc (svc_exec sha256_hex e a) = exec_m sha256_hex e (svc a).
Proof. unfold svc_exec. rewrite emits_svc. by case_match. Qed.

Lemma svc_exec_synced e a : synced a → synced (svc_exec sha256_hex e a).
Proof.
  unfold synced. intros Ha. rewrite svc_exec_svc. unfold svc_exec. rewrite emits_status.
  destruct (tracks_exec sha256_hex e (svc a)) as (new & L & S). rewrite L, drop_app_length, S, <- Ha.
  by case_match.
Qed.

(** With nothing shown as connected, no reconnection is scheduled. *)
Record good m : Prop := {
  gd_inv : conn_inv (conn m);
  gd_idle : status (conn m) = Disconnected → armed (conn m) = [] }.

Lemma exec_idle e m : sequential e m = true → good m →
  status (conn (exec_m sha256_hex e m)) = Disconnected → armed (conn (exec_m sha256_hex e m)) = [].
Proof.
  intros Hseq [Hinv Hidle]. pose proof Hinv as [H1 H2 H3 H4 H5].
  assert (∀ ok m, status (conn (doConnect ok m)) = Disconnected → keys (conn m) = None) as Hdo.
  { intros ok m'. unfold doConnect. destruct (keys (conn m')); [|done].
    destruct ok; [|unfold scheduleReconnect]; cbn; rewrite ?conn_setStatus; try done.
    destruct (shouldReconnect _); cbn; by rewrite ?conn_setStatus. }
  assert (∀ m', conn m' = conn m → status (conn m') = Disconnected → armed (conn m') = []) as Hsame by (by intros m' ->).
  destruct e as [|res ok| |p|i|i msg d|i|i|t ok| |k iso]; cbn [exec_m].
  - unfold MobileWs.connect. destruct (status (conn m)) eqn:E; cbn; rewrite ?E; intros Hs; first [by apply Hidle | done].
  - destruct (decide _) as [|Hk]; [done|]. destruct (H4 Hk) as [_ Ha]. unfold connect_keys. destruct res as [e|k]; [done|].
    intros Hs%Hdo. done.
  - intros _. apply (cleanup_quiet m Hinv).
  - done.
  - destruct (socks (conn m) !! i) as [[[] h]|]; try done. destruct h; [|done]. unfold onopen, sendRegister. cbn.
    repeat case_match; rewrite ?conn_send; done.
  - destruct (socks (conn m) !! i) as [[[] []]|]; try done. intros Hs.
    destruct msg as [ok [id|] err|j t q|code text|j tx|js tx a tok|j|js|]; cbn [MobileWs.handleMessage] in *.
    + unfold handleRegisterAck in *. destruct (_ && _); cbn in *; [by rewrite conn_setStatus in Hs|].
      destruct (cur (conn m)); by apply Hidle.
    + unfold handleRegisterAck in *. cbn in *. destruct (cur (conn m)); by apply Hidle.
    + revert Hs. apply Hsame. unfold handleJobAssign. destruct (keys (conn m)); [|done].
      destruct t, (p_task_type q), (p_input q); try destruct (_ && _); try done; by rewrite conn_send.
    + by apply Hidle.
    + revert Hs. apply Hsame. unfold handleFeedbackPosted. destruct (List.find _ _); [|done]. cbn. by rewrite conn_update_job.
    + revert Hs. apply Hsame. unfold handlePaymentPosted. cbn. by rewrite (conn_foldl_update (λ _, set_payment tx _)).
    + revert Hs. apply Hsame. apply conn_update_job.
    + revert Hs. apply Hsame. apply (conn_foldl_update (λ _, set_payment_failed)).
    + by apply Hidle.
  - by destruct (socks (conn m) !! i) as [[? []]|].
  - destruct (socks (conn m) !! i) as [[st h]|] eqn:Hi; [|done].
    assert (st ≠ SClosed → status (conn (let m := set_sock i SClosed m in if h then onclose m else m)) = Disconnected →
            armed (conn (let m := set_sock i SClosed m in if h then onclose m else m)) = []) as Hc.
    { intros Hst. cbv zeta. destruct h; [|done].
      assert (live (conn m) i) as Hl by (by exists (mkSock st true)). destruct (H3 i Hl) as [Ha _].
      unfold onclose. destruct (shouldReconnect _) eqn:Hsh.
      - unfold scheduleReconnect. rewrite conn_setStatus. cbn in *. rewrite Hsh. cbn. by rewrite conn_setStatus.
      - rewrite conn_setStatus. done. }
    destruct st; first [done | by apply Hc].
  - destruct (existsb _ (armed (conn m))) eqn:Hex; [|done].
    destruct H2 as [Ha|(t' & d & Ha & Ht)]; [by rewrite Ha in Hex|]. rewrite Ha in Hex. cbn in Hex.
    assert (t' = t) as -> by (by destruct (Nat.eqb_spec t' t)).
    destruct (shouldReconnect _); [intros Hs%Hdo; unfold doConnect; rewrite Hs | intros _]; cbn; rewrite Ha; cbn;
      by rewrite Nat.eqb_refl.
  - repeat case_match; rewrite ?conn_send; done.
  - destruct (signing m !! k); [|done]. rewrite conn_finishJob. done.
Qed.

Lemma good_exec e m : sequential e m = true → good m → good (exec_m sha256_hex e m).
Proof. intros Hs Hg. split; [apply exec_conn_inv; [done | apply Hg] | by apply exec_idle]. Qed.

(** A call of [connect] with no keys awaited, unless a reconnection is under way. *)
Lemma good_connect m : good m → awaitingKeys (conn m) = 0%nat → status (conn m) ≠ Reconnecting →
  good (exec_m sha256_hex EvConnect m).
Proof.
  intros Hg Hk Hs. destruct (status (conn m)) eqn:E; try done.
  - apply good_exec; [|done]. cbn. rewrite bool_decide_true by done. cbn. apply bool_decide_true. exact (gd_idle _ Hg E).
  - cbn [exec_m]. unfold MobileWs.connect. by rewrite E.
  - cbn [exec_m]. unfold MobileWs.connect. by rewrite E.
Qed.

Lemma good_disconnect m : good m → awaitingKeys (conn m) = 0%nat →
  good (exec_m sha256_hex EvDisconnect m) ∧ awaitingKeys (conn (exec_m sha256_hex EvDisconnect m)) = 0%nat ∧
  status (conn (exec_m sha256_hex EvDisconnect m)) = Disconnected.
Proof.
  intros Hg Hk. destruct (cleanup_quiet m (gd_inv _ Hg)) as (_ & _ & _ & _ & _ & Hs & Ha).
  split_and!; [| by rewrite <- Hk | done]. apply good_exec; [|done]. by apply bool_decide_true.
Qed.
End OneConnection.

(** ** Runs of the phone *)

Section PhoneRuns.
  Context `{!Ed25519} (sha256_hex : string → string) (provider_of : SigningMode → SigningProvider).
  Implicit Types (a : App) (p : Phone).
  Local Abbreviation step := (phone_step sha256_hex provider_of).

(** Nobody starts or stops a connection while a call of [connect] awaits its keys. *)
Definition unhurried (e : PEvent) p : bool :=
  match e with
  | PToggle | PAutoTimer | PRefresh | PSettings (ASaveUrl _ | ADisconnectWallet | AReset) =>
      bool_decide (awaitingKeys (conn (svc (app p))) = 0%nat)
  | _ => true
  end.

Fixpoint unhurried_run (es : list PEvent) p : bool :=
  match es with [] => true | e :: es => unhurried e p && unhurried_run es (step e p) end.

(** How often the dashboard connected by itself. *)
Fixpoint auto_connects (es : list PEvent) p : nat :=
  match es with
  | [] => 0%nat
  | e :: es => ((match e with PAutoTimer => if autoTimer (dash p) then 1 else 0 | _ => 0 end) + auto_connects es (step e p))%nat
  end.

Record app_good a : Prop := { ag_synced : synced a; ag_good : good (svc a) }.

(** Changes of the app that leave the status, and the connection of the service, alone. *)
Lemma app_good_same a a' : x_status (ctx a') = x_status (ctx a) → conn (svc a') = conn (svc a) → app_good a → app_good a'.
Proof.
  intros Hx Hc [Hs [Hi Hd]]. unfold synced in *. split; [unfold synced; by rewrite Hx, Hc|]. split; by rewrite Hc.
Qed.

Lemma app_good_svc e a : sequential e (svc a) = true → app_good a → app_good (svc_exec sha256_hex e a).
Proof. intros He [Hs Hg]. split; [by apply svc_exec_synced|]. rewrite svc_exec_svc. by apply good_exec. Qed.

Lemma app_good_connect a : app_good a → awaitingKeys (conn (svc a)) = 0%nat → x_status (ctx a) ≠ Reconnecting →
  app_good (connect sha256_hex a).
Proof.
  intros [Hs Hg] Hk Hx. split; [by apply svc_exec_synced|]. unfold connect. rewrite svc_exec_svc.
  apply good_connect; [done | done | by rewrite <- Hs].
Qed.

Lemma app_good_disconnect a : app_good a → awaitingKeys (conn (svc a)) = 0%nat →
  app_good (disconnect sha256_hex a) ∧ awaitingKeys (conn (svc (disconnect sha256_hex a))) = 0%nat ∧
  x_status (ctx (disconnect sha256_hex a)) = Disconnected.
Proof.
  intros [Hs Hg] Hk. destruct (good_disconnect sha256_hex (svc a) Hg Hk) as (Hg' & Hk' & Hd).
  pose proof (svc_exec_synced sha256_hex EvDisconnect a Hs) as Hs'. unfold disconnect.
  rewrite svc_exec_svc. split_and!; [split; [done | by rewrite svc_exec_svc] | done |].
  rewrite Hs'. by rewrite svc_exec_svc.
Qed.

Lemma setSigningProvider_good mode a : app_good a → app_good (setSigningProvider sha256_hex provider_of mode a).
Proof. by apply app_good_same. Qed.

Lemma setCoordinatorUrl_good url a : app_good a → awaitingKeys (conn (svc a)) = 0%nat →
  app_good (setCoordinatorUrl sha256_hex url a).
Proof.
  intros Hg Hk. unfold setCoordinatorUrl. destruct (_ || _); [done|]. destruct (_ || _).
  - destruct (app_good_disconnect a Hg Hk) as (Hg' & Hk' & Hd).
    apply app_good_connect; [by apply (app_good_same (disconnect sha256_hex a)) | done |]. cbn. by rewrite Hd.
  - by apply (app_good_same a).
Qed.

Lemma settings_good e a : on_settings e = true → app_good a →
  (match e with ASaveUrl _ | ADisconnectWallet | AReset => awaitingKeys (conn (svc a)) = 0%nat | _ => True end) →
  app_good (app_step sha256_hex provider_of e a).
Proof.
  intros He Hg Hk. destruct e as [e| | |url|os au ab| |mode| | | |]; try done; cbn [app_step].
  - unfold handleSaveUrl. destruct (str_truthy _); [by apply setCoordinatorUrl_good | done].
  - unfold connectWallet. destruct (isAvailable os); [|done].
    destruct (mwa_connect au ab (mwa a) (disk a)) as [[[?|?] w] d]; by apply (app_good_same a).
  - unfold handleDisconnectWallet, disconnectWallet. destruct (app_good_disconnect a Hg Hk) as (Hg' & _ & _).
    destruct (mwa_disconnect _) as [w d]. by apply (app_good_same (disconnect sha256_hex a)).
  - destruct mode; by apply (app_good_same a).
  - destruct (app_good_disconnect a Hg Hk) as (Hg' & _ & _). by apply (app_good_same (disconnect sha256_hex a)).
  - by apply (app_good_same a).
Qed.

Lemma toggle_good a : app_good a → awaitingKeys (conn (svc a)) = 0%nat → app_good (toggle sha256_hex a).
Proof.
  intros Hg Hk. unfold toggle. destruct (x_isToggling (ctx a)); [done|].
  assert (app_good (on_ctx (x_toggling true) a)) as Hg' by (by apply (app_good_same a)).
  cbn [x_status x_toggling on_ctx ctx]. destruct (x_status (ctx a)) eqn:E;
    first [by apply app_good_disconnect | apply app_good_connect; [done | done | cbn; by rewrite E]].
Qed.

Record phone_inv p : Prop := {
  pi_app : app_good (app p);
  pi_deps d : deps (dash p) = Some d → d = (x_isLoading (ctx (app p)), x_status (ctx (app p)));
  pi_auto : autoTimer (dash p) = true → deps (dash p) = Some (false, Disconnected) }.

Lemma auto_effect_spec x d : (autoTimer d = true → deps d = Some (false, Disconnected)) →
  deps (auto_effect x d) = Some (x_isLoading x, x_status x) ∧
  (autoTimer (auto_effect x d) = true → deps (auto_effect x d) = Some (false, Disconnected)).
Proof.
  intros Ha. unfold auto_effect. destruct (decide _) as [E|E]; [done|].
  destruct (x_isLoading x), (x_status x), (hasAutoConnected d); by cbn.
Qed.

Lemma act_good e p : unhurried e p = true → phone_inv p → app_good (app (phone_act sha256_hex provider_of e p)).
Proof.
  intros Hu [Hg Hdeps Hauto].
  destruct e as [e| | |e| | |]; cbn [phone_act].
  - cbn [app app_step]. destruct (by_app e) eqn:He; [done|]. apply app_good_svc; [by destruct e | done].
  - apply bool_decide_eq_true in Hu. cbn [app]. destruct (can_toggle _); [by apply toggle_good | done].
  - by apply (app_good_same (app p)).
  - cbn [app]. destruct (on_settings e) eqn:He; [|done]. apply settings_good; [done | done |].
    destruct e; try done; by apply bool_decide_eq_true in Hu.
  - apply bool_decide_eq_true in Hu. destruct (autoTimer (dash p)) eqn:Ht; [|done]. cbn [app].
    pose proof (Hdeps _ (Hauto eq_refl)) as [= Hl Hs]. apply app_good_connect; [done | done | by rewrite <- Hs].
  - apply bool_decide_eq_true in Hu. unfold onRefresh. cbn [app]. case_bool_decide as E; [|done].
    apply app_good_connect; [done | done | by rewrite E].
  - done.
Qed.

Lemma act_auto e p : phone_inv p →
  autoTimer (dash (phone_act sha256_hex provider_of e p)) = true →
  deps (dash (phone_act sha256_hex provider_of e p)) = Some (false, Disconnected).
Proof.
  intros [_ _ Hauto]. destruct e; cbn [phone_act]; try exact Hauto. destruct (autoTimer (dash p)) eqn:E; [done|].
  by rewrite E.
Qed.

Lemma step_phone_inv e p : unhurried e p = true → phone_inv p → phone_inv (step e p).
Proof.
  intros Hu Hp. destruct (auto_effect_spec (ctx (app (phone_act sha256_hex provider_of e p)))
    (dash (phone_act sha256_hex provider_of e p)) (act_auto e p Hp)) as [Hd Ha].
  split; [by apply act_good | | done]. cbn [dash phone_step app]. intros d. rewrite Hd. by intros [= <-].
Qed.

Lemma run_phone_inv es : ∀ p, unhurried_run es p = true → phone_inv p → phone_inv (phone_run sha256_hex provider_of es p).
Proof.
  induction es as [|e es IH]; intros p; [done|]. cbn [unhurried_run]. intros [Hu Hr]%andb_prop Hp.
  apply (IH (step e p) Hr). by apply step_phone_inv.
Qed.

(** Every connection of the dashboard uses up its one attempt. *)
Definition attempts_left (d : Dash) : nat := if hasAutoConnected d then if autoTimer d then 1 else 0 else 1.

Lemma effect_attempts x d : (autoTimer d = true → hasAutoConnected d = true) →
  (attempts_left (auto_effect x d) ≤ attempts_left d)%nat ∧
  (autoTimer (auto_effect x d) = true → hasAutoConnected (auto_effect x d) = true).
Proof.
  intros Ha. unfold auto_effect, attempts_left. destruct (decide _); [split; [lia | done]|].
  destruct (x_isLoading x), (bool_decide _), (hasAutoConnected d), (autoTimer d); cbn; split; (lia || done).
Qed.

Lemma auto_connects_bound es : ∀ p, (autoTimer (dash p) = true → hasAutoConnected (dash p) = true) →
  (auto_connects es p ≤ attempts_left (dash p))%nat.
Proof.
  induction es as [|e es IH]; intros p Hp; cbn [auto_connects]; [lia|].
  set (q := phone_act sha256_hex provider_of e p).
  assert (autoTimer (dash q) = true → hasAutoConnected (dash q) = true) as Hq.
  { unfold q. destruct e; cbn [phone_act]; try exact Hp. destruct (autoTimer (dash p)) eqn:E; [done|]. by rewrite E. }
  destruct (effect_attempts (ctx (app q)) (dash q) Hq) as [Hle Hq'].
  specialize (IH (step e p) Hq'). cbn [dash phone_step] in IH. fold q in IH.
  assert ((match e with PAutoTimer => if autoTimer (dash p) then 1 else 0 | _ => 0 end) + attempts_left (dash q)
          ≤ attempts_left (dash p))%nat as Hs.
  { unfold q, attempts_left. destruct e; cbn [phone_act dash onRefresh hasAutoConnected autoTimer]; try lia.
    destruct (autoTimer (dash p)) eqn:E; cbn; rewrite ?E; [rewrite Hp by done|]; lia. }
  lia.
Qed.

(** Loading does not touch the connection. *)
Definition untouched a a' : Prop := conn (svc a') = conn (svc a) ∧ x_status (ctx a') = x_status (ctx a).

Lemma load_rest_untouched url d a : untouched a (load_rest sha256_hex url provider_of d a).
Proof.
  unfold load_rest. set (a1 := setSigningProvider _ _ _ _).
  assert (untouched a a1) as H1 by done.
  assert (untouched a (match getWorkerId d with
    | Some w => if str_truthy w then on_ctx (x_worker (Some w)) a1 else a1 | None => a1 end)) as H2.
  { destruct (getWorkerId d) as [w|]; [|done]. by destruct (str_truthy w). }
  destruct (getItem ONBOARDED_KEY d) as [t|]; [|exact H2]. destruct (String.eqb t "true"); exact H2.
Qed.

Lemma load_totals_untouched d a : untouched a (load_jobs d (load_earnings d a)).
Proof.
  unfold load_jobs, load_earnings.
  destruct (getItem STORAGE_JOBS_COMPLETED d) as [t|], (getItem STORAGE_EARNINGS d) as [u|];
    try destruct (str_truthy t); try destruct (str_truthy u); done.
Qed.

Lemma loaded_conn d url a : loadPersistedState sha256_hex url provider_of (initApp url d) = Some a →
  conn (svc a) = conn MobileWs.init ∧ x_status (ctx a) = Disconnected.
Proof.
  unfold loadPersistedState, load_history. cbn [disk initApp]. set (a0 := initApp url d).
  destruct (load_totals_untouched d a0) as [H1 H2].
  destruct (stored_history d) as [[[js|]|e]|]; cbn [mbind option_bind]; try done; intros [= <-].
  - cbn [on_ctx svc ctx x_loading x_status]. match goal with |- context [load_rest _ _ _ _ ?b] =>
      destruct (load_rest_untouched url d b) as [R1 R2]; rewrite R1, R2 end. done.
  - cbn [on_ctx svc ctx x_loading x_status]. destruct (load_rest_untouched url d (load_jobs d (load_earnings d a0))) as [R1 R2].
    by rewrite R1, R2.
  - done.
Qed.

Lemma start_phone_inv d url a : loadPersistedState sha256_hex url provider_of (initApp url d) = Some a →
  phone_inv (mkPhone a initDash).
Proof.
  intros (Hc & Hx)%loaded_conn. split; [|done|done]. cbn [app]. split; [unfold synced; by rewrite Hc, Hx|].
  split; rewrite Hc; [apply init_conn_inv | done].
Qed.
End PhoneRuns.

(** C28: the phone keeps one connection.  Start the app with any stored data and
    let anything happen: sockets, timers, messages, presses of the button, saving
    an endpoint, wallets, pulling to refresh, and the dashboard connecting by
    itself.  As long as nobody starts or stops a connection while one is waiting
    for its keys, at most one socket can call the service, the status on the
    screens is that of the service, and no reconnection is scheduled while the
    screens say Offline.  The dashboard connects by itself at most once. *)
Theorem phone_keeps_one_connection `{!Ed25519} sha provider_of url d a es :
  loadPersistedState sha url provider_of (initApp url d) = Some a →
  let p0 := mkPhone a initDash in
  (auto_connects sha provider_of es p0 ≤ 1)%nat ∧
  (unhurried_run sha provider_of es p0 = true →
   let p := phone_run sha provider_of es p0 in
   (∀ i j, live (conn (svc (app p))) i → live (conn (svc (app p))) j → i = j) ∧
   x_status (ctx (app p)) = status (conn (svc (app p))) ∧
   (x_status (ctx (app p)) = Disconnected → armed (conn (svc (app p))) = [])).
Proof.
  intros Hl p0. split; [by apply (auto_connects_bound sha provider_of es p0)|]. intros Hu p.
  destruct (run_phone_inv sha provider_of es p0 Hu (start_phone_inv _ _ _ _ _ Hl)) as [[Hs [Hi Hd]] _ _].
  fold p in Hs, Hi, Hd. split_and!.
  - intros i j Hli Hlj. pose proof (ki_cur _ Hi i Hli). pose proof (ki_cur _ Hi j Hlj). congruence.
  - exact Hs.
  - rewrite Hs. exact Hd.
Qed.

(** *** A concrete phone *)

Definition sc_phone : Phone :=
  mkPhone (default (initApp sc_url (mkDisk [] [])) (loadPersistedState toy_sha256 sc_url sc_provider_of (initApp sc_url (mkDisk [] [])))) initDash.
Definition sc_keys : PEvent := PService (EvKeys (inr {| mk_pubkeyHex := sc_key1; mk_secret := None |}) true).
Definition sc_goes_live : list PEvent :=
  [PRefreshed; PAutoTimer; sc_keys; PService (EvOpen 0); PService (EvMessage 0 (MiAck true (Some "w1") None) 0)].

Lemma phone_keeps_one_connection_witness :
  let p := phone_run toy_sha256 sc_provider_of sc_goes_live sc_phone in
  (∀ i j, live (conn (svc (app p))) i → live (conn (svc (app p))) j → i = j) ∧
  x_status (ctx (app p)) = Connected ∧ "EARNING" ∈ shown (DashboardScreen (ctx (app p)) false None).
Proof.
  destruct (phone_keeps_one_connection toy_sha256 sc_provider_of sc_url (mkDisk [] []) (app sc_phone) sc_goes_live
    ltac:(vm_compute; reflexivity)) as [_ H].
  destruct (H ltac:(vm_compute; reflexivity)) as (Hone & _ & _). split_and!.
  - exact Hone.
  - vm_compute. reflexivity.
  - apply (bool_decide_unpack _). vm_compute. exact I.
Defined.

(** Pressing the button in the half second before the dashboard connects by
    itself starts two connections, when the keys arrive late: both sockets stay
    open and both call the service. *)
Example hurried_press_opens_two_sockets :
  let es := [PRefreshed; PToggle; PAutoTimer; sc_keys; sc_keys] in
  let c := conn (svc (app (phone_run toy_sha256 sc_provider_of es sc_phone))) in
  unhurried_run toy_sha256 sc_provider_of es sc_phone = false ∧ live c 0 ∧ live c 1.
Proof.
  cbv zeta. split_and!; [vm_compute; reflexivity | |]; (exists (mkSock SConnecting true); split_and!; [vm_compute; reflexivity | done | done]).
Qed.

(** ** What the screens print *)

(** The age of a job is printed in the largest unit it fills, rounded down. *)
Theorem relative_time_units now ts : (0 <= now - ts)%Z →
  ∃ n unit ms bound, formatRelativeTime now ts = num_to_string (num_of_Z n) ++ unit ++ " ago" ∧
    (unit, ms, bound) ∈ [("s", 1000, Some 60); ("m", 60000, Some 60); ("h", 3600000, Some 24); ("d", 86400000, None)]%Z ∧
    (0 <= n)%Z ∧ (n * ms <= now - ts < (n + 1) * ms)%Z ∧ (unit = "s" ∨ 1 <= n)%Z ∧
    match bound with Some b => (n < b)%Z | None => True end.
Proof.
  intros Hd. unfold formatRelativeTime. set (diff := (now - ts)%Z) in *.
  assert (diff / 1000 / 60 = diff / 60000)%Z as E1 by (by rewrite Z.div_div by lia).
  assert (diff / 1000 / 60 / 60 = diff / 3600000)%Z as E2 by (by rewrite E1, Z.div_div by lia).
  assert (diff / 1000 / 60 / 60 / 24 = diff / 86400000)%Z as E3 by (by rewrite E2, Z.div_div by lia).
  assert (∀ ms, 0 < ms → 0 <= diff / ms ∧ diff / ms * ms <= diff < (diff / ms + 1) * ms)%Z as Hq.
  { intros ms Hms. pose proof (Z.div_pos diff ms Hd Hms). pose proof (Z.mod_pos_bound diff ms Hms).
    pose proof (Z.div_mod diff ms). lia. }
  assert (∀ a b, 0 < b → a / b < 1 → a < b)%Z as Hlt.
  { intros x b Hb Hx. apply Z.nle_gt. intros Hle. apply (Z.div_le_mono _ _ b Hb) in Hle. rewrite Z.div_same in Hle; lia. }
  destruct (Z.ltb_spec (diff / 1000) 60) as [H1|H1].
  - exists (diff / 1000)%Z, "s", 1000%Z, (Some 60%Z). split_and!; first [done | by left | apply Hq; lia | idtac].
  - assert (1 <= diff / 1000 / 60)%Z by (apply Z.div_le_lower_bound; lia).
    destruct (Z.ltb_spec (diff / 1000 / 60) 60) as [H2|H2].
    + exists (diff / 60000)%Z, "m", 60000%Z, (Some 60%Z). rewrite <- E1 at 1.
      split_and!; first [done | apply Hq; lia | lia | right; by left].
    + assert (1 <= diff / 1000 / 60 / 60)%Z by (apply Z.div_le_lower_bound; lia).
      destruct (Z.ltb_spec (diff / 1000 / 60 / 60) 24) as [H3|H3].
      * exists (diff / 3600000)%Z, "h", 3600000%Z, (Some 24%Z). rewrite <- E2 at 1.
        split_and!; first [done | apply Hq; lia | lia | right; right; by left].
      * assert (1 <= diff / 1000 / 60 / 60 / 24)%Z by (apply Z.div_le_lower_bound; lia).
        exists (diff / 86400000)%Z, "d", 86400000%Z, None. rewrite <- E3 at 1.
        split_and!; first [done | apply Hq; lia | lia | do 3 right; by left].
Qed.

(** The card shows what was earned: after any number of paid jobs up to 5000, the
    total that the service has added up in floating point is shown exactly as a
    thousandth of the number of jobs. *)
Definition earned (k : nat) : jsnum := Nat.iter k (λ x, num_add x TASK_PRICE_BOLT) (num_of_Z 0).

Definition card_exact (k : nat) (x : jsnum) : bool :=
  String.eqb (toFixed 4 x) (Z_digits (Z.of_nat k / 1000) ++ "." ++ at_least 4 (10 * (Z.of_nat k mod 1000))).

Fixpoint cards_exact (n k : nat) (x : jsnum) : bool :=
  card_exact k x && match n with O => true | S n => cards_exact n (S k) (num_add x TASK_PRICE_BOLT) end.

Lemma cards_exact_all n : ∀ k0 x, cards_exact n k0 x = true →
  ∀ k, (k ≤ n)%nat → card_exact (k0 + k) (Nat.iter k (λ x, num_add x TASK_PRICE_BOLT) x) = true.
Proof.
  induction n as [|n IH]; intros k0 x [H0 Hr]%andb_prop k Hk.
  - assert (k = 0)%nat as -> by lia. by rewrite Nat.add_0_r.
  - destruct k as [|k]; [by rewrite Nat.add_0_r|].
    rewrite Nat.iter_succ_r, Nat.add_succ_r. apply (IH (S k0)); [done | lia].
Qed.

Theorem earnings_card_is_exact k : (k ≤ 5000)%nat →
  toFixed 4 (earned k) = Z_digits (Z.of_nat k / 1000) ++ "." ++ at_least 4 (10 * (Z.of_nat k mod 1000)).
Proof.
  intros Hk. apply String.eqb_eq. apply (cards_exact_all 5000 0 (num_of_Z 0)); [|done]. vm_compute. reflexivity.
Qed.

(** ** The error banner

    [ErrorToast]: an error of the service sets the message, starts the slide-in
    and arms a timer of 4 s, which starts the slide-out, whose callback clears the
    message.  [calls_back]: an animation that another one on the same value stops
    still calls its callback (react-native documents that it does, with
    [finished] false, which the code does not look at). *)

Record Toast := mkToast { t_message : option string; t_sliding : bool; t_timer : bool }.

Inductive TEvent :=
  | TError (errorMsg : string)
  | TTimeout                     (* the timer of 4 s *)
  | TSlidOut.                    (* the slide-out ends *)

Definition toast_step (calls_back : bool) (e : TEvent) (t : Toast) : Toast :=
  match e with
  | TError errorMsg => mkToast (if t_sliding t && calls_back then None else Some errorMsg) false true
  | TTimeout => if t_timer t then mkToast (t_message t) true false else t
  | TSlidOut => if t_sliding t then mkToast None false (t_timer t) else t
  end.

Definition toast_run (calls_back : bool) (es : list TEvent) : Toast :=
  foldl (λ t e, toast_step calls_back e t) (mkToast None false false) es.

Lemma toast_inv calls_back es :
  let t := toast_run calls_back es in (t_message t ≠ None → t_timer t || t_sliding t = true) ∧ t_timer t && t_sliding t = false.
Proof.
  unfold toast_run. induction es as [|e es [IH1 IH2]] using rev_ind; [done|]. rewrite foldl_app. cbn [foldl].
  set (t := foldl _ _ es) in *. destruct e; cbn [toast_step]; [done| |];
    destruct (t_timer t) eqn:E, (t_sliding t) eqn:E'; cbn; rewrite ?E, ?E'; done.
Qed.

(** A banner never stays for ever: while it is shown its timer or its slide-out
    runs, and the next timeout and slide-out that are not followed by another
    error hide it.  An error is shown, except when it arrives during a slide-out
    whose callback is still called: then the callback hides it at once. *)
Theorem toast_is_shown_and_dismissed calls_back es msg :
  let t := toast_run calls_back es in
  (t_message t ≠ None → t_timer t || t_sliding t = true) ∧
  t_message (toast_run calls_back (es ++ [TTimeout; TSlidOut])) = None ∧
  t_message (toast_run calls_back (es ++ [TError msg])) = (if t_sliding t && calls_back then None else Some msg).
Proof.
  destruct (toast_inv calls_back es) as [H1 H2]. cbv zeta. split_and!; [exact H1 | |];
    unfold toast_run in *; rewrite foldl_app; cbn [foldl]; set (t := foldl _ _ es) in *; [|done].
  cbn [toast_step]. destruct (t_timer t) eqn:E, (t_sliding t) eqn:E'; cbn; rewrite ?E'; try done.
  destruct (t_message t); [|done]. by discriminate H1.
Qed.

Example error_during_slide_out_is_lost :
  t_message (toast_run true [TError "a"; TTimeout; TError "b"]) = None.
Proof. reflexivity. Qed.
