(* ===== verification/Erc8004.v ===== *)
(** * Reputation and identity on chain

    packages/erc8004 (the registries' client), the reputation hooks of
    coordinator-monad and coordinator-solana, and the queue that serialises
    their transactions.  The registries are contracts behind an RPC node: each
    call is answered from the calls made before it, or fails.  viem decodes an
    answer by the contract's interface, so answers have the declared types. *)

From stdpp Require Import base list strings option pretty.
From Stdlib Require Import ZArith Lia SpecFloat Ascii.
From S2P Require Import Prelude Js JsNum Json JsonPretty Protocol Workers.
Local Open Scope string_scope.

(** ** Chain configuration (config.ts) *)

Record ChainConfig := {
  cc_chainId : option Z;                    (* None is NaN *)
  cc_rpcUrl : string; cc_identityRegistry : string; cc_reputationRegistry : string }.

Definition MONAD_TESTNET : ChainConfig :=
  {| cc_chainId := Some 10143%Z; cc_rpcUrl := "https://testnet-rpc.monad.xyz";
     cc_identityRegistry := "0x8004A818BFB912233c491871b3d84c89A494BD9e";
     cc_reputationRegistry := "0x8004B663056A597Dffe9eCcC1965A193B7388713" |}.
Definition BASE_SEPOLIA : ChainConfig :=
  {| cc_chainId := Some 84532%Z; cc_rpcUrl := "https://sepolia.base.org";
     cc_identityRegistry := "0x8004A818BFB912233c491871b3d84c89A494BD9e";
     cc_reputationRegistry := "0x8004B663056A597Dffe9eCcC1965A193B7388713" |}.
Definition MONAD_MAINNET : ChainConfig :=
  {| cc_chainId := Some 10143%Z; cc_rpcUrl := "https://rpc.monad.xyz";
     cc_identityRegistry := "0x8004A169FB4a3325136EB29fA0ceB6D2e539a432";
     cc_reputationRegistry := "0x8004BAa17C55a88189AE136b182e5fdA19dE9b63" |}.

(** [process.env] *)
Abbreviation EnvVars := (string → option string).

Definition getChainConfig (vars : EnvVars) : ChainConfig :=
  match vars "ERC8004_IDENTITY_REGISTRY", vars "ERC8004_REPUTATION_REGISTRY",
        vars "ERC8004_RPC_URL", vars "ERC8004_CHAIN_ID" with
  | Some id, Some rep, Some rpc, Some chainId =>
      if str_truthy id && str_truthy rep && str_truthy rpc && str_truthy chainId
      then {| cc_chainId := parseInt10 chainId; cc_rpcUrl := rpc; cc_identityRegistry := id;
              cc_reputationRegistry := rep |}
      else MONAD_TESTNET
  | _, _, _, _ => MONAD_TESTNET
  end.

(** ** Calls *)

Inductive Arg := AInt (z : Z) | AText (s : string) | ATexts (l : list string).

(** What the code does on the chain, and its pauses. *)
Inductive Call :=
  | Read (address fn : string) (args : list Arg)
  | Write (account address fn : string) (args : list Arg) (gas : option Z)
  | Wait (hash : string) (timeout : option Z)
  | HttpGet (url : string)
  | Pause (ms : Z).

(** A mined transaction: it may have reverted. *)
Record TxReceipt := { tr_success : bool; tr_logs : list (list string) }.      (* the topics of its logs *)

(** The node and the contracts: answers by the calls made before. *)
Record Chain := {
  ch_vars : EnvVars;
  ch_write : list Call → Call → outcome string;                         (* the hash *)
  ch_wait : list Call → Call → outcome TxReceipt;
  ch_summary : list Call → Call → outcome (Z * Z * Z);
  ch_text : list Call → Call → outcome string;
  ch_texts : list Call → Call → outcome (list string);
  ch_feedback : list Call → Call → outcome (Z * Z * string * string * bool);
  ch_http : list Call → Call → outcome (Z * string) }.

Definition CM (A : Type) : Type := Chain → list Call → outcome A * list Call.

Definition cret {A} (a : A) : CM A := λ _ l, (Ok a, l).
Definition cthrow {A} (e : string) : CM A := λ _ l, (Throw e, l).
Definition cbind {A B} (m : CM A) (k : A → CM B) : CM B := λ ch l,
  match m ch l with (Ok a, l') => k a ch l' | (Throw e, l') => (Throw e, l') end.
Definition ccatch {A} (m : CM A) (k : string → CM A) : CM A := λ ch l,
  match m ch l with (Ok a, l') => (Ok a, l') | (Throw e, l') => k e ch l' end.
Definition call {A} (f : Chain → list Call → Call → outcome A) (c : Call) : CM A :=
  λ ch l, (f ch l c, (l ++ [c])%list).
Definition pause (ms : Z) : CM unit := λ _ l, (Ok tt, (l ++ [Pause ms])%list).
Definition chainConfig : CM ChainConfig := λ ch l, (Ok (getChainConfig (ch_vars ch)), l).

Declare Scope chain_scope.
Notation "x ⇐ m ;; k" := (cbind m (λ x, k)) (at level 100, m at next level, right associativity) : chain_scope.
Local Open Scope chain_scope.

(** ** The reputation registry (reputation.ts) *)

Record FeedbackEntry := {
  fe_agentId : Z; fe_value : Z; fe_valueDecimals : Z; fe_tag1 : string; fe_tag2 : string;
  fe_endpoint : string; fe_feedbackURI : string; fe_feedbackHash : string }.

Definition feedback_write (cfg : ChainConfig) (account : string) (e : FeedbackEntry) : Call :=
  Write account (cc_reputationRegistry cfg) "giveFeedback"
    [AInt (fe_agentId e); AInt (fe_value e); AInt (fe_valueDecimals e); AText (fe_tag1 e); AText (fe_tag2 e);
     AText (fe_endpoint e); AText (fe_feedbackURI e); AText (fe_feedbackHash e)] (Some 300000%Z).

Definition giveFeedback (e : FeedbackEntry) (account : string) : CM string :=
  cfg ⇐ chainConfig ;;
  hash ⇐ call ch_write (feedback_write cfg account e) ;;
  _x ⇐ call ch_wait (Wait hash (Some 60000%Z)) ;;
  cret hash.

Record ReputationSummary := { rs_count : Z; rs_summaryValue : Z; rs_summaryValueDecimals : Z }.

Definition getReputationSummary (agentId : Z) (clients : option (list string)) (tag1 tag2 : option string)
    : CM ReputationSummary :=
  cfg ⇐ chainConfig ;;
  r ⇐ call ch_summary (Read (cc_reputationRegistry cfg) "getSummary"
        [AInt agentId; ATexts (default [] clients); AText (default "" tag1); AText (default "" tag2)]) ;;
  let '(count, value, decimals) := r in
  cret {| rs_count := count; rs_summaryValue := value; rs_summaryValueDecimals := decimals |}.

Definition getFeedbackClients (agentId : Z) : CM (list string) :=
  cfg ⇐ chainConfig ;;
  call ch_texts (Read (cc_reputationRegistry cfg) "getClients" [AInt agentId]).

Definition readFeedback (agentId : Z) (client : string) (index : Z) : CM (Z * Z * string * string * bool) :=
  cfg ⇐ chainConfig ;;
  call ch_feedback (Read (cc_reputationRegistry cfg) "readFeedback" [AInt agentId; AText client; AInt index]).

Definition ZERO_HASH : string := "0x0000000000000000000000000000000000000000000000000000000000000000".

(** [BigInt(Math.round(score * 100))] throws on NaN and the infinities. *)
Definition buildJobFeedback (agentId : Z) (score : jsnum) (jobType endpoint : string) (uri : option string)
    : outcome FeedbackEntry :=
  match math_round (num_mul score (num_of_Z 100)) with
  | None => Throw "The number cannot be converted to a BigInt because it is not an integer"
  | Some v => Ok {| fe_agentId := agentId; fe_value := v; fe_valueDecimals := 2; fe_tag1 := "dispatch-compute";
                    fe_tag2 := jobType; fe_endpoint := endpoint; fe_feedbackURI := default "" uri;
                    fe_feedbackHash := ZERO_HASH |}
  end.

Definition buildFeedbackHash (keccak256 : string → string) (feedbackJson : json) : string :=
  keccak256 (JSON_stringify feedbackJson).

(** ** The identity registry (identity.ts) *)

(** [BigInt(topic)] of an indexed topic, which viem gives as 0x-prefixed hex. *)
Definition hex_value (c : ascii) : option Z :=
  let n := Z.of_nat (nat_of_ascii c) in
  if ((48 <=? n) && (n <=? 57))%Z then Some (n - 48)%Z
  else if ((97 <=? n) && (n <=? 102))%Z then Some (n - 87)%Z
  else if ((65 <=? n) && (n <=? 70))%Z then Some (n - 55)%Z else None.
Fixpoint hex_digits (s : string) (acc : Z) : option Z :=
  match s with
  | EmptyString => Some acc
  | String c s' => d ← hex_value c; hex_digits s' (16 * acc + d)
  end.
Definition BigInt_hex (s : string) : outcome Z :=
  match drop_prefix "0x" s with
  | Some (String c s') => match hex_digits (String c s') 0 with
                          | Some z => Ok z
                          | None => Throw ("Cannot convert " ++ s ++ " to a BigInt")
                          end
  | _ => Throw ("Cannot convert " ++ s ++ " to a BigInt")
  end.

Fixpoint registered_id (logs : list (list string)) : option string :=
  match logs with
  | [] => None
  | (t0 :: t1 :: _) :: logs => if str_truthy t0 && str_truthy t1 then Some t1 else registered_id logs
  | _ :: logs => registered_id logs
  end.

Definition clift {A} (o : outcome A) : CM A := match o with Ok a => cret a | Throw e => cthrow e end.

Definition registerAgent (account : string) (agentURI : option string) : CM Z :=
  cfg ⇐ chainConfig ;;
  let args := if ostr_truthy agentURI then [AText (default "" agentURI)] else [] in
  hash ⇐ call ch_write (Write account (cc_identityRegistry cfg) "register" args None) ;;
  receipt ⇐ call ch_wait (Wait hash None) ;;
  match registered_id (tr_logs receipt) with
  | Some t => clift (BigInt_hex t)
  | None => cthrow ("registerAgent: no Registered event found in tx " ++ hash)
  end.

Definition getAgentURI (agentId : Z) : CM string :=
  cfg ⇐ chainConfig ;; call ch_text (Read (cc_identityRegistry cfg) "agentURI" [AInt agentId]).

Definition setAgentURI (agentId : Z) (uri account : string) : CM string :=
  cfg ⇐ chainConfig ;;
  hash ⇐ call ch_write (Write account (cc_identityRegistry cfg) "setAgentURI" [AInt agentId; AText uri] None) ;;
  _x ⇐ call ch_wait (Wait hash None) ;;
  cret hash.

Definition getAgentOwner (agentId : Z) : CM string :=
  cfg ⇐ chainConfig ;; call ch_text (Read (cc_identityRegistry cfg) "ownerOf" [AInt agentId]).

Record AgentInfo := { ai_agentId : Z; ai_owner : string; ai_uri : string }.

(** [Promise.all]: both calls are made, and the first error is thrown. *)
Definition getAgentInfo (agentId : Z) : CM AgentInfo := λ ch l,
  let '(owner, l) := getAgentOwner agentId ch l in
  let '(uri, l) := getAgentURI agentId ch l in
  (o <-- owner ;; u <-- uri ;; Ok {| ai_agentId := agentId; ai_owner := o; ai_uri := u |}, l).

(** A template literal of a bigint, or of an integer: its decimal digits. *)
Definition Z_text (z : Z) : string := pretty.pretty z.

Definition fetchRegistrationFile (agentId : Z) : CM json :=
  uri ⇐ getAgentURI agentId ;;
  if negb (str_truthy uri) then cthrow ("Agent " ++ Z_text agentId ++ " has no URI set") else
  r ⇐ call ch_http (HttpGet uri) ;;
  if ((200 <=? r.1) && (r.1 <=? 299))%Z then
    match JSON_parse r.2 with Some j => cret j | None => cthrow "Unexpected token in JSON" end
  else cthrow ("Failed to fetch registration file at " ++ uri ++ ": " ++ Z_text r.1).

Definition chainId_text (c : option Z) : string := match c with Some z => Z_text z | None => "NaN" end.

Definition buildRegistrationFile (vars : EnvVars) (name description endpoint : string) (skills : list string)
    (agentId : option Z) : json :=
  let cfg := getChainConfig vars in
  JObj ([("type", JStr "https://eips.ethereum.org/EIPS/eip-8004#registration-v1");
         ("name", JStr name); ("description", JStr description);
         ("services", JArr [JObj [("name", JStr "dispatch-compute"); ("endpoint", JStr endpoint);
                                  ("version", JStr "0.1.0"); ("skills", JArr (map JStr skills))]]);
         ("x402Support", JBool true); ("active", JBool true)] ++
        member "registrations" ((λ id, JArr [JObj [("agentId", JNum (num_of_Z id));
          ("agentRegistry", JStr ("eip155:" ++ chainId_text (cc_chainId cfg) ++ ":" ++ cc_identityRegistry cfg))]])
          <$> agentId))%list.

(** ** The hooks of the coordinators *)

(** [Number(value) / (10 ** decimals)] clamped to the range of a score.  The
    power is the nearest binary64 value, which it is exactly up to 22. *)
Definition score_of_summary (r : ReputationSummary) : option jsnum :=
  if (rs_count r =? 0)%Z then None else
  Some (math_min (num_of_Z 100) (math_max (num_of_Z 0)
    (num_div (num_of_Z (rs_summaryValue r)) (num_of_Z (10 ^ rs_summaryValueDecimals r))))).

Definition summary_score (agentId : Z) : CM (option jsnum) :=
  ccatch (s ⇐ getReputationSummary agentId None None None ;; cret (score_of_summary s)) (λ _, cret None).

(** coordinator-monad derives an agent from the worker's key, [hash] being the
    integer value of viem's keccak256 of a text. *)
Definition pubkeyToAgentId (hash : string → Z) (pubkey : string) : Z := Z.land (hash pubkey) (Z.shiftl 1 128 - 1).

Definition monad_getReputationScore (hash : string → Z) (pubkey : string) : CM (option jsnum) :=
  summary_score (pubkeyToAgentId hash pubkey).

(** coordinator-solana has one agent for all workers. *)
Definition solana_getReputationScore (agentId : Z) (_pubkey : string) : CM (option jsnum) := summary_score agentId.

Definition feedback_score (success : bool) : jsnum := num_of_Z (if success then 80 else 20).

Definition monad_postFeedback (hash : string → Z) (account : string) (port : Z) (workerPubkey : string)
    (success : bool) : CM string :=
  entry ⇐ clift (buildJobFeedback (pubkeyToAgentId hash workerPubkey) (feedback_score success) "COMPUTE"
                  ("http://localhost:" ++ Z_text port) None) ;;
  giveFeedback entry account.

(** The loop of coordinator-solana: [more] attempts after this one. *)
Fixpoint feedback_attempts (entry : FeedbackEntry) (account : string) (attempt : Z) (more : nat) : CM string :=
  ccatch (giveFeedback entry account)
    (λ err, match more with
            | O => cthrow err
            | S more => _x ⇐ pause (attempt * 2000) ;; feedback_attempts entry account (attempt + 1) more
            end).

Definition solana_postFeedback (agentId : Z) (account endpoint : string) (success : bool) : CM string :=
  entry ⇐ clift (buildJobFeedback agentId (feedback_score success) "COMPUTE" endpoint None) ;;
  feedback_attempts entry account 1 2.

Definition solana_endpoint (vars : EnvVars) (port : Z) : string :=
  match vars "RAILWAY_PUBLIC_DOMAIN" with
  | Some d => if str_truthy d then "https://" ++ d else "http://localhost:" ++ Z_text port
  | None => "http://localhost:" ++ Z_text port
  end.

(** The scan for an agent of somebody else: [more] identifiers after [i]. *)
Definition NO_TARGET : string :=
  "No target agent found. Need at least one ERC-8004 agent not owned by the coordinator. " ++
  "Run: npx tsx apps/coordinator-solana/find-agent.ts".

Fixpoint scan_agents (coordinator : string) (i : Z) (more : nat) : CM Z := λ ch l,
  match getAgentOwner i ch l with
  | (Throw _, l) => (Throw NO_TARGET, l)
  | (Ok owner, l) =>
      if negb (String.eqb (toLowerCase owner) (toLowerCase coordinator)) then (Ok i, l)
      else match more with
           | O => (Throw NO_TARGET, l)
           | S more => scan_agents coordinator (i + 1) more ch l
           end
  end.

Definition discoverTargetAgent (coordinatorAddress : string) : CM Z := scan_agents coordinatorAddress 0 30.

(** Both coordinators read a stake tier off a token balance ([uiAmount], which
    may be null); any failure counts as no stake. *)
Definition tier_of_balance (balance : jsnum) : StakeTier :=
  if num_leb (num_of_Z (STAKE_REQUIREMENTS SENTINEL)) balance then SENTINEL
  else if num_leb (num_of_Z (STAKE_REQUIREMENTS VERIFIED)) balance then VERIFIED
  else OPEN.

Definition readStakeLevel (uiAmount : string → outcome (option jsnum)) (pubkey : string) : StakeTier :=
  match uiAmount pubkey with
  | Ok b => tier_of_balance (default (num_of_Z 0) b)
  | Throw _ => OPEN
  end.

(** ** Scripts and commands

    [find-agent.ts] and the CLI's [worker register]. *)

(** The last agent of the coordinator and the last of somebody else among the
    first that exist: [more] identifiers after [i]. *)
Fixpoint find_agents (coordinator : string) (i : Z) (more : nat) (own other : option Z) : CM (option Z * option Z) :=
  λ ch l,
  match getAgentOwner i ch l with
  | (Throw _, l) => (Ok (own, other), l)
  | (Ok owner, l) =>
      let is_coord := String.eqb (toLowerCase owner) (toLowerCase coordinator) in
      let own := if is_coord then Some i else own in
      let other := if is_coord then other else Some i in
      match more with
      | O => (Ok (own, other), l)
      | S more => find_agents coordinator (i + 1) more own other ch l
      end
  end.

(** The feedback the script tries, and what it finds out: [None] when there is
    nobody to give it to, else whether the transaction succeeded. *)
Definition probe_entry (other : Z) : FeedbackEntry :=
  {| fe_agentId := other; fe_value := 8000; fe_valueDecimals := 2; fe_tag1 := "dispatch-compute";
     fe_tag2 := "COMPUTE"; fe_endpoint := "https://dispatch.computer"; fe_feedbackURI := "";
     fe_feedbackHash := ZERO_HASH |}.

Definition find_agent_main (account : string) : CM (option Z * option (Z * bool)) :=
  cfg ⇐ chainConfig ;;
  _x ⇐ call ch_text (Read (cc_identityRegistry cfg) "balanceOf" [AText account]) ;;
  found ⇐ find_agents account 0 30 None None ;;
  match found.2 with
  | None => cret (found.1, None)
  | Some other =>
      works ⇐ ccatch (hash ⇐ call ch_write (feedback_write cfg account (probe_entry other)) ;;
                      receipt ⇐ call ch_wait (Wait hash (Some 60000%Z)) ;;
                      cret (tr_success receipt)) (λ _, cret false) ;;
      cret (found.1, Some (other, works))
  end.

Definition normalizePrivateKey (value : string) : string := if startsWith value "0x" then value else "0x" ++ value.

(** [Buffer.from(text).toString("base64")] *)
Fixpoint utf8_bytes (s : string) : list nat :=
  match s with
  | EmptyString => []
  | String c s' => let n := nat_of_ascii c in
                   if (n <? 128)%nat then n :: utf8_bytes s'
                   else (192 + n / 64)%nat :: (128 + n mod 64)%nat :: utf8_bytes s'
  end.
Definition b64_char (n : nat) : ascii :=
  ascii_of_nat (if (n <? 26)%nat then 65 + n else if (n <? 52)%nat then 71 + n
                else if (n <? 62)%nat then n - 4 else if (n =? 62)%nat then 43 else 47).
Fixpoint base64 (l : list nat) : string :=
  match l with
  | [] => EmptyString
  | [a] => String (b64_char (a / 4)) (String (b64_char (a mod 4 * 16)) "==")
  | [a; b] => String (b64_char (a / 4)) (String (b64_char (a mod 4 * 16 + b / 16))
                (String (b64_char (b mod 16 * 4)) "="))
  | a :: b :: c :: l => String (b64_char (a / 4)) (String (b64_char (a mod 4 * 16 + b / 16))
                          (String (b64_char (b mod 16 * 4 + c / 64)) (String (b64_char (c mod 64)) (base64 l))))
  end.

Record WorkerRegisterOptions := {
  wr_name : option string; wr_endpoint : option string; wr_skills : option string; wr_privateKey : option string }.

Definition MISSING_KEY : string :=
  "Error: Private key required. Use --private-key or set WORKER_PRIVATE_KEY env var.".

Definition register_uri (vars : EnvVars) (default_endpoint : string) (o : WorkerRegisterOptions) : string :=
  let name := default "Dispatch Worker" (wr_name o) in
  let skills := List.filter str_truthy (map trim (split_commas (default "LLM_INFER,TASK" (wr_skills o)))) in
  "data:application/json;base64," ++
  base64 (utf8_bytes (JSON_stringify_2 (buildRegistrationFile vars name ("Dispatch compute worker: " ++ name)
    (default default_endpoint (wr_endpoint o)) skills None))).

(** [default_endpoint] is the Monad coordinator of the configuration, and
    [address] viem's [privateKeyToAccount(key).address], which throws on a bad key. *)
Definition worker_register (address : string → outcome string) (default_endpoint : string)
    (o : WorkerRegisterOptions) : CM (list (string * string)) := λ ch l,
  let key := match wr_privateKey o with Some k => Some k | None => ch_vars ch "WORKER_PRIVATE_KEY" end in
  if negb (ostr_truthy key) then (Throw MISSING_KEY, l) else
  (account ⇐ clift (address (normalizePrivateKey (default "" key))) ;;
   agentId ⇐ registerAgent account (Some (register_uri (ch_vars ch) default_endpoint o)) ;;
   info ⇐ getAgentInfo agentId ;;
   let net := chainId_text (cc_chainId MONAD_TESTNET) in
   cret [("Network:", "Monad Testnet (" ++ net ++ ")"); ("Owner:", account);
         ("Agent ID:", Z_text (ai_agentId info));
         ("Global ID:", "eip155:" ++ net ++ ":" ++ cc_identityRegistry MONAD_TESTNET ++ "#" ++ Z_text (ai_agentId info))]) ch l.

Example base64_ex : base64 (utf8_bytes "hello") = "aGVsbG8=".
Proof. reflexivity. Qed.

(** ** The transaction queue

    [queueMonadTx] chains every transaction on the settling of the one before
    it: [result = queue.then(fn)] starts [fn] when the tail settles, and the
    new tail settles with [result], whatever its outcome. *)

Inductive Tx := TWaiting | TRunning | TSettled (ok : bool).

Abbreviation TxQueue := (list Tx).

Definition settled (t : Tx) : bool := match t with TSettled _ => true | _ => false end.

(** The tail a new call finds: resolved when nothing was queued, else the last transaction's. *)
Definition predecessor_settled (q : TxQueue) (k : nat) : bool :=
  match k with O => true | S k' => match q !! k' with Some t => settled t | None => false end end.

Inductive QEv :=
  | QSubmit                        (* queueMonadTx is called *)
  | QStart (k : nat)               (* the continuation of the tail runs fn *)
  | QSettle (k : nat) (ok : bool). (* the promise of fn settles *)

Definition q_exec (e : QEv) (q : TxQueue) : option TxQueue :=
  match e with
  | QSubmit => Some (q ++ [TWaiting])%list
  | QStart k => match q !! k with
                | Some TWaiting => if predecessor_settled q k then Some (<[k := TRunning]> q) else None
                | _ => None
                end
  | QSettle k ok => match q !! k with
                    | Some TRunning => Some (<[k := TSettled ok]> q)
                    | _ => None
                    end
  end.

Fixpoint q_run (l : list QEv) (q : TxQueue) : option TxQueue :=
  match l with [] => Some q | e :: l => q' ← q_exec e q; q_run l q' end.

Definition q_trace (l : list QEv) : option TxQueue := q_run l [].

(** The order in which transactions start. *)
Definition starts (l : list QEv) : list nat := omap (λ e, match e with QStart k => Some k | _ => None end) l.

(** ** One transaction at a time *)

Lemma q_run_app l1 l2 q : q_run (l1 ++ l2) q = q' ← q_run l1 q; q_run l2 q'.
Proof. revert q. induction l1 as [|e l1 IH]; intros q; [done|]. simpl. destruct (q_exec e q); [apply IH | done]. Qed.

(** Settled transactions, the running one if [r], and [w] that wait. *)
Definition queue_shape (oks : list bool) (r : bool) (w : nat) : TxQueue :=
  (map TSettled oks ++ (if r then [TRunning] else []) ++ replicate w TWaiting)%list.

Definition started (oks : list bool) (r : bool) : nat := length oks + (if r then 1 else 0).

Lemma shape_lookup oks r w k t : queue_shape oks r w !! k = Some t →
  match t with
  | TSettled _ => (k < length oks)%nat
  | TRunning => r = true ∧ k = length oks
  | TWaiting => (started oks r <= k)%nat ∧ (0 < w)%nat
  end.
Proof.
  unfold queue_shape, started. intros [Hk|[Hk H]]%lookup_app_Some.
  - rewrite list_lookup_fmap in Hk. apply fmap_Some in Hk as (b & Hb%lookup_lt_Some & ->). done.
  - rewrite length_fmap in Hk, H. destruct r; simpl in H.
    + destruct (k - length oks)%nat as [|n] eqn:E; simpl in H; [injection H as <-; split; [done|lia]|].
      apply lookup_replicate in H as [-> ?]. lia.
    + apply lookup_replicate in H as [-> ?]. lia.
Qed.

Lemma shape_insert_head oks rest t k : k = length oks →
  <[k := t]> (map TSettled oks ++ rest)%list = (map TSettled oks ++ <[O := t]> rest)%list.
Proof. intros ->. by rewrite insert_app_r_alt, length_fmap, Nat.sub_diag by by rewrite length_fmap. Qed.

Lemma q_exec_shape e q oks r w : q_exec e (queue_shape oks r w) = Some q →
  ∃ oks' r' w', q = queue_shape oks' r' w' ∧
    seq 0 (started oks' r') = (seq 0 (started oks r) ++ starts [e])%list.
Proof.
  destruct e as [|k|k ok]; cbn [q_exec].
  - intros [= <-]. exists oks, r, (S w). split; [|by rewrite app_nil_r].
    unfold queue_shape. rewrite <- !app_assoc. by rewrite <- replicate_cons_app.
  - destruct (queue_shape oks r w !! k) as [[]|] eqn:Hk; try done.
    apply shape_lookup in Hk as [Hge Hw]. destruct (predecessor_settled _ k) eqn:Hp; [|done]. intros [= <-].
    assert (r = false ∧ k = length oks) as [-> ->].
    { unfold started in Hge. destruct k as [|k]; simpl in Hp; [destruct r; [lia | split; [done | lia]]|].
      destruct (queue_shape oks r w !! k) as [[]|] eqn:Hk'; try done. apply shape_lookup in Hk'.
      destruct r; [lia | split; [done | lia]]. }
    exists oks, true, (pred w). unfold started, queue_shape. split.
    + rewrite shape_insert_head by done. by destruct w; [lia|].
    + rewrite Nat.add_0_r, seq_app. done.
  - destruct (queue_shape oks r w !! k) as [[]|] eqn:Hk; try done.
    apply shape_lookup in Hk as [-> ->]. intros [= <-].
    exists (oks ++ [ok])%list, false, w. unfold started, queue_shape. split.
    + rewrite shape_insert_head by done. by rewrite fmap_app, <- app_assoc.
    + rewrite length_app, app_nil_r. f_equal. simpl. lia.
Qed.

Lemma q_trace_shape l q : q_trace l = Some q →
  ∃ oks r w, q = queue_shape oks r w ∧ starts l = seq 0 (started oks r).
Proof.
  unfold q_trace. revert q. induction l as [|e l IH] using rev_ind; intros q.
  - intros [= <-]. by exists [], false, 0%nat.
  - rewrite q_run_app. destruct (q_run l []) as [q1|]; [|done]. simpl.
    destruct (q_exec e q1) as [q2|] eqn:E; [|done]. intros [= <-].
    destruct (IH q1 eq_refl) as (oks & r & w & -> & Hs).
    destruct (q_exec_shape _ _ _ _ _ E) as (oks' & r' & w' & -> & Hs').
    exists oks', r', w'. split; [done|]. unfold starts in *. by rewrite omap_app, Hs, Hs'.
Qed.

Lemma shape_head oks r w :
  queue_shape oks r w !! length oks = ((if r then [TRunning] else []) ++ replicate w TWaiting)%list !! O.
Proof. unfold queue_shape. rewrite (lookup_app_r (map TSettled oks)) by by rewrite length_map. by rewrite length_map, Nat.sub_diag. Qed.

Lemma predecessors_settled oks r w : predecessor_settled (queue_shape oks r w) (length oks) = true.
Proof.
  destruct oks as [|b oks _] using rev_ind; [done|]. rewrite length_app, Nat.add_1_r. cbn [predecessor_settled].
  unfold queue_shape. rewrite map_app, <- app_assoc. cbn [map app]. rewrite (list_lookup_middle (map TSettled oks) _ (TSettled b)) by by rewrite length_map. done.
Qed.

(** C22: the coordinator's transactions do not overlap.  Whatever the calls of
    [queueMonadTx] and however their transactions end, the transactions start
    in the order of the calls, none before the one before it has settled, so
    at most one is in flight; and one that failed does not hold up the queue:
    when none is in flight the first that waits can start. *)
Theorem tx_queue_serializes l q : q_trace l = Some q →
  ∃ oks r w, q = queue_shape oks r w ∧ starts l = seq 0 (started oks r) ∧
    (r = false → (0 < w)%nat → q_exec (QStart (length oks)) q = Some (queue_shape oks true (pred w))) ∧
    (r = true → ∀ ok, q_exec (QSettle (length oks) ok) q = Some (queue_shape (oks ++ [ok]) false w)).
Proof.
  intros (oks & r & w & -> & Hs)%q_trace_shape. exists oks, r, w. split_and!; [done | done | |].
  - intros -> Hw. destruct w as [|w]; [lia|]. cbn [q_exec].
    rewrite shape_head, predecessors_settled. cbn [replicate app lookup list_lookup].
    unfold queue_shape. by rewrite shape_insert_head.
  - intros -> ok. cbn [q_exec]. rewrite shape_head. cbn [app lookup list_lookup].
    unfold queue_shape. by rewrite shape_insert_head, fmap_app, <- app_assoc.
Qed.

(** Two transactions, the first of which fails. *)
Lemma tx_queue_serializes_witness :
  ∃ q, q_trace [QSubmit; QStart 0; QSubmit; QSettle 0 false; QStart 1] = Some q ∧
    (∃ oks r w, q = queue_shape oks r w ∧ starts [QSubmit; QStart 0; QSubmit; QSettle 0 false; QStart 1] = [0; 1]%nat) ∧
    q_exec (QStart 1) [TRunning; TWaiting] = None.
Proof.
  eexists. split; [reflexivity|]. split; [|reflexivity].
  destruct (tx_queue_serializes [QSubmit; QStart 0; QSubmit; QSettle 0 false; QStart 1] _ eq_refl)
    as (oks & r & w & Hq & Hs & _).
  exists oks, r, w. split; [exact Hq | reflexivity].
Defined.

(** ** Feedback *)

Definition is_write (c : Call) : bool := match c with Write _ _ _ _ _ => true | _ => false end.
Definition writes (l : list Call) : nat := length (List.filter is_write l).

(** What one attempt adds to the calls, and how it ends. *)
Lemma giveFeedback_spec e account ch l :
  let W := feedback_write (getChainConfig (ch_vars ch)) account e in
  let '(r, l') := giveFeedback e account ch l in
  match ch_write ch l W with
  | Throw err => r = Throw err ∧ l' = (l ++ [W])%list
  | Ok hash => l' = (l ++ [W; Wait hash (Some 60000%Z)])%list ∧
      match ch_wait ch (l ++ [W])%list (Wait hash (Some 60000%Z)) with
      | Throw err => r = Throw err
      | Ok _ => r = Ok hash
      end
  end.
Proof.
  intros W. unfold giveFeedback, cbind, chainConfig, call. fold W.
  destruct (ch_write ch l W) as [hash|err]; [|done].
  destruct (ch_wait ch _ _) as [logs|err]; cbn; by rewrite <- app_assoc.
Qed.

(** The attempts of a feedback: [W] is written at most [n] times, and a result
    is the hash of the last one, confirmed. *)
Definition feedback_log (ch : Chain) (W : Call) (n : nat) (l : list Call) (r : outcome string) (more : list Call) : Prop :=
  (1 <= writes more <= n)%nat ∧ Forall (λ c, is_write c = true → c = W) more ∧
  match r with
  | Throw _ => writes more = n
  | Ok hash => ∃ pre receipt, more = (pre ++ [W; Wait hash (Some 60000%Z)])%list ∧
      ch_write ch (l ++ pre)%list W = Ok hash ∧
      ch_wait ch (l ++ pre ++ [W])%list (Wait hash (Some 60000%Z)) = Ok receipt
  end.

Lemma writes_app l1 l2 : writes (l1 ++ l2) = (writes l1 + writes l2)%nat.
Proof. unfold writes. by rewrite List.filter_app, length_app. Qed.

Lemma feedback_log_once e account ch l :
  let W := feedback_write (getChainConfig (ch_vars ch)) account e in
  let '(r, l') := giveFeedback e account ch l in ∃ more, l' = (l ++ more)%list ∧ feedback_log ch W 1 l r more.
Proof.
  intros W. pose proof (giveFeedback_spec e account ch l) as H. cbv zeta in H. fold W in H.
  destruct (giveFeedback e account ch l) as [r l'].
  destruct (ch_write ch l W) as [hash|err] eqn:Hw.
  - destruct H as [-> H]. eexists. split; [done|]. split; [unfold writes, W; cbn; lia|].
    split; [repeat (apply list.Forall_cons_2; [done|]); by apply list.Forall_nil_2|].
    destruct (ch_wait ch _ _) as [logs|err] eqn:Hwait; subst r; [|done].
    exists [], logs. by rewrite app_nil_r.
  - destruct H as [-> ->]. eexists. split; [done|]. split; [unfold writes, W; cbn; lia|].
    split; [|done]. repeat (apply list.Forall_cons_2; [done|]); by apply list.Forall_nil_2.
Qed.

Lemma feedback_log_retry ch W n l pre ms r more e :
  feedback_log ch W 1 l (Throw e) pre → feedback_log ch W n (l ++ pre ++ [Pause ms]) r more →
  feedback_log ch W (S n) l r (pre ++ [Pause ms] ++ more).
Proof.
  intros (H1 & Hf1 & H1') (H2 & Hf2 & H2'). unfold feedback_log. rewrite !writes_app.
  change (writes [Pause ms]) with 0%nat. split; [lia|]. split.
  { apply list.Forall_app_2; [done|]. by apply list.Forall_cons_2. }
  destruct r as [hash|]; [|lia]. destruct H2' as (pre' & logs & -> & Hw & Hl).
  exists (pre ++ [Pause ms] ++ pre')%list, logs. rewrite <- !app_assoc in *. done.
Qed.

Lemma feedback_attempts_spec e account ch attempt more l :
  let W := feedback_write (getChainConfig (ch_vars ch)) account e in
  let '(r, l') := feedback_attempts e account attempt more ch l in
  ∃ added, l' = (l ++ added)%list ∧ feedback_log ch W (S more) l r added.
Proof.
  intros W. revert attempt l. induction more as [|more IH]; intros attempt l; cbn [feedback_attempts];
    unfold ccatch; pose proof (feedback_log_once e account ch l) as H; cbv zeta in H; fold W in H;
    destruct (giveFeedback e account ch l) as [[hash|err] l1]; destruct H as (pre & -> & Hpre).
  - by exists pre.
  - by exists pre.
  - exists pre. split; [done|]. destruct Hpre as (H & Hf & Hr). split; [lia|]. done.
  - unfold cbind, pause. specialize (IH (attempt + 1)%Z ((l ++ pre) ++ [Pause (attempt * 2000)])%list).
    destruct (feedback_attempts _ _ _ _ _ _) as [r l'], IH as (added & -> & Hadd).
    exists (pre ++ [Pause (attempt * 2000)] ++ added)%list. split; [by rewrite <- !app_assoc|].
    eapply feedback_log_retry; [done|]. by rewrite <- app_assoc in Hadd.
Qed.

Definition job_feedback (agentId : Z) (endpoint : string) (success : bool) : FeedbackEntry :=
  {| fe_agentId := agentId; fe_value := if success then 8000 else 2000; fe_valueDecimals := 2;
     fe_tag1 := "dispatch-compute"; fe_tag2 := "COMPUTE"; fe_endpoint := endpoint; fe_feedbackURI := "";
     fe_feedbackHash := ZERO_HASH |}.

Lemma solana_postFeedback_eq agentId account endpoint success :
  solana_postFeedback agentId account endpoint success =
    cbind (cret (job_feedback agentId endpoint success)) (λ e, feedback_attempts e account 1 2).
Proof. by destruct success. Qed.

(** A chain that takes transactions but whose receipts do not arrive in time. *)
Definition unconfirmed (ch : Chain) : Prop := ∀ l hash t, ∃ e, ch_wait ch l (Wait hash t) = Throw e.

Lemma unconfirmed_attempts e account ch attempt more l : unconfirmed ch →
  ∃ err, (feedback_attempts e account attempt more ch l).1 = Throw err.
Proof.
  intros Hun. revert attempt l. induction more as [|more IH]; intros attempt l; cbn [feedback_attempts];
    unfold ccatch; pose proof (giveFeedback_spec e account ch l) as H; cbv zeta in H;
    destruct (giveFeedback e account ch l) as [r l1]; (destruct r as [hash|err]; [exfalso|]).
  1, 3: destruct (ch_write ch l _) as [h|]; [|by destruct H]; destruct H as [_ H];
        destruct (Hun (l ++ [feedback_write (getChainConfig (ch_vars ch)) account e])%list h (Some 60000%Z)) as [err E];
        by rewrite E in H.
  - by exists err.
  - unfold cbind, pause. apply IH.
Qed.

(** Feedback about a job.  coordinator-solana writes the same feedback, a
    score of 80.00 or 20.00, at most three times; the hash it returns is that
    of a mined write, the last (whether it reverted is not looked at); it
    gives up only after three.  A write whose receipt is late counts as
    failed, so three accepted writes of the same feedback can end in an error. *)
Theorem feedback_is_written_at_most_thrice agentId account endpoint success ch l :
  let W := feedback_write (getChainConfig (ch_vars ch)) account (job_feedback agentId endpoint success) in
  let '(r, l') := solana_postFeedback agentId account endpoint success ch l in
  (∃ more, l' = (l ++ more)%list ∧ feedback_log ch W 3 l r more) ∧
  (unconfirmed ch → ∃ e, r = Throw e).
Proof.
  intros W. rewrite solana_postFeedback_eq. unfold cbind, cret.
  pose proof (feedback_attempts_spec (job_feedback agentId endpoint success) account ch 1 2 l) as H.
  pose proof (unconfirmed_attempts (job_feedback agentId endpoint success) account ch 1 2 l) as H'.
  cbv zeta in H. destruct (feedback_attempts _ _ _ _ _ _) as [r l']. split; [exact H|].
  intros Hun. destruct (H' Hun) as [err E]. by exists err.
Qed.

(** Every receipt late: the same feedback is written three times and reported as failed. *)
Definition late_chain : Chain :=
  {| ch_vars := λ _, None; ch_write := λ _ _, Ok "0xabc"; ch_wait := λ _ _, Throw "timed out";
     ch_summary := λ _ _, Ok (1, 8000, 2)%Z; ch_text := λ _ _, Throw "reverted"; ch_texts := λ _ _, Ok [];
     ch_feedback := λ _ _, Throw "reverted"; ch_http := λ _ _, Throw "fetch failed" |}.

Example late_receipts_duplicate_feedback :
  let '(r, l) := solana_postFeedback 7 "0xc0" "http://localhost:4020" true late_chain [] in
  r = Throw "timed out" ∧ writes l = 3%nat ∧ unconfirmed late_chain.
Proof. split_and!; [done | done |]. intros l hash t. by eexists. Qed.

(** Every transaction reverted: the feedback is reported as posted. *)
Definition reverting_chain : Chain :=
  {| ch_vars := λ _, None; ch_write := λ _ _, Ok "0xabc"; ch_wait := λ _ _, Ok {| tr_success := false; tr_logs := [] |};
     ch_summary := λ _ _, Ok (0, 0, 0)%Z; ch_text := λ _ _, Throw "reverted"; ch_texts := λ _ _, Ok [];
     ch_feedback := λ _ _, Throw "reverted"; ch_http := λ _ _, Throw "fetch failed" |}.

Example reverted_feedback_is_posted :
  (solana_postFeedback 7 "0xc0" "http://localhost:4020" true reverting_chain []).1 = Ok "0xabc".
Proof. reflexivity. Qed.

(** ** Scores *)

Lemma clamp_bounds x : is_nan x = false →
  let s := math_min (num_of_Z 100) (math_max (num_of_Z 0) x) in
  num_leb (num_of_Z 0) s = true ∧ num_leb s (num_of_Z 100) = true.
Proof.
  intros Hx. unfold math_max. rewrite Hx. cbn [is_nan num_of_Z orb].
  change (is_nan (num_of_Z 0)) with false. cbn [orb]. unfold math_min. change (is_nan (num_of_Z 100)) with false.
  destruct (num_ltb (num_of_Z 0) x) eqn:H0; [|done]. rewrite Hx. cbn [orb].
  destruct (num_ltb x (num_of_Z 100)) eqn:H1; [|done]. split; by apply num_ltb_leb.
Qed.

Lemma power_of_ten_finite d : (0 <= d <= 255)%Z → ∃ m e, num_of_Z (10 ^ d) = S754_finite false m e.
Proof.
  assert (forallb (λ n, match num_of_Z (10 ^ Z.of_nat n) with S754_finite false _ _ => true | _ => false end)
            (seq 0 256) = true) as H by (by vm_compute).
  intros Hd. rewrite forallb_forall in H. specialize (H (Z.to_nat d) ltac:(apply in_seq; lia)).
  rewrite Z2Nat.id in H by lia. destruct (num_of_Z (10 ^ d)) as [| | |[] m e]; try done. eauto.
Qed.

(** Reputation scores are in range.  For every answer of the registry with
    its declared type (an integer and a one-byte number of decimals), for a
    failing node and for an agent without feedback, both coordinators hand
    the matching of workers either no score or a number from 0 to 100, never NaN. *)
Theorem reputation_scores_are_in_range hash agentId pubkey ch l s l' :
  (∀ l c count value d, ch_summary ch l c = Ok (count, value, d) → (0 <= d <= 255)%Z) →
  monad_getReputationScore hash pubkey ch l = (s, l') ∨ solana_getReputationScore agentId pubkey ch l = (s, l') →
  s = Ok None ∨
  ∃ x, s = Ok (Some x) ∧ num_leb (num_of_Z 0) x = true ∧ num_leb x (num_of_Z 100) = true.
Proof.
  intros Hd H. assert (∃ id, summary_score id ch l = (s, l')) as [id E] by (destruct H; eauto). clear H.
  unfold summary_score, ccatch, getReputationSummary, cbind, chainConfig, call, cret in E.
  destruct (ch_summary ch l _) as [[[count value] d]|err] eqn:Hs; [|injection E as <- _; by left].
  injection E as <- _. unfold score_of_summary. cbn [rs_count rs_summaryValue rs_summaryValueDecimals].
  destruct (count =? 0)%Z; [by left | right]. eexists. split; [done|]. apply clamp_bounds.
  destruct (power_of_ten_finite d ltac:(eauto)) as (m & e & ->). apply num_div_not_nan, num_of_Z_not_nan.
Qed.

Lemma reputation_scores_are_in_range_witness :
  ∃ x l', solana_getReputationScore 7 "ab" late_chain [] = (Ok (Some x), l') ∧
    num_leb (num_of_Z 0) x = true ∧ num_leb x (num_of_Z 100) = true.
Proof.
  eexists _, _. split; [reflexivity|].
  destruct (reputation_scores_are_in_range (λ _, 0%Z) 7 "ab" late_chain [] _ _
    ltac:(intros ? ? ? ? ? [= <- <- <-]; lia) (or_intror eq_refl)) as [H|(x & H & Hx)]; [discriminate H|].
  vm_compute in H. injection H as <-. exact Hx.
Defined.
