(* ===== verification/Settlement.v ===== *)
(** * Swaps, fees and anchored receipts

    bolt-settlement.ts and packages/bolt (the swap of USDC into BOLT through
    Jupiter and the protocol fee), receiptAnchorer.ts and the on-chain program
    receipt_anchor.  Jupiter, the Solana node and the Solana SDK are outside
    the repository: their answers are parameters, and every request is
    recorded. *)

From stdpp Require Import base list strings option pretty.
From Stdlib Require Import ZArith Lia Ascii.
From S2P Require Import Prelude Js Json Protocol Cli Erc8004.
Local Open Scope string_scope.

(** ** Requests *)

Inductive SReq :=
  | SQuote (url : string)
  | SSwap (url body : string)
  | SSend (transaction : string)                   (* sendRawTransaction of the signed transaction *)
  | SConfirm (signature : string).

(** An answer of Jupiter: status, status text and body. *)
Abbreviation HttpAnswer := (Z * string * string)%type.

(** Jupiter and the node; [so_sign] decodes a base64 transaction and signs it. *)
Record Outside := {
  so_http : SReq → outcome HttpAnswer;
  so_sign : option json → outcome string;
  so_send : string → outcome string;
  so_confirm : string → outcome unit }.

Definition SM (A : Type) : Type := Outside → list SReq → outcome A * list SReq.
Definition sret {A} (a : A) : SM A := λ _ l, (Ok a, l).
Definition sthrow {A} (e : string) : SM A := λ _ l, (Throw e, l).
Definition sbind {A B} (m : SM A) (k : A → SM B) : SM B := λ o l,
  match m o l with (Ok a, l') => k a o l' | (Throw e, l') => (Throw e, l') end.
Definition scatch {A} (m : SM A) (k : string → SM A) : SM A := λ o l,
  match m o l with (Ok a, l') => (Ok a, l') | (Throw e, l') => k e o l' end.
Definition ask_http (r : SReq) : SM HttpAnswer := λ o l, (so_http o r, (l ++ [r])%list).
Definition ask_node {A} (f : Outside → outcome A) (r : SReq) : SM A := λ o l, (f o, (l ++ [r])%list).
Definition slift {A} (f : Outside → outcome A) : SM A := λ o l, (f o, l).

Declare Scope settle_scope.
Notation "x ⇐ m ;; k" := (sbind m (λ x, k)) (at level 100, m at next level, right associativity) : settle_scope.
Local Open Scope settle_scope.

Definition http_ok (status : Z) : bool := ((200 <=? status) && (status <=? 299))%Z.
Definition body_json (text : string) : SM json :=
  match JSON_parse text with Some j => sret j | None => sthrow "Unexpected token in JSON" end.
Definition sprop (k : string) (j : json) : SM (option json) :=
  match j with
  | JNull => sthrow ("Cannot read properties of null (reading '" ++ k ++ "')")
  | JObj l => sret (jm_get k l)
  | _ => sret None
  end.

(** The serialisation of [URLSearchParams]. *)
Definition form_char (c : ascii) : string :=
  let n := nat_of_ascii c in
  if (n =? 32)%nat then "+"
  else if ((65 <=? n) && (n <=? 90) || (97 <=? n) && (n <=? 122) || (48 <=? n) && (n <=? 57) ||
           existsb (Nat.eqb n) [42; 45; 46; 95])%nat then String c EmptyString
  else if (n <? 128)%nat then percent n
  else percent (192 + n / 64) ++ percent (128 + n mod 64).
Fixpoint form_encode (s : string) : string :=
  match s with EmptyString => EmptyString | String c s' => form_char c ++ form_encode s' end.
Definition query (l : list (string * string)) : string :=
  String.concat "&" (map (λ e, form_encode e.1 ++ "=" ++ form_encode e.2) l).

(** ** Swaps *)

(** The authority's key pair is its public key in base58; signing is [so_sign]. *)
Record BoltConfig := {
  bc_boltMint : string; bc_usdcMint : string; bc_rpcUrl : string; bc_treasuryPubkey : string;
  bc_jupiterApiUrl : option string; bc_authority : option string }.

Definition jupiterApi (c : BoltConfig) : string := default "https://quote-api.jup.ag/v6" (bc_jupiterApiUrl c).

Definition quoteUrl (c : BoltConfig) (usdcAmount : string) : string :=
  jupiterApi c ++ "/quote?" ++
  query [("inputMint", bc_usdcMint c); ("outputMint", bc_boltMint c); ("amount", usdcAmount); ("slippageBps", "50")].

Definition get_quote (c : BoltConfig) (usdcAmount : string) : SM json :=
  r ⇐ ask_http (SQuote (quoteUrl c usdcAmount)) ;;
  let '(status, statusText, text) := r in
  if http_ok status then body_json text else sthrow ("Jupiter quote failed: " ++ statusText).

Definition swap_body (quote : json) (authority : string) : string :=
  JSON_stringify (JObj [("quoteResponse", quote); ("userPublicKey", JStr authority); ("wrapAndUnwrapSol", JBool true)]).

(** The swap of a quote: Jupiter's transaction, signed, sent and confirmed. *)
Definition execute_swap (c : BoltConfig) (quote : json) (authority : string) : SM string :=
  r ⇐ ask_http (SSwap (jupiterApi c ++ "/swap") (swap_body quote authority)) ;;
  let '(status, statusText, text) := r in
  if negb (http_ok status) then sthrow ("Jupiter swap API failed: " ++ statusText) else
  swapData ⇐ body_json text ;;
  tx ⇐ sprop "swapTransaction" swapData ;;
  raw ⇐ slift (λ o, so_sign o tx) ;;
  sig ⇐ ask_node (λ o, so_send o raw) (SSend raw) ;;
  _x ⇐ ask_node (λ o, so_confirm o sig) (SConfirm sig) ;;
  sret sig.

Record SwapResult := {
  sw_inputAmount : string; sw_outputAmount : json; sw_txSignature : string; sw_protocolFee : string }.

(** ** Conversions of amounts *)

(** [BigInt(s)] of a string: decimal digits with a sign, or digits of another
    radix with its prefix and no sign. *)
Fixpoint radix_digits (radix : Z) (s : string) (acc : Z) : option Z :=
  match s with
  | EmptyString => Some acc
  | String c s' => d ← hex_value c; if (d <? radix)%Z then radix_digits radix s' (radix * acc + d)%Z else None
  end.
Definition digits_of (radix : Z) (s : string) : option Z :=
  match s with EmptyString => None | _ => radix_digits radix s 0 end.
Definition integer_literal (s : string) : option Z :=
  match s with
  | String "-" s' => Z.opp <$> digits_of 10 s'
  | String "+" s' => digits_of 10 s'
  | String "0" (String ("x" | "X") s') => digits_of 16 s'
  | String "0" (String ("o" | "O") s') => digits_of 8 s'
  | String "0" (String ("b" | "B") s') => digits_of 2 s'
  | _ => digits_of 10 s
  end.
Definition BigInt_string (s : string) : outcome Z :=
  let t := trim s in
  if negb (str_truthy t) then Ok 0%Z else
  match integer_literal t with
  | Some z => Ok z
  | None => Throw ("Cannot convert " ++ s ++ " to a BigInt")
  end.

Example integer_literals :
  (integer_literal "-007", integer_literal "0x1F", integer_literal "0o17", integer_literal "0B101",
   integer_literal "-0x1", integer_literal "0b2", integer_literal "1.5") =
  (Some (-7), Some 31, Some 15, Some 5, None, None, None)%Z.
Proof. by vm_compute. Qed.

(** [BigInt(v)] of a JSON value. *)
Definition BigInt_json (j : json) : outcome Z :=
  match j with
  | JNum x => match math_floor x with
              | Some z => if num_leb x (num_of_Z z) then Ok z
                          else Throw ("The number " ++ num_to_string x ++ " cannot be converted to a BigInt because it is not an integer")
              | None => Throw ("The number " ++ num_to_string x ++ " cannot be converted to a BigInt because it is not an integer")
              end
  | JBool b => Ok (if b then 1 else 0)%Z
  | JNull => Throw "Cannot convert null to a BigInt"
  | j => BigInt_string (js_String j)
  end.

(** ** settleBolt *)

Definition fee_of (total : Z) : Z := (total * PROTOCOL_FEE_BPS ÷ 10000)%Z.

(** The quote and its amount; a failure leaves what was read before it. *)
Definition settle_quote (c : BoltConfig) (usdcAmount : string) : SM (option json * json) := λ o l,
  match get_quote c usdcAmount o l with
  | (Throw _, l) => (Ok (None, JStr "0"), l)
  | (Ok q, l) => match q with
                 | JNull => (Ok (None, JStr "0"), l)         (* null, whose outAmount throws *)
                 | JObj m => (Ok (Some q, nullish (jm_get "outAmount" m) (JStr "0")), l)
                 | _ => (Ok (Some q, JStr "0"), l)
                 end
  end.

Definition settleBolt (jobId usdcAmount workerPubkey : string) (c : BoltConfig) : SM BoltPayment :=
  qa ⇐ settle_quote c usdcAmount ;;
  let '(quoteData, boltAmount) := qa in
  sig ⇐ (match bc_authority c, quoteData with
         | Some a, Some q => if json_truthy q then scatch (execute_swap c q a) (λ _, sret "") else sret ""
         | _, _ => sret ""
         end) ;;
  total ⇐ slift (λ _, BigInt_json (if json_truthy boltAmount then boltAmount else JStr "0")) ;;
  sret {| bp_job_id := jobId; bp_usdc_amount := usdcAmount; bp_bolt_amount := Z_text (total - fee_of total)%Z;
          bp_worker_pubkey := workerPubkey; bp_protocol_fee := Z_text (fee_of total);
          bp_tx_signature := Some sig |}.

(** ** packages/bolt *)

(** distributeBolt computes the split, and transfers nothing. *)
Definition distribute_amounts (boltAmount : string) : outcome (Z * Z) :=
  total <-- BigInt_string boltAmount ;; Ok (total - fee_of total, fee_of total)%Z.
Definition distributeBolt (boltAmount : string) : outcome string :=
  _ <-- distribute_amounts boltAmount ;; Ok "".

(** [String(Math.floor(Number(outputAmount) * 0.05))], where [number] is [Number]. *)
Definition floor_text (x : jsnum) : string :=
  match math_floor x with Some z => num_to_string (num_of_Z z) | None => num_to_string x end.
Abbreviation swap_fee number outputAmount := (floor_text (num_mul (number outputAmount) (num_lit 5 100)))%string.

Definition swapUsdcToBolt (number : json → jsnum) (usdcAmount : string) (c : BoltConfig) : SM SwapResult :=
  quote ⇐ get_quote c usdcAmount ;;
  out ⇐ sprop "outAmount" quote ;;
  let outputAmount := nullish out (JStr "0") in
  let result sig := {| sw_inputAmount := usdcAmount; sw_outputAmount := outputAmount; sw_txSignature := sig;
                       sw_protocolFee := swap_fee number outputAmount |} in
  match bc_authority c with
  | None => sret (result "")
  | Some a => sig ⇐ execute_swap c quote a ;; sret (result sig)
  end.

(** ** Anchored receipts *)

(** The on-chain program (lib.rs).  Keys are addresses as texts; [pda] is
    Solana's find_program_address for the program. *)
Module receipt_anchor.

Record ReceiptRecord := {
  job_id : string; provider_pubkey : string; receipt_hash : string; completed_at : Z; anchor : string }.

(** 8 bytes of discriminator, two strings with a 4-byte length, two keys and an i64. *)
Definition SIZE : nat := 8 + (4 + 64) + 32 + (4 + 64) + 8 + 32.
Definition record_size (r : ReceiptRecord) : nat :=
  8 + (4 + String.length (job_id r)) + 32 + (4 + String.length (receipt_hash r)) + 8 + 32.

Inductive ReceiptError :=
  | JobIdTooLong
  | ReceiptHashTooLong
  | AccountInUse                              (* the init constraint *)
  | BadSeeds (e : string).                    (* the seeds constraint *)

(** The accounts of the program, by address. *)
Definition Accounts : Type := jsmap ReceiptRecord.

Record Instruction := {
  in_payer : string; in_job_id : string; in_receipt_hash : string; in_provider_pubkey : string; in_completed_at : Z }.

(** The constraints on the accounts, then the body; an error rolls back. *)
Definition anchor_receipt (pda : list string → outcome string) (i : Instruction) (st : Accounts)
    : ReceiptError + Accounts :=
  match pda ["receipt"; in_job_id i] with
  | Throw e => inl (BadSeeds e)
  | Ok addr =>
      match jm_get addr st with
      | Some _ => inl AccountInUse
      | None =>
          if (64 <? String.length (in_job_id i))%nat then inl JobIdTooLong
          else if (64 <? String.length (in_receipt_hash i))%nat then inl ReceiptHashTooLong
          else inr (jm_set addr {| job_id := in_job_id i; provider_pubkey := in_provider_pubkey i;
                                   receipt_hash := in_receipt_hash i; completed_at := in_completed_at i;
                                   anchor := in_payer i |} st)
      end
  end.

Definition step (pda : list string → outcome string) (st : Accounts) (i : Instruction) : Accounts :=
  match anchor_receipt pda i st with inl _ => st | inr st' => st' end.

End receipt_anchor.
Import receipt_anchor.

(** What the anchorer uses of the Solana SDK and the machine. *)
Record AnchorSdk := {
  sdk_pda : list string → outcome string;                  (* findProgramAddressSync *)
  sdk_public_key : string → outcome string;                (* new PublicKey(text) *)
  sdk_payer : string → outcome string;                     (* the key pair in a file *)
  sdk_rpc : string → Instruction → outcome string }.       (* the transaction, at the derived account *)

Record AnchorReceiptParams := {
  ap_jobId : string; ap_providerPubkey : string; ap_receiptHash : string; ap_completedAt : Z }.

(** The signature, or null; and the transactions sent. *)
Definition anchorReceipt (sdk : AnchorSdk) (keypairPath : option string) (p : AnchorReceiptParams)
    : option string * list (string * Instruction) :=
  if negb (ostr_truthy keypairPath) then (None, []) else
  match (payer <-- sdk_payer sdk (default "" keypairPath) ;;
         receiptPda <-- sdk_pda sdk ["receipt"; ap_jobId p] ;;
         providerPk <-- sdk_public_key sdk (ap_providerPubkey p) ;;
         Ok (receiptPda, {| in_payer := payer; in_job_id := ap_jobId p; in_receipt_hash := ap_receiptHash p;
                            in_provider_pubkey := providerPk; in_completed_at := ap_completedAt p |})) with
  | Throw _ => (None, [])
  | Ok (addr, i) => match sdk_rpc sdk addr i with
                    | Ok sig => (Some sig, [(addr, i)])
                    | Throw _ => (None, [(addr, i)])
                    end
  end.

(** ** Properties of the split *)

Definition is_send (r : SReq) : bool := match r with SSend _ => true | _ => false end.
Definition sends (l : list SReq) : nat := length (List.filter is_send l).

(** A confirmed swap with signature [sig] ends [more]. *)
Definition swapped (o : Outside) (sig : string) (more : list SReq) : Prop :=
  ∃ pre raw, more = (pre ++ [SSend raw; SConfirm sig])%list ∧ so_send o raw = Ok sig ∧ so_confirm o sig = Ok tt.

Lemma swapped_last o sig pre r : swapped o sig (pre ++ [r]) → r = SConfirm sig ∧ so_confirm o sig = Ok tt.
Proof.
  intros (pre' & raw & Heq & _ & Hc). change [SSend raw; SConfirm sig] with ([SSend raw] ++ [SConfirm sig])%list in Heq.
  rewrite app_assoc in Heq. by apply app_inj_tail in Heq as [_ ->].
Qed.

(** The log ends after [L], without a result. *)
Ltac swap_impossible :=
  match goal with
  | |- swapped _ _ [?a] → _ => intros [? _]%(swapped_last _ _ [] a); done
  | |- swapped _ _ [?a; ?b] → _ => intros [? _]%(swapped_last _ _ [a] b); done
  | |- swapped _ _ [?a; ?b; ?c] → _ => intros [[= <-] ?]%(swapped_last _ _ [a; b] c); congruence
  end.
Ltac swap_stops L :=
  exists L; rewrite <- ?app_assoc; split_and!;
    [done | unfold sends; cbn; lia | intros ?; split; [done | swap_impossible]].

Lemma execute_swap_spec c q a o l :
  let '(r, l') := execute_swap c q a o l in
  ∃ more, l' = (l ++ more)%list ∧ (sends more <= 1)%nat ∧ (∀ sig, r = Ok sig ↔ swapped o sig more).
Proof.
  unfold execute_swap, ask_http, ask_node, slift, body_json, sbind at 1.
  set (R := SSwap _ _). destruct (so_http o R) as [[[status statusText] text]|e]; [|swap_stops [R]].
  destruct (negb (http_ok status)); [swap_stops [R]|]. unfold sbind at 1.
  destruct (JSON_parse text) as [j|]; [|swap_stops [R]]. unfold sret at 1, sbind at 1.
  assert (∃ x, sprop "swapTransaction" j o (l ++ [R])%list = (x, (l ++ [R])%list)) as [x ->]
    by (destruct j; eexists; done).
  destruct x as [tx|]; [|swap_stops [R]]. unfold sbind at 1.
  destruct (so_sign o tx) as [raw|]; [|swap_stops [R]]. unfold sbind at 1.
  destruct (so_send o raw) as [sig|] eqn:Hs; [|swap_stops [R; SSend raw]]. unfold sbind at 1.
  destruct (so_confirm o sig) as [[]|] eqn:Hc; [|swap_stops [R; SSend raw; SConfirm sig]].
  exists [R; SSend raw; SConfirm sig]. rewrite <- !app_assoc.
  split_and!; [done | unfold sends; cbn; lia |]. intros sig'. split; [intros [= <-]; by exists [R], raw|].
  by intros [[= <-] _]%(swapped_last _ _ [R; SSend raw]).
Qed.

(** The amount Jupiter quotes: the [outAmount] of a successful answer that is an
    object and has a truthy one; ["0"] otherwise. *)
Definition quoted (c : BoltConfig) (usdcAmount : string) (o : Outside) : json :=
  match so_http o (SQuote (quoteUrl c usdcAmount)) with
  | Ok (status, _, text) =>
      if http_ok status then
        match JSON_parse text with
        | Some (JObj m) =>
            match jm_get "outAmount" m with
            | Some j => if json_truthy j then j else JStr "0"
            | None => JStr "0"
            end
        | _ => JStr "0"
        end
      else JStr "0"
  | Throw _ => JStr "0"
  end.

Lemma settle_quote_spec c amount o l :
  ∃ q a, settle_quote c amount o l = (Ok (q, a), (l ++ [SQuote (quoteUrl c amount)])%list) ∧
    (if json_truthy a then a else JStr "0") = quoted c amount o.
Proof.
  unfold settle_quote, get_quote, quoted, ask_http, body_json, sbind.
  destruct (so_http o _) as [[[status statusText] text]|]; [|by do 2 eexists].
  destruct (http_ok status); [|by do 2 eexists]. destruct (JSON_parse text) as [[]|]; try (by do 2 eexists).
  do 2 eexists. split; [done|]. destruct (jm_get "outAmount" _) as [[]|]; done.
Qed.

Lemma fee_twentieth total : fee_of total = (total ÷ 20)%Z.
Proof. unfold fee_of, PROTOCOL_FEE_BPS. change 10000%Z with (20 * 500)%Z. by rewrite Z.quot_mul_cancel_r. Qed.

(** C19: settling a payment.  Let [total] be the integer of the amount Jupiter
    quotes (0 when the quote fails or has no amount): the worker's share and
    the protocol fee of the result are [total] minus a twentieth, rounded
    towards zero, and that twentieth.  An amount that is no integer is the only
    error.  At most one transaction is sent, and the result has a signature
    exactly when a transaction was sent and confirmed, with that signature:
    every failure of Jupiter or the node gives a result without one, a swap
    that was sent but not confirmed included. *)
Theorem settlement_splits jobId usdcAmount workerPubkey c o l :
  let '(r, l') := settleBolt jobId usdcAmount workerPubkey c o l in
  (∃ more, l' = (l ++ SQuote (quoteUrl c usdcAmount) :: more)%list ∧ (sends more <= 1)%nat ∧
     (bc_authority c = None → more = []) ∧
     (∀ p sig, r = Ok p → sig ≠ "" → (bp_tx_signature p = Some sig ↔ swapped o sig more))) ∧
  match BigInt_json (quoted c usdcAmount o) with
  | Throw e => r = Throw e
  | Ok total => ∃ sig, r = Ok {| bp_job_id := jobId; bp_usdc_amount := usdcAmount;
      bp_bolt_amount := Z_text (total - total ÷ 20)%Z; bp_worker_pubkey := workerPubkey;
      bp_protocol_fee := Z_text (total ÷ 20)%Z; bp_tx_signature := Some sig |}
  end.
Proof.
  unfold settleBolt, sbind at 1. destruct (settle_quote_spec c usdcAmount o l) as (quoteData & amount & -> & Ham).
  set (l1 := (l ++ [SQuote _])%list). unfold sbind at 1.
  match goal with |- context [match ?m o l1 with _ => _ end] =>
    assert (∃ sig more, m o l1 = (Ok sig, (l1 ++ more)%list) ∧ (sends more <= 1)%nat ∧
      (bc_authority c = None → more = []) ∧ (∀ sig', sig' ≠ "" → (sig = sig' ↔ swapped o sig' more)))
      as (sig & more & -> & Hn & Hna & Hsig)
  end.
  { assert (∃ sig more, (Ok "", l1) = (Ok sig, (l1 ++ more)%list) ∧ (sends more <= 1)%nat ∧
      (bc_authority c = None → more = []) ∧ (∀ sig', sig' ≠ "" → (sig = sig' ↔ swapped o sig' more))) as Hnone.
    { exists "", []. rewrite app_nil_r. split_and!; [done | cbn; lia | done |].
      intros sig' Hne. split; [congruence|]. intros ([|] & raw & Heq & _); discriminate Heq. }
    destruct (bc_authority c) as [a|]; [|exact Hnone]. destruct quoteData as [q|]; [|exact Hnone].
    destruct (json_truthy q); [|exact Hnone]. unfold scatch.
    pose proof (execute_swap_spec c q a o l1) as H.
    destruct (execute_swap c q a o l1) as [[sig|e] l'], H as (more & -> & Hn & Hs); eexists _, more;
      (split_and!; [done | done | done |]); intros sig' Hne; rewrite <- Hs; naive_solver. }
  unfold slift, sbind, sret. subst l1. rewrite <- app_assoc, Ham. cbn [app].
  destruct (BigInt_json _) as [total|e] eqn:HB; (split; [exists more; split_and!; try done|]).
  - intros p sig' [= <-] Hne. cbn [bp_tx_signature]. rewrite <- Hsig by done. naive_solver.
  - exists sig. by rewrite fee_twentieth.
  - done.
Qed.

(** The fee of swap.ts goes through binary64 and is not always that of settleBolt. *)
Example swap_fee_drifts :
  swap_fee (λ _, num_of_Z 6755410851668299) (JStr "6755410851668299") = "337770542583415" ∧
  Z_text (fee_of 6755410851668299) = "337770542583414".
Proof. by vm_compute. Qed.

(** A swap that was sent but could not be confirmed is reported without a signature. *)
Definition unconfirmed_node : Outside :=
  {| so_http := λ r, Ok (200%Z, "OK", match r with
       | SQuote _ => JSON_stringify (JObj [("outAmount", JStr "1000")])
       | _ => JSON_stringify (JObj [("swapTransaction", JStr "AQID")]) end);
     so_sign := λ _, Ok "raw"; so_send := λ _, Ok "sig"; so_confirm := λ _, Throw "timed out" |}.

Example sent_swap_without_signature :
  let '(r, l) := settleBolt "j" "5" "w" {| bc_boltMint := "B"; bc_usdcMint := "U"; bc_rpcUrl := "";
    bc_treasuryPubkey := ""; bc_jupiterApiUrl := None; bc_authority := Some "A" |} unconfirmed_node [] in
  match r with Ok p => bp_bolt_amount p = "950" ∧ bp_tx_signature p = Some "" | Throw _ => False end ∧
  sends l = 1%nat.
Proof. by vm_compute. Qed.

(** ** Properties of anchoring *)

(** The records fit the space the program reserves for them. *)
Definition fits (st : Accounts) : Prop := ∀ addr r, jm_get addr st = Some r → (record_size r <= SIZE)%nat.

Lemma anchor_receipt_inr pda i st st' : anchor_receipt pda i st = inr st' →
  ∃ addr r, pda ["receipt"; in_job_id i] = Ok addr ∧ jm_get addr st = None ∧ st' = jm_set addr r st ∧
    (record_size r <= SIZE)%nat ∧
    r = {| job_id := in_job_id i; provider_pubkey := in_provider_pubkey i; receipt_hash := in_receipt_hash i;
           completed_at := in_completed_at i; anchor := in_payer i |}.
Proof.
  unfold anchor_receipt. destruct (pda _) as [addr|]; [|done]. destruct (jm_get addr st) eqn:Ha; [done|].
  destruct (Nat.ltb_spec 64 (String.length (in_job_id i))); [done|].
  destruct (Nat.ltb_spec 64 (String.length (in_receipt_hash i))); [done|]. intros [= <-].
  eexists addr, _. split_and!; try done. unfold record_size, SIZE. cbn [job_id receipt_hash]. lia.
Qed.

Lemma step_keeps pda st i addr r : jm_get addr st = Some r → jm_get addr (step pda st i) = Some r.
Proof.
  intros H. unfold step. destruct (anchor_receipt pda i st) as [|st'] eqn:E; [done|].
  destruct (anchor_receipt_inr _ _ _ _ E) as (a & r' & _ & Ha & -> & _).
  rewrite jm_get_set_ne; [done|]. intros ->. by rewrite Ha in H.
Qed.

Lemma step_fits pda st i : fits st → fits (step pda st i).
Proof.
  intros Hf. unfold step. destruct (anchor_receipt pda i st) as [|st'] eqn:E; [done|].
  destruct (anchor_receipt_inr _ _ _ _ E) as (a & r' & _ & _ & -> & Hsz & _).
  intros addr r. destruct (decide (a = addr)) as [->|Hne]; [rewrite jm_get_set_eq; by intros [= <-]|].
  rewrite jm_get_set_ne by done. apply Hf.
Qed.

(** C20: anchored receipts.  Whatever instructions the program executes, from
    no accounts, every record fits the space reserved for it and is never
    changed again: an accepted instruction stores exactly its arguments and
    its payer in a new account, and a second receipt for the same job is
    refused. *)
Theorem anchored_receipts_fit_and_stay pda before i after st :
  foldl (step pda) [] before = st →
  fits st ∧
  match anchor_receipt pda i st with
  | inl _ => step pda st i = st
  | inr st' => ∃ addr, pda ["receipt"; in_job_id i] = Ok addr ∧
      (∀ j, in_job_id j = in_job_id i → anchor_receipt pda j (foldl (step pda) st' after) = inl AccountInUse) ∧
      jm_get addr (foldl (step pda) st' after) =
        Some {| job_id := in_job_id i; provider_pubkey := in_provider_pubkey i; receipt_hash := in_receipt_hash i;
                completed_at := in_completed_at i; anchor := in_payer i |}
  end.
Proof.
  intros <-. split.
  { assert (fits []) as H0 by (intros addr r H; discriminate H). revert H0. generalize ([] : Accounts).
    induction before as [|j l IH]; intros st0 H0; [done|]. apply IH. by apply step_fits. }
  destruct (anchor_receipt pda i _) as [e|st'] eqn:E; [unfold step at 1; by rewrite E|].
  destruct (anchor_receipt_inr _ _ _ _ E) as (addr & r & Hp & _ & -> & _ & ->).
  match goal with |- context [jm_set addr ?r ?s] =>
    assert (jm_get addr (foldl (step pda) (jm_set addr r s) after) = Some r) as Hget;
    [pose proof (jm_get_set_eq addr r s) as H1; revert H1; generalize (jm_set addr r s) |]
  end.
  { induction after as [|j l IH]; intros st1 H1; [done|]. apply IH. by apply step_keeps. }
  exists addr. split_and!; [done | | exact Hget]. intros j Hj. unfold anchor_receipt. by rewrite Hj, Hp, Hget.
Qed.

Definition toy_pda (seeds : list string) : outcome string :=
  if existsb (λ s, 32 <? String.length s)%nat seeds then Throw "Max seed length exceeded"
  else Ok (String.concat "/" seeds).

Definition sc_instr : Instruction :=
  {| in_payer := "p"; in_job_id := "job-1"; in_receipt_hash := "h"; in_provider_pubkey := "k"; in_completed_at := 5 |}.

Lemma anchored_receipts_fit_and_stay_witness :
  fits [] ∧ jm_get "receipt/job-1" (foldl (step toy_pda) [] [sc_instr; sc_instr]) =
    Some {| job_id := "job-1"; provider_pubkey := "k"; receipt_hash := "h"; completed_at := 5; anchor := "p" |}.
Proof.
  destruct (anchored_receipts_fit_and_stay toy_pda [] sc_instr [sc_instr] [] eq_refl) as [H1 H2].
  split; [exact H1|]. destruct (anchor_receipt toy_pda sc_instr []) as [|st'] eqn:E; [discriminate E|].
  destruct H2 as (addr & Ha & _ & Hget). injection Ha as <-. vm_compute in E. injection E as <-. exact Hget.
Defined.

(** Solana refuses a seed of more than 32 bytes. *)
Definition seeds_limited (pda : list string → outcome string) : Prop :=
  ∀ seeds s, s ∈ seeds → (32 < String.length s)%nat → ∃ e, pda seeds = Throw e.

(** The instruction of a receipt. *)
Definition receipt_instr (p : AnchorReceiptParams) (payer providerPk : string) : Instruction :=
  {| in_payer := payer; in_job_id := ap_jobId p; in_receipt_hash := ap_receiptHash p;
     in_provider_pubkey := providerPk; in_completed_at := ap_completedAt p |}.


Definition toy_sdk : AnchorSdk :=
  {| sdk_pda := toy_pda; sdk_public_key := λ s, Ok s; sdk_payer := λ _, Ok "payer"; sdk_rpc := λ _ _, Ok "sig" |}.

Lemma toy_pda_limited : seeds_limited toy_pda.
Proof.
  intros seeds s Hs Hlen. exists "Max seed length exceeded". unfold toy_pda.
  assert (existsb (λ s, 32 <? String.length s)%nat seeds = true) as ->; [|reflexivity].
  apply existsb_exists. exists s. split; [by apply list_elem_of_In | by apply Nat.ltb_lt].
Qed.

Definition sc_anchor (job : string) : AnchorReceiptParams :=
  {| ap_jobId := job; ap_providerPubkey := "k"; ap_receiptHash := "h"; ap_completedAt := 5 |}.

