(* ===== verification/Startup.v ===== *)
(** * Starting a coordinator

    config.ts and the top level of coordinator-monad and coordinator-solana:
    what they read from the environment, which optional services they pass to
    [createServer], and the health answer.  The SDK clients they construct are
    outside the repository. *)

From stdpp Require Import base list strings option.
From Stdlib Require Import ZArith Lia.
From S2P Require Import Prelude Js Json Protocol Interfaces Payout WorkerHub Routes Erc8004.
Local Open Scope string_scope.

(** ** Configuration *)

Record CoordinatorConfig := {
  cf_port : option Z;                       (* None is NaN *)
  cf_dbPath : string; cf_network : string; cf_payTo : string; cf_facilitatorUrl : string;
  cf_asset : option string; cf_boltEnabled : bool; cf_boltMint : option string }.

(** [Partial<CoordinatorConfig>]; a port that was given may be NaN. *)
Record Overrides := {
  ov_port : option (option Z); ov_dbPath : option string; ov_network : option string; ov_payTo : option string;
  ov_facilitatorUrl : option string; ov_asset : option string; ov_boltEnabled : option bool;
  ov_boltMint : option string }.

(** [a ?? b ?? d] *)
Definition first_of {A} (a b : option A) (d : A) : A := default (default d b) a.

Definition is_true_text (s : option string) : bool := match s with Some t => String.eqb t "true" | None => false end.

Definition configFromEnv (vars : EnvVars) (o : Overrides) : CoordinatorConfig :=
  {| cf_port := default (parseInt10 (default "4010" (vars "PORT"))) (ov_port o);
     cf_dbPath := first_of (ov_dbPath o) (vars "DB_PATH") "./data/coordinator.db";
     cf_network := first_of (ov_network o) (vars "NETWORK") "eip155:10143";
     cf_payTo := first_of (ov_payTo o) (vars "PAY_TO") "";
     cf_facilitatorUrl := first_of (ov_facilitatorUrl o) (vars "FACILITATOR_URL") "";
     cf_asset := match ov_asset o with Some a => Some a | None => vars "ASSET" end;
     cf_boltEnabled := default (is_true_text (vars "BOLT_ENABLED")) (ov_boltEnabled o);
     cf_boltMint := match ov_boltMint o with Some a => Some a | None => vars "BOLT_MINT" end |}.

Definition monad_config (vars : EnvVars) : CoordinatorConfig :=
  configFromEnv vars
    {| ov_port := Some (parseInt10 (default "4010" (vars "PORT")));
       ov_dbPath := Some (default "./data/monad.db" (vars "DB_PATH"));
       ov_network := Some "eip155:10143";
       ov_payTo := Some (default "0x0000000000000000000000000000000000000000" (vars "MONAD_PAY_TO"));
       ov_facilitatorUrl := Some (default "https://x402-facilitator.molandak.org" (vars "MONAD_FACILITATOR"));
       ov_asset := Some (default "0x534b2f3A21130d7a60830c2Df862319e593943A3" (vars "MONAD_USDC"));
       ov_boltEnabled := None; ov_boltMint := None |}.

Definition solana_config (vars : EnvVars) : CoordinatorConfig :=
  configFromEnv vars
    {| ov_port := Some (parseInt10 (default "4020" (vars "PORT")));
       ov_dbPath := Some (default "./data/solana.db" (vars "DB_PATH"));
       ov_network := Some "solana:EtWTRABZaYq6iMfeYKouRu166VU2xqa1";
       ov_payTo := Some (default "11111111111111111111111111111111" (vars "SOLANA_PAY_TO"));
       ov_facilitatorUrl := Some (default "https://www.x402.org/facilitator" (vars "SOLANA_FACILITATOR"));
       ov_asset := None; ov_boltEnabled := None; ov_boltMint := None |}.

(** ** Services *)

(** What [createServer] is given: the gated routes, if payment is on, the
    hub's services and the distributor. *)
Record Services := {
  sv_gate : option (list (string * PaymentAccept));
  sv_hub : HubConfig;
  sv_distributor : bool }.

Definition gate (vars : EnvVars) (c : CoordinatorConfig) : option (list (string * PaymentAccept)) :=
  if is_true_text (vars "TESTNET_MODE") then None
  else Some (buildPaymentConfig (cf_network c) (cf_payTo c) (cf_asset c)).

Definition monad_services (vars : EnvVars) : Services :=
  let key := ostr_truthy (vars "ERC8004_PRIVATE_KEY") in
  {| sv_gate := gate vars (monad_config vars);
     sv_hub := {| hc_erc8004 := key; hc_postFeedback := key; hc_stakeConfig := ostr_truthy (vars "BOLT_MINT") |};
     sv_distributor := ostr_truthy (vars "WBOLT_CONTRACT") && key |}.

(** coordinator-solana looks for its agent before it starts: an error of the
    search ends the process.  [address] is the address of the account of a key. *)
Definition solana_services (address : string → string) : CM (option Z * Services) := λ ch l,
  let vars := ch_vars ch in
  let key := ostr_truthy (vars "ERC8004_PRIVATE_KEY") in
  let services := {| sv_gate := gate vars (solana_config vars);
    sv_hub := {| hc_erc8004 := key; hc_postFeedback := key; hc_stakeConfig := ostr_truthy (vars "BOLT_MINT") |};
    sv_distributor := ostr_truthy (vars "BOLT_MINT") && ostr_truthy (vars "BOLT_AUTHORITY_KEYPAIR") |} in
  if key then
    match discoverTargetAgent (address (default "" (vars "ERC8004_PRIVATE_KEY"))) ch l with
    | (Ok id, l) => (Ok (Some id, services), l)
    | (Throw e, l) => (Throw e, l)
    end
  else (Ok (None, services), l).

(** GET /v1/health *)
Definition health {B W} (h : Hub B W) (network iso : string) : json :=
  JObj [("status", JStr "ok"); ("workers_online", JNum (num_of_Z (Z.of_nat (length (workers h)))));
        ("network", JStr network); ("timestamp", JStr iso)].

(** ** The search for an agent *)

Definition owner_read (ch : Chain) (j : Z) : Call :=
  Read (cc_identityRegistry (getChainConfig (ch_vars ch))) "ownerOf" [AInt j].

(** The first [k] reads of owners from agent [i]. *)
Definition owner_reads (ch : Chain) (i : Z) (k : nat) : list Call :=
  map (λ j, owner_read ch (i + Z.of_nat j)) (seq 0 k).

Lemma owner_reads_S ch i k : owner_reads ch i (S k) = owner_read ch i :: owner_reads ch (i + 1) k.
Proof.
  unfold owner_reads. cbn [seq map]. rewrite Z.add_0_r, <- seq_shift, map_map. f_equal.
  apply map_ext. intros j. f_equal. lia.
Qed.

Lemma getAgentOwner_eq i ch l : getAgentOwner i ch l = (ch_text ch l (owner_read ch i), (l ++ [owner_read ch i])%list).
Proof. done. Qed.

(** The search reads owners in order and stops at the first that is not the coordinator. *)
Lemma scan_agents_spec coordinator i more ch l :
  let '(r, l') := scan_agents coordinator i more ch l in
  ∃ k, (k <= more)%nat ∧ l' = (l ++ owner_reads ch i (S k))%list ∧
    (∀ j, (j < k)%nat → ∃ o, ch_text ch (l ++ owner_reads ch i j)%list (owner_read ch (i + Z.of_nat j)) = Ok o ∧
       toLowerCase o = toLowerCase coordinator) ∧
    match r with
    | Ok id => id = (i + Z.of_nat k)%Z ∧
        ∃ o, ch_text ch (l ++ owner_reads ch i k)%list (owner_read ch id) = Ok o ∧
             toLowerCase o ≠ toLowerCase coordinator
    | Throw e => e = NO_TARGET
    end.
Proof.
  revert i l. induction more as [|more IH]; intros i l; cbn [scan_agents]; rewrite getAgentOwner_eq;
    (destruct (ch_text ch l (owner_read ch i)) as [o|e] eqn:Ho;
     [|exists 0%nat; rewrite owner_reads_S; split_and!; [lia | done | lia | done]]);
    (destruct (String.eqb_spec (toLowerCase o) (toLowerCase coordinator)) as [Heq|Hne]; cbn [negb];
     [|exists 0%nat; rewrite owner_reads_S, Z.add_0_r, app_nil_r; split_and!; [lia | done | lia | done | by exists o]]).
  - exists 0%nat. rewrite owner_reads_S. split_and!; [lia | done | lia | done].
  - specialize (IH (i + 1)%Z (l ++ [owner_read ch i])%list).
    assert (∀ j, ((l ++ [owner_read ch i]) ++ owner_reads ch (i + 1) j)%list = (l ++ owner_reads ch i (S j))%list) as Hl
      by (intros j; by rewrite owner_reads_S, <- app_assoc).
    destruct (scan_agents coordinator (i + 1) more ch _) as [r l'], IH as (k & Hk & -> & Hown & Hr).
    exists (S k). rewrite <- (Hl (S k)). split_and!; [lia | done | |].
    + intros [|j] Hj; [rewrite Z.add_0_r, app_nil_r; eauto|].
      destruct (Hown j ltac:(lia)) as (o' & Ho' & He'). exists o'. rewrite <- Hl.
      replace (i + Z.of_nat (S j))%Z with (i + 1 + Z.of_nat j)%Z by lia. done.
    + destruct r as [id|e]; [|done]. destruct Hr as (-> & Hex). split; [lia|]. by rewrite <- Hl.
Qed.

(** What coordinator-solana starts with.  Without a key it starts at once,
    without reputation and without asking the chain.  With a key it reads the
    owners of at most 31 agents in order and takes the first agent that is not
    its own, for the feedback of all workers; if it finds none, or the node
    fails, it does not start.  Payment is off exactly when TESTNET_MODE is
    true, and then no route is gated. *)
Theorem solana_startup address ch l :
  let vars := ch_vars ch in
  let coordinator := address (default "" (vars "ERC8004_PRIVATE_KEY")) in
  let '(r, l') := solana_services address ch l in
  match r with
  | Ok (agent, s) =>
      (sv_gate s = None ↔ vars "TESTNET_MODE" = Some "true") ∧
      match agent with
      | None => l' = l ∧ hc_erc8004 (sv_hub s) = false
      | Some id => hc_erc8004 (sv_hub s) = true ∧ (0 <= id <= 30)%Z ∧
          l' = (l ++ owner_reads ch 0 (S (Z.to_nat id)))%list ∧
          (∃ o, ch_text ch (l ++ owner_reads ch 0 (Z.to_nat id))%list (owner_read ch id) = Ok o ∧
                toLowerCase o ≠ toLowerCase coordinator) ∧
          (∀ j, (0 <= j < id)%Z →
             ∃ o, ch_text ch (l ++ owner_reads ch 0 (Z.to_nat j))%list (owner_read ch j) = Ok o ∧
                  toLowerCase o = toLowerCase coordinator)
      end
  | Throw e => e = NO_TARGET ∧ ostr_truthy (vars "ERC8004_PRIVATE_KEY") = true
  end.
Proof.
  intros vars coordinator. unfold solana_services. fold vars.
  assert (∀ c, gate vars c = None ↔ vars "TESTNET_MODE" = Some "true") as Hg.
  { intros c. unfold gate, is_true_text. destruct (vars "TESTNET_MODE") as [t|]; [|done].
    destruct (String.eqb_spec t "true") as [->|Hne]; naive_solver. }
  destruct (ostr_truthy (vars "ERC8004_PRIVATE_KEY")); [|cbn; auto].
  unfold discoverTargetAgent. pose proof (scan_agents_spec coordinator 0 30 ch l) as H. fold coordinator.
  destruct (scan_agents coordinator 0 30 ch l) as [[id|e] l'], H as (k & Hk & -> & Hown & Hr); [|done].
  destruct Hr as (-> & Hex). rewrite Z.add_0_l, Nat2Z.id. cbn [sv_gate sv_hub hc_erc8004].
  split; [apply Hg|]. split_and!; [done | lia | lia | done | done |].
  intros j Hj. destruct (Hown (Z.to_nat j) ltac:(lia)) as (o & Ho & He). exists o.
  rewrite Z.add_0_l, Z2Nat.id in Ho by lia. done.
Qed.
