(* ===== verification/Http.v ===== *)
(** * The coordinator's HTTP interface and its messages, as text

    Every route of coordinator-core between the request Express hands to the
    handler and the JSON text of the answer, on top of the handlers of Jobs.v
    and Routes.v; and the messages the hub sends, as the JSON texts the workers
    read.  Express itself (matching paths, query strings and bodies, its pages
    for errors) is a parameter. *)

From stdpp Require Import base list gmap strings option.
From Stdlib Require Import ZArith Lia Ascii.
From S2P Require Import Prelude Js Json JsDate Protocol Interfaces Db WorkerHub Jobs Routes Coordinator Workers Router Startup.
Local Open Scope string_scope.

(** ** Requests *)

(** The handler a request reaches, with what it reads of the request:
    [req.body ?? {}], [req.query] and [req.params]. *)
Inductive Route :=
  | RHealth
  | RQuote (job_type policy : option string)
  | RCommit (tier : Policy) (body : json)
  | RJob (id : string)
  | RTrustCreate (body : json)
  | RTrustClaim (body : json)
  | RTrustList (user_id : option string)
  | RDemoStart
  | RDemoStop
  | RDemoStatus
  | ROther.                (* the dashboard, an unknown path, a body [express.json] refuses *)

Class Express := {
  express_route : string → string → list (string * string) → option string → Route;
  express_other : string → string → Resp;   (* the answer to any other request *)
  express_error : string → string }.        (* the page of a handler that throws *)

(** Words that a URL carries unchanged. *)
Definition plain_char (c : ascii) : bool :=
  let n := nat_of_ascii c in
  ((48 <=? n) && (n <=? 57) || (65 <=? n) && (n <=? 90) || (97 <=? n) && (n <=? 122) ||
   (n =? 45) || (n =? 95))%nat.
Fixpoint plain (s : string) : bool :=
  match s with "" => true | String c s => plain_char c && plain s end.

Definition JSON_HEADER : string * string := ("Content-Type", "application/json").

(** Documented behaviour of Express on the requests of the clients: query
    parameters and path parameters made of plain words arrive as they are, and
    [express.json] parses an object sent with a JSON content type. *)
Class ExpressLaws `{Express} := {
  route_quote jt p : plain jt = true → plain p = true →
    express_route "GET" ("/v1/quote?job_type=" ++ jt ++ "&policy=" ++ p) [] None = RQuote (Some jt) (Some p);
  route_commit_fast body l hs : JSON_parse body = Some (JObj l) →
    express_route "POST" "/v1/jobs/commit/fast" (JSON_HEADER :: hs) (Some body) = RCommit FAST (JObj l);
  route_commit_cheap body l hs : JSON_parse body = Some (JObj l) →
    express_route "POST" "/v1/jobs/commit/cheap" (JSON_HEADER :: hs) (Some body) = RCommit CHEAP (JObj l);
  route_job id : plain id = true → id ≠ "" → express_route "GET" ("/v1/jobs/" ++ id) [] None = RJob id }.

(** ** Reading bodies *)

Definition body_field (k : string) (body : json) : option json :=
  match body with JObj l => jm_get k l | _ => None end.

(** A member that is a string, or absent ([null] acts as absent in every
    handler); [None] for a member of another type. *)
Definition body_string (k : string) (body : json) : option (option string) :=
  match body_field k body with
  | None | Some JNull => Some None
  | Some (JStr s) => Some (Some s)
  | Some _ => None
  end.

Definition commit_body (body : json) : option CommitBody :=
  t ← body_string "job_type" body;
  p ← body_string "privacy_class" body;
  u ← body_string "user_id" body;
  Some {| cb_job_type := t; cb_payload := body_field "payload" body; cb_privacy_class := p; cb_user_id := u |}.

(** ** Answers *)

Definition json_resp (status : Z) (j : json) : Resp := HttpResp status (JSON_stringify j).
Definition error_resp (status : Z) (e : string) : Resp := json_resp status (JObj [("error", JStr e)]).

Definition quote_json (q : Quote) : json :=
  JObj [("price", JStr (q_price q)); ("endpoint", JStr (q_endpoint q));
        ("policy_resolved", JStr (q_policy_resolved q)); ("network", JStr (q_network q)); ("expires_at", JNull)].

Definition quote_resp (network : string) (job_type policy : option string) : Resp :=
  match quote network job_type policy with
  | inl e => error_resp 400 e
  | inr q => json_resp 200 (quote_json q)
  end.

Definition commit_resp (r : CommitResponse) : Resp :=
  match r with
  | Commit400 e => error_resp 400 e
  | Commit422 j => json_resp 422 (JObj [("error", JStr "no_trusted_worker"); ("job_id", JStr j)])
  | Commit201 j => json_resp 201 (JObj [("job_id", JStr j)])
  end.

(** [{ ...JSON.parse(receipt_json), signature, verified }] *)
Definition served_receipt (r : Receipt) (signature : string) (verified : bool) : json :=
  match receipt_json r with
  | JObj l => JObj (l ++ [("signature", JStr signature); ("verified", JBool verified)])%list
  | j => j
  end.

Definition job_json (v : JobView) : json :=
  JObj [("id", JStr (jv_id v)); ("status", JStr (JobStatus_str (jv_status v))); ("result", jv_result v);
        ("receipt", match jv_receipt v with
                    | Some (r, sig, ok) => served_receipt r sig ok
                    | None => JNull
                    end);
        ("created_at", JStr (sqlite_datetime (jv_created_at v)));
        ("completed_at", match jv_completed_at v with Some t => JStr (sqlite_datetime t) | None => JNull end)].

Definition job_resp (v : option JobView) : Resp :=
  match v with Some v => json_resp 200 (job_json v) | None => error_resp 404 "Job not found" end.

Definition trust_error (missing : string) (e : TrustError) : Resp :=
  error_resp 400 match e with
                 | MissingField => missing | InvalidCode => "invalid_code"
                 | AlreadyClaimed => "already_claimed" | Expired => "expired"
                 end.

Definition trust_create_resp `{!Express} (r : outcome (TrustError + string * Z)) : Resp :=
  match r with
  | Ok (inr (code, expires)) =>
      json_resp 201 (JObj [("pairing_code", JStr code); ("expires_at", JStr (toISOString expires))])
  | Ok (inl e) => trust_error "Missing user_id" e
  | Throw e => HttpResp 500 (express_error e)
  end.

Definition trust_claim_resp (now : Z) (r : TrustError + string) : Resp :=
  match r with
  | inr user => json_resp 200 (JObj [("user_id", JStr user); ("paired_at", JStr (toISOString now))])
  | inl e => trust_error "Missing pairing_code or provider_pubkey" e
  end.

Definition trust_list_resp (r : TrustError + list (option string * Z)) : Resp :=
  match r with
  | inr l => json_resp 200 (JObj [("providers", JArr (map (λ e : option string * Z,
        JObj [("provider_pubkey", match e.1 with Some pk => JStr pk | None => JNull end);
              ("paired_at", JStr (sqlite_datetime e.2))]) l))])
  | inl e => trust_error "Missing user_id query param" e
  end.

(** ** The server *)

(** What handling one request draws: a uuid, the hexadecimal text of three
    random bytes, the name of the next timeout, and the time. *)
Record Draw := { dr_uuid : string; dr_code : string; dr_timer : nat; dr_now : Z }.

Section Server.
  Context {B W : Type} `{!PayoutQueue B} `{!PayoutQueue W} `{!Ed25519} `{!Express}.
  Context (cfg : HubConfig) (network : string).
  Implicit Types s : Sys B W.

(** The state change of a handler is the coordinator's event. *)
Definition after (e : Event B W) s : Sys B W :=
  match exec cfg e s with Ok s' => s' | Throw _ => s end.

Definition serve_commit (tier : Policy) (body : CommitBody) (d : Draw) s : Resp * Sys B W :=
  (match handleCommit tier body (dr_uuid d) (dr_now d) (hub s) with
   | Ok (r, _, _) => commit_resp r
   | Throw e => HttpResp 500 (express_error e)
   end, after (ECommit tier body (dr_uuid d) (dr_now d)) s).

(** [other] answers requests with members of unexpected types. *)
Definition serve (other : Resp) (r : Route) (d : Draw) s : Resp * Sys B W :=
  match r with
  | RHealth => (json_resp 200 (health (hub s) network (toISOString (dr_now d))), s)
  | RQuote t p => (quote_resp network t p, s)
  | RCommit tier body =>
      match commit_body body with
      | Some b => serve_commit tier b d s
      | None => (other, s)
      end
  | RJob id => (job_resp (getJob id (hub s)), s)
  | RTrustCreate body =>
      match body_string "user_id" body with
      | Some u => (trust_create_resp (trustCreate u (dr_uuid d) (dr_code d) (dr_now d) (db (hub s))).1,
                   after (ETrustCreate u (dr_uuid d) (dr_code d) (dr_now d)) s)
      | None => (other, s)
      end
  | RTrustClaim body =>
      match body_string "pairing_code" body, body_string "provider_pubkey" body with
      | Some c, Some pk => (trust_claim_resp (dr_now d) (trustClaim c pk (dr_now d) (db (hub s))).1,
                            after (ETrustClaim c pk (dr_now d)) s)
      | _, _ => (other, s)
      end
  | RTrustList u => (trust_list_resp (trustList u (db (hub s))), s)
  | RDemoStart => (json_resp 200 (JObj [("status", JStr "started")]), after (EDemoStart (dr_timer d)) s)
  | RDemoStop => (json_resp 200 (JObj [("status", JStr "stopped")]), after EDemoStop s)
  | RDemoStatus => (json_resp 200 (JObj [("active", JBool (demoActive (demo s)))]), s)
  | ROther => (other, s)
  end.
End Server.

(** ** Messages to the workers *)

Definition coordinator_json (m : CoordinatorToWorker) : json :=
  match m with
  | OutRegisterAck id => JObj [("type", JStr "register_ack"); ("status", JStr "ok"); ("worker_id", JStr id)]
  | OutHeartbeatAck => JObj [("type", JStr "heartbeat_ack"); ("status", JStr "ok")]
  | OutJobAssign a =>
      JObj [("type", JStr "job_assign"); ("job_id", JStr (ja_job_id a)); ("job_type", JStr (JobType_str (ja_job_type a)));
            ("payload", ja_payload a); ("policy", JStr (Policy_str (ja_policy a)));
            ("privacy_class", JStr (ja_privacy_class a)); ("user_id", JStr (ja_user_id a))]
  | OutError code msg => JObj [("type", JStr "error"); ("code", JStr code); ("message", JStr msg)]
  | OutFeedbackPosted j tx net url =>
      JObj [("type", JStr "feedback_posted"); ("job_id", JStr j); ("tx_hash", JStr tx);
            ("network", JStr net); ("explorer_url", JStr url)]
  | OutFeedbackFailed j e => JObj [("type", JStr "feedback_failed"); ("job_id", JStr j); ("error", JStr e)]
  | OutPaymentPosted js tx amount token net url =>
      JObj ([("type", JStr "payment_posted"); ("job_ids", JArr (map JStr js)); ("tx_hash", JStr tx);
             ("amount", JStr (num_to_string amount))] ++ member "token" (JStr <$> token) ++
            [("network", JStr net); ("explorer_url", JStr url)])%list
  | OutPaymentFailed js e token =>
      JObj ([("type", JStr "payment_failed"); ("job_ids", JArr (map JStr js)); ("error", JStr e)] ++
            member "token" (JStr <$> token))%list
  end.

Definition coordinator_text (m : CoordinatorToWorker) : string := JSON_stringify (coordinator_json m).

(** ** Lemmas *)

Lemma coordinator_json_ok m :
  (∀ a, m = OutJobAssign a → json_ok (ja_payload a) = true) → json_ok (coordinator_json m) = true.
Proof.
  destruct m as [id| |a|c e|j t n u|j e|js tx am [tk|] n u|js e [tk|]]; intros Hp; try done;
    try (cbn -[bool_decide]; by rewrite forallb_strs).
  specialize (Hp a eq_refl). cbn -[bool_decide]. by rewrite Hp.
Qed.

Lemma served_receipt_ok r sig ok : json_ok (served_receipt r sig ok) = true.
Proof. by destruct r as [a b c d [e|]]. Qed.

Lemma job_json_ok v : json_ok (jv_result v) = true → json_ok (job_json v) = true.
Proof.
  destruct v as [i st res rc cr ct]. cbn [jv_result]. intros Hr. unfold job_json.
  cbn [jv_id jv_status jv_result jv_receipt jv_created_at jv_completed_at].
  repeat apply json_ok_members; try done.
  - by destruct rc as [[[r sig] ok]|]; [apply served_receipt_ok|].
  - by destruct ct.
Qed.
