(* ===== verification/Dashboard.v ===== *)
(** * The dashboard page

    routes/dashboard.ts: the ten latest jobs, their rows and the whole page,
    with the figures of Routes.v.  Fixed texts are lists of lines in which [|]
    stands for a double quote.  [scan] reads the markup of a page. *)

From stdpp Require Import base list gmap sorting strings option.
From Stdlib Require Import ZArith Lia Ascii.
From S2P Require Import Prelude Js Json JsonPretty JsDate Protocol Interfaces Db WorkerHub Routes Coordinator Router.
Local Open Scope string_scope.

(** ** Text *)

Fixpoint unbar (s : string) : string :=
  match s with
  | "" => ""
  | String c s => if Ascii.eqb c "|" then dquote ++ unbar s else String c (unbar s)
  end.
Definition template (lines : list string) : string := unbar (String.concat newline lines).

(** The page up to the first figure. *)
Definition page_head : string := template
  ["<!DOCTYPE html>";
   "<html lang=|en|>";
   "<head>";
   "  <meta charset=|utf-8| />";
   "  <meta name=|viewport| content=|width=device-width, initial-scale=1| />";
   "  <meta http-equiv=|refresh| content=|10| />";
   "  <title>Dispatch Dashboard</title>";
   "  <style>";
   "    * { margin: 0; padding: 0; box-sizing: border-box; }";
   "    body {";
   "      background: #0a0a0f;";
   "      color: #f8fafc;";
   "      font-family: -apple-system, BlinkMacSystemFont, 'Segoe UI', Roboto, monospace;";
   "      padding: 2rem;";
   "    }";
   "    h1 {";
   "      font-size: 1.8rem;";
   "      margin-bottom: 0.25rem;";
   "      background: linear-gradient(135deg, #6366f1, #a78bfa);";
   "      -webkit-background-clip: text;";
   "      -webkit-text-fill-color: transparent;";
   "    }";
   "    .subtitle {";
   "      color: #94a3b8;";
   "      font-size: 0.85rem;";
   "      margin-bottom: 2rem;";
   "    }";
   "    .cards {";
   "      display: grid;";
   "      grid-template-columns: repeat(auto-fit, minmax(200px, 1fr));";
   "      gap: 1rem;";
   "      margin-bottom: 2rem;";
   "    }";
   "    .card {";
   "      background: #141420;";
   "      border: 1px solid #1e1e30;";
   "      border-radius: 12px;";
   "      padding: 1.25rem;";
   "    }";
   "    .card .label {";
   "      color: #94a3b8;";
   "      font-size: 0.75rem;";
   "      text-transform: uppercase;";
   "      letter-spacing: 0.05em;";
   "      margin-bottom: 0.5rem;";
   "    }";
   "    .card .value {";
   "      font-size: 2rem;";
   "      font-weight: 700;";
   "      color: #f8fafc;";
   "    }";
   "    .card .value.accent { color: #6366f1; }";
   "    .card .value.green { color: #22c55e; }";
   "    .card .value.amber { color: #f59e0b; }";
   "    h2 {";
   "      font-size: 1.1rem;";
   "      margin-bottom: 1rem;";
   "      color: #e2e8f0;";
   "    }";
   "    table {";
   "      width: 100%;";
   "      border-collapse: collapse;";
   "      font-size: 0.85rem;";
   "    }";
   "    th {";
   "      text-align: left;";
   "      color: #94a3b8;";
   "      font-weight: 500;";
   "      padding: 0.6rem 0.75rem;";
   "      border-bottom: 1px solid #1e1e30;";
   "      font-size: 0.75rem;";
   "      text-transform: uppercase;";
   "      letter-spacing: 0.05em;";
   "    }";
   "    td {";
   "      padding: 0.6rem 0.75rem;";
   "      border-bottom: 1px solid #141420;";
   "      color: #cbd5e1;";
   "    }";
   "    tr:hover td { background: #141420; }";
   "    .status {";
   "      padding: 0.15rem 0.5rem;";
   "      border-radius: 9999px;";
   "      font-size: 0.75rem;";
   "      font-weight: 600;";
   "    }";
   "    .status-completed { background: #052e16; color: #22c55e; }";
   "    .status-assigned { background: #1e1b4b; color: #818cf8; }";
   "    .status-pending { background: #1c1917; color: #f59e0b; }";
   "    .status-failed { background: #2a0a0a; color: #ef4444; }";
   "    .footer {";
   "      margin-top: 2rem;";
   "      color: #475569;";
   "      font-size: 0.75rem;";
   "    }";
   "  </style>";
   "</head>";
   "<body>";
   "  <h1>Dispatch Network</h1>";
   "  <p class=|subtitle|>Verifiable Compute &middot; live &middot; auto-refreshes every 10s</p>";
   "";
   "  <div class=|cards|>";
   "    <div class=|card|>";
   "      <div class=|label|>Nodes Registered</div>";
   "      <div class=|value|>"].

(** Between the first and the second figure. *)
Abbreviation page_online := (template
  ["</div>";
   "    </div>";
   "    <div class=|card|>";
   "      <div class=|label|>Nodes Online</div>";
   "      <div class=|value accent|>"])%string.

(** Between the second and the third. *)
Abbreviation page_completed := (template
  ["</div>";
   "    </div>";
   "    <div class=|card|>";
   "      <div class=|label|>Jobs Completed</div>";
   "      <div class=|value green|>"])%string.

(** Between the third and the fourth. *)
Abbreviation page_rate := (template
  ["</div>";
   "    </div>";
   "    <div class=|card|>";
   "      <div class=|label|>Verified Receipts</div>";
   "      <div class=|value amber|>"])%string.

(** From the figures to the rows. *)
Definition page_table : string := template
  ["%</div>";
   "    </div>";
   "  </div>";
   "";
   "  <h2>Recent Jobs</h2>";
   "  <table>";
   "    <thead>";
   "      <tr>";
   "        <th>Job ID</th>";
   "        <th>Type</th>";
   "        <th>Status</th>";
   "        <th>Worker</th>";
   "        <th>Created</th>";
   "        <th>Completed</th>";
   "      </tr>";
   "    </thead>";
   "    <tbody>";
   "      "].

(** From the rows to the time. *)
Abbreviation page_footer := (template
  ["";
   "    </tbody>";
   "  </table>";
   "";
   "  <div class=|footer|>";
   "    Dispatch &middot; Verifiable Compute Network &bull; "])%string.

(** The end. *)
Abbreviation page_end := (template
  ["";
   "  </div>";
   "</body>";
   "</html>"])%string.

(** ** The rows *)

(** ORDER BY created_at DESC: the texts, the later first. *)
Definition newer (x y : string * JobRow) : Prop :=
  String.leb (sqlite_datetime (j_created_at y.2)) (sqlite_datetime (j_created_at x.2)) = true.
#[global] Instance newer_dec x y : Decision (newer x y).
Proof. unfold newer. apply _. Defined.

(** ... LIMIT 10 *)
Definition recentJobs (d : Db) : list (string * JobRow) := take 10 (merge_sort newer (map_to_list (jobs d))).

Definition worker_cell (j : JobRow) : string :=
  match j_worker_pubkey j with
  | Some k => if str_truthy k then slice0 12 k ++ "..." else "-"
  | None => "-"
  end.

Definition job_row (e : string * JobRow) : string :=
  let '(id, j) := e in
  let status := JobStatus_str (j_status j) in
  template [""; "        <tr>"; "          <td title=|"] ++ id ++ template ["|>"] ++ slice0 8 id ++
  template ["...</td>"; "          <td>"] ++ JobType_str (j_type j) ++
  template ["</td>"; "          <td><span class=|status status-"] ++ status ++ template ["|>"] ++ status ++
  template ["</span></td>"; "          <td>"] ++ worker_cell j ++
  template ["</td>"; "          <td>"] ++ sqlite_datetime (j_created_at j) ++
  template ["</td>"; "          <td>"] ++
    match j_completed_at j with Some t => sqlite_datetime t | None => "-" end ++
  template ["</td>"; "        </tr>"].

Abbreviation NO_JOBS := (template ["<tr><td colspan=|6| style=|text-align:center;color:#475569;|>No jobs yet</td></tr>"])%string.

(** ** The page *)

(** [Math.round] leaves NaN and the infinities as they are. *)
Abbreviation rate_text d := (match verificationRate d with Some z => Z_str z | None => num_to_string (verificationRatio d) end)%string.

Definition dashboard_html {B W} (d : Db) (h : Hub B W) (now : Z) : string :=
  let jobRows := String.concat "" (map job_row (recentJobs d)) in
  page_head ++ Z_str (Z.of_nat (totalWorkers d)) ++
  page_online ++ Z_str (Z.of_nat (onlineCount h)) ++
  page_completed ++ Z_str (Z.of_nat (totalJobsCompleted d)) ++
  page_rate ++ rate_text d ++
  page_table ++ (if str_truthy jobRows then jobRows else NO_JOBS) ++
  page_footer ++ toISOString now ++ page_end.

(** ** Which jobs are shown *)

Lemma compare_trans_le (s t u : string) :
  String.leb s t = true → String.leb t u = true → String.leb s u = true.
Proof.
  revert t u. induction s as [|a s IH]; intros [|b t] [|c u]; try done. unfold String.leb in *. cbn.
  unfold Ascii.compare. specialize (IH t u).
  destruct (N.compare_spec (N_of_ascii a) (N_of_ascii b)) as [Hab|Hab|Hab]; try done;
    destruct (N.compare_spec (N_of_ascii b) (N_of_ascii c)) as [Hbc|Hbc|Hbc]; try done;
    destruct (N.compare_spec (N_of_ascii a) (N_of_ascii c)) as [Hac|Hac|Hac]; try done; lia.
Qed.

#[local] Instance newer_trans : Transitive newer.
Proof. intros x y z Hxy Hyz. by eapply compare_trans_le. Qed.
#[local] Instance newer_total : Total newer.
Proof. intros x y. unfold newer. destruct (String.leb_total (sqlite_datetime (j_created_at y.2)) (sqlite_datetime (j_created_at x.2))); auto. Qed.

Lemma recent_jobs_spec d :
  (length (recentJobs d) ≤ 10)%nat ∧ Sorted newer (recentJobs d) ∧
  (∀ e, e ∈ recentJobs d → jobs d !! e.1 = Some e.2) ∧
  ∀ id j, jobs d !! id = Some j → (id, j) ∉ recentJobs d →
    length (recentJobs d) = 10%nat ∧ ∀ e, e ∈ recentJobs d → newer e (id, j).
Proof.
  unfold recentJobs. set (l := merge_sort newer (map_to_list (jobs d))).
  assert (l ≡ₚ map_to_list (jobs d)) as Hp by apply merge_sort_Permutation.
  assert (StronglySorted newer l) as Hs by apply (StronglySorted_merge_sort newer).
  rewrite length_take. split_and!; [lia | | |].
  - apply StronglySorted_Sorted. rewrite <- (take_drop 10 l) in Hs. by apply StronglySorted_app_1_l in Hs.
  - intros [id j] He. apply elem_of_map_to_list. rewrite <- Hp. apply elem_of_take in He as (i & Hi & _).
    by eapply list_elem_of_lookup_2.
  - intros id j Hj Hn. assert ((id, j) ∈ l) as Hl by (rewrite Hp; by apply elem_of_map_to_list).
    rewrite <- (take_drop 10 l) in Hl. apply elem_of_app in Hl as [Hl|Hl]; [done|]. split.
    + assert (length (drop 10 l) ≠ 0%nat) by (destruct (drop 10 l); [by apply not_elem_of_nil in Hl | done]).
      rewrite length_drop in *. lia.
    + intros e He. rewrite <- (take_drop 10 l) in Hs. by eapply StronglySorted_app_1_elem_of.
Qed.

(** ** The markup of the page *)

(** Where a browser is while it reads a page: in text, after a [<], inside a
    tag, inside a quoted attribute value.  A [<] begins a tag only before a
    letter, a slash, an exclamation or a question mark.  (HTML has further
    states, for comments and for elements whose content is raw text; the page
    has no comment and its style sheet no [<].) *)
Inductive Place := InText | AfterLt | InTag | InValue.

Definition tag_start (c : ascii) : bool :=
  let n := nat_of_ascii c in
  ((65 <=? n) && (n <=? 90) || (97 <=? n) && (n <=? 122) || existsb (Nat.eqb n) [33; 47; 63])%nat.
Definition is_dquote (c : ascii) : bool := (nat_of_ascii c =? 34)%nat.

(** One character: the next place, and what it adds to the markup, which is the
    page without its text and its attribute values. *)
Definition read_char (p : Place) (c : ascii) : Place * string :=
  match p with
  | InText => (if Ascii.eqb c "<" then AfterLt else InText, "")
  | AfterLt => if tag_start c then (InTag, String "<" (String c ""))
               else (if Ascii.eqb c "<" then AfterLt else InText, "")
  | InTag => (if Ascii.eqb c ">" then InText else if is_dquote c then InValue else InTag, String c "")
  | InValue => if is_dquote c then (InTag, String c "") else (InValue, "")
  end.

Fixpoint scan (p : Place) (s : string) : Place * string :=
  match s with
  | "" => (p, "")
  | String c s => let '(p1, o1) := read_char p c in let '(p2, o2) := scan p1 s in (p2, o1 ++ o2)
  end.

Lemma scan_app p s t :
  scan p (s ++ t) = let '(p1, o1) := scan p s in let '(p2, o2) := scan p1 t in (p2, o1 ++ o2).
Proof.
  revert p. induction s as [|c s IH]; intros p.
  { change (scan p t = let '(p2, o2) := scan p t in (p2, "" ++ o2)). by destruct (scan p t). }
  change (String c s ++ t) with (String c (s ++ t)). cbn [scan]. destruct (read_char p c) as [p1 o1].
  rewrite IH. destruct (scan p1 s) as [p2 o2], (scan p2 t) as [p3 o3]. by rewrite string_app_assoc.
Qed.

(** Equal texts before, equal readings after. *)
Lemma scan_after p p' s r r' : (scan p s).1 = p' → scan p' r = scan p' r' → scan p (s ++ r) = scan p (s ++ r').
Proof. intros Hp Hr. rewrite !scan_app. destruct (scan p s) as [p1 o1]. simpl in Hp. subst. by rewrite Hr. Qed.

(** What may be inserted into text, and into a value. *)
Definition no_lt (c : ascii) : bool := negb (Ascii.eqb c "<").
Definition no_quote (c : ascii) : bool := negb (is_dquote c).

Lemma scan_text t r r' : chars no_lt t = true → scan InText r = scan InText r' → scan InText (t ++ r) = scan InText r'.
Proof.
  intros Ht Hr. induction t as [|c t IH]; [done|]. cbn [chars] in Ht. apply andb_true_iff in Ht as [Hc Ht].
  change (String c t ++ r) with (String c (t ++ r)). cbn [scan read_char]. unfold no_lt in Hc.
  destruct (Ascii.eqb c "<"); [done|]. rewrite (IH Ht). by destruct (scan InText r').
Qed.

Lemma scan_value t r r' : chars no_quote t = true → scan InValue r = scan InValue r' → scan InValue (t ++ r) = scan InValue r'.
Proof.
  intros Ht Hr. induction t as [|c t IH]; [done|]. cbn [chars] in Ht. apply andb_true_iff in Ht as [Hc Ht].
  change (String c t ++ r) with (String c (t ++ r)). cbn [scan read_char]. unfold no_quote in Hc.
  destruct (is_dquote c); [done|]. rewrite (IH Ht). by destruct (scan InValue r').
Qed.

(** *** What is inserted *)

Lemma lt_num x : chars no_lt (num_to_string x) = true.
Proof. by apply chars_num. Qed.

Lemma lt_pad n z : chars no_lt (pad n z) = true.
Proof.
  revert z. induction n as [|n IH]; intros z; [done|]. cbn [pad]. rewrite chars_app, IH. cbn [chars].
  by rewrite (digit_chars no_lt).
Qed.
Lemma lt_date t : chars no_lt (date_text t) = true.
Proof. unfold date_text. case_match. case_match. by rewrite !chars_app, !lt_pad. Qed.
Lemma lt_time t : chars no_lt (time_text t) = true.
Proof. unfold time_text. by rewrite !chars_app, !lt_pad. Qed.
Lemma lt_datetime t : chars no_lt (sqlite_datetime t) = true.
Proof. unfold sqlite_datetime. by rewrite !chars_app, lt_date, lt_time. Qed.
Lemma lt_iso t : chars no_lt (toISOString t) = true.
Proof. unfold toISOString. by rewrite !chars_app, lt_date, lt_time, lt_pad. Qed.
Lemma lt_rate d : chars no_lt (rate_text d) = true.
Proof. case_match; apply lt_num. Qed.

(** A row whose data cannot change the markup: no double quote in the id, which
    is the value of an attribute, and no [<] in what is shown as text. *)
Definition harmless (e : string * JobRow) : bool :=
  chars no_quote e.1 && chars no_lt (slice0 8 e.1) && chars no_lt (worker_cell e.2).

(** The page and the rows with nothing inserted. *)
Definition blank_row : string :=
  template [""; "        <tr>"; "          <td title=|"] ++ template ["|>"] ++
  template ["...</td>"; "          <td>"] ++
  template ["</td>"; "          <td><span class=|status status-"] ++ template ["|>"] ++
  template ["</span></td>"; "          <td>"] ++ template ["</td>"; "          <td>"] ++
  template ["</td>"; "          <td>"] ++ template ["</td>"; "        </tr>"].

Definition blank_page (rows : nat) : string :=
  page_head ++ page_online ++ page_completed ++ page_rate ++ page_table ++
  (match rows with O => NO_JOBS | _ => String.concat "" (repeat blank_row rows) end) ++ page_footer ++ page_end.

Lemma scan_row e r r' : harmless e = true → scan InText r = scan InText r' →
  scan InText (job_row e ++ r) = scan InText (blank_row ++ r').
Proof.
  destruct e as [id j]. unfold harmless. rewrite !andb_true_iff. intros [[Hid H8] Hw] Hr.
  unfold job_row, blank_row. rewrite !string_app_assoc. cbn [fst snd] in *.
  eapply scan_after; [by vm_compute|]. apply scan_value; [done|].
  eapply scan_after; [by vm_compute|]. apply scan_text; [done|].
  eapply scan_after; [by vm_compute|]. apply scan_text; [by destruct (j_type j)|].
  eapply scan_after; [by vm_compute|]. apply scan_value; [by destruct (j_status j)|].
  eapply scan_after; [by vm_compute|]. apply scan_text; [by destruct (j_status j)|].
  eapply scan_after; [by vm_compute|]. apply scan_text; [done|].
  eapply scan_after; [by vm_compute|]. apply scan_text; [apply lt_datetime|].
  eapply scan_after; [by vm_compute|]. apply scan_text; [destruct (j_completed_at j); [apply lt_datetime | done]|].
  eapply scan_after; [by vm_compute | done].
Qed.

Lemma concat_rows (x : string) ts : String.concat "" (x :: ts) = x ++ String.concat "" ts.
Proof. destruct ts; [cbn; by rewrite string_app_nil_r | done]. Qed.

Lemma scan_rows l r r' : Forall (λ e, harmless e = true) l → scan InText r = scan InText r' →
  scan InText (String.concat "" (map job_row l) ++ r) = scan InText (String.concat "" (repeat blank_row (length l)) ++ r').
Proof.
  intros Hl Hr. induction Hl as [|e l He _ IH]; [done|]. cbn [map length repeat].
  rewrite !concat_rows, !string_app_assoc. by apply scan_row.
Qed.

Lemma rows_truthy l : str_truthy (String.concat "" (map job_row l)) = negb (bool_decide (l = [])).
Proof. destruct l as [|[id j] [|]]; [done| |]; by unfold job_row; cbn [map String.concat]. Qed.

Lemma scan_body l r r' : Forall (λ e, harmless e = true) l → scan InText r = scan InText r' →
  scan InText ((if str_truthy (String.concat "" (map job_row l)) then String.concat "" (map job_row l) else NO_JOBS) ++ r) =
  scan InText (match length l with O => NO_JOBS | _ => String.concat "" (repeat blank_row (length l)) end ++ r').
Proof.
  intros Hl Hr. rewrite rows_truthy. destruct l as [|e l].
  - rewrite bool_decide_true by reflexivity. cbn [negb length].
    apply (scan_after _ InText); [by vm_compute | exact Hr].
  - rewrite bool_decide_false by discriminate. exact (scan_rows (e :: l) r r' Hl Hr).
Qed.

Lemma scan_page {B W} d (h : Hub B W) now : Forall (λ e, harmless e = true) (recentJobs d) →
  scan InText (dashboard_html d h now) = scan InText (blank_page (length (recentJobs d))).
Proof.
  intros Hl. unfold dashboard_html, blank_page.
  eapply scan_after; [by vm_compute|]. apply scan_text; [apply lt_num|].
  eapply scan_after; [by vm_compute|]. apply scan_text; [apply lt_num|].
  eapply scan_after; [by vm_compute|]. apply scan_text; [apply lt_num|].
  eapply scan_after; [by vm_compute|]. apply scan_text; [apply lt_rate|].
  eapply scan_after; [by vm_compute|]. apply scan_body; [exact Hl|].
  eapply scan_after; [by vm_compute|]. apply scan_text; [apply lt_iso | reflexivity].
Qed.

Lemma uuid_harmless id : is_uuid id = true → chars no_quote id = true ∧ chars no_lt (slice0 8 id) = true.
Proof.
  unfold is_uuid. rewrite andb_true_iff. intros [_ Hf].
  assert (∀ f, (∀ c, uuid_char c = true → f c = true) → chars f id = true) as Hall.
  { intros f Hc. induction id as [|c id IH]; [done|]. cbn in Hf. apply andb_true_iff in Hf as [H1 H2]. cbn [chars].
    rewrite (Hc c H1). by apply IH. }
  split; [apply Hall; by intros [[] [] [] [] [] [] [] []]|].
  assert (chars no_lt id = true) as Hid by (apply Hall; by intros [[] [] [] [] [] [] [] []]).
  clear Hf Hall. unfold slice0. generalize 8%nat. induction id as [|c id IH]; intros [|n]; try done. cbn [String.substring chars] in *.
  apply andb_true_iff in Hid as [-> Hid]. by apply IH.
Qed.

(** C39: the dashboard shows the ten latest jobs, and its markup (the page
    without its text and its attribute values) is that of its template with as
    many rows, as long as no shown job id has a double quote and no text shown
    of an id or of a worker key has a [<].  Ids that are UUIDs, as the
    coordinator's are, meet the condition; a worker chooses its key. *)
Theorem dashboard_markup {B W} (d : Db) (h : Hub B W) now :
  let l := recentJobs d in
  (length l ≤ 10)%nat ∧
  (∀ id j, jobs d !! id = Some j → (id, j) ∉ l → length l = 10%nat ∧ ∀ e, e ∈ l → newer e (id, j)) ∧
  ((∀ id j, (id, j) ∈ l → chars no_quote id = true ∧ chars no_lt (slice0 8 id) = true ∧
      ∀ key, j_worker_pubkey j = Some key → chars no_lt (slice0 12 key) = true) →
   scan InText (dashboard_html d h now) = scan InText (blank_page (length l))) ∧
  (∀ id, is_uuid id = true → chars no_quote id = true ∧ chars no_lt (slice0 8 id) = true).
Proof.
  intros l. destruct (recent_jobs_spec d) as (H1 & _ & _ & H2). split_and!; [done | exact H2 | | exact uuid_harmless].
  intros Hl. apply scan_page, list.Forall_forall. intros [id j] Hin. destruct (Hl id j Hin) as (Hi & H8 & Hw).
  unfold harmless. cbn [fst snd]. rewrite Hi, H8. unfold worker_cell. destruct (j_worker_pubkey j) as [key|]; [|done].
  case_match; [|done]. by rewrite chars_app, (Hw key eq_refl).
Qed.

Definition sc_shown (id key : string) : string :=
  job_row (id, mkJob TASK AUTO "PUBLIC" "u" Assigned JNull None (Some key) 0 None).

(** A row has the markup of the template, also with a key that has a [<] before
    a space.  A key can open a comment, and an id with a quote would leave the
    attribute. *)
Example rows_and_their_markup :
  scan InText (sc_shown "j1" "key") = scan InText blank_row ∧
  scan InText (sc_shown "j1" "a < b") = scan InText blank_row ∧
  (scan InText (sc_shown "j1" "<!-- key")).2 ≠ (scan InText blank_row).2 ∧
  (scan InText (sc_shown (unbar "j| onclick=|x") "key")).2 ≠ (scan InText blank_row).2.
Proof. vm_compute. by split_and!. Qed.
