(* ===== verification/LinkCheck.v ===== *)
(** * Link checks

    scripts/check-links.mjs and scripts/verify-public-surface.mjs: which files
    are scanned, which URLs are found in them, what is asked of the network
    about each and when the scripts fail.  The repository is a tree of files and
    directories; the WHATWG parser of URLs and the answers of the network are
    parameters.  A regular expression is the predicate it decides. *)

From stdpp Require Import base list gmap sorting strings option.
From Stdlib Require Import ZArith Lia Ascii.
From S2P Require Import Prelude Js Json JsonPretty Router.
Local Open Scope string_scope.

(** ** Texts and paths *)

(** [s.replace] of a run of the characters [p] at the end. *)
Fixpoint strip_end (p : ascii → bool) (s : string) : string :=
  match s with
  | "" => ""
  | String c s => match strip_end p s with "" => if p c then "" else String c "" | t => String c t end
  end.

Definition one_of (l : string) (c : ascii) : bool := negb (chars (λ d, negb (Ascii.eqb c d)) l).

(** [path.extname] of a file name: from its last point, unless that is its first character. *)
Fixpoint last_ext (s : string) : string :=
  match s with
  | "" => ""
  | String c s' => match last_ext s' with
                   | "" => if Ascii.eqb c "." then s else ""
                   | e => e
                   end
  end.
Definition extname (name : string) : string :=
  match name with "" => "" | String _ s => last_ext s end.

(** Rules of the form [^base/?$]. *)
Definition opt_slash (base u : string) : bool := String.eqb u base || String.eqb u (base ++ "/").

(** ** The files (check-links.mjs) *)

Inductive Node :=
  | NFile (size : Z) (text : string)
  | NDir (entries : list (string * Node)).

Definition SCAN_TARGETS : list string :=
  ["README.md"; "docs"; "apps/landing/src"; "apps/docs/content"; "apps/docs/app"; "apps/docs/lib"].
Definition SKIP_DIRS : list string := [".git"; ".next"; "node_modules"; "dist"; "data"; ".vercel"; ".turbo"].
Abbreviation SCAN_EXTS := ([".md"; ".mdx"; ".ts"; ".tsx"; ".yaml"; ".yml"]).

Definition entry (name : string) (n : Node) : option Node :=
  match n with NDir l => '(_, e) ← list_find (λ e : string * Node, e.1 = name) l; Some e.2 | NFile _ _ => None end.
Definition node_at (rel : string) (root : Node) : option Node :=
  foldl (λ n name, n ≫= entry name) (Some root) (split_on (Ascii.eqb "/") rel).

(** The scanned files below a directory, with their texts. *)
Fixpoint walk_entry (rel : string) (n : Node) : list (string * string) :=
  match n with
  | NFile _ text => [(rel, text)]
  | NDir l =>
      (fix walk (l : list (string * Node)) : list (string * string) := match l with
       | [] => []
       | (name, child) :: l =>
           let childRel := (rel ++ "/" ++ name)%string in
           (if bool_decide (name ∈ SKIP_DIRS) then []
            else match child with
                 | NDir _ => walk_entry childRel child
                 | NFile size text =>
                     if negb (bool_decide (extname name ∈ SCAN_EXTS)) then []
                     else if (2000000 <? size)%Z then [] else [(childRel, text)]
                 end) ++ walk l
       end)%list l
  end.
Definition walkFiles (root : Node) (rel : string) : list (string * string) :=
  match node_at rel root with Some n => walk_entry rel n | None => [] end.

(** ** The URLs *)

(** White space, angle brackets, quotes, closing parentheses and brackets end a URL. *)
Definition url_stop (c : ascii) : bool := is_space c || one_of ("<>')]" ++ dquote) c.
Fixpoint url_span (s : string) : string :=
  match s with "" => "" | String c s => if url_stop c then "" else String c (url_span s) end.

(** A match at the head of a text. *)
Definition url_after (scheme : string) (s : string) : option string :=
  r ← drop_prefix scheme s; let body := url_span r in if str_truthy body then Some (scheme ++ body) else None.
Definition url_at (s : string) : option string :=
  match url_after "https://" s with Some u => Some u | None => url_after "http://" s end.

(** [text.match(re)]; [skip] characters belong to the last match. *)
Fixpoint url_matches (skip : nat) (s : string) : list string :=
  match s with
  | "" => []
  | String _ s' =>
      match skip with
      | S k => url_matches k s'
      | O => match url_at s with
             | Some u => u :: url_matches (pred (String.length u)) s'
             | None => url_matches 0 s'
             end
      end
  end.

Definition trim_url (u : string) : string :=
  strip_end (one_of "}") (strip_end (one_of "`") (strip_end (one_of ".,;:") u)).

(** ** The rules *)

Record Probe := { pb_path : string; pb_method : string; pb_okStatus : list Z }.
Record Rule := {
  ru_name : string; ru_match : string → bool; ru_expectFinal : option (string → bool);
  ru_finalAllow : option (list (string → bool)); ru_contentType : option (string → bool);
  ru_bodyIncludes : option (list string); ru_probe : option Probe; ru_must : bool }.

(** A rule that expects the address it matches and a signature in the page. *)
Definition page_rule (name : string) (m : string → bool) (signature : list string) (must : bool) : Rule :=
  {| ru_name := name; ru_match := m; ru_expectFinal := Some m; ru_finalAllow := None; ru_contentType := None;
     ru_bodyIncludes := Some signature; ru_probe := None; ru_must := must |}.

Definition docs_url (u : string) : bool :=
  String.eqb u "https://docs.dispatch.computer" || opt_slash "https://docs.dispatch.computer/docs" u.
Definition litepaper_blob : string := "https://github.com/pranit-garg/Dispatch/blob/main/docs/Dispatch_Litepaper.pdf".
Definition litepaper_raw : string := "https://github.com/pranit-garg/Dispatch/raw/main/docs/Dispatch_Litepaper.pdf".
Definition litepaper_user : string :=
  "https://raw.githubusercontent.com/pranit-garg/Dispatch/main/docs/Dispatch_Litepaper.pdf".

Definition base64url (c : ascii) : bool :=
  let n := nat_of_ascii c in
  ((48 <=? n) && (n <=? 57) || (65 <=? n) && (n <=? 90) || (97 <=? n) && (n <=? 122))%nat || one_of "_-" c.
Definition expo_apk (u : string) : bool :=
  match drop_prefix "https://expo.dev/artifacts/eas/" u with
  | Some r => let n := String.length r in
              let name := slice0 (n - 4) r in
              String.eqb (String.substring (n - 4) 4 r) ".apk" && str_truthy name && chars base64url name
  | None => false
  end.

(** [.] matches no line terminator. *)
Definition line_end (c : ascii) : bool := Ascii.eqb c (ascii_of_nat 10) || Ascii.eqb c (ascii_of_nat 13).
Definition cdn_apk (u : string) : bool :=
  match drop_prefix "https://wf-artifacts.eascdn.net/" u with
  | Some r => chars (λ c, negb (line_end c)) r &&
              ((4 <=? String.length r)%nat && String.eqb (String.substring (String.length r - 4) 4 r) ".apk" ||
               includes r ".apk?")
  | None => false
  end.

Definition pdf_or_octets (ct : string) : bool :=
  includes (toLowerCase ct) "application/pdf" || includes (toLowerCase ct) "application/octet-stream".

Definition RULES : list Rule :=
  [page_rule "Landing" (opt_slash "https://www.dispatch.computer") ["Dispatch"] true;
   page_rule "Docs" docs_url ["Dispatch Docs"] true;
   page_rule "GitHub Repo" (opt_slash "https://github.com/pranit-garg/Dispatch") ["pranit-garg/Dispatch"] true;
   page_rule "Litepaper Viewer" (String.eqb litepaper_blob) ["Dispatch_Litepaper.pdf"] true;
   {| ru_name := "Litepaper Download"; ru_match := String.eqb litepaper_raw; ru_expectFinal := None;
      ru_finalAllow := Some [String.eqb litepaper_raw; String.eqb litepaper_user];
      ru_contentType := Some pdf_or_octets; ru_bodyIncludes := None; ru_probe := None; ru_must := true |};
   {| ru_name := "Expo APK"; ru_match := expo_apk; ru_expectFinal := None;
      ru_finalAllow := Some [expo_apk; cdn_apk]; ru_contentType := None; ru_bodyIncludes := None;
      ru_probe := None; ru_must := true |};
   page_rule "x402" (opt_slash "https://www.x402.org") ["x402"] true;
   {| ru_name := "x402 Facilitator"; ru_match := opt_slash "https://www.x402.org/facilitator";
      ru_expectFinal := None; ru_finalAllow := None; ru_contentType := None; ru_bodyIncludes := None;
      ru_probe := Some {| pb_path := "/verify"; pb_method := "POST"; pb_okStatus := [200; 400; 405; 415; 422]%Z |};
      ru_must := false |};
   page_rule "ERC-8004 Contracts" (opt_slash "https://github.com/erc-8004/erc-8004-contracts") ["erc-8004-contracts"] true;
   page_rule "Solana dApp Store Docs" (opt_slash "https://docs.solanamobile.com/dapp-publishing/intro") ["dApp"; "publish"] false].

Definition ruleFor (url : string) : option Rule := List.find (λ r, ru_match r url) RULES.

(** ** The network *)

Record Resp := { rp_status : Z; rp_url : string; rp_contentType : option string; rp_text : outcome string }.

Section Checks.
  (** [new URL(u).hostname], [None] when the constructor throws. *)
  Context (URL_hostname : string → option string).
  (** [fetch] with a method and an address, while a URL is checked. *)
  Context (fetch : string → string → string → outcome Resp).

Definition isLocalOrExampleUrl (u : string) : bool :=
  match URL_hostname u with
  | Some host => bool_decide (host ∈ ["localhost"; "127.0.0.1"]) || startsWith host "coordinator-" ||
                 String.eqb host "api.mainnet-beta.solana.com" || String.eqb host "api.devnet.solana.com"
  | None => true
  end.

Definition kept_url (u : string) : bool :=
  negb (includes u "${") && negb (String.eqb u "http://www.w3.org/2000/svg") && bool_decide (is_Some (URL_hostname u)).

(** [urls.add] *)
Definition set_add (l : list string) (u : string) : list string := if decide (u ∈ l) then l else (l ++ [u])%list.

Definition extractUrls (text : string) : list string :=
  foldl set_add [] (List.filter kept_url (map trim_url (url_matches 0 text))).

Definition fetchWithFallback (url : string) : outcome (Resp * option string) :=
  let get := res <-- fetch url "GET" url ;;
             if includes (toLowerCase (default "" (rp_contentType res))) "application/pdf" then Ok (res, None)
             else text <-- rp_text res ;; Ok (res, Some (slice0 (Z.to_nat 250000) text)) in
  match fetch url "HEAD" url with
  | Ok head => if negb (rp_status head =? 405)%Z && negb (rp_status head =? 403)%Z then Ok (head, None) else get
  | Throw _ => get
  end.

(** The base without a final slash, and the path of the probe. *)
Definition probe_url (baseUrl : string) (p : Probe) : string :=
  let n := String.length baseUrl in
  (if String.eqb (String.substring (n - 1) 1 baseUrl) "/" then slice0 (n - 1) baseUrl else baseUrl) ++ pb_path p.

Definition final_url (res : Resp) (u : string) : string := if str_truthy (rp_url res) then rp_url res else u.

(** What is wrong with an answer that was received, by the tests in their order. *)
Definition page_problem (u : string) (rule : option Rule) (res : Resp) (body : option string) : option string :=
  let finalUrl := final_url res u in
  let ct := default "" (rp_contentType res) in
  let name := default "" (ru_name <$> rule) in
  if negb ((200 <=? rp_status res) && (rp_status res <? 400))%Z
  then Some ("HTTP " ++ Z_str (rp_status res) ++ " (final: " ++ finalUrl ++ ")")
  else match rule with
  | None => None
  | Some r =>
      if match ru_expectFinal r with Some m => negb (m finalUrl) | None => false end
      then Some ("Final URL mismatch for " ++ name ++ ": " ++ finalUrl)
      else if match ru_finalAllow r with Some l => negb (existsb (λ m, m finalUrl) l) | None => false end
      then Some ("Final URL mismatch for " ++ name ++ ": " ++ finalUrl)
      else if match ru_contentType r with Some m => negb (m ct) | None => false end
      then Some ("Content-Type mismatch for " ++ name ++ ": " ++ (if str_truthy ct then ct else "(missing)"))
      else match ru_bodyIncludes r, body with
      | Some needles, Some text =>
          if str_truthy text then
            match List.filter (λ s, negb (includes text s)) needles with
            | [] => None
            | missing => Some ("Content signature mismatch for " ++ name ++ ": missing " ++ String.concat ", " missing)
            end
          else None
      | _, _ => None
      end
  end.

Definition probe_problem (u : string) (r : Rule) (p : Probe) (res : Resp) : option string :=
  if bool_decide (rp_status res ∈ pb_okStatus p) then None
  else Some ("Probe failed for " ++ ru_name r ++ ": HTTP " ++ Z_str (rp_status res) ++ " (final: " ++ final_url res u ++ ")").

(** The body of the loop over the URLs. *)
Definition problem (u : string) : option string :=
  let rule := ruleFor u in
  let answer := match rule ≫= λ r, p ← ru_probe r; Some (r, p) with
                | Some (r, p) => res <-- fetch u (pb_method p) (probe_url u p) ;; Ok (probe_problem u r p res)
                | None => rb <-- fetchWithFallback u ;; Ok (page_problem u rule rb.1 rb.2)
                end in
  match answer with Ok r => r | Throw e => Some ("Fetch failed: " ++ e) end.

Definition strict (u : string) : bool := match ruleFor u with Some r => ru_must r | None => false end.

(** ** [main] *)

Definition scanned (root : Node) : list (string * string) := flat_map (walkFiles root) SCAN_TARGETS.

(** [urlToFiles]: the URLs that are not local, with the files they occur in. *)
Definition found (files : list (string * string)) : list (string * string) :=
  flat_map (λ f, map (λ u, (u, f.1)) (List.filter (λ u, negb (isLocalOrExampleUrl u)) (extractUrls f.2))) files.
Definition where_found (files : list (string * string)) (u : string) : list string :=
  foldl set_add [] (snd <$> List.filter (λ e, String.eqb e.1 u) (found files)).

Definition str_le (s t : string) : Prop := String.leb s t = true.
#[local] Instance str_le_dec s t : Decision (str_le s t).
Proof. unfold str_le. apply _. Defined.

Definition checked_urls (files : list (string * string)) : list string :=
  merge_sort str_le (foldl set_add [] (fst <$> found files)).

Record Finding := { fr_url : string; fr_where : list string; fr_reason : string }.

Definition problems (files : list (string * string)) (severe : bool) : list Finding :=
  omap (λ u, if Bool.eqb (strict u) severe
             then (λ r, {| fr_url := u; fr_where := take 5 (where_found files u); fr_reason := r |}) <$> problem u
             else None) (checked_urls files).

(** The lines printed for a list of problems. *)
Definition finding_lines (f : Finding) : list string :=
  ["- " ++ fr_url f; "  reason: " ++ fr_reason f; "  found in: " ++ String.concat ", " (fr_where f)].
Definition report (title : string) (l : list Finding) : list string :=
  let count n := Z_str (Z.of_nat n) in
  let head := newline ++ title ++ " (" ++ count (length l) ++ "):" in
  let more := if (60 <? length l)%nat then ["...and " ++ count (length l - 60)%nat ++ " more"] else [] in
  (head :: flat_map finding_lines (take 60 l) ++ more)%list.

(** What is printed and the exit code. *)
Definition main (root : Node) : list string * Z :=
  let files := scanned root in
  let first := "Checking " ++ Z_str (Z.of_nat (length (checked_urls files))) ++ " URLs..." in
  match problems files true, problems files false with
  | [], [] => ([first; "OK: all checked links look correct."], 0%Z)
  | [], warnings => ((first :: report "WARN" warnings ++ ["OK: all checked links look correct."])%list, 0%Z)
  | failures, _ => ((first :: report "FAIL" failures)%list, 1%Z)
  end.
End Checks.

(** ** verify-public-surface.mjs *)

Record Check := {
  ck_name : string; ck_url : string; ck_expectStatus : option (list Z); ck_expectStatusRange : option (Z * Z);
  ck_expectFinalUrl : option (string → bool); ck_expectContentType : option (string → bool);
  ck_expectBodyIncludes : option (list string); ck_expectJsonArrayLike : bool }.

Definition checks : list Check :=
  [{| ck_name := "Landing homepage"; ck_url := "https://www.dispatch.computer/"; ck_expectStatus := Some [200%Z];
      ck_expectStatusRange := None; ck_expectFinalUrl := None; ck_expectContentType := None;
      ck_expectBodyIncludes := Some ["Dispatch"]; ck_expectJsonArrayLike := false |};
   {| ck_name := "Docs homepage"; ck_url := "https://docs.dispatch.computer/docs"; ck_expectStatus := Some [200%Z];
      ck_expectStatusRange := None; ck_expectFinalUrl := None; ck_expectContentType := None;
      ck_expectBodyIncludes := Some ["Dispatch Docs"]; ck_expectJsonArrayLike := false |};
   {| ck_name := "Docs search API"; ck_url := "https://docs.dispatch.computer/api/search?query=solana";
      ck_expectStatus := Some [200%Z]; ck_expectStatusRange := None; ck_expectFinalUrl := None;
      ck_expectContentType := None; ck_expectBodyIncludes := None; ck_expectJsonArrayLike := true |};
   {| ck_name := "Litepaper raw PDF"; ck_url := litepaper_raw; ck_expectStatus := None;
      ck_expectStatusRange := Some (200, 399)%Z; ck_expectFinalUrl := None; ck_expectContentType := Some pdf_or_octets;
      ck_expectBodyIncludes := None; ck_expectJsonArrayLike := false |};
   {| ck_name := "Solana dApp Store publishing docs"; ck_url := "https://docs.solanamobile.com/dapp-publishing/intro";
      ck_expectStatus := None; ck_expectStatusRange := Some (200, 399)%Z;
      ck_expectFinalUrl := Some (opt_slash "https://docs.solanamobile.com/dapp-publishing/intro");
      ck_expectContentType := None; ck_expectBodyIncludes := None; ck_expectJsonArrayLike := false |}].

Definition is_array (j : option json) : bool := match j with Some (JArr _) => true | _ => false end.
Definition looksLikeArrayPayload (payload : json) : bool :=
  match payload with
  | JArr _ => true
  | JObj l => is_array (jm_get "results" l) || is_array (jm_get "data" l) || is_array (jm_get "items" l)
  | _ => false
  end.

(** What a check says of an answer and its text. *)
Definition surface_problem (c : Check) (res : Resp) (bodyText : string) : option string :=
  let status := rp_status res in
  let finalUrl := final_url res (ck_url c) in
  let contentType := default "" (rp_contentType res) in
  if match ck_expectStatus c with Some l => negb (bool_decide (status ∈ l)) | None => false end
  then Some (": expected status " ++ String.concat "," (map Z_str (default [] (ck_expectStatus c))) ++ " but got " ++ Z_str status)
  else if match ck_expectStatusRange c with Some (lo, hi) => (status <? lo)%Z || (hi <? status)%Z | None => false end
  then Some (": expected status " ++ (let '(lo, hi) := default (0, 0)%Z (ck_expectStatusRange c) in Z_str lo ++ "-" ++ Z_str hi) ++
             " but got " ++ Z_str status)
  else if match ck_expectFinalUrl c with Some m => negb (m finalUrl) | None => false end
  then Some (": final URL mismatch (" ++ finalUrl ++ ")")
  else if match ck_expectContentType c with Some m => negb (m contentType) | None => false end
  then Some (": unexpected content-type (" ++ (if str_truthy contentType then contentType else "missing") ++ ")")
  else match List.filter (λ needle, negb (includes bodyText needle)) (default [] (ck_expectBodyIncludes c)) with
  | _ :: _ as missing => Some (": response missing expected markers (" ++ String.concat ", " missing ++ ")")
  | [] =>
      if ck_expectJsonArrayLike c then
        match JSON_parse bodyText with
        | None => Some ": response is not valid JSON"
        | Some parsed => if looksLikeArrayPayload parsed then None else Some ": JSON payload shape is unexpected"
        end
      else None
  end.

Section Surface.
  Context (fetch : string → outcome Resp).

Definition run_check (c : Check) : option string :=
  match (res <-- fetch (ck_url c) ;; bodyText <-- rp_text res ;; Ok (surface_problem c res bodyText)) with
  | Ok r => (λ p, ck_name c ++ p) <$> r
  | Throw e => Some (ck_name c ++ ": request failed (" ++ e ++ ")")
  end.

(** What is printed and the exit code. *)
Definition run : list string * Z :=
  let oks := omap (λ c, match run_check c with None => Some ("OK: " ++ ck_name c) | Some _ => None end) checks in
  let passed := newline ++ "All public checks passed." in
  let failed := newline ++ "Public surface verification failed:" in
  match omap run_check checks with
  | [] => ((oks ++ [passed])%list, 0%Z)
  | failures => ((oks ++ failed :: map (String.append "- ") failures)%list, 1%Z)
  end.
End Surface.

(** ** Extraction *)

Lemma set_add_elem l u v : v ∈ set_add l u ↔ v ∈ l ∨ v = u.
Proof. unfold set_add. case_decide; set_solver. Qed.
Lemma fold_add_elem us : ∀ l v, v ∈ foldl set_add l us ↔ v ∈ l ∨ v ∈ us.
Proof. induction us as [|u us IH]; intros l v; cbn; [set_solver|]. rewrite IH, set_add_elem. set_solver. Qed.
Lemma fold_add_NoDup us : ∀ l, NoDup l → NoDup (foldl set_add l us).
Proof.
  induction us as [|u us IH]; intros l Hl; cbn; [done|]. apply IH. unfold set_add. case_decide; [done|].
  apply list.NoDup_app. split_and!; [done | set_solver | apply NoDup_singleton].
Qed.

(** A character that ends URLs separates the matches before it from those after it. *)
Lemma span_stop a c b : url_stop c = true → url_span (a ++ String c b) = url_span a.
Proof.
  intros Hc. induction a as [|d a IH]; [change ("" ++ String c b) with (String c b); cbn [url_span]; by rewrite Hc|].
  change (String d a ++ String c b) with (String d (a ++ String c b)).
  cbn [url_span]. by rewrite IH.
Qed.
Lemma span_split s : ∃ r, s = url_span s ++ r ∧ (r = "" ∨ ∃ c t, r = String c t ∧ url_stop c = true).
Proof.
  induction s as [|c s (r & Hr & Hc)]; [by exists ""; auto|]. cbn. destruct (url_stop c) eqn:Hs.
  - exists (String c s). split; [done|]. right. eauto.
  - exists r. split; [|done]. change (String c (url_span s) ++ r) with (String c (url_span s ++ r)). by rewrite <- Hr.
Qed.

Lemma drop_prefix_inv p : ∀ s r, drop_prefix p s = Some r → s = p ++ r.
Proof.
  induction p as [|a p IH]; intros s r; [by intros [= ->]|]. destruct s as [|b s]; [done|]. cbn.
  destruct (Ascii.eqb_spec a b) as [->|]; [|done]. intros ->%IH. done.
Qed.

Definition url_char (c : ascii) : bool := negb (url_stop c).

Lemma drop_stop p a c b : chars url_char p = true → url_stop c = true →
  drop_prefix p (a ++ String c b) = (λ r, r ++ String c b) <$> drop_prefix p a.
Proof.
  intros Hp Hc. revert a Hp. induction p as [|x p IH]; intros a Hp; [done|]. cbn in Hp. apply andb_prop in Hp as [Hx Hp].
  destruct a as [|y a].
  - change ("" ++ String c b) with (String c b). cbn [drop_prefix fmap option_fmap option_map].
    destruct (Ascii.eqb_spec x c) as [->|]; [|done]. unfold url_char in Hx. by rewrite Hc in Hx.
  - change (String y a ++ String c b) with (String y (a ++ String c b)). cbn.
    destruct (Ascii.eqb x y); [by apply IH | done].
Qed.

Lemma url_after_stop p a c b : chars url_char p = true → url_stop c = true →
  url_after p (a ++ String c b) = url_after p a.
Proof.
  intros Hp Hc. unfold url_after. rewrite drop_stop by done. destruct (drop_prefix p a) as [r|]; [|done]. cbn.
  by rewrite span_stop.
Qed.

Lemma url_at_stop a c b : url_stop c = true → url_at (a ++ String c b) = url_at a.
Proof. intros Hc. unfold url_at. by rewrite !url_after_stop. Qed.

(** A match is the head of the text, over characters of URLs. *)
Lemma url_after_inv p s u : chars url_char p = true → url_after p s = Some u →
  (∃ r, s = u ++ r) ∧ chars url_char u = true ∧ ∃ body, u = p ++ body ∧ body ≠ "".
Proof.
  intros Hp. unfold url_after. destruct (drop_prefix p s) as [r|] eqn:Hr; [|done]. cbn. case_match eqn:Ht; [|done].
  intros [= <-]. apply drop_prefix_inv in Hr as ->. destruct (span_split r) as (r' & Hr & _). split_and!.
  - exists r'. by rewrite string_app_assoc, <- Hr.
  - rewrite chars_app, Hp. cbn. clear. induction r as [|c r IH]; [done|]. cbn. destruct (url_stop c) eqn:Hc; [done|].
    cbn. unfold url_char at 1. by rewrite Hc.
  - exists (url_span r). split; [done|]. by destruct (url_span r).
Qed.

Lemma url_at_inv s u : url_at s = Some u →
  (∃ r, s = u ++ r) ∧ chars url_char u = true ∧ ∃ scheme body, u = scheme ++ body ∧ body ≠ "" ∧ scheme ∈ ["https://"; "http://"].
Proof.
  unfold url_at. destruct (url_after "https://" s) as [u'|] eqn:H1; intros H2; simplify_eq;
    match goal with H : url_after _ _ = Some _ |- _ => apply url_after_inv in H as (? & ? & body & ? & ?); [|done] end;
    (split_and!; [done | done|]); eexists _, body; (split_and!; [done | done | set_solver]).
Qed.

Lemma matches_stop a c b : url_stop c = true → ∀ k, (k ≤ String.length a)%nat →
  url_matches k (a ++ String c b) = (url_matches k a ++ url_matches 0 b)%list.
Proof.
  intros Hc. induction a as [|d a IH]; intros k Hk.
  - destruct k; [|cbn in Hk; lia]. change ("" ++ String c b) with (String c b). cbn [url_matches].
    change (String c b) with ("" ++ String c b). by rewrite url_at_stop.
  - change (String d a ++ String c b) with (String d (a ++ String c b)). cbn [url_matches]. cbn in Hk.
    destruct k as [|k]; [|apply IH; lia].
    change (String d (a ++ String c b)) with (String d a ++ String c b). rewrite url_at_stop by done.
    destruct (url_at (String d a)) as [u|] eqn:Hu; [|apply IH; lia]. cbn. f_equal. apply IH.
    apply url_at_inv in Hu as [[r Hr] _]. apply (f_equal String.length) in Hr. rewrite string_length_app in Hr. cbn in Hr. lia.
Qed.

Lemma matches_done s : ∀ k, (String.length s ≤ k)%nat → url_matches k s = [].
Proof. induction s as [|c s IH]; intros k Hk; [done|]. cbn in Hk. destruct k; [lia|]. cbn. apply IH. lia. Qed.

Lemma span_all s : chars url_char s = true → url_span s = s.
Proof.
  induction s as [|c s IH]; [done|]. cbn. unfold url_char at 1. intros [Hc Hs]%andb_prop.
  destruct (url_stop c); [done|]. by rewrite IH.
Qed.

Lemma match_of_url scheme body : scheme ∈ ["https://"; "http://"] → body ≠ "" → chars url_char body = true →
  url_matches 0 (scheme ++ body) = [scheme ++ body].
Proof.
  intros Hs Hb Hc. assert (url_at (scheme ++ body) = Some (scheme ++ body)) as Hu.
  { assert (∀ p, url_after p (p ++ body) = Some (p ++ body)) as Ha.
    { intros p. unfold url_after. rewrite drop_prefix_app. cbn. rewrite span_all by done. by destruct body. }
    unfold url_at. apply elem_of_cons in Hs as [-> |Hs%list_elem_of_singleton]; [by rewrite Ha|]. subst scheme.
    assert (url_after "https://" ("http://" ++ body) = None) as -> by done. apply Ha. }
  destruct (scheme ++ body) as [|c s] eqn:E; [by destruct body; destruct scheme|].
  cbn [url_matches]. rewrite Hu. f_equal. apply matches_done. done.
Qed.

Lemma matches_sound s u : ∀ k, u ∈ url_matches k s → ∃ pre post, s = pre ++ u ++ post.
Proof.
  induction s as [|c s IH]; intros k Hu; [by apply not_elem_of_nil in Hu|]. cbn [url_matches] in Hu.
  assert (∀ k, u ∈ url_matches k s → ∃ pre post, String c s = pre ++ u ++ post) as Hrest.
  { intros k' Hk. destruct (IH k' Hk) as (pre & post & ->). by exists (String c pre), post. }
  destruct k as [|k]; [|by eapply Hrest]. destruct (url_at (String c s)) as [u'|] eqn:E; [|by eapply Hrest].
  apply elem_of_cons in Hu as [-> |Hu]; [|by eapply Hrest].
  apply url_at_inv in E as [[r Hr] _]. exists "", r. done.
Qed.

Lemma strip_prefix p s : ∃ r, s = strip_end p s ++ r.
Proof.
  induction s as [|c s [r Hr]]; [by exists ""|]. cbn. destruct (strip_end p s) as [|d t] eqn:E.
  - destruct (p c); [by exists (String c s)|]. exists s. done.
  - exists r. change (String c (String d t) ++ r) with (String c (String d t ++ r)). by rewrite <- Hr.
Qed.
Lemma trim_prefix u : ∃ r, u = trim_url u ++ r.
Proof.
  unfold trim_url. destruct (strip_prefix (one_of ".,;:") u) as [r1 H1].
  destruct (strip_prefix (one_of "`") (strip_end (one_of ".,;:") u)) as [r2 H2].
  destruct (strip_prefix (one_of "}") (strip_end (one_of "`") (strip_end (one_of ".,;:") u))) as [r3 H3].
  exists (r3 ++ r2 ++ r1). rewrite <- string_app_assoc, <- H3, <- string_app_assoc, <- H2. done.
Qed.

Section Outcome.
  Context (URL_hostname : string → option string) (fetch : string → string → string → outcome Resp).

(** A URL as it is written: a scheme and a body over characters of URLs,
    without punctuation at its end, and not one the script leaves out. *)
Definition written_url (u : string) : Prop :=
  ∃ scheme body, u = scheme ++ body ∧ scheme ∈ ["https://"; "http://"] ∧ body ≠ "" ∧ chars url_char body = true ∧
    trim_url u = u ∧ kept_url URL_hostname u = true.

(** Extraction is sound and complete: every URL found occurs in the text, and a
    URL that stands between two characters that end URLs is found. *)
Theorem extracted_urls text :
  NoDup (extractUrls URL_hostname text) ∧
  (∀ u, u ∈ extractUrls URL_hostname text → (∃ pre post, text = pre ++ u ++ post) ∧ is_Some (URL_hostname u)) ∧
  ∀ pre c u c' post, url_stop c = true → url_stop c' = true → written_url u →
    text = pre ++ String c (u ++ String c' post) → u ∈ extractUrls URL_hostname text.
Proof.
  split_and!.
  - apply fold_add_NoDup. constructor.
  - intros u. unfold extractUrls. rewrite fold_add_elem. intros [Hu|Hu]; [by apply not_elem_of_nil in Hu|].
    apply list_elem_of_In, filter_In in Hu as [Hu Hk]. apply in_map_iff in Hu as (v & <- & Hv%list_elem_of_In).
    split.
    + destruct (matches_sound _ _ _ Hv) as (pre & post & ->). destruct (trim_prefix v) as [r Hr].
      exists pre, (r ++ post). rewrite <- (string_app_assoc (trim_url v)). by rewrite <- Hr.
    + unfold kept_url in Hk. apply andb_true_iff in Hk as [_ Hk]. by apply bool_decide_eq_true in Hk.
  - intros pre c u c' post Hc Hc' (scheme & body & -> & Hs & Hb & Hch & Ht & Hk) ->.
    unfold extractUrls. rewrite fold_add_elem. right. apply list_elem_of_In, filter_In. split; [|done].
    apply in_map_iff. exists (scheme ++ body). split; [done|]. apply list_elem_of_In.
    rewrite matches_stop by (done || lia). rewrite matches_stop by (done || lia). rewrite match_of_url by done. set_solver.
Qed.

Lemma checked_elem files u : u ∈ checked_urls URL_hostname files ↔
  ∃ file text, (file, text) ∈ files ∧ u ∈ extractUrls URL_hostname text ∧ isLocalOrExampleUrl URL_hostname u = false.
Proof.
  unfold checked_urls. rewrite (merge_sort_Permutation str_le), fold_add_elem. unfold found.
  rewrite list_elem_of_fmap. split.
  - intros [Hu|([v f] & -> & Hin)]; [by apply not_elem_of_nil in Hu|]. cbn.
    apply list_elem_of_In, in_flat_map in Hin as ([file text] & Hf & Hv). cbn in Hv.
    apply in_map_iff in Hv as (w & [= -> <-] & Hw). apply filter_In in Hw as [Hw Hl].
    exists file, text. rewrite !list_elem_of_In. by apply negb_true_iff in Hl.
  - intros (file & text & Hf & Hu & Hl). right. exists (u, file). split; [done|].
    apply list_elem_of_In, in_flat_map. exists (file, text). split; [by apply list_elem_of_In|]. cbn.
    apply in_map_iff. exists u. split; [done|]. apply filter_In. split; [by apply list_elem_of_In | by rewrite Hl].
Qed.

Lemma problems_nil files severe : problems URL_hostname fetch files severe = [] ↔
  ∀ u, u ∈ checked_urls URL_hostname files → strict u = severe → problem fetch u = None.
Proof.
  unfold problems. induction (checked_urls URL_hostname files) as [|u l IH]; [split; [set_solver | done]|].
  cbn [omap list_omap]. split.
  - intros Ho v Hv Hs. destruct (Bool.eqb_spec (strict u) severe) as [E|E].
    + destruct (problem fetch u) eqn:P; [done|]. apply elem_of_cons in Hv as [-> |Hv]; [done|]. by apply IH.
    + apply elem_of_cons in Hv as [-> |Hv]; [done|]. by apply IH.
  - intros Hall. assert (∀ v, v ∈ l → strict v = severe → problem fetch v = None) as Hl by (intros; apply Hall; set_solver).
    apply IH in Hl. destruct (Bool.eqb_spec (strict u) severe) as [E|E]; [|done].
    by rewrite (Hall u) by (done || set_solver).
Qed.

(** The link check fails exactly when a URL with a strict rule, found in a
    scanned file and not local, has a problem; every other problem is a warning.
    A page that answers HEAD with a good status, address and type passes,
    whatever it contains: the signature of a rule is looked for only after a
    HEAD request that failed or was refused with 403 or 405. *)
Theorem link_check_outcome root :
  let exit := (main URL_hostname fetch root).2 in
  (exit = 1%Z ↔ ∃ file text u, (file, text) ∈ scanned root ∧ u ∈ extractUrls URL_hostname text ∧
     isLocalOrExampleUrl URL_hostname u = false ∧ strict u = true ∧ is_Some (problem fetch u)) ∧
  (exit = 0%Z ∨ exit = 1%Z) ∧
  ∀ u r head, ruleFor u = Some r → ru_probe r = None → fetch u "HEAD" u = Ok head →
    (200 <= rp_status head < 400)%Z → from_option (λ m, m (final_url head u)) true (ru_expectFinal r) = true →
    from_option (existsb (λ m, m (final_url head u))) true (ru_finalAllow r) = true →
    from_option (λ m, m (default "" (rp_contentType head))) true (ru_contentType r) = true →
    problem fetch u = None.
Proof.
  cbv zeta. split_and!.
  - assert ((main URL_hostname fetch root).2 = 1%Z ↔ problems URL_hostname fetch (scanned root) true ≠ []) as ->.
    { unfold main. destruct (problems URL_hostname fetch (scanned root) true), (problems URL_hostname fetch (scanned root) false);
        cbn; naive_solver. }
    rewrite problems_nil. split.
    + intros Hn. destruct (decide (Exists (λ u, strict u = true ∧ is_Some (problem fetch u))
        (checked_urls URL_hostname (scanned root)))) as [He|He].
      * apply list.Exists_exists in He as (u & (file & text & ? & ? & ?)%checked_elem & ? & ?). by exists file, text, u.
      * destruct Hn. intros u Hu Hs. destruct (problem fetch u) eqn:P; [|done]. destruct He.
        apply list.Exists_exists. exists u. by rewrite P.
    + intros (file & text & u & Hf & Hu & Hl & Hs & Hp) Hall.
      rewrite (Hall u) in Hp; [by destruct Hp | apply checked_elem; eauto | done].
  - unfold main. repeat case_match; auto.
  - intros u r head Hr Hp Hh Hst Hf Ha Hc. unfold problem. rewrite Hr. cbn. rewrite Hp. cbn.
    unfold fetchWithFallback. rewrite Hh.
    destruct (Z.eqb_spec (rp_status head) 405), (Z.eqb_spec (rp_status head) 403); try lia. cbn [negb andb obind fst snd].
    unfold page_problem. destruct (Z.leb_spec 200 (rp_status head)), (Z.ltb_spec (rp_status head) 400); try lia.
    cbn [negb andb]. destruct (ru_expectFinal r) as [m1|]; cbn in Hf; rewrite ?Hf; cbn [negb];
      (destruct (ru_finalAllow r) as [m2|]; cbn [from_option] in Ha; rewrite ?Ha; cbn [negb]);
      (destruct (ru_contentType r) as [m3|]; cbn [from_option] in Hc; rewrite ?Hc; cbn [negb]); by destruct (ru_bodyIncludes r).
Qed.
End Outcome.

(** What a check of the public surface asks of an answer. *)
Record meets (c : Check) (res : Resp) (text : string) : Prop := {
  me_status l : ck_expectStatus c = Some l → rp_status res ∈ l;
  me_range lo hi : ck_expectStatusRange c = Some (lo, hi) → (lo <= rp_status res <= hi)%Z;
  me_final m : ck_expectFinalUrl c = Some m → m (final_url res (ck_url c)) = true;
  me_type m : ck_expectContentType c = Some m → m (default "" (rp_contentType res)) = true;
  me_body l s : ck_expectBodyIncludes c = Some l → s ∈ l → includes text s = true;
  me_json : ck_expectJsonArrayLike c = true → ∃ j, JSON_parse text = Some j ∧ looksLikeArrayPayload j = true }.

Lemma missing_nil text l : List.filter (λ needle, negb (includes text needle)) l = [] ↔ ∀ s, s ∈ l → includes text s = true.
Proof.
  induction l as [|s l IH]; [split; [set_solver | done]|]. cbn. split.
  - destruct (includes text s) eqn:E; [|done]. intros Hl t [-> |Ht]%elem_of_cons; [done|]. by apply IH.
  - intros Hs. rewrite (Hs s) by set_solver. apply IH. set_solver.
Qed.

Lemma surface_problem_none c res text : surface_problem c res text = None ↔ meets c res text.
Proof.
  unfold surface_problem. split.
  - intros Hn. repeat (case_match; try done); split; intros; simplify_eq;
      repeat match goal with
      | H : negb _ = false |- _ => apply negb_false_iff in H
      | H : bool_decide _ = true |- _ => apply bool_decide_eq_true in H
      | H : (_ || _)%bool = false |- _ => apply orb_false_iff in H as [?%Z.ltb_ge ?%Z.ltb_ge]
      end; try done; try lia; try congruence; try (by eexists);
      match goal with H : ck_expectBodyIncludes c = Some _, F : List.filter _ _ = [] |- _ =>
        rewrite H in F; by apply (proj1 (missing_nil text _) F) end.
  - intros [M1 M2 M3 M4 M5 M6].
    assert (match ck_expectStatus c with Some l => negb (bool_decide (rp_status res ∈ l)) | None => false end = false) as ->.
    { destruct (ck_expectStatus c); [|done]. apply negb_false_iff, bool_decide_eq_true. by apply M1. }
    assert (match ck_expectStatusRange c with Some (lo, hi) => (rp_status res <? lo)%Z || (hi <? rp_status res)%Z | None => false end
      = false) as ->.
    { destruct (ck_expectStatusRange c) as [[lo hi]|]; [|done]. specialize (M2 lo hi eq_refl). apply orb_false_iff. lia. }
    assert (match ck_expectFinalUrl c with Some m => negb (m (final_url res (ck_url c))) | None => false end = false) as ->.
    { destruct (ck_expectFinalUrl c); [|done]. by rewrite M3. }
    assert (match ck_expectContentType c with Some m => negb (m (default "" (rp_contentType res))) | None => false end = false) as ->.
    { destruct (ck_expectContentType c); [|done]. by rewrite M4. }
    assert (List.filter (λ needle, negb (includes text needle)) (default [] (ck_expectBodyIncludes c)) = []) as ->.
    { apply missing_nil. destruct (ck_expectBodyIncludes c) as [l|]; cbn; [by intros s; apply M5 | set_solver]. }
    destruct (ck_expectJsonArrayLike c); [|done]. destruct M6 as (j & -> & ->); done.
Qed.

(** The check of the public surface succeeds exactly when all five addresses
    answer with a readable text that meets what is expected of them. *)
Theorem surface_check_outcome fetch :
  (run fetch).2 = 0%Z ↔ ∀ c, c ∈ checks → ∃ res text, fetch (ck_url c) = Ok res ∧ rp_text res = Ok text ∧ meets c res text.
Proof.
  assert (∀ c, run_check fetch c = None ↔ ∃ res text, fetch (ck_url c) = Ok res ∧ rp_text res = Ok text ∧ meets c res text) as Hc.
  { intros c. unfold run_check. destruct (fetch (ck_url c)) as [res|e]; cbn; [|by split; [|intros (? & ? & ? & _)]].
    destruct (rp_text res) as [text|e] eqn:Ht; cbn; [|split; [done | intros (r & t & [= <-] & E & _); congruence]].
    rewrite fmap_None, surface_problem_none. split; [by exists res, text|].
    intros (r & t & [= <-] & E & M). by rewrite Ht in E; simplify_eq. }
  assert ((run fetch).2 = 0%Z ↔ omap (run_check fetch) checks = []) as ->.
  { unfold run. destruct (omap (run_check fetch) checks); cbn; naive_solver. }
  setoid_rewrite <- Hc. generalize checks. intros l. induction l as [|c l IH]; [split; [set_solver | done]|].
  cbn [omap list_omap]. split.
  - destruct (run_check fetch c) eqn:E; [done|]. intros Hl d [-> |Hd]%elem_of_cons; [done|]. by apply IH.
  - intros Hl. rewrite (Hl c) by set_solver. apply IH. set_solver.
Qed.

(** ** A page that lost its content *)

Definition sc_hostname (u : string) : option string :=
  r ← match drop_prefix "https://" u with Some r => Some r | None => drop_prefix "http://" u end;
  match split_on (one_of "/:") r with h :: _ => if str_truthy h then Some h else None | [] => None end.

Definition sc_root : Node :=
  NDir [("README.md", NFile 62 "See (https://www.dispatch.computer/), or http://localhost:4010.")].

(** The landing page answers HEAD with [status] and GET with an error page. *)
Definition sc_fetch (status : Z) (_ method target : string) : outcome Resp :=
  Ok {| rp_status := if String.eqb method "HEAD" then status else 200%Z; rp_url := target;
        rp_contentType := Some "text/html"; rp_text := Ok "Application error" |}.

Lemma sc_lost_page :
  main sc_hostname (sc_fetch 200) sc_root = (["Checking 1 URLs..."; "OK: all checked links look correct."], 0%Z) ∧
  (main sc_hostname (sc_fetch 403) sc_root).2 = 1%Z ∧ (main sc_hostname (sc_fetch 404) sc_root).2 = 1%Z.
Proof. vm_compute. auto. Qed.
