(* ===== verification/Processes.v ===== *)
(** * The desktop worker and the simulator as processes

    apps/worker-desktop/src/index.ts with register.ts and heartbeat.ts, and the
    main program of apps/seeker-simulator: state machines whose events are the
    turns of the process, fed with the texts the socket delivers.  The [open]
    handler of the desktop worker is cut at its awaits: the acknowledgement, the
    claim of a pairing; a job that waits for a model is cut at that await.
    The process ends by [process.exit], or with code 1 when an exception is not
    caught (Node's default for exceptions and for rejected promises). *)

From stdpp Require Import base list strings option.
From Stdlib Require Import ZArith Lia.
From S2P Require Import Prelude Js Json Protocol Interfaces Executors Db WorkerHub Workers Router Cli Http Scenario.
Local Open Scope string_scope.
Local Open Scope router_scope.

(** ** Payloads as they arrive *)

(** [job.payload.k] *)
Definition payload_prop (k : string) (payload : option json) : outcome (option json) :=
  match payload with
  | None => Throw (reading "undefined" k)
  | Some JNull => Throw (reading "null" k)
  | Some (JObj l) => Ok (jm_get k l)
  | Some _ => Ok None
  end.

(** The method of [input] that each task calls first. *)
Definition first_method (taskType : string) : option string :=
  if String.eqb taskType "summarize" then Some "trim"
  else if String.eqb taskType "classify" then Some "toLowerCase"
  else if String.eqb taskType "extract_json" then Some "match"
  else None.

(** [executeTask(taskType, input)] on values that need not be strings. *)
Definition execute_json (exec : string → string → json) (taskType input : json) : outcome json :=
  match taskType, input with
  | JStr t, JStr i => Ok (exec t i)
  | JStr t, _ => match first_method t with
                 | Some m => Throw ("input." ++ m ++ " is not a function")
                 | None => Ok (unknown_task t)
                 end
  | t, _ => if converts t then Ok (unknown_task (js_String t)) else Throw CONVERT_ERROR
  end.

(** [prompt.length] in a template literal. *)
Definition length_text (prompt : json) : outcome string :=
  match prompt with
  | JStr s => Ok (num_to_string (num_of_Z (Z.of_nat (String.length s))))
  | JArr l => Ok (num_to_string (num_of_Z (Z.of_nat (length l))))
  | JObj l => if oconverts (jm_get "length" l) then Ok (ojs_String (jm_get "length" l)) else Throw CONVERT_ERROR
  | _ => Ok "undefined"
  end.

(** [executeLLM(prompt, jobId)] on a prompt that need not be a string. *)
Definition infer_json (base_url : option string) (reply : OllamaReply) (prompt : json) (jobId : string) : outcome json :=
  let stub := len <-- length_text prompt ;; Ok (stub_text len jobId) in
  if ostr_truthy base_url then
    match ollamaInfer reply with Ok j => Ok j | Throw _ => stub end
  else stub.

Lemma infer_json_str base_url reply prompt jobId :
  infer_json base_url reply (JStr prompt) jobId = Ok (executeLLM base_url reply prompt jobId).
Proof. unfold infer_json, executeLLM. destruct (ostr_truthy base_url), (ollamaInfer reply); done. Qed.

Definition truthy (j : option json) : option json :=
  match j with Some v => if json_truthy v then Some v else None | None => None end.

(** ** The desktop worker *)

Inductive DPhase :=
  | DConnecting
  | DRegistering                 (* registerWorker listens for the acknowledgement *)
  | DDeaf                        (* it has stopped listening, but neither resolved nor rejected *)
  | DAcked                       (* its promise is resolved *)
  | DClaiming                    (* claimTrust *)
  | DListening                   (* message and close are listened to *)
  | DExited (code : Z).

Record Desktop := mkDesktop {
  d_phase : DPhase;
  d_open : bool;                       (* the socket is open *)
  d_heartbeat : bool;                  (* the interval of startHeartbeat *)
  d_timeout : bool;                    (* the timeout of registerWorker *)
  d_waiting : list (string * json);    (* jobs whose model is awaited, with their prompts *)
  d_sent : list WorkerToCoordinator }.

Inductive DEvent :=
  | DOpen
  | DText (raw iso : string)           (* [iso]: the time, as text *)
  | DContinue                          (* the handler goes on after the acknowledgement *)
  | DClaimAnswered                     (* claimTrust returns, whatever the answer *)
  | DModel (i : nat) (reply : OllamaReply) (iso : string)
  | DHeartbeat
  | DTimeout
  | DClosed
  | DErrored.

Definition initDesktop : Desktop := mkDesktop DConnecting false false false [] [].

Section Desktop.
  Context `{!Ed25519} (sha256_hex : string → string) (sk : secret_key).
  Context (TRUST_PAIRING_CODE OLLAMA_BASE_URL : option string).
  Implicit Types d : Desktop.

Definition d_goto (p : DPhase) d : Desktop :=
  mkDesktop p (d_open d) (d_heartbeat d) (d_timeout d) (d_waiting d) (d_sent d).
(** [ws.send]; nothing happens on a socket that is no longer open. *)
Definition d_send (m : WorkerToCoordinator) d : Desktop :=
  if d_open d then mkDesktop (d_phase d) true (d_heartbeat d) (d_timeout d) (d_waiting d) (d_sent d ++ [m])%list
  else d.

Definition d_register : WorkerToCoordinator :=
  MsgRegister {| reg_provider_pubkey := pubkey_hex sk; reg_provider_type := DESKTOP;
                 reg_capabilities := [LLM_INFER; TASK] |}.

(** The listener of registerWorker; exceptions inside it are swallowed, also
    that of printing the error of a refusal.  The name it resolves with is
    printed by the handler that awaits it. *)
Definition d_on_ack (raw : string) d : Desktop :=
  match JSON_parse raw with
  | Some (JObj l) =>
      if is_str "register_ack" (jm_get "type" l) then
        if is_str "ok" (jm_get "status" l) && ojson_truthy (jm_get "worker_id" l)
        then d_goto (if oconverts (jm_get "worker_id" l) then DAcked else DExited 1) d
        else d_goto (if oconverts (jm_get "error" l) then DExited 1 else DDeaf) d
      else d
  | _ => d
  end.

(** What a job needs next: an output, or the model's answer to a prompt. *)
Inductive Work := Output (j : json) | Prompt (prompt : json).

(** An exception of the executors becomes the output. *)
Definition caught (o : outcome json) : json := match o with Ok j => j | Throw e => error_json e end.

Definition d_work (jobType : option json) (payload : option json) : Work :=
  let unsupported := Output (error_json "Unsupported job payload") in
  if is_str "TASK" jobType then
    match payload_prop "task_type" payload with
    | Throw e => Output (error_json e)
    | Ok t =>
        match truthy t, payload_prop "input" payload with
        | Some t, Ok i =>
            match truthy i with
            | Some i => Output (caught (execute_json executeTask t i))
            | None => unsupported
            end
        | _, _ => unsupported
        end
    end
  else if is_str "LLM_INFER" jobType then
    match payload_prop "prompt" payload with
    | Throw e => Output (error_json e)
    | Ok p => match truthy p with Some prompt => Prompt prompt | None => unsupported end
    end
  else unsupported.

Definition d_complete (jobId : string) (output : json) (iso : string) : WorkerToCoordinator :=
  MsgJobComplete (complete_with sha256_hex jobId output (buildReceipt sha256_hex jobId output (pubkey_hex sk) sk iso)).

(** [handleJob] up to its await, after its log line; [None] for a job whose id
    is no text, which is not modelled. *)
Definition d_handleJob (l : jsmap json) (iso : string) d : option Desktop :=
  jobId ← str_field "job_id" l;
  Some (if negb (oconverts (jm_get "job_type" l)) then d_goto (DExited 1) d else
        match d_work (jm_get "job_type" l) (jm_get "payload" l) with
        | Output o => d_send (d_complete jobId o iso) d
        | Prompt p => mkDesktop (d_phase d) (d_open d) (d_heartbeat d) (d_timeout d)
                        (d_waiting d ++ [(jobId, p)])%list (d_sent d)
        end).

(** Whether printing a notification returns: [tx_hash?.slice(0, 16)] throws on
    what is neither text, array nor nullish. *)
Definition d_prints (l : jsmap json) : bool :=
  let ty := jm_get "type" l in
  if is_str "payment_posted" ty then
    oconverts (jm_get "amount" l) && oconverts (jm_get "token" l) &&
    match jm_get "tx_hash" l with
    | None | Some (JNull | JStr _) => true
    | Some (JArr v) => converts (JArr (take 16 v))
    | Some _ => false
    end
  else if is_str "payment_failed" ty || is_str "feedback_failed" ty then oconverts (jm_get "error" l)
  else if is_str "feedback_posted" ty then oconverts (jm_get "tx_hash" l)
  else true.

(** The listener for messages; its exceptions are rejections nobody handles. *)
Definition d_on_message (raw iso : string) d : option Desktop :=
  match JSON_parse raw with
  | Some JNull => Some (d_goto (DExited 1) d)
  | Some (JObj l) =>
      if is_str "job_assign" (jm_get "type" l) then d_handleJob l iso d
      else Some (if d_prints l then d else d_goto (DExited 1) d)
  | _ => Some d
  end.

Definition desktop_step (e : DEvent) d : option Desktop :=
  match d_phase d, e with
  | DExited _, _ => Some d
  | DConnecting, DOpen =>
      Some (d_send d_register (mkDesktop DRegistering true (d_heartbeat d) true (d_waiting d) (d_sent d)))
  | DRegistering, DText raw _ => Some (if d_open d then d_on_ack raw d else d)
  | DListening, DText raw iso => if d_open d then d_on_message raw iso d else Some d
  | _, DText _ _ => Some d                       (* nobody listens *)
  | DAcked, DContinue =>
      Some (mkDesktop (if ostr_truthy TRUST_PAIRING_CODE then DClaiming else DListening)
              (d_open d) true (d_timeout d) (d_waiting d) (d_sent d))
  | DClaiming, DClaimAnswered => Some (d_goto DListening d)
  | _, DModel i reply iso =>
      match d_waiting d !! i with
      | Some (jobId, prompt) =>
          Some (d_send (d_complete jobId (caught (infer_json OLLAMA_BASE_URL reply prompt jobId)) iso)
                  (mkDesktop (d_phase d) (d_open d) (d_heartbeat d) (d_timeout d)
                     (delete i (d_waiting d)) (d_sent d)))
      | None => Some d
      end
  | _, DHeartbeat => Some (if d_heartbeat d then d_send (MsgHeartbeat (pubkey_hex sk)) d else d)
  | (DRegistering | DDeaf), DTimeout => Some (if d_timeout d then d_goto (DExited 1) d else d)
  | p, DTimeout => Some (mkDesktop p (d_open d) (d_heartbeat d) false (d_waiting d) (d_sent d))
  | DListening, DClosed =>
      Some (if d_open d then mkDesktop (DExited 0) false false (d_timeout d) (d_waiting d) (d_sent d) else d)
  | p, DClosed => Some (mkDesktop p false (d_heartbeat d) (d_timeout d) (d_waiting d) (d_sent d))
  | _, DErrored => Some (d_goto (DExited 1) d)
  | _, _ => Some d                               (* not an event of this phase *)
  end.

(** [claimTrust]: what it asks the coordinator and the line it logs; whatever
    happens is logged. *)
Definition claimTrust (COORDINATOR_URL : option string) (code : string) : M string :=
  let httpUrl := default "http://localhost:4010" COORDINATOR_URL in
  let body := JObj [("pairing_code", JStr code); ("provider_pubkey", JStr (pubkey_hex sk))] in
  let prop k j := match j with JNull => throw (reading "null" k) | _ => ret (ojs_String (opt_prop k (Some j))) end in
  (catch (r ⇐ fetch (HttpReq "POST" (httpUrl ++ "/v1/trust/claim") [JSON_HEADER] (Some (JSON_stringify body))) ;;
          data ⇐ resp_json r.2 ;;
          if resp_ok r.1
          then u ⇐ prop "user_id" data ;; ret ("[Desktop Worker] Trust paired with user: " ++ u)
          else e ⇐ prop "error" data ;; ret ("[Desktop Worker] Trust claim failed: " ++ e))
         (λ e, ret ("[Desktop Worker] Trust claim error: " ++ e))).

(** A failed claim does not keep the worker from listening. *)
Lemma claim_always_returns url code env w : ∃ text w', claimTrust url code env w = (Ok text, w').
Proof. unfold claimTrust, catch. match goal with |- context [match ?x with _ => _ end] => destruct x as [[text|e] w1] end; by eexists _, _. Qed.

Fixpoint desktop_run (es : list DEvent) d : option Desktop :=
  match es with [] => Some d | e :: es => d' ← desktop_step e d; desktop_run es d' end.

(** ** What it answers *)

(** The job of an assignment that the process hears at an event, and survives. *)
Definition heard_job (e : DEvent) d : list string :=
  match d_phase d, e with
  | DListening, DText raw _ =>
      if d_open d then
        match JSON_parse raw with
        | Some (JObj l) =>
            if is_str "job_assign" (jm_get "type" l) && oconverts (jm_get "job_type" l)
            then option_list (str_field "job_id" l) else []
        | _ => []
        end
      else []
  | _, _ => []
  end.

Fixpoint heard (es : list DEvent) d : list string :=
  match es with
  | [] => []
  | e :: es => heard_job e d ++ match desktop_step e d with Some d' => heard es d' | None => [] end
  end%list.

Definition completed_job (m : WorkerToCoordinator) : list string :=
  match m with MsgJobComplete c => [jc_job_id c] | _ => [] end.
Definition answered (ms : list WorkerToCoordinator) : list string := ms ≫= completed_job.

(** The jobs a process owes or has answered. *)
Definition taken d : list string := (answered (d_sent d) ++ (d_waiting d).*1)%list.

Lemma answered_app a b : answered (a ++ b) = (answered a ++ answered b)%list.
Proof. unfold answered. by rewrite bind_app. Qed.

Lemma taken_send m d : d_open d = true → taken (d_send m d) ≡ₚ (completed_job m ++ taken d)%list.
Proof.
  intros Ho. unfold taken, d_send. rewrite Ho. cbn [d_sent d_waiting]. rewrite answered_app.
  change (answered [m]) with (completed_job m ++ [])%list. rewrite app_nil_r.
  rewrite (Permutation_app_comm (answered (d_sent d))), <- app_assoc. done.
Qed.

Lemma taken_send_sub m d : taken (d_send m d) ⊆+ (completed_job m ++ taken d)%list.
Proof.
  destruct (d_open d) eqn:Ho; [by rewrite taken_send|]. unfold d_send. rewrite Ho. by apply submseteq_inserts_l.
Qed.

Lemma d_send_open m d : d_open (d_send m d) = d_open d.
Proof. unfold d_send. by destruct (d_open d) eqn:E. Qed.
Lemma d_send_phase m d : d_phase (d_send m d) = d_phase d.
Proof. unfold d_send. by destruct (d_open d). Qed.
Lemma d_send_waiting m d : d_waiting (d_send m d) = d_waiting d.
Proof. unfold d_send. by destruct (d_open d). Qed.

(** Handling a message. *)
Lemma d_handleJob_spec l iso d d' : d_phase d = DListening → d_open d = true → d_handleJob l iso d = Some d' →
  taken d' ≡ₚ ((if oconverts (jm_get "job_type" l) then option_list (str_field "job_id" l) else []) ++ taken d)%list ∧
  d_open d' = true ∧ (d_phase d' = DListening ∨ d_phase d' = DExited 1).
Proof.
  intros Hp Ho Hs. unfold d_handleJob in Hs. destruct (str_field "job_id" l) as [j|]; [|done]. injection Hs as <-.
  destruct (oconverts _); cbn [negb option_list app]; [|split_and!; auto; done].
  destruct (d_work _ _) as [o|pr].
  - rewrite taken_send, d_send_open, d_send_phase by done. auto.
  - split; [|split; [done | by left]]. unfold taken. cbn. rewrite fmap_app. cbn.
    rewrite app_assoc, <- Permutation_cons_append. done.
Qed.

Lemma d_on_message_spec raw iso d d' : d_phase d = DListening → d_open d = true →
  d_on_message raw iso d = Some d' →
  taken d' ≡ₚ (heard_job (DText raw iso) d ++ taken d)%list ∧ d_open d' = true ∧
  (d_phase d' = DListening ∨ d_phase d' = DExited 1).
Proof.
  intros Hp Ho. unfold d_on_message, heard_job. rewrite Hp, Ho.
  destruct (JSON_parse raw) as [[|b|x|s|v|l]|]; try (intros [= <-]; split_and!; auto; done).
  destruct (is_str "job_assign" (jm_get "type" l)); cbn [andb]; [apply d_handleJob_spec; done|].
  intros [= <-]. destruct (d_prints l); split_and!; auto; done.
Qed.

Lemma d_on_ack_spec raw d : d_phase d = DRegistering →
  taken (d_on_ack raw d) = taken d ∧ d_open (d_on_ack raw d) = d_open d ∧ d_phase (d_on_ack raw d) ≠ DConnecting.
Proof.
  intros Hp. unfold d_on_ack. destruct (JSON_parse raw) as [[| | | | |l]|]; rewrite ?Hp; try done.
  destruct (is_str "register_ack" (jm_get "type" l)); [|by rewrite Hp]. by repeat case_match.
Qed.

Lemma delete_waiting i (w : list (string * json)) j pr : w !! i = Some (j, pr) →
  w.*1 ≡ₚ (j :: (delete i w).*1)%list.
Proof. intros Hi. exact (fmap_Permutation fst _ _ (delete_Permutation w i _ Hi)). Qed.

Lemma d_model_taken d i j pr o iso : d_open d = true → d_waiting d !! i = Some (j, pr) →
  taken (d_send (d_complete j o iso)
    (mkDesktop (d_phase d) (d_open d) (d_heartbeat d) (d_timeout d) (delete i (d_waiting d)) (d_sent d))) ≡ₚ taken d.
Proof.
  intros Ho Hi. rewrite taken_send by done. unfold taken. cbn [d_sent d_waiting completed_job d_complete jc_job_id complete_with].
  rewrite (delete_waiting i (d_waiting d) j pr Hi). cbn. by rewrite <- Permutation_middle.
Qed.
Lemma d_model_taken_sub d i j pr o iso : d_waiting d !! i = Some (j, pr) →
  taken (d_send (d_complete j o iso)
    (mkDesktop (d_phase d) (d_open d) (d_heartbeat d) (d_timeout d) (delete i (d_waiting d)) (d_sent d))) ⊆+ taken d.
Proof.
  intros Hi. etrans; [apply taken_send_sub|]. unfold taken.
  cbn [d_sent d_waiting completed_job d_complete jc_job_id complete_with].
  rewrite (delete_waiting i (d_waiting d) j pr Hi). cbn. by rewrite <- Permutation_middle.
Qed.

(** One turn of a process whose socket was opened. *)
Definition turn (e : DEvent) d d' : Prop :=
  d_phase d' ≠ DConnecting ∧ taken d' ⊆+ (heard_job e d ++ taken d)%list ∧
  (d_open d' = true → d_open d = true ∧ taken d' ≡ₚ (heard_job e d ++ taken d)%list).

Lemma turn_same e d d' : heard_job e d = [] → d_phase d' ≠ DConnecting → (d_open d' = true → d_open d = true) →
  taken d' = taken d → turn e d d'.
Proof. intros Hh Hp Ho Ht. split; [done|]. rewrite Hh, Ht. auto. Qed.

Lemma desktop_turn e d d' : d_phase d ≠ DConnecting → desktop_step e d = Some d' → turn e d d'.
Proof.
  intros Hp Hs.
  assert (∀ m o, completed_job m = [] → d_phase o = d_phase d → d_open o = d_open d → taken o = taken d →
    turn DHeartbeat d (d_send m o)) as Hsend.
  { intros m o Hm Hop Hoo Hot. split; [by rewrite d_send_phase, Hop|]. split.
    { pose proof (taken_send_sub m o) as Hsub. rewrite Hm, Hot in Hsub. unfold heard_job. by destruct (d_phase d). }
    rewrite d_send_open, Hoo. intros Ho. split; [done|]. rewrite taken_send, Hm, Hot by (by rewrite Hoo). unfold heard_job. by destruct (d_phase d). }
  destruct e; unfold desktop_step in Hs.
  - destruct (d_phase d) eqn:E; try done; injection Hs as <-; apply turn_same; unfold heard_job; rewrite ?E; done.
  - destruct (d_phase d) eqn:E; try done; try (injection Hs as <-; apply turn_same; unfold heard_job; rewrite ?E; done).
    + injection Hs as <-. destruct (d_open d) eqn:Ho;
        [|apply turn_same; unfold heard_job; rewrite ?E; done].
      destruct (d_on_ack_spec raw d E) as (Ht & Ho' & Hp'). apply turn_same; try done. unfold heard_job. by rewrite E.
    + destruct (d_open d) eqn:Ho.
      * destruct (d_on_message_spec raw iso d d' E Ho Hs) as (Ht & Ho' & Hp').
        split; [|split; [by rewrite Ht | by auto]]. intros Hc. rewrite Hc in Hp'. by destruct Hp'.
      * injection Hs as <-. apply turn_same; unfold heard_job; rewrite ?E, ?Ho; done.
  - destruct (d_phase d) eqn:E; try done; injection Hs as <-; apply turn_same; unfold heard_job; cbn; rewrite ?E; try done.
    by case_match.
  - destruct (d_phase d) eqn:E; try done; injection Hs as <-; apply turn_same; unfold heard_job; cbn; rewrite ?E; done.
  - assert (desktop_step (DModel i reply iso) d = Some d') as Hs' by exact Hs. clear Hs.
    assert (turn (DModel i reply iso) d d) as Hrefl.
    { apply turn_same; try done. unfold heard_job. by destruct (d_phase d). }
    unfold desktop_step in Hs'.
    destruct (d_waiting d !! i) as [[j pr]|] eqn:Hi; destruct (d_phase d) eqn:E; try done; injection Hs' as <-; try done.
    all: split; [rewrite d_send_phase; cbn; by rewrite ?E|].
    all: split; [rewrite <- ?E; unfold heard_job at 1; rewrite E, <- ?E; by apply d_model_taken_sub with (1 := Hi)|].
    all: rewrite d_send_open; cbn [d_open]; intros Ho; split; [done|].
    all: rewrite <- ?E; rewrite (d_model_taken d i j pr _ iso Ho Hi); unfold heard_job; by rewrite E.
  - assert (turn DHeartbeat d d) as Hrefl.
    { apply turn_same; try done. unfold heard_job. by destruct (d_phase d). }
    assert (d' = (if d_heartbeat d then d_send (MsgHeartbeat (pubkey_hex sk)) d else d) ∨ d' = d) as [->| ->]; [|..|done].
    { destruct (d_phase d); injection Hs as <-; auto. }
    destruct (d_heartbeat d); [by apply Hsend | done].
  - destruct (d_phase d) eqn:E; try done; injection Hs as <-; apply turn_same; unfold heard_job; cbn; rewrite ?E; try done;
      case_match; cbn; by rewrite ?E.
  - destruct (d_phase d) eqn:E; try done; injection Hs as <-; apply turn_same; unfold heard_job; cbn; rewrite ?E; try done;
      case_match; cbn; rewrite ?E; first [done | congruence].
  - destruct (d_phase d) eqn:E; try done; injection Hs as <-; apply turn_same; unfold heard_job; cbn; rewrite ?E; done.
Qed.
(** Before the socket opens nothing is sent. *)
Definition d_fresh d : Prop := d_open d = false ∧ d_heartbeat d = false ∧ d_waiting d = [] ∧ d_sent d = [].

Lemma desktop_connecting e d d' : d_phase d = DConnecting → d_fresh d → desktop_step e d = Some d' →
  heard_job e d = [] ∧
  (d_phase d' = DConnecting ∧ d_fresh d' ∨ d_phase d' ≠ DConnecting ∧ taken d' = []).
Proof.
  intros Hp (Ho & Hh & Hw & Hsn) Hs. unfold desktop_step, heard_job, d_fresh in *. rewrite Hp in Hs |- *.
  split; [done|].
  destruct e; cbn in Hs; rewrite ?Hh, ?Hw, ?Hsn in Hs; cbn in Hs; injection Hs as <-;
    first [by left | by right | right; split; [done|]; unfold taken; cbn; by rewrite ?Hw, ?Hsn].
Qed.

(** Once closed, a socket stays closed. *)
Lemma desktop_open_before es d d' : d_phase d ≠ DConnecting → desktop_run es d = Some d' →
  taken d' ⊆+ (heard es d ++ taken d)%list ∧
  (d_open d' = true → d_open d = true ∧ taken d' ≡ₚ (heard es d ++ taken d)%list).
Proof.
  revert d. induction es as [|e es IH]; intros d Hp Hr; cbn in Hr |- *; [by injection Hr as <-|].
  destruct (desktop_step e d) as [d1|] eqn:Hs; [|done]. cbn in Hr.
  destruct (desktop_turn e d d1 Hp Hs) as (Hp1 & Hsub & Ht). destruct (IH d1 Hp1 Hr) as [Hsub1 Ht1].
  assert (((heard_job e d ++ heard es d1) ++ taken d)%list ≡ₚ (heard es d1 ++ heard_job e d ++ taken d)%list) as Hperm
    by (rewrite !app_assoc; by rewrite (Permutation_app_comm (heard es d1))).
  rewrite Hperm. split.
  - etrans; [exact Hsub1|]. by apply submseteq_app.
  - intros Ho. destruct (Ht1 Ho) as [Ho1 Ht1']. destruct (Ht Ho1) as [Ho0 Ht0]. split; [done|]. by rewrite Ht1', Ht0.
Qed.

Lemma desktop_run_taken es d d' : d_phase d = DConnecting → d_fresh d → desktop_run es d = Some d' →
  taken d' ⊆+ heard es d ∧ (d_open d' = true → taken d' ≡ₚ heard es d).
Proof.
  revert d. induction es as [|e es IH]; intros d Hp Hf Hr; cbn in Hr |- *.
  - injection Hr as ->. destruct Hf as (Ho & _ & Hw & Hsn). unfold taken. rewrite Hw, Hsn. split; [done | congruence].
  - destruct (desktop_step e d) as [d1|] eqn:Hs; [|done]. cbn in Hr.
    destruct (desktop_connecting e d d1 Hp Hf Hs) as [-> [[Hp1 Hf1]|[Hp1 Ht1]]]; [by apply IH|].
    destruct (desktop_open_before es d1 d' Hp1 Hr) as [Hsub Ht]. rewrite Ht1, app_nil_r in Hsub, Ht.
    split; [exact Hsub|]. intros Ho. by apply Ht.
Qed.

(** *** The assignments of the hub *)

(** A payload with string members, as the executors read it. *)
Definition task_payload (payload : json) (t i : string) : Prop :=
  body_field "task_type" payload = Some (JStr t) ∧ body_field "input" payload = Some (JStr i) ∧
  str_truthy t = true ∧ str_truthy i = true.

Lemma truthy_str s : str_truthy s = true → truthy (Some (JStr s)) = Some (JStr s).
Proof. intros Hs. unfold truthy. change (json_truthy (JStr s)) with (str_truthy s). by rewrite Hs. Qed.

Lemma d_work_task payload t i : task_payload payload t i →
  d_work (Some (JStr "TASK")) (Some payload) = Output (executeTask t i).
Proof.
  intros (Ht & Hi & Htt & Hit). unfold d_work. cbn [is_str]. cbn -[payload_prop truthy execute_json].
  assert (payload_prop "task_type" (Some payload) = Ok (Some (JStr t)) ∧
          payload_prop "input" (Some payload) = Ok (Some (JStr i))) as [-> ->].
  { destruct payload as [| | | | |l]; cbn in Ht, Hi; try done. cbn. by rewrite Ht, Hi. }
  rewrite !truthy_str by done. done.
Qed.

Lemma d_hears_assignment a t i iso d :
  d_phase d = DListening → d_open d = true → json_ok (ja_payload a) = true →
  ja_job_type a = TASK → task_payload (ja_payload a) t i →
  desktop_step (DText (coordinator_text (OutJobAssign a)) iso) d =
  Some (d_send (d_complete (ja_job_id a) (executeTask t i) iso) d).
Proof.
  intros Hp Ho Hok Ht Hpl. unfold desktop_step. rewrite Hp, Ho. unfold d_on_message, coordinator_text.
  rewrite parse_stringify by (apply coordinator_json_ok; by intros a' [= <-]).
  unfold coordinator_json. rewrite Ht.
  assert (∀ l, jm_get "type" l = Some (JStr "job_assign") → jm_get "job_id" l = Some (JStr (ja_job_id a)) →
    jm_get "job_type" l = Some (JStr "TASK") → jm_get "payload" l = Some (ja_payload a) →
    (if is_str "job_assign" (jm_get "type" l) then d_handleJob l iso d
     else Some (if d_prints l then d else d_goto (DExited 1) d)) =
    Some (d_send (d_complete (ja_job_id a) (executeTask t i) iso) d)) as Hl.
  { intros l H1 H2 H3 H4. rewrite H1. cbn [is_str]. unfold d_handleJob, str_field. rewrite H2, H3, H4. cbn [mbind option_bind str_of].
    by rewrite (d_work_task _ t i Hpl). }
  by apply Hl.
Qed.

(** The texts that end a listening process: [null], an assignment whose type
    has no text, a notification that cannot be printed. *)
Definition d_deadly (raw : string) : bool :=
  match JSON_parse raw with
  | Some JNull => true
  | Some (JObj l) =>
      if is_str "job_assign" (jm_get "type" l) then negb (oconverts (jm_get "job_type" l)) else negb (d_prints l)
  | _ => false
  end.

Lemma d_deadly_spec raw iso d d' : d_phase d = DListening → d_on_message raw iso d = Some d' →
  if d_deadly raw then d' = d_goto (DExited 1) d else d_phase d' = DListening.
Proof.
  intros Hp. unfold d_on_message, d_deadly. destruct (JSON_parse raw) as [[|b|x|s|v|l]|]; try (by intros [= <-]).
  destruct (is_str "job_assign" (jm_get "type" l)); [|by intros [= <-]; destruct (d_prints l)].
  unfold d_handleJob. destruct (str_field "job_id" l); [|done]. intros [= <-].
  destruct (oconverts _); [|done]. cbn [negb]. destruct (d_work _ _); [by rewrite d_send_phase | done].
Qed.


(** *** Closing at the wrong time *)

Definition quiet (e : DEvent) : bool := match e with DErrored => false | _ => true end.

(** A process that claims, or listens, on a closed socket. *)
Definition stranded d : Prop :=
  d_open d = false ∧ d_heartbeat d = true ∧ (d_phase d = DClaiming ∨ d_phase d = DListening).

Lemma d_send_closed m d : d_open d = false → d_send m d = d.
Proof. intros Ho. unfold d_send. by rewrite Ho. Qed.

Lemma stranded_step e d d' : quiet e = true → stranded d → desktop_step e d = Some d' →
  stranded d' ∧ d_sent d' = d_sent d.
Proof.
  intros Hq (Ho & Hh & Hp) Hs. destruct d as [p o hb t w sn]. cbn in Ho, Hh, Hp. subst o hb.
  unfold desktop_step, stranded in *. cbn [d_phase d_open d_heartbeat d_timeout d_waiting d_sent d_send] in Hs.
  destruct Hp as [-> | ->]; destruct e; try done; cbn in Hs; try (injection Hs as <-; cbn; by auto);
    destruct (w !! i) as [[j pr]|]; injection Hs as <-; cbn; by auto.
Qed.

(** A worker that loses its connection while it claims a pairing never
    ends.  The [close] listener is attached only after the claim, so the event
    is missed: the process then listens on a dead socket, its interval keeps it
    alive, it sends nothing and does not exit, whatever happens except an
    error of the socket. *)
Theorem desktop_outlives_a_close_during_the_claim es d d' :
  d_phase d = DClaiming → d_heartbeat d = true →
  forallb quiet es = true → desktop_run (DClosed :: es) d = Some d' →
  d_open d' = false ∧ d_heartbeat d' = true ∧ (d_phase d' = DClaiming ∨ d_phase d' = DListening) ∧ d_sent d' = d_sent d.
Proof.
  intros Hp Hh Hq Hr. cbn in Hr. unfold desktop_step in Hr. rewrite Hp in Hr. cbn in Hr.
  set (d1 := mkDesktop DClaiming false (d_heartbeat d) (d_timeout d) (d_waiting d) (d_sent d)) in *.
  assert (stranded d1) as H1 by (split_and!; [done | exact Hh | by left]).
  change (d_sent d) with (d_sent d1). clearbody d1. clear Hp Hh d. revert d1 H1 Hr.
  induction es as [|e es IH]; intros d1 H1 Hr; cbn in Hr, Hq; [injection Hr as <-; destruct H1 as (? & ? & ?); by split_and!|].
  apply andb_true_iff in Hq as [He Hq]. destruct (desktop_step e d1) as [d2|] eqn:Hs; [|done].
  destruct (stranded_step e d1 d2 He H1 Hs) as [H2 Hsent]. destruct (IH Hq d2 H2 Hr) as (? & ? & ? & Hd). by rewrite Hd.
Qed.
End Desktop.

(** ** The simulator *)

Inductive SPhase := SConnecting | SRunning | SExited (code : Z).

Record Simulator := mkSim {
  s_phase : SPhase;
  s_open : bool;
  s_ackListening : bool;           (* onAck is attached *)
  s_sent : list WorkerToCoordinator }.

Inductive SEvent := SOpen | SText (raw iso : string) | SHeartbeat | SClosed | SErrored.

Definition initSim : Simulator := mkSim SConnecting false false [].

Section Simulator.
  Context `{!Ed25519} (sha256_hex : string → string) (sk : secret_key).
  Implicit Types m : Simulator.

Definition s_exit (code : Z) m : Simulator := mkSim (SExited code) (s_open m) (s_ackListening m) (s_sent m).
Definition s_send (x : WorkerToCoordinator) m : Simulator :=
  if s_open m then mkSim (s_phase m) true (s_ackListening m) (s_sent m ++ [x])%list else m.

Definition s_register : WorkerToCoordinator :=
  MsgRegister {| reg_provider_pubkey := pubkey_hex sk; reg_provider_type := SEEKER; reg_capabilities := [TASK] |}.

(** [onAck]: nothing is caught. *)
Definition s_on_ack (raw : string) m : Simulator :=
  match JSON_parse raw with
  | None | Some JNull => s_exit 1 m
  | Some (JObj l) =>
      if is_str "register_ack" (jm_get "type" l) then
        if is_str "ok" (jm_get "status" l) && oconverts (jm_get "worker_id" l)
        then mkSim (s_phase m) (s_open m) false (s_sent m) else s_exit 1 m
      else m
  | Some _ => m
  end.

(** The output of [handleJob], which throws on a payload it cannot read. *)
Definition s_output (payload : option json) : outcome json :=
  t <-- payload_prop "task_type" payload ;;
  match truthy t with
  | None => Ok (error_json "Missing task_type or input")
  | Some t =>
      i <-- payload_prop "input" payload ;;
      match truthy i with
      | None => Ok (error_json "Missing task_type or input")
      | Some i => execute_json sim_executeTask t i
      end
  end.

Definition s_complete (jobId : string) (output : json) (iso : string) : WorkerToCoordinator :=
  MsgJobComplete (complete_with sha256_hex jobId output (buildReceipt sha256_hex jobId output (pubkey_hex sk) sk iso)).

(** The listener for jobs; [None] for a job without a name. *)
Definition s_on_job (raw iso : string) m : option Simulator :=
  match JSON_parse raw with
  | Some JNull => Some (s_exit 1 m)
  | Some (JObj l) =>
      if is_str "job_assign" (jm_get "type" l) then
        jobId ← str_field "job_id" l;
        Some (match s_output (jm_get "payload" l) with
              | Ok o => s_send (s_complete jobId o iso) m
              | Throw _ => s_exit 1 m
              end)
      else Some m
  | _ => Some m
  end.

(** Both listeners hear a message, in the order in which they were attached. *)
Definition sim_step (e : SEvent) m : option Simulator :=
  match s_phase m, e with
  | SExited _, _ => Some m
  | SConnecting, SOpen => Some (s_send s_register (mkSim SRunning true true (s_sent m)))
  | SRunning, SText raw iso =>
      let m := if s_ackListening m then s_on_ack raw m else m in
      match s_phase m with SExited _ => Some m | _ => s_on_job raw iso m end
  | SRunning, SHeartbeat => Some (s_send (MsgHeartbeat (pubkey_hex sk)) m)
  | _, SClosed => Some (mkSim (SExited 0) false (s_ackListening m) (s_sent m))
  | _, SErrored => Some (s_exit 1 m)
  | _, _ => Some m
  end.

(** When a running simulator dies of a text. *)
Definition deadly (acked : bool) (raw : string) : bool :=
  match JSON_parse raw with
  | None => negb acked
  | Some JNull => true
  | Some (JObj l) =>
      negb acked && is_str "register_ack" (jm_get "type" l) &&
        negb (is_str "ok" (jm_get "status" l) && oconverts (jm_get "worker_id" l)) ||
      is_str "job_assign" (jm_get "type" l) && match s_output (jm_get "payload" l) with Throw _ => true | Ok _ => false end
  | Some _ => false
  end.

(** A payload the job listener cannot read: no payload at all, a task that
    calls a method of an input that is not a string, or a task without a text
    (and with an input). *)
Lemma s_output_throws payload :
  (∃ e, s_output payload = Throw e) ↔
  payload = None ∨ payload = Some JNull ∨
  (∃ l t i mt, payload = Some (JObj l) ∧ jm_get "task_type" l = Some (JStr t) ∧ first_method t = Some mt ∧
    jm_get "input" l = Some i ∧ json_truthy i = true ∧ (∀ s, i ≠ JStr s)) ∨
  (∃ l t i, payload = Some (JObj l) ∧ jm_get "task_type" l = Some t ∧ converts t = false ∧
    jm_get "input" l = Some i ∧ json_truthy i = true).
Proof.
  unfold s_output. destruct payload as [[|b|x|s|v|l]|]; cbn [payload_prop obind truthy].
  2-5: split; [by intros [e [=]] | by naive_solver].
  1,3: split; [by auto | by eauto].
  destruct (jm_get "task_type" l) as [t|] eqn:Ht; cbn [truthy].
  2: { split; [by intros [e [=]]|].
       intros [[=]|[[=]|[(? & ? & ? & ? & [= <-] & Ht' & _)|(? & ? & ? & [= <-] & Ht' & _)]]]; congruence. }
  destruct (json_truthy t) eqn:Htt.
  2: { split; [by intros [e [=]]|]. intros [[=]|[[=]|[(? & t' & ? & ? & [= <-] & Ht' & Hm & _)|(? & t' & ? & [= <-] & Ht' & Hc & _)]]];
         rewrite Ht in Ht'; injection Ht' as ->; [by destruct t' | by destruct t']. }
  destruct (jm_get "input" l) as [i|] eqn:Hi; cbn [truthy].
  2: { split; [by intros [e [=]]|].
       intros [[=]|[[=]|[(? & ? & ? & ? & [= <-] & _ & _ & Hi' & _)|(? & ? & ? & [= <-] & _ & _ & Hi' & _)]]]; congruence. }
  destruct (json_truthy i) eqn:Hit.
  2: { split; [by intros [e [=]]|].
       intros [[=]|[[=]|[(? & ? & ? & ? & [= <-] & _ & _ & Hi' & Hit' & _)|(? & ? & ? & [= <-] & _ & _ & Hi' & Hit')]]];
         congruence. }
  split.
  - intros [e He]. right. right. destruct t as [|b|x|t|v|o]; try done.
    + left. destruct i as [| | |i| |]; cbn in He; try done; destruct (first_method t) as [mt|] eqn:Hm; try done;
        do 4 eexists; split_and!; try done.
    + right. unfold execute_json in He. destruct (converts (JArr v)) eqn:Hc; [done|]. by do 3 eexists.
    + right. unfold execute_json in He. destruct (converts (JObj o)) eqn:Hc; [done|]. by do 3 eexists.
  - intros [[=]|[[=]|[(l' & t' & i' & mt & [= <-] & Ht' & Hm & Hi' & _ & Hns)|(l' & t' & i' & [= <-] & Ht' & Hc & _)]]];
      rewrite Ht in Ht'; injection Ht' as ->.
    + rewrite Hi in Hi'. injection Hi' as ->. cbn. rewrite Hm. destruct i'; try (by eexists). by destruct (Hns s).
    + exists CONVERT_ERROR. destruct t'; try done; unfold execute_json; by rewrite Hc.
Qed.

Definition job_throws (l : jsmap json) : bool :=
  is_str "job_assign" (jm_get "type" l) && match s_output (jm_get "payload" l) with Throw _ => true | Ok _ => false end.

Lemma s_on_job_obj raw l iso m m' : JSON_parse raw = Some (JObj l) → s_on_job raw iso m = Some m' →
  if job_throws l then m' = s_exit 1 m else s_phase m' = s_phase m.
Proof.
  intros Hj. unfold s_on_job, job_throws. rewrite Hj.
  destruct (is_str "job_assign" (jm_get "type" l)); [|by intros [= <-]].
  destruct (str_field "job_id" l); [|done]. cbn [mbind option_bind andb].
  destruct (s_output (jm_get "payload" l)); intros [= <-]; [|done]. unfold s_send. by destruct (s_open m).
Qed.

Lemma s_on_ack_obj raw l m : JSON_parse raw = Some (JObj l) →
  s_sent (s_on_ack raw m) = s_sent m ∧
  if is_str "register_ack" (jm_get "type" l) && negb (is_str "ok" (jm_get "status" l) && oconverts (jm_get "worker_id" l))
  then s_phase (s_on_ack raw m) = SExited 1 else s_phase (s_on_ack raw m) = s_phase m.
Proof.
  intros Hj. unfold s_on_ack. rewrite Hj. destruct (is_str "register_ack" _); [|done]. by destruct (is_str "ok" _ && _).
Qed.

Lemma deadly_assignments a acked :
  json_ok (ja_payload a) = true →
  ja_payload a = JNull ∨
  (∃ t i mt, body_field "task_type" (ja_payload a) = Some (JStr t) ∧ first_method t = Some mt ∧
     body_field "input" (ja_payload a) = Some i ∧ json_truthy i = true ∧ (∀ s, i ≠ JStr s)) →
  deadly acked (coordinator_text (OutJobAssign a)) = true.
Proof.
  intros Hok Hpl. assert (∃ e, s_output (Some (ja_payload a)) = Throw e) as [e He].
  { apply s_output_throws. destruct Hpl as [-> |(t & i & mt & Ht & Hm & Hi & Htr & Hns)]; [by auto|].
    destruct (ja_payload a) as [| | | | |l]; try done. right. right. left. by exists l, t, i, mt. }
  unfold deadly, coordinator_text. rewrite parse_stringify by (apply coordinator_json_ok; by intros a' [= <-]).
  assert (∀ l, jm_get "type" l = Some (JStr "job_assign") → jm_get "payload" l = Some (ja_payload a) → job_throws l = true) as Hl.
  { intros l H1 H2. unfold job_throws. by rewrite H1, H2, He. }
  unfold coordinator_json. apply orb_true_iff. right. by apply Hl.
Qed.

Lemma sim_dies raw iso m m' :
  s_phase m = SRunning → sim_step (SText raw iso) m = Some m' →
  (deadly (negb (s_ackListening m)) raw = true ↔ s_phase m' = SExited 1) ∧
  (deadly (negb (s_ackListening m)) raw = true → s_sent m' = s_sent m) ∧
  (deadly (negb (s_ackListening m)) raw = false → s_phase m' = SRunning).
Proof.
  intros Hp Hs. unfold sim_step in Hs. rewrite Hp in Hs.
  destruct (JSON_parse raw) as [[|b|x|str|v|l]|] eqn:Hj.
  6: { unfold deadly. rewrite Hj. fold (job_throws l). rewrite negb_involutive.
       destruct (s_ackListening m) eqn:Ha; cbn [andb orb] in *.
       - destruct (s_on_ack_obj raw l m Hj) as [Hsn Hph].
         destruct (is_str "register_ack" _ && negb _); rewrite Hph in Hs.
         + injection Hs as <-. by rewrite Hph.
         + rewrite Hp in Hs, Hph. pose proof (s_on_job_obj raw l iso _ m' Hj Hs) as Hm. cbn [orb].
           destruct (job_throws l); [subst m'; by split_and! | by rewrite Hm, Hph].
       - rewrite Hp in Hs. pose proof (s_on_job_obj raw l iso _ m' Hj Hs) as Hm.
         destruct (job_throws l); [subst m'; by split_and! | by rewrite Hm, Hp]. }
  all: unfold deadly, s_on_ack, s_on_job in *; rewrite Hj in *; destruct (s_ackListening m);
    cbn in Hs |- *; rewrite ?Hp in Hs; injection Hs as <-; cbn; by rewrite ?Hp.
Qed.

End Simulator.

(** ** Instances *)

Definition sc_assign (payload : json) : JobAssignMsg :=
  {| ja_job_id := "j1"; ja_job_type := TASK; ja_payload := payload; ja_policy := CHEAP;
     ja_privacy_class := "PUBLIC"; ja_user_id := "bob" |}.
Definition sc_task : json := JObj [("task_type", JStr "summarize"); ("input", JStr "two words")].

(** The process opens, registers, claims a pairing (an assignment is lost
    meanwhile) and listens. *)
Definition sc_desktop_events : list DEvent :=
  [DOpen; DText (coordinator_text (OutRegisterAck "w1")) ""; DContinue;
   DText (coordinator_text (OutJobAssign (sc_assign sc_task))) "t0"; DClaimAnswered;
   DText (coordinator_text (OutJobAssign (sc_assign sc_task))) "t1"; DHeartbeat].

Definition sc_desktop_run (es : list DEvent) : option Desktop :=
  desktop_run toy_sha256 (sc_secret "key") (Some "A1B2C3") None es initDesktop.
Definition sc_desktop (n : nat) : Desktop :=
  default initDesktop (sc_desktop_run (take n sc_desktop_events)).


Lemma desktop_outlives_a_close_during_the_claim_witness :
  match desktop_run toy_sha256 (sc_secret "key") (Some "A1B2C3") None [DClosed; DClaimAnswered; DHeartbeat; DTimeout] (sc_desktop 3) with
  | Some d' => d_phase d' = DClaiming ∨ d_phase d' = DListening
  | None => False
  end.
Proof.
  destruct (desktop_run toy_sha256 (sc_secret "key") (Some "A1B2C3") None [DClosed; DClaimAnswered; DHeartbeat; DTimeout]
    (sc_desktop 3)) as [d'|] eqn:Hr; [|vm_compute in Hr; discriminate Hr].
  apply (desktop_outlives_a_close_during_the_claim toy_sha256 (sc_secret "key") (Some "A1B2C3") None
    [DClaimAnswered; DHeartbeat; DTimeout] (sc_desktop 3) d'); [vm_compute; reflexivity.. | exact Hr].
Defined.

(** A payment whose hash is a number ends the desktop worker. *)
Example sc_numeric_hash :
  d_deadly (JSON_stringify (JObj [("type", JStr "payment_posted"); ("amount", JNum (num_of_Z 1)); ("tx_hash", JNum (num_of_Z 7))])) = true ∧
  d_deadly (JSON_stringify (JObj [("type", JStr "payment_posted"); ("amount", JNum (num_of_Z 1)); ("tx_hash", JStr "0xabc")])) = false.
Proof. by vm_compute. Qed.

(** An input that is not a string kills the simulator. *)
Definition sc_bad_task : json := JObj [("task_type", JStr "summarize"); ("input", JArr [])].
Definition sc_sim : Simulator := mkSim SRunning true false [].

