(* ===== verification/Contracts.v ===== *)
(** * The contracts on Monad

    ReceiptAnchor.sol and WrappedBolt.sol.  A call either reverts ([None]) or
    gives the new state.  The base contracts ERC20 and Ownable are OpenZeppelin
    code: they are an interface here, with the laws its documentation states;
    addresses are texts and amounts are integers of 256 bits. *)

From stdpp Require Import base list strings option gmap.
From Stdlib Require Import ZArith Lia.
From S2P Require Import Prelude.
Local Open Scope string_scope.

Abbreviation address := string.
Definition ZERO_ADDRESS : address := "0x0000000000000000000000000000000000000000".
Definition UINT256 : Z := 2 ^ 256.

(** ** ReceiptAnchor.sol *)

Module ReceiptAnchor.

Record Event := ReceiptAnchored { receiptHash : string; submitter : address; timestamp : Z }.

Record State := { anchored : gset string; events : list Event }.

Definition init : State := {| anchored := ∅; events := [] |}.

Definition anchor (sender : address) (now : Z) (h : string) (s : State) : option State :=
  if decide (h ∈ anchored s) then None                              (* "Already anchored" *)
  else Some {| anchored := {[h]} ∪ anchored s; events := (events s ++ [ReceiptAnchored h sender now])%list |}.

Definition isAnchored (h : string) (s : State) : bool := bool_decide (h ∈ anchored s).

(** A transaction: a call that reverts changes nothing. *)
Definition tx (s : State) (c : address * Z * string) : State :=
  let '(sender, now, h) := c in default s (anchor sender now h s).

(** The events record every anchored hash, once. *)
Definition consistent (s : State) : Prop :=
  (∀ h, h ∈ anchored s ↔ h ∈ map receiptHash (events s)) ∧ NoDup (map receiptHash (events s)).

Lemma tx_consistent s c : consistent s → consistent (tx s c).
Proof.
  destruct c as [[sender now] h]. intros [Hin Hnd]. unfold tx, anchor. destruct (decide (h ∈ anchored s)) as [|Hn]; [done|].
  unfold consistent. cbn [default from_option id anchored events]. rewrite map_app. cbn [map receiptHash]. split.
  - intros h'. rewrite elem_of_union, elem_of_singleton, Hin, elem_of_app, elem_of_cons. set_solver.
  - apply list.NoDup_app. split_and!; [done | | apply NoDup_singleton].
    intros x Hx ->%list_elem_of_singleton. by apply Hn, Hin.
Qed.

Lemma tx_extends s c : ∃ more, events (tx s c) = (events s ++ more)%list.
Proof.
  destruct c as [[sender now] h]. unfold tx, anchor. destruct (decide _); cbn; [exists [] | by eexists].
  by rewrite app_nil_r.
Qed.

(** Whatever is called, a receipt is anchored exactly when there is an event
    for it; there is at most one, and it stays: it names whoever anchored the
    receipt first, and a later call for it reverts. *)
Theorem anchored_once_for_all calls sender now h later :
  let s := foldl tx init calls in
  let s' := foldl tx (tx s (sender, now, h)) later in
  consistent s' ∧ isAnchored h s' = true ∧ (∀ sender' now', anchor sender' now' h s' = None) ∧
  (isAnchored h s = false → ReceiptAnchored h sender now ∈ events s').
Proof.
  intros s s'. assert (consistent init) as H0 by (split; [set_solver | apply NoDup_nil_2]).
  assert (∀ l s0, consistent s0 → consistent (foldl tx s0 l)) as Hc.
  { intros l. induction l as [|c l IH]; intros s0 Hs0; [done|]. by apply IH, tx_consistent. }
  assert (∀ l s0 e, e ∈ events s0 → e ∈ events (foldl tx s0 l)) as Hk.
  { intros l. induction l as [|c l IH]; intros s0 e He; [done|]. apply IH.
    destruct (tx_extends s0 c) as [more ->]. apply elem_of_app. by left. }
  assert (consistent s) as Hs by (by apply Hc). assert (consistent s') as Hs' by (by apply Hc, tx_consistent).
  assert (h ∈ anchored s') as Hin.
  { apply Hs'. unfold s'. destruct (decide (h ∈ anchored s)) as [Hh|Hh].
    - apply Hs, list_elem_of_fmap in Hh as (e & -> & He). apply list_elem_of_fmap. exists e. split; [done|].
      apply Hk. destruct (tx_extends s (sender, now, receiptHash e)) as [more ->]. apply elem_of_app. by left.
    - apply list_elem_of_fmap. exists (ReceiptAnchored h sender now). split; [done|]. apply Hk.
      unfold tx, anchor. rewrite decide_False by done. apply elem_of_app. right. by apply list_elem_of_singleton. }
  split_and!; [done | by apply bool_decide_eq_true | intros; unfold anchor; by rewrite decide_True |].
  intros Hh%bool_decide_eq_false. apply Hk. unfold tx, anchor. rewrite decide_False by done.
  apply elem_of_app. right. by apply list_elem_of_singleton.
Qed.

End ReceiptAnchor.

(** ** WrappedBolt.sol *)

(** What WrappedBolt has from ERC20 and Ownable: the token's state [T], its
    views, its internal operations and the calls it offers to everybody, the
    first argument of which is the sender. *)
Class ERC20 (T : Type) := {
  totalSupply : T → Z;
  balanceOf : address → T → Z;
  owner : T → address;
  construct : address → T;                                   (* ERC20(name, symbol), Ownable(initialOwner) *)
  mint_internal : address → Z → T → option T;                (* _mint *)
  burn_internal : address → Z → T → option T;                (* _burn *)
  transfer : address → address → Z → T → option T;
  transferFrom : address → address → address → Z → T → option T;
  approve : address → address → Z → T → option T;
  transferOwnership : address → address → T → option T;
  renounceOwnership : address → T → option T }.

Section Laws.
  Context {T : Type} `{!ERC20 T}.

(** [v] moves from [a] to [b]; or no amount changes. *)
Definition moved (a b : address) (v : Z) (t t' : T) : Prop :=
  (v <= balanceOf a t)%Z ∧ totalSupply t' = totalSupply t ∧
  ∀ c, balanceOf c t' = (balanceOf c t - (if decide (c = a) then v else 0) + (if decide (c = b) then v else 0))%Z.
Definition same_amounts (t t' : T) : Prop :=
  totalSupply t' = totalSupply t ∧ ∀ c, balanceOf c t' = balanceOf c t.
End Laws.

(** The documented behaviour of the base contracts. *)
Class ERC20Laws (T : Type) `{!ERC20 T} := {
  construct_supply a : totalSupply (construct a) = 0%Z;
  construct_balance a b : balanceOf b (construct a) = 0%Z;
  construct_owner a : owner (construct a) = a;
  mint_spec a v t t' : (0 <= v)%Z → mint_internal a v t = Some t' →
    a ≠ ZERO_ADDRESS ∧ totalSupply t' = (totalSupply t + v)%Z ∧ (totalSupply t' < UINT256)%Z ∧ owner t' = owner t ∧
    ∀ b, balanceOf b t' = (balanceOf b t + if decide (b = a) then v else 0)%Z;
  burn_spec a v t t' : (0 <= v)%Z → burn_internal a v t = Some t' →
    (v <= balanceOf a t)%Z ∧ totalSupply t' = (totalSupply t - v)%Z ∧ owner t' = owner t ∧
    ∀ b, balanceOf b t' = (balanceOf b t - if decide (b = a) then v else 0)%Z;
  transfer_spec s b v t t' : (0 <= v)%Z → transfer s b v t = Some t' → moved s b v t t' ∧ owner t' = owner t;
  transferFrom_spec s a b v t t' : (0 <= v)%Z → transferFrom s a b v t = Some t' → moved a b v t t' ∧ owner t' = owner t;
  approve_spec s a v t t' : approve s a v t = Some t' → same_amounts t t' ∧ owner t' = owner t;
  transferOwnership_spec s a t t' : transferOwnership s a t = Some t' → same_amounts t t' ∧ s = owner t ∧ owner t' = a;
  renounceOwnership_spec s t t' : renounceOwnership s t = Some t' →
    same_amounts t t' ∧ s = owner t ∧ owner t' = ZERO_ADDRESS }.

(** What a list of holders has under the balances [f]. *)
Definition sum_balances (f : address → Z) (l : list address) : Z := foldr (λ b z, f b + z)%Z 0%Z l.

(** A change of the balance of [a] by [d]. *)
Lemma sum_change (f f' : address → Z) l a d : NoDup l →
  (∀ b, f' b = f b + if decide (b = a) then d else 0)%Z →
  sum_balances f' l = (sum_balances f l + if decide (a ∈ l) then d else 0)%Z.
Proof.
  intros Hl Hb. induction l as [|b l IH]; [done|]. apply NoDup_cons in Hl as [Hn Hl].
  unfold sum_balances. cbn [foldr]. fold (sum_balances f l) (sum_balances f' l). rewrite IH, Hb by done.
  destruct (decide (b = a)) as [->|Hne].
  - rewrite (decide_False (P := a ∈ l)), (decide_True (P := a ∈ a :: l)) by (done || by left). lia.
  - destruct (decide (a ∈ l)).
    + rewrite (decide_True (P := a ∈ b :: l)) by (by right). lia.
    + rewrite (decide_False (P := a ∈ b :: l)) by (intros [?|?]%elem_of_cons; congruence). lia.
Qed.

(** A bound on every list of holders leaves room for one more. *)
Lemma sum_with (f : address → Z) a l s :
  (∀ b, 0 <= f b)%Z → (∀ l, NoDup l → sum_balances f l <= s)%Z → NoDup l →
  (sum_balances f l + (if decide (a ∈ l) then 0 else f a) <= s)%Z.
Proof.
  intros Hb Hs Hl. destruct (decide (a ∈ l)) as [|Hn]; [specialize (Hs l Hl); lia|].
  specialize (Hs (a :: l) ltac:(by constructor)). unfold sum_balances in Hs at 1. cbn [foldr] in Hs.
  fold (sum_balances f l) in Hs. lia.
Qed.

Module WrappedBolt.
Section WrappedBolt.
  Context {T : Type} `{!ERC20 T}.

Definition constructor (sender : address) : T := construct sender.

(** [onlyOwner] *)
Definition mint (sender to : address) (amount : Z) (t : T) : option T :=
  if String.eqb sender (owner t) then mint_internal to amount t else None.

Definition burn (sender : address) (amount : Z) (t : T) : option T := burn_internal sender amount t.

Definition decimals : Z := 9.

Inductive Call :=
  | CMint (to : address) (amount : Z)
  | CBurn (amount : Z)
  | CTransfer (to : address) (amount : Z)
  | CTransferFrom (from to : address) (amount : Z)
  | CApprove (spender : address) (amount : Z)
  | CTransferOwnership (new : address)
  | CRenounceOwnership.

Definition amount_of (c : Call) : Z :=
  match c with
  | CMint _ v | CBurn v | CTransfer _ v | CTransferFrom _ _ v | CApprove _ v => v
  | CTransferOwnership _ | CRenounceOwnership => 0
  end.

Definition call_token (sender : address) (c : Call) (t : T) : option T :=
  match c with
  | CMint to v => mint sender to v t
  | CBurn v => burn sender v t
  | CTransfer to v => transfer sender to v t
  | CTransferFrom from to v => transferFrom sender from to v t
  | CApprove spender v => approve sender spender v t
  | CTransferOwnership new => transferOwnership sender new t
  | CRenounceOwnership => renounceOwnership sender t
  end.

(** What the accepted calls minted and burned; a call that reverts changes nothing. *)
Record Ledger := { lg_token : T; lg_minted : Z; lg_burned : Z; lg_minters : list address }.

Definition tx (g : Ledger) (c : address * Call) : Ledger :=
  match call_token c.1 c.2 (lg_token g) with
  | None => g
  | Some t => {| lg_token := t;
                 lg_minted := (lg_minted g + match c.2 with CMint _ v => v | _ => 0 end)%Z;
                 lg_burned := (lg_burned g + match c.2 with CBurn v => v | _ => 0 end)%Z;
                 lg_minters := match c.2 with CMint _ _ => c.1 :: lg_minters g | _ => lg_minters g end |}
  end.

Definition deployed (deployer : address) : Ledger :=
  {| lg_token := constructor deployer; lg_minted := 0; lg_burned := 0; lg_minters := [] |}.

(** No balance is negative, and holders together have at most the supply. *)
Definition solvent (t : T) : Prop :=
  (∀ b, 0 <= balanceOf b t)%Z ∧ ∀ l, NoDup l → (sum_balances (λ b, balanceOf b t) l <= totalSupply t)%Z.

Definition accounts (g : Ledger) : Prop :=
  solvent (lg_token g) ∧ totalSupply (lg_token g) = (lg_minted g - lg_burned g)%Z ∧
  (0 <= lg_burned g)%Z ∧ (totalSupply (lg_token g) < UINT256)%Z.

(** The deployer is the owner and the only one who minted. *)
Definition owned_by (deployer : address) (g : Ledger) : Prop :=
  owner (lg_token g) = deployer ∧ ∀ m, m ∈ lg_minters g → m = deployer.

(** The calls with which an owner gives the contract away. *)
Definition gives_away (c : Call) : bool :=
  match c with CTransferOwnership _ | CRenounceOwnership => true | _ => false end.

Lemma solvent_change (t t' : T) a d : solvent t → (0 <= balanceOf a t + d)%Z →
  totalSupply t' = (totalSupply t + d)%Z →
  (∀ b, balanceOf b t' = balanceOf b t + if decide (b = a) then d else 0)%Z → solvent t'.
Proof.
  intros [Hpos Hsum] Ha Hs Hbal. split.
  - intros b. rewrite Hbal. specialize (Hpos b). destruct (decide (b = a)) as [->|]; lia.
  - intros l Hl. rewrite (sum_change _ _ _ a d Hl Hbal), Hs.
    pose proof (sum_with _ a l _ Hpos Hsum Hl). specialize (Hpos a). destruct (decide (a ∈ l)); lia.
Qed.

Lemma solvent_moved (t t' : T) a b v : solvent t → (0 <= v)%Z → moved a b v t t' → solvent t'.
Proof.
  intros [Hpos Hsum] Hv (Hle & Hs & Hbal).
  set (f := λ b, (balanceOf b t + if decide (b = a) then - v else 0)%Z).
  assert (∀ c, balanceOf c t' = f c + if decide (c = b) then v else 0)%Z as Hbal'
    by (intros c; rewrite Hbal; unfold f; destruct (decide (c = a)), (decide (c = b)); lia).
  split.
  - intros c. rewrite Hbal'. unfold f. specialize (Hpos c).
    destruct (decide (c = a)) as [->|], (decide (_ = b)); lia.
  - intros l Hl. rewrite (sum_change _ _ _ b v Hl Hbal'), Hs.
    rewrite (sum_change (λ b, balanceOf b t) f l a (- v) Hl (λ b, eq_refl)).
    pose proof (sum_with _ a l _ Hpos Hsum Hl). specialize (Hsum l Hl).
    destruct (decide (b ∈ l)), (decide (a ∈ l)); lia.
Qed.

Lemma solvent_same (t t' : T) : solvent t → same_amounts t t' → solvent t'.
Proof.
  intros Hs [Hsup Hbal]. apply (solvent_change t t' ZERO_ADDRESS 0 Hs).
  - destruct Hs as [Hpos _]. specialize (Hpos ZERO_ADDRESS). lia.
  - lia.
  - intros b. rewrite Hbal. destruct (decide _); lia.
Qed.

  Context `{!ERC20Laws T}.

Lemma tx_accounts g c : (0 <= amount_of c.2)%Z → accounts g → accounts (tx g c).
Proof.
  destruct c as [sender c]. intros Hv Hg. unfold tx. cbn [fst snd].
  destruct (call_token sender c (lg_token g)) as [t|] eqn:E; [|exact Hg].
  destruct Hg as (Hsol & Hsup & Hb & Hmax). unfold accounts. cbn [lg_token lg_minted lg_burned].
  destruct c as [to v|v|to v|from to v|spender v|new|]; cbn [call_token amount_of snd] in *.
  - unfold mint in E. destruct (String.eqb _ _); [|done].
    apply mint_spec in E as (_ & Hs & Hm & _ & Hbal); [|done]. split_and!; [|lia..].
    apply (solvent_change _ _ to v Hsol); [|done..]. destruct Hsol as [Hpos _]. specialize (Hpos to). lia.
  - apply burn_spec in E as (Hle & Hs & _ & Hbal); [|done]. split_and!; [|lia..].
    apply (solvent_change _ _ sender (- v) Hsol); [lia | lia |].
    intros b. rewrite Hbal. destruct (decide _); lia.
  - apply transfer_spec in E as [Hm _]; [|done]. pose proof (solvent_moved _ _ _ _ _ Hsol Hv Hm).
    destruct Hm as (_ & Hs & _). split_and!; [done | lia..].
  - apply transferFrom_spec in E as [Hm _]; [|done]. pose proof (solvent_moved _ _ _ _ _ Hsol Hv Hm).
    destruct Hm as (_ & Hs & _). split_and!; [done | lia..].
  - apply approve_spec in E as [Hm _]. pose proof (solvent_same _ _ Hsol Hm). destruct Hm. split_and!; [done | lia..].
  - apply transferOwnership_spec in E as [Hm _]. pose proof (solvent_same _ _ Hsol Hm). destruct Hm. split_and!; [done | lia..].
  - apply renounceOwnership_spec in E as [Hm _]. pose proof (solvent_same _ _ Hsol Hm). destruct Hm. split_and!; [done | lia..].
Qed.

Lemma tx_owned deployer g c : (0 <= amount_of c.2)%Z → (gives_away c.2 = true → c.1 ≠ deployer) →
  owned_by deployer g → owned_by deployer (tx g c).
Proof.
  destruct c as [sender c]. intros Hv Hc Hg. unfold tx. cbn [fst snd] in *.
  destruct (call_token sender c (lg_token g)) as [t|] eqn:E; [|exact Hg].
  destruct Hg as [<- Hm]. unfold owned_by. cbn [lg_token lg_minters].
  destruct c as [to v|v|to v|from to v|spender v|new|]; cbn [call_token amount_of] in *.
  - unfold mint in E. destruct (String.eqb_spec sender (owner (lg_token g))) as [->|]; [|done].
    apply mint_spec in E as (_ & _ & _ & Ho & _); [|done]. split; [done|].
    intros m [->|Hin]%elem_of_cons; [done | by apply Hm].
  - by apply burn_spec in E as (_ & _ & Ho & _).
  - by apply transfer_spec in E as [_ Ho].
  - by apply transferFrom_spec in E as [_ Ho].
  - by apply approve_spec in E as [_ Ho].
  - apply transferOwnership_spec in E as (_ & -> & _). by destruct (Hc eq_refl).
  - apply renounceOwnership_spec in E as (_ & -> & _). by destruct (Hc eq_refl).
Qed.

Lemma deployed_accounts deployer : accounts (deployed deployer).
Proof.
  unfold accounts, solvent, deployed, constructor. cbn [lg_token lg_minted lg_burned]. rewrite construct_supply.
  split_and!; try done.
  - intros b. by rewrite construct_balance.
  - intros l _. induction l as [|b l IH]; [done|]. unfold sum_balances in *. cbn [foldr]. by rewrite construct_balance.
Qed.

Lemma deployed_owned deployer : owned_by deployer (deployed deployer).
Proof. split; [apply construct_owner|]. intros m Hm. by apply elem_of_nil in Hm. Qed.

Lemma foldl_tx (P : Ledger → Prop) (Q : address * Call → Prop) calls g :
  (∀ g c, Q c → P g → P (tx g c)) → P g → Forall Q calls → P (foldl tx g calls).
Proof.
  intros Hstep. revert g. induction calls as [|c calls IH]; intros g Hg; [done|].
  intros [Hc Hcs]%Forall_cons. by apply IH; [apply Hstep|].
Qed.

(** C23: the accounts of wrapped BOLT.  Over base contracts that behave as
    documented and any calls of any senders: the supply is what was minted
    minus what was burned and stays below 2^256, no balance is negative, and
    any set of holders together has at most the supply.  As long as the
    deployer does not give the contract away, the deployer owns it and nobody
    else has minted. *)
Theorem wrapped_bolt_accounts deployer (calls : list (address * Call)) :
  Forall (λ c, 0 <= amount_of c.2)%Z calls →
  accounts (foldl tx (deployed deployer) calls) ∧
  (Forall (λ c, gives_away c.2 = true → c.1 ≠ deployer) calls →
   owned_by deployer (foldl tx (deployed deployer) calls)).
Proof.
  intros Hv. split.
  - apply (foldl_tx _ _ _ _ tx_accounts); [apply deployed_accounts | done].
  - intros Hc. apply (foldl_tx (owned_by deployer) (λ c, (0 <= amount_of c.2)%Z ∧ (gives_away c.2 = true → c.1 ≠ deployer))).
    + intros g c [H1 H2]. by apply tx_owned.
    + apply deployed_owned.
    + by apply list.Forall_and.
Qed.
End WrappedBolt.
End WrappedBolt.

(** ** A token with these laws *)

Record Token := {
  tk_owner : address; tk_supply : Z; tk_balances : address → Z; tk_allowances : address → address → Z }.

Definition add_to (a : address) (v : Z) (f : address → Z) (b : address) : Z :=
  (f b + if decide (b = a) then v else 0)%Z.

Definition set_owner (a : address) (t : Token) : Token :=
  {| tk_owner := a; tk_supply := tk_supply t; tk_balances := tk_balances t; tk_allowances := tk_allowances t |}.

Definition move_token (a b : address) (v : Z) (t : Token) : option Token :=
  if (tk_balances t a <? v)%Z || String.eqb b ZERO_ADDRESS then None
  else Some {| tk_owner := tk_owner t; tk_supply := tk_supply t;
               tk_balances := add_to b v (add_to a (- v) (tk_balances t)); tk_allowances := tk_allowances t |}.

#[global] Instance Token_ERC20 : ERC20 Token := {|
  totalSupply := tk_supply;
  balanceOf a t := tk_balances t a;
  owner := tk_owner;
  construct a := {| tk_owner := a; tk_supply := 0; tk_balances := λ _, 0%Z; tk_allowances := λ _ _, 0%Z |};
  mint_internal a v t :=
    if String.eqb a ZERO_ADDRESS || (UINT256 <=? tk_supply t + v)%Z then None
    else Some {| tk_owner := tk_owner t; tk_supply := (tk_supply t + v)%Z; tk_balances := add_to a v (tk_balances t);
               tk_allowances := tk_allowances t |};
  burn_internal a v t :=
    if (tk_balances t a <? v)%Z then None
    else Some {| tk_owner := tk_owner t; tk_supply := (tk_supply t - v)%Z; tk_balances := add_to a (- v) (tk_balances t);
               tk_allowances := tk_allowances t |};
  transfer a b v t := move_token a b v t;
  transferFrom s a b v t := if (v <=? tk_allowances t a s)%Z then move_token a b v t else None;
  approve s a v t := Some {| tk_owner := tk_owner t; tk_supply := tk_supply t; tk_balances := tk_balances t;
    tk_allowances := λ h p, if decide (h = s ∧ p = a) then v else tk_allowances t h p |};
  transferOwnership s a t := if String.eqb s (tk_owner t) && negb (String.eqb a ZERO_ADDRESS) then Some (set_owner a t) else None;
  renounceOwnership s t := if String.eqb s (tk_owner t) then Some (set_owner ZERO_ADDRESS t) else None |}.

Lemma move_token_spec a b v t t' : move_token a b v t = Some t' → moved a b v t t' ∧ owner t' = owner t.
Proof.
  unfold move_token. destruct (Z.ltb_spec (tk_balances t a) v); [done|]. destruct (String.eqb b ZERO_ADDRESS); [done|].
  intros [= <-]. split; [|done]. unfold moved, add_to. cbn. split_and!; [lia | done |].
  intros c. unfold add_to. destruct (decide (c = a)), (decide (c = b)); lia.
Qed.

#[global] Instance Token_laws : ERC20Laws Token.
Proof.
  split; try done; cbn [mint_internal burn_internal transfer transferFrom approve transferOwnership renounceOwnership Token_ERC20].
  - intros a v t t' _. destruct (String.eqb_spec a ZERO_ADDRESS); [done|].
    destruct (Z.leb_spec UINT256 (tk_supply t + v)); [done|]. by intros [= <-].
  - intros a v t t' _. destruct (Z.ltb_spec (tk_balances t a) v); [done|]. intros [= <-]. cbn.
    split_and!; [lia | done | done |]. intros b. unfold add_to. destruct (decide (b = a)); lia.
  - intros s b v t t' _. apply move_token_spec.
  - intros s a b v t t' _. destruct (_ <=? _)%Z; [apply move_token_spec | done].
  - by intros s a v t t' [= <-].
  - intros s a t t'. destruct (String.eqb_spec s (tk_owner t)); [|done]. destruct (negb _); [|done]. by intros [= <-].
  - intros s t t'. destruct (String.eqb_spec s (tk_owner t)); [|done]. by intros [= <-].
Qed.

(** The deployer mints, a holder transfers and burns, and a stranger's mint reverts. *)
Definition sc_calls : list (address * WrappedBolt.Call) :=
  [("coord", WrappedBolt.CMint "coord" 1000); ("eve", WrappedBolt.CMint "eve" 5);
   ("coord", WrappedBolt.CTransfer "w1" 300); ("w1", WrappedBolt.CBurn 100); ("eve", WrappedBolt.CRenounceOwnership)].

Lemma wrapped_bolt_accounts_witness :
  let g := foldl (WrappedBolt.tx (T := Token)) (WrappedBolt.deployed "coord") sc_calls in
  WrappedBolt.accounts g ∧ WrappedBolt.owned_by "coord" g ∧ totalSupply (WrappedBolt.lg_token g) = 900%Z.
Proof.
  destruct (WrappedBolt.wrapped_bolt_accounts (T := Token) "coord" sc_calls) as [H1 H2].
  { unfold sc_calls. repeat (apply Forall_cons_2; [cbn; lia|]). apply Forall_nil_2. }
  split; [exact H1|]. split; [|reflexivity]. apply H2.
  unfold sc_calls. repeat (apply Forall_cons_2; [done|]). apply Forall_nil_2.
Defined.
