(* ===== verification/Refinement.v ===== *)
(** * Every event of the coordinator is a sequence of moves

    The code of Coordinator.v implements the moves of Moves.v: [exec_moves].
    The invariant of Moves.v therefore holds in every reachable state, also
    after the server was restarted on its database. *)

From stdpp Require Import base list gmap strings option relations.
From Stdlib Require Import ZArith Lia Ascii.
From S2P Require Import Prelude Js JsNum Protocol Interfaces Db WorkerHub Jobs Routes Core Moves HubFacts Coordinator.
Local Open Scope string_scope.

Lemma uuid_not_demo u : is_uuid u = true → isDemoJob u = false.
Proof.
  unfold is_uuid, isDemoJob, startsWith. rewrite andb_true_iff. intros [_ Hf].
  destruct u as [|a u]; cbn [String.prefix]; [done|]. destruct (Ascii.ascii_dec "d"%char a) as [<-|]; [|done].
  destruct u as [|b u]; cbn [String.prefix]; [done|]. destruct (Ascii.ascii_dec "e"%char b) as [<-|]; [|done].
  destruct u as [|c u]; cbn [String.prefix]; [done|]. destruct (Ascii.ascii_dec "m"%char c) as [<-|]; done.
Qed.

Lemma uuid_nonempty u : is_uuid u = true → u ≠ "".
Proof. by intros H ->. Qed.

Lemma demo_id_inj u u' : demo_id u = demo_id u' → u = u'.
Proof. unfold demo_id. simpl. by intros [= ?]. Qed.

Section Refinement.
  Context {B W : Type} `{!PayoutQueue B} `{!PayoutQueue W} `{!Ed25519}.
  Context `{!PayoutQueueLaws B} `{!PayoutQueueLaws W}.
  Context (N : gset string) {F : gmap string JobRow}.
  Hypothesis N_new : ∀ j, j ∈ N → F !! j = None.
  Implicit Types (h : Hub B W) (s : Sys B W) (ls : list RetryLoop) (D : gset string).

(** The view of a hub, with loops [ls] and drawn uuids [D]. *)
Definition pview (p : jsmap TrackedWorker * Db * option B * option W) ls D : View B W :=
  mkView p.1.1.1 p.1.1.2 p.1.2 p.2 ls D.
Definition hview h ls D : View B W := pview (hparts h) ls D.
Definition view s : View B W := hview (hub s) (loops s) (drawn s).

(** A uuid that occurs nowhere in a hub. *)
Record fresh (u : string) (v : View B W) : Prop := {
  fresh_worker : jm_get u (v_ws v) = None;
  fresh_job : jobs (v_db v) !! u = None;
  fresh_idle : isDemoJob u = false → idle_nobody u (v_ws v);
  fresh_receipt : u ∉ (rr_id <$> receipts (v_db v));
  fresh_demo : idle_nobody (demo_id u) (v_ws v);
  fresh_bolt d : v_bolt v = Some d → demo_id u ∉ (pq_accounted d).*2;
  fresh_wbolt d : v_wbolt v = Some d → demo_id u ∉ (pq_accounted d).*2 }.

Lemma paid_fresh {A} `{!PayoutQueue A} ws js D (d : A) u :
  paid_ok F ws js D d → u ∉ D → demo_id u ∉ (pq_accounted d).*2.
Proof.
  intros (_ & _ & Hdm & _) Hu ([pk j] & Heq & Hin)%list_elem_of_fmap. simpl in Heq. subst.
  destruct (Hdm pk _ Hin (demo_id_demo u)) as (_ & u' & ->%demo_id_inj & ?). done.
Qed.

Lemma vinv_fresh v u : vinv F v → u ∉ v_drawn v → fresh u v.
Proof.
  intros Hv Hu. split.
  - apply jm_get_None. intros ?%(vi_ws_drawn _ Hv). done.
  - destruct (jobs (v_db v) !! u) eqn:Hj; [|done]. by apply (vi_jobs_drawn _ Hv) in Hj.
  - intros Hd id w Hw Ha. destruct (core_active _ _ _ _ (vi_core _ Hv) id w u Hw Ha Hd) as (r & Hr & _).
    by apply (vi_jobs_drawn _ Hv) in Hr.
  - intros (rc & -> & Hrc)%list_elem_of_fmap. by apply (vi_receipts _ Hv) in Hrc as [_ ?].
  - intros id w Hw Ha. destruct (vi_demo _ Hv id w _ Hw Ha (demo_id_demo u)) as (u' & ->%demo_id_inj & ?).
    done.
  - intros d Hd. eapply paid_fresh; [by apply (vi_bolt _ Hv) | done].
  - intros d Hd. eapply paid_fresh; [by apply (vi_wbolt _ Hv) | done].
Qed.

(** ** Hub methods as moves *)

Lemma handleDisconnect_moves id h ls D :
  vinv F (hview h ls D) → rtc (move N) (hview h ls D) (hview (handleDisconnect id h) ls D).
Proof.
  intros Hv. unfold handleDisconnect. destruct (jm_get id (workers h)) as [w|] eqn:Hw; [|done].
  apply rtc_once. destruct (w_activeJobId w) as [j|] eqn:Ha.
  - destruct (isDemoJob j) eqn:Hd; simpl.
    + rewrite andb_false_r. eapply (mv_leave N (hview h ls D)); [done|]. intros. by simplify_eq.
    + assert (str_truthy j = true) as ->.
      { destruct (core_active _ _ _ _ (vi_core _ Hv) id w j Hw Ha Hd) as (r & Hr & _).
        apply (vi_jobs_drawn _ Hv) in Hr. unfold str_truthy.
        destruct (String.eqb_spec j ""); [|done]. subst. by apply (vi_nonempty _ Hv) in Hr. }
      by eapply (mv_abort N (hview h ls D)).
  - eapply (mv_leave N (hview h ls D)); [done|]. intros. by simplify_eq.
Qed.

Lemma handleRegister_moves cfg c m id now h ls D :
  id ∈ D → jm_get id (workers h) = None →
  rtc (move N) (hview h ls D) (hview (handleRegister cfg c m id now h) ls D).
Proof.
  intros HD Hn. unfold handleRegister, hview at 2. rewrite (frame_parts _ _ (send_frame _ _ _)).
  by apply rtc_once, (mv_register N (hview h ls D)).
Qed.

Lemma handleHeartbeat_moves pk now h ls D :
  rtc (move N) (hview h ls D) (hview (handleHeartbeat pk now h) ls D).
Proof.
  unfold handleHeartbeat. destruct (findByPubkey pk h) as [[id w]|]; [|done].
  unfold hview at 2. rewrite (frame_parts _ _ (send_frame _ _ _)).
  by apply rtc_once, (mv_touch N (hview h ls D)).
Qed.

Lemma reputationFetched_moves i score h ls D :
  rtc (move N) (hview h ls D) (hview (reputationFetched i score h) ls D).
Proof.
  unfold reputationFetched. destruct (repFetches h !! i) as [id|]; [|done].
  destruct score as [x|]; [|done]. case_match; [|done]. by apply rtc_once, (mv_touch N (hview h ls D)).
Qed.

Lemma stakeFetched_moves i tier h ls D :
  rtc (move N) (hview h ls D) (hview (stakeFetched i tier h) ls D).
Proof.
  unfold stakeFetched. destruct (stakeFetches h !! i) as [id|]; [|done].
  destruct tier as [x|]; [|done]. case_match; [|done]. by apply rtc_once, (mv_touch N (hview h ls D)).
Qed.

Lemma feedbackSettled_parts i r h : hparts (feedbackSettled i r h) = hparts h.
Proof.
  unfold feedbackSettled. destruct (feedbacks h !! i) as [[c j]|]; [|done].
  destruct r as [tx|e]; [case_match; [|done]|]; by rewrite (frame_parts _ _ (send_frame _ _ _)).
Qed.

Lemma completeTxn_Ok msg pk rid now d d' :
  completeTxn msg pk rid now d = Ok d' →
  ∃ rcs, d' = mkDb (alter (set_completed (jc_output msg) now) (jc_job_id msg) (jobs d))
                (trust_pairings d) (receipts d ++ rcs)%list ∧
    (rcs = [] ∨ (∃ rc, rcs = [rc] ∧ rr_id rc = rid ∧ is_Some (jobs d !! rr_job_id rc))).
Proof.
  unfold completeTxn. intros Hok.
  assert (Ok (update_completed (jc_output msg) now (jc_job_id msg) d) = Ok d' →
    ∃ rcs, d' = mkDb (alter (set_completed (jc_output msg) now) (jc_job_id msg) (jobs d))
                (trust_pairings d) (receipts d ++ rcs)%list ∧
    (rcs = [] ∨ (∃ rc, rcs = [rc] ∧ rr_id rc = rid ∧ is_Some (jobs d !! rr_job_id rc)))) as Hplain.
  { intros [= <-]. exists []. rewrite app_nil_r. by split; [|left]. }
  destruct (jc_receipt msg) as [r|]; [|auto]. destruct (jc_receipt_signature msg) as [sig|]; [|auto].
  destruct (str_truthy sig); [|auto]. apply insert_receipt_Ok in Hok as (_ & Hj & ->).
  eexists [_]. split; [done|]. right. eexists. split_and!; [done | done |]. simpl in *.
  rewrite lookup_alter in Hj. case_decide as Heq; [|done].
  apply fmap_is_Some in Hj. by rewrite <- Heq.
Qed.

Lemma handleJobComplete_moves cfg msg rid now h h' ls D :
  vinv F (hview h ls D) → rid ∈ D → rid ∉ (rr_id <$> receipts (db h)) →
  handleJobComplete cfg msg rid now h = Ok h' →
  rtc (move N) (hview h ls D) (hview h' ls D).
Proof.
  intros Hv Hrid Hnew. unfold handleJobComplete.
  destruct (findByActiveJob _ h) as [[id w]|] eqn:Hf; [|by intros [= ->]].
  apply findByActiveJob_Some in Hf as [Hw Ha]; [|apply Hv].
  destruct (isDemoJob (jc_job_id msg)) eqn:Hd.
  - intros [= <-]. apply rtc_once. unfold hview at 2. rewrite queue_both_parts.
    destruct (proj1 (hparts_eq _ _ _ _ _) (startFeedback_parts cfg (w_ws w) (jc_job_id msg)
       (on_workers (jm_mutate set_idle id) h))) as (-> & -> & -> & ->).
    by eapply (mv_demo_done N (hview h ls D)).
  - destruct (completeTxn _ _ _ _ _) as [d|e] eqn:Htx; [|done]. simpl. intros [= <-].
    apply completeTxn_Ok in Htx as (rcs & -> & Hrcs). apply rtc_once.
    unfold hview at 2, hparts; simpl.
    destruct (proj1 (hparts_eq _ _ _ _ _) (queue_both_parts (w_pubkey w) (jc_job_id msg)
      (startFeedback cfg (w_ws w) (jc_job_id msg) (on_db (λ _, mkDb (alter (set_completed (jc_output msg) now)
        (jc_job_id msg) (jobs (db h))) (trust_pairings (db h)) (receipts (db h) ++ rcs)%list) h))))
      as (-> & -> & -> & ->).
    destruct (proj1 (hparts_eq _ _ _ _ _) (startFeedback_parts cfg (w_ws w) (jc_job_id msg)
      (on_db (λ _, mkDb (alter (set_completed (jc_output msg) now)
        (jc_job_id msg) (jobs (db h))) (trust_pairings (db h)) (receipts (db h) ++ rcs)%list) h)))
      as (-> & -> & -> & ->).
    eapply (mv_complete N (hview h ls D)); [done | done | done |].
    destruct Hrcs as [-> |(rc & -> & Hid & ?)]; [by left | right]. subst. eauto.
Qed.

Lemma handleJobReject_moves msg h ls D :
  vinv F (hview h ls D) → rtc (move N) (hview h ls D) (hview (handleJobReject msg h) ls D).
Proof.
  intros Hv. unfold handleJobReject.
  destruct (findByActiveJob _ h) as [[id w]|] eqn:Hf; [|done].
  apply findByActiveJob_Some in Hf as [Hw Ha]; [|apply Hv]. apply rtc_once.
  destruct (isDemoJob (jr_job_id msg)) eqn:Hd.
  - by eapply (mv_demo_reject N (hview h ls D)).
  - by eapply (mv_reject N (hview h ls D)).
Qed.

Lemma handleReceiptSubmit_moves msg rid now h h' ls D :
  rid ∈ D → handleReceiptSubmit msg rid now h = Ok h' →
  rtc (move N) (hview h ls D) (hview h' ls D).
Proof.
  intros Hrid. unfold handleReceiptSubmit.
  destruct (insert_receipt _ (db h)) as [d|] eqn:Hi; [|done]. simpl. intros [= <-].
  apply rtc_once. eapply (mv_receipt N (hview h ls D)); [|exact Hi]. done.
Qed.

Lemma drop_loop_id j ls : (∀ l, l ∈ ls → l_jobId l ≠ j) → drop_loop j ls = ls.
Proof. apply filter_id. Qed.

Lemma drop_loop_nth ls i l :
  NoDup (l_jobId <$> ls) → ls !! i = Some l →
  (take i ls ++ drop (S i) ls)%list = drop_loop (l_jobId l) ls.
Proof.
  intros Hnd Hi. rewrite <- (take_drop_middle ls i l Hi) in Hnd |- * at 3.
  rewrite fmap_app, fmap_cons in Hnd. apply NoDup_app in Hnd as (_ & Hne & Hnd).
  apply NoDup_cons in Hnd as [Hn _]. unfold drop_loop.
  rewrite filter_app, filter_cons_False by naive_solver.
  rewrite !filter_id; [done | |].
  - intros l' Hl' Heq. apply Hn. rewrite <- Heq. by apply list_elem_of_fmap_2.
  - intros l' Hl' Heq. eapply (Hne (l_jobId l')); [by apply list_elem_of_fmap_2|].
    rewrite Heq. left.
Qed.

(** The commit route. *)
Lemma handleCommit_moves tier body j now h resp l h' ls D :
  vinv F (hview h ls D) → j ∈ D → j ∈ N → fresh j (hview h ls D) → is_uuid j = true →
  handleCommit tier body j now h = Ok (resp, l, h') →
  rtc (move N) (hview h ls D) (hview h' (ls ++ option_list l)%list D).
Proof.
  intros Hv HD HN Hfr Hu. unfold handleCommit.
  destruct (cb_job_type body) as [jt|]; [|by intros [= <- <- <-]; rewrite app_nil_r].
  destruct (cb_payload body) as [pl|]; [|by intros [= <- <- <-]; rewrite app_nil_r].
  destruct (cb_user_id body) as [u|]; [|by intros [= <- <- <-]; rewrite app_nil_r].
  case_match; [by intros [= <- <- <-]; rewrite app_nil_r|].
  destruct (parse_JobType jt) as [t|]; [|by intros [= <- <- <-]; rewrite app_nil_r].
  set (pc := default "PUBLIC" (cb_privacy_class body)).
  destruct (insert_job j t tier pc u pl now (db h)) as [d|e] eqn:Hins; [|done]. simpl.
  set (h1 := on_db (λ _, d) h). apply uuid_not_demo in Hu.
  assert (move N (hview h ls D) (hview h1 ls D)) as Hsub.
  { by eapply (mv_submit N (hview h ls D)); [| | apply Hfr | ]. }
  pose proof (move_vinv _ _ _ N_new Hsub Hv) as Hv1.
  assert (jobs d !! j = Some (mkJob t tier pc u Pending pl None None now None)) as Hrow.
  { unfold insert_job in Hins. case_match; [done|]. simplify_eq/=. by rewrite lookup_insert_eq. }
  assert (∀ l, l ∈ ls → l_jobId l ≠ j) as Hnl.
  { intros l0 Hl0 Heq. destruct (vi_loops _ Hv l0 Hl0) as (_ & _ & r & Hr & _).
    rewrite Heq in Hr. by rewrite (fresh_job _ _ Hfr) in Hr. }
  destruct (tryAssign j t tier pc u pl now h1) as [h2|] eqn:Htry.
  - intros [= <- <- <-]. rewrite app_nil_r.
    destruct (tryAssign_Some _ _ _ _ _ _ _ _ _ (core_wf _ _ _ _ (vi_core _ Hv1)) Htry)
      as (id & w & Hw & (Hi & Hc & Ht) & Hp).
    eapply rtc_l; [done|]. apply rtc_once.
    unfold hview at 2. rewrite Hp. unfold pview; simpl. rewrite <- (drop_loop_id j ls Hnl) at 2.
    eapply (mv_assign N (hview h1 ls D)); try done. by left.
  - case_match; intros [= <- <- <-].
    + rewrite app_nil_r. eapply rtc_l; [done|]. apply rtc_once.
      rewrite <- (drop_loop_id j ls Hnl) at 2.
      eapply (mv_fail N (hview h1 ls D)); try done. by left.
    + eapply rtc_l; [done|]. apply rtc_once. eapply (mv_loop_start N (hview h1 ls D)).
      * split_and!; [simpl; unfold maxAttempts; lia | | ].
        -- simpl. by apply String.eqb_neq.
        -- eexists. split; [exact Hrow|]. done.
      * intros (l0 & Heq & Hl0)%list_elem_of_fmap. simpl in Heq. by eapply Hnl.
      * done.
Qed.

(** A tick of the [i]-th retry loop; its job is pending. *)
Lemma retryTick_moves i l now h l' h' ls D :
  vinv F (hview h ls D) → ls !! i = Some l → retryTick l now h = (l', h') →
  rtc (move N) (hview h ls D) (hview h' (take i ls ++ option_list l' ++ drop (S i) ls)%list D).
Proof.
  intros Hv Hi. destruct (vi_loops _ Hv l) as (Hat & Hpriv & r & Hr & Hst & Ht & Hp & Hpc & Hu & Hpl);
    [by eapply list_elem_of_lookup_2|].
  pose proof (drop_loop_nth ls i l (vi_loops_nodup _ Hv) Hi) as Hdrop.
  unfold retryTick. cbn -[Nat.leb maxAttempts] in *. rewrite Hr. rewrite bool_decide_true by done.
  cbn -[Nat.leb maxAttempts].
  destruct (tryAssign _ _ _ _ _ _ _ h) as [h2|] eqn:Htry.
  - intros [= <- <-]. simpl. rewrite Hdrop. apply rtc_once.
    destruct (tryAssign_Some _ _ _ _ _ _ _ _ _ (core_wf _ _ _ _ (vi_core _ Hv)) Htry)
      as (id & w & Hw & (Hid & Hc & Htr) & Hparts).
    unfold hview at 2. rewrite Hparts. eapply (mv_assign N (hview h ls D)); try done.
    + by rewrite Ht.
    + rewrite Hpc, Hu. done.
    + right. by eapply list_elem_of_fmap_2, list_elem_of_lookup_2.
  - case_match eqn:Hmax; intros [= <- <-]; apply rtc_once.
    + simpl. rewrite Hdrop. eapply (mv_fail N (hview h ls D)); try done.
      right. by eapply list_elem_of_fmap_2, list_elem_of_lookup_2.
    + pose proof (lookup_lt_Some _ _ _ Hi) as Hlt. apply (mv_loop_tick N (hview h ls D)) in Hi.
      * simpl in Hi. by rewrite insert_take_drop in Hi.
      * by apply Nat.leb_gt in Hmax.
Qed.

Lemma prune_fold_moves now (l : list (string * TrackedWorker)) h ls D :
  vinv F (hview h ls D) →
  rtc (move N) (hview h ls D)
    (hview (foldl (λ h e, if stale now e.2 then handleDisconnect e.1 (closeSocket (w_ws e.2) h) else h) h l)
       ls D).
Proof.
  revert h. induction l as [|e l IH]; intros h Hv; simpl; [done|].
  destruct (stale now e.2); [|by apply IH].
  assert (hview (closeSocket (w_ws e.2) h) ls D = hview h ls D) as Hcl by done.
  pose proof (handleDisconnect_moves e.1 (closeSocket (w_ws e.2) h) ls D) as Hm.
  rewrite Hcl in Hm. etrans; [by apply Hm|]. apply IH. eapply moves_vinv; [exact N_new | by apply Hm | done].
Qed.

Lemma handleClose_moves wid c h ls D :
  vinv F (hview h ls D) → rtc (move N) (hview h ls D) (hview (handleClose wid c h) ls D).
Proof.
  intros Hv. unfold handleClose. destruct wid as [id|]; [|done]. case_match; [|done].
  by apply (handleDisconnect_moves id (on_sockets (<[c := SockClosed]>) h)).
Qed.

Lemma demoTick_moves fired tid iw it ip u dm h ls D :
  vinv F (hview h ls D) → u ∈ D → fresh u (hview h ls D) →
  rtc (move N) (hview h ls D) (hview (demoTick fired tid iw it ip u dm h).2 ls D).
Proof.
  intros Hv HD Hfr. unfold demoTick. simpl. destruct (demoActive dm); [|done]. simpl.
  destruct (pickRandom iw (getIdleWorkers h)) as [[id w]|]; [|done].
  destruct (pickRandom it TASK_TYPES) as [t|]; [|done].
  destruct (pickRandom ip (DEMO_PROMPTS t)) as [prompt|]; [|done].
  unfold injectDemoJob. simpl. destruct (jm_get (w_id w) (workers h)) as [w'|] eqn:Hw; [|done].
  case_decide; [|done]. unfold hview at 2. simpl.
  rewrite (frame_parts _ _ (send_frame _ _ _)). apply rtc_once.
  by eapply (mv_demo_start N (hview h ls D)); try apply Hfr.
Qed.

Lemma trustCreate_moves user id code now h ls D :
  id ∈ D → rtc (move N) (hview h ls D) (hview (on_db (λ d, (trustCreate user id code now d).2) h) ls D).
Proof.
  intros HD. unfold trustCreate. destruct user as [u|]; [|done].
  unfold hview at 2, hparts, on_db; simpl. destruct (str_truthy u); [|done].
  destruct (insert_pairing _ _ _ _ _ (db h)) as [d'|] eqn:Hi; [|done]. simpl.
  apply rtc_once. by eapply (mv_pairing N (hview h ls D)).
Qed.

Lemma trustClaim_moves code pk now h ls D :
  rtc (move N) (hview h ls D) (hview (on_db (λ d, (trustClaim code pk now d).2) h) ls D).
Proof.
  unfold trustClaim. destruct code as [c|]; [|done]. destruct pk as [p|]; [|done].
  unfold hview at 2, hparts, on_db; simpl. case_match; [|done].
  destruct (select_pairing c (db h)) as [t|] eqn:Hs; [|done]. destruct (t_claimed t) eqn:Hc; [done|].
  case_match; [done|]. apply rtc_once. by eapply (mv_claim N (hview h ls D)).
Qed.

(** ** Events *)

Lemma handleMessage_moves cfg c wid raw id rid now h wid' h' ls D :
  vinv F (hview h ls D) → id ∈ D → rid ∈ D → fresh id (hview h ls D) → fresh rid (hview h ls D) →
  handleMessage cfg c wid raw id rid now h = Ok (wid', h') →
  rtc (move N) (hview h ls D) (hview h' ls D).
Proof.
  intros Hv Hid Hrid Hf Hfr. destruct raw as [| |t|[m|pk|m|m|m]|err| | |m err]; simpl; [|done|..].
  - intros [= _ <-]. unfold hview at 2. by rewrite (frame_parts _ _ (send_frame _ _ _)).
  - intros [= _ <-]. unfold hview at 2. by rewrite (frame_parts _ _ (send_frame _ _ _)).
  - intros [= _ <-]. apply handleRegister_moves; [done | apply Hf].
  - intros [= _ <-]. apply handleHeartbeat_moves.
  - destruct (handleJobComplete _ _ _ _ h) eqn:Hc; [|done]. intros [= _ <-].
    eapply handleJobComplete_moves; [done | exact Hrid | apply Hfr | done].
  - intros [= _ <-]. by apply handleJobReject_moves.
  - destruct (handleReceiptSubmit _ _ _ h) eqn:Hc; [|done]. intros [= _ <-].
    by eapply handleReceiptSubmit_moves.
  - done.
  - by intros [= _ <-].
  - case_match; [done|]. by intros [= _ <-].
  - case_match; [done|]. destruct (handleJobComplete _ _ _ _ h) eqn:Hc; [|done]. intros [= _ <-].
    eapply handleJobComplete_moves; [done | exact Hrid | apply Hfr | done].
Qed.

(** One event, from a view in which its uuids count as drawn. *)
Lemma exec_event_moves cfg e s s' D :
  enabled e s → exec_event cfg e s = Ok s' →
  (∀ u, u ∈ draws e → u ∈ N) →
  vinv F (hview (hub s) (loops s) D) → (∀ u, u ∈ draws e → u ∈ D ∧ fresh u (hview (hub s) (loops s) D)) →
  rtc (move N) (hview (hub s) (loops s) D) (hview (hub s') (loops s') D) ∧ drawn s' = drawn s.
Proof.
  intros (Huuid & _ & Hen) Hex HN Hv Hfr. destruct e; simpl in *.
  - by simplify_eq/=.
  - destruct (handleMessage _ _ _ _ _ _ _ _) as [[wid h]|] eqn:Hm; [|done]. simplify_eq/=.
    split; [|done]. destruct (Hfr id) as [? ?]; [set_solver|]. destruct (Hfr rid) as [? ?]; [set_solver|].
    eapply handleMessage_moves; [done | | | | | exact Hm]; done.
  - simplify_eq/=. split; [by apply handleClose_moves | done].
  - simplify_eq/=. split; [by apply prune_fold_moves | done].
  - simplify_eq/=. split; [apply reputationFetched_moves | done].
  - simplify_eq/=. split; [apply stakeFetched_moves | done].
  - simplify_eq/=. unfold hview. by rewrite feedbackSettled_parts.
  - destruct Hen as (d & Hd & Hs). rewrite Hd in Hex. simplify_eq/=. split; [|done].
    unfold hview at 2. rewrite (frame_parts _ _ (bolt_advance_frame _ _ _)).
    apply rtc_once. by eapply (mv_bolt N (hview (hub s) (loops s) D)).
  - destruct Hen as (d & Hd & Hs). rewrite Hd in Hex. simplify_eq/=. split; [|done].
    unfold hview at 2. rewrite (frame_parts _ _ (wbolt_advance_frame _ _ _)).
    apply rtc_once. by eapply (mv_wbolt N (hview (hub s) (loops s) D)).
  - destruct (Hfr jobId) as [? ?]; [set_solver|]. destruct (Huuid jobId) as [? _]; [set_solver|].
    destruct (handleCommit _ _ _ _ _) as [[[resp l] h]|] eqn:Hc; simplify_eq/=; [|done].
    split; [|done]. eapply handleCommit_moves; try done. apply HN. set_solver.
  - destruct (loops s !! i) as [l|] eqn:Hl; [|by simplify_eq/=].
    destruct (retryTick l now (hub s)) as [l' h] eqn:Ht. simplify_eq/=.
    split; [by eapply retryTick_moves | done].
  - simplify_eq/=. split; [|done]. destruct (Hfr id) as [? _]; [set_solver|]. by apply trustCreate_moves.
  - simplify_eq/=. split; [apply trustClaim_moves | done].
  - by simplify_eq/=.
  - by simplify_eq/=.
  - destruct (Hfr uuid) as [? ?]; [set_solver|].
    pose proof (demoTick_moves fired tid iw it ip uuid (demo s) (hub s) (loops s) D Hv) as Hm.
    destruct (demoTick _ _ _ _ _ _ _ _) as [dm h]. simplify_eq/=. split; [by apply Hm | done].
Qed.

End Refinement.

Section System.
  Context {B W : Type} `{!PayoutQueue B} `{!PayoutQueue W} `{!Ed25519}.
  Context `{!PayoutQueueLaws B} `{!PayoutQueueLaws W}.
  Implicit Types (s : Sys B W).

(** The uuids of an event name no job found at the start. *)
Lemma draws_new e s :
  vinv (found s) (view s) → enabled e s →
  ∀ j, j ∈ (list_to_set (draws e) : gset string) → found s !! j = None.
Proof.
  intros Hv Hen j Hj%elem_of_list_to_set. destruct (proj1 Hen j Hj) as [_ Hn].
  destruct (found s !! j) as [r|] eqn:HF; [|done]. destruct (vi_found _ Hv j r HF) as [Hr _].
  by apply (vi_jobs_drawn _ Hv) in Hr.
Qed.

Lemma exec_moves cfg e s s' :
  vinv (found s) (view s) → enabled e s → exec cfg e s = Ok s' →
  rtc (move (list_to_set (draws e))) (view s) (view s').
Proof.
  intros Hv Hen Hex. unfold exec in Hex.
  destruct (exec_event cfg e s) as [s1|] eqn:Hev; [|done]. simpl in Hex. simplify_eq.
  set (D := drawn s ∪ list_to_set (draws e)).
  assert ("" ∉ (list_to_set (draws e) : gset string)) as Hne.
  { rewrite elem_of_list_to_set. intros Hin. apply (proj1 Hen) in Hin as [Hu _]. by apply uuid_nonempty in Hu. }
  set (N := list_to_set (draws e)).
  pose proof (draws_new e s Hv Hen : ∀ j, j ∈ N → found s !! j = None) as HN.
  assert (move N (view s) (hview (hub s) (loops s) D)) as Hdraw by (by apply (mv_draw N (view s))).
  destruct (exec_event_moves N HN cfg e s s1 D Hen Hev) as [Hm Hdr].
  - intros u Hu. by apply elem_of_list_to_set.
  - by eapply move_vinv.
  - intros u Hu. split; [subst D; set_solver|].
    destruct (proj1 Hen u Hu) as [_ Hfresh]. by destruct (vinv_fresh (view s) u Hv Hfresh); split.
  - eapply rtc_l; [done|]. unfold view, draw. simpl. by rewrite Hdr.
Qed.

Lemma paid_ok_new {A} `{!PayoutQueue A} F ws D (d : A) :
  pq_inv d → pq_accounted d = [] → paid_ok F ws F D d.
Proof.
  intros Hi Hacc. split_and!; [done | | |]; rewrite Hacc; [constructor | set_solver |].
  intros pk j _. split; [set_solver | intros (HF & r & Hr & _); congruence].
Qed.

Lemma initial_vinv s : initial s → vinv (found s) (view s).
Proof.
  intros (bd & wd & -> & Hb & Hw). split; simpl; [apply core_empty | .. | |].
  all: try (intros d Hd; apply paid_ok_new; first [by apply Hb | by apply Hw]).
  all: try set_solver. all: try done. all: repeat split; constructor.
Qed.

Lemma restart_vinv s s' : restart s s' → vinv (found s) (view s) → vinv (found s') (view s').
Proof.
  intros [bd wd [Hb Hw]] []. split; simpl; try done.
  - by eapply core_restart.
  - intros j r Hj. split_and!; [done | done | apply not_elem_of_nil].
  - intros id Hid. by apply elem_of_nil in Hid.
  - intros l Hl. by apply elem_of_nil in Hl.
  - constructor.
  - intros d Hd. by apply paid_ok_new; apply Hb.
  - intros d Hd. by apply paid_ok_new; apply Hw.
Qed.

Lemma step_vinv cfg s s' : step cfg s s' → vinv (found s) (view s) → vinv (found s') (view s').
Proof.
  intros [e s1 Hen Hex] Hv. rewrite (exec_found _ _ _ _ Hex).
  eapply moves_vinv; [by eapply draws_new | by eapply exec_moves | done].
Qed.

Lemma reachable_vinv cfg s : reachable cfg s → vinv (found s) (view s).
Proof.
  intros (s0 & Hi & Hr). apply initial_vinv in Hi. revert Hi.
  induction Hr as [|s1 s2 s3 [s' Hs|s' Hs] _ IH]; intros Hv; [done | |];
    eauto using step_vinv, restart_vinv.
Qed.
End System.
