(* ===== verification/Lifecycle.v ===== *)
(** * The lifecycle of a job, and what every reachable coordinator satisfies

    An abstract dispatcher ([lstep]) knows only the phase of each job.  Every
    step of the coordinator is a sequence of its steps; the theorems that
    follow are the guarantees of the service on reachable states. *)

From stdpp Require Import base list gmap strings option relations.
From Stdlib Require Import ZArith Lia.
From S2P Require Import Prelude Js JsNum Protocol Interfaces Payout Db WorkerHub Jobs Routes Core Moves HubFacts Coordinator Refinement.
Local Open Scope string_scope.

(** ** The abstract dispatcher *)

(** [Lost] is a job assigned to a worker of an earlier process of the server. *)
Inductive Phase := Waiting | RunningOn (worker : string) | Lost | Done | Dead.

Abbreviation Dispatcher := (gmap string Phase).

Inductive lstep (a : Dispatcher) : Dispatcher → Prop :=
  | ls_submit j : a !! j = None → lstep a (<[j := Waiting]> a)
  | ls_assign j w : a !! j = Some Waiting → (∀ j', a !! j' ≠ Some (RunningOn w)) →
      lstep a (<[j := RunningOn w]> a)
  | ls_finish j w : a !! j = Some (RunningOn w) → lstep a (<[j := Done]> a)
  | ls_return j w : a !! j = Some (RunningOn w) → lstep a (<[j := Waiting]> a)
  | ls_abort j w : a !! j = Some (RunningOn w) → lstep a (<[j := Dead]> a)
  | ls_expire j : a !! j = Some Waiting → lstep a (<[j := Dead]> a).

(** The worker that runs a job. *)
Definition runner (j : string) (ws : jsmap TrackedWorker) : option string :=
  (λ e : nat * (string * TrackedWorker), e.2.1) <$>
    list_find (λ e : string * TrackedWorker, w_activeJobId e.2 = Some j) ws.

Definition phase_of (ws : jsmap TrackedWorker) (j : string) (r : JobRow) : Phase :=
  match j_status r with
  | Pending => Waiting
  | Assigned | Running => match runner j ws with Some id => RunningOn id | None => Lost end
  | Completed => Done
  | Failed => Dead
  end.

Definition dispatcher_of (ws : jsmap TrackedWorker) (js : gmap string JobRow) : Dispatcher :=
  map_imap (λ j r, Some (phase_of ws j r)) js.

Lemma dispatcher_lookup ws js j : dispatcher_of ws js !! j = phase_of ws j <$> js !! j.
Proof. unfold dispatcher_of. rewrite map_lookup_imap. by destruct (js !! j). Qed.

Lemma runner_Some ws js T O j id :
  core ws js T O → runner j ws = Some id ↔ ∃ w, jm_get id ws = Some w ∧ w_activeJobId w = Some j.
Proof.
  intros Hc. unfold runner. split.
  - intros ([i [id' w]] & Hf & [= ->])%fmap_Some. apply list_find_Some in Hf as (Hi & Ha & _).
    exists w. split; [|done]. apply jm_elem_get; [apply Hc|]. by eapply list_elem_of_lookup_2.
  - intros (w & Hw & Ha). destruct (list_find _ ws) as [[i [id' w']]|] eqn:Hf; simpl.
    + apply list_find_Some in Hf as (Hi & Ha' & _). f_equal.
      eapply (core_inj _ _ _ _ Hc); [ | done | exact Ha' | done].
      apply jm_elem_get; [apply Hc|]. by eapply list_elem_of_lookup_2.
    + apply list_find_None in Hf. rewrite Forall_forall in Hf.
      apply jm_get_elem in Hw. by apply Hf in Hw.
Qed.

(** Whether worker [id] runs [j]. *)
Definition runs_at (ws : jsmap TrackedWorker) (id j : string) : Prop :=
  ∃ w, jm_get id ws = Some w ∧ w_activeJobId w = Some j.

Lemma runner_ext ws js T O ws' js' T' O' j :
  core ws js T O → core ws' js' T' O' → (∀ id, runs_at ws id j ↔ runs_at ws' id j) → runner j ws = runner j ws'.
Proof.
  intros Hc Hc' He. apply option_eq. intros id.
  rewrite (runner_Some _ _ _ _ _ _ Hc), (runner_Some _ _ _ _ _ _ Hc'). apply He.
Qed.

Lemma phase_running ws js T O j r id w :
  core ws js T O → js !! j = Some r → j_status r = Assigned →
  jm_get id ws = Some w → w_activeJobId w = Some j → phase_of ws j r = RunningOn id.
Proof.
  intros Hc Hj Hs Hw Ha. unfold phase_of. rewrite Hs.
  assert (runner j ws = Some id) as -> by (apply (runner_Some _ _ _ _ _ _ Hc); eauto). done.
Qed.

(** Two views whose rows agree outside [j] and whose workers run the same jobs outside [j]. *)
Lemma dispatcher_update ws js T O ws' js' T' O' j r' :
  core ws js T O → core ws' js' T' O' →
  (∀ k, k ≠ j → js' !! k = js !! k) → js' !! j = Some r' →
  (∀ k id, k ≠ j → is_Some (js !! k) → runs_at ws id k ↔ runs_at ws' id k) →
  dispatcher_of ws' js' = <[j := phase_of ws' j r']> (dispatcher_of ws js).
Proof.
  intros Hc Hc' Hjs Hj Hruns. apply map_eq. intros k.
  rewrite dispatcher_lookup, lookup_insert. case_decide as Hk; subst; [by rewrite Hj|].
  rewrite dispatcher_lookup, Hjs by done. destruct (js !! k) as [r|] eqn:Hr; [|done]. simpl. f_equal.
  unfold phase_of. rewrite (runner_ext _ _ _ _ _ _ _ _ k Hc Hc'); [done|]. intros. apply Hruns; eauto.
Qed.

Lemma dispatcher_same ws js T O ws' js' T' O' :
  core ws js T O → core ws' js' T' O' → js' = js →
  (∀ k id, is_Some (js !! k) → runs_at ws id k ↔ runs_at ws' id k) →
  dispatcher_of ws' js' = dispatcher_of ws js.
Proof.
  intros Hc Hc' -> Hruns. apply map_eq. intros k. rewrite !dispatcher_lookup.
  destruct (js !! k) as [r|] eqn:Hr; [|done]. simpl. f_equal.
  unfold phase_of. rewrite (runner_ext _ _ _ _ _ _ _ _ k Hc Hc'); [done|]. intros. apply Hruns; eauto.
Qed.

(** ** What a change of one worker does to [runs_at] *)

Lemma runs_at_mutate ws f id w k j :
  jm_get id ws = Some w → (w_activeJobId (f w) = Some j ↔ w_activeJobId w = Some j) →
  runs_at ws k j ↔ runs_at (jm_mutate f id ws) k j.
Proof.
  intros Hw Hf. unfold runs_at. setoid_rewrite jm_get_mutate.
  destruct (decide (id = k)) as [->|]; [|done]. rewrite Hw. simpl. naive_solver.
Qed.

Lemma runs_at_mutate_same ws f id k j :
  (∀ w, w_activeJobId (f w) = w_activeJobId w) → runs_at ws k j ↔ runs_at (jm_mutate f id ws) k j.
Proof.
  intros Hf. unfold runs_at. setoid_rewrite jm_get_mutate.
  destruct (decide (id = k)) as [->|]; [|done].
  split; [intros (w & -> & ?); exists (f w); by rewrite Hf |].
  intros (w' & (w & ? & ->)%fmap_Some & Ha). rewrite Hf in Ha. eauto.
Qed.

Lemma runs_at_delete ws id w k j :
  jm_wf ws → jm_get id ws = Some w → w_activeJobId w ≠ Some j →
  runs_at ws k j ↔ runs_at (jm_delete id ws) k j.
Proof.
  intros Hwf Hw Ha. unfold runs_at. setoid_rewrite jm_get_delete; [|done].
  destruct (decide (id = k)) as [->|]; [|done]. naive_solver.
Qed.

Lemma runs_at_set ws id w k j :
  jm_get id ws = None → w_activeJobId w = None → runs_at ws k j ↔ runs_at (jm_set id w ws) k j.
Proof.
  intros Hn Ha. unfold runs_at. setoid_rewrite jm_get_set.
  destruct (decide (id = k)) as [->|]; [|done]. naive_solver.
Qed.

Section Moves.
  Context {B W : Type} `{!PayoutQueue B} `{!PayoutQueue W} `{!PayoutQueueLaws B} `{!PayoutQueueLaws W}.
  Context (N : gset string) {F : gmap string JobRow}.
  Hypothesis N_new : ∀ j, j ∈ N → F !! j = None.
  Implicit Types v : View B W.

Definition dispatcher v : Dispatcher := dispatcher_of (v_ws v) (jobs (v_db v)).

Lemma dispatcher_idle v id w j :
  vinv F v → jm_get id (v_ws v) = Some w → w_status w = Idle → dispatcher v !! j ≠ Some (RunningOn id).
Proof.
  intros Hv Hw Hi. pose proof (vi_core _ Hv) as Hc. unfold dispatcher. rewrite dispatcher_lookup.
  destruct (jobs (v_db v) !! j) as [r|] eqn:Hr; [simpl|done]. intros [= Hp].
  destruct (core_rows _ _ _ _ Hc j r Hr) as [_ Hok].
  assert (j_status r = Assigned) as Hs by (unfold phase_of, row_ok in *; by destruct (j_status r)).
  unfold phase_of in Hp. rewrite Hs in Hp. destruct (runner j (v_ws v)) as [k|] eqn:Hk; [|done]. simplify_eq.
  apply (runner_Some _ _ _ _ _ _ Hc) in Hk as (w' & Hk & Ha). simplify_eq.
  apply (core_idle _ _ _ _ Hc) in Hw as Hiff. apply Hiff in Hi. congruence.
Qed.

Lemma dispatcher_step v v' j r' p :
  vinv F v → vinv F v' → (∀ k, k ≠ j → jobs (v_db v') !! k = jobs (v_db v) !! k) →
  jobs (v_db v') !! j = Some r' →
  (∀ k i, k ≠ j → is_Some (jobs (v_db v) !! k) → runs_at (v_ws v) i k ↔ runs_at (v_ws v') i k) →
  phase_of (v_ws v') j r' = p →
  dispatcher v' = <[j := p]> (dispatcher v).
Proof. intros Hv Hv' Hk Hj Hr <-. eapply dispatcher_update; [apply Hv | apply Hv' | done ..]. Qed.

(** The row of a running job changes to another status. *)
Lemma running_lstep v v' id w j g (p : Phase) :
  vinv F v → vinv F v' → jm_get id (v_ws v) = Some w → w_activeJobId w = Some j → isDemoJob j = false →
  jobs (v_db v') = alter g j (jobs (v_db v)) →
  (∀ k i, k ≠ j → runs_at (v_ws v) i k ↔ runs_at (v_ws v') i k) →
  (∀ r, phase_of (v_ws v') j (g r) = p) →
  dispatcher v !! j = Some (RunningOn id) ∧ dispatcher v' = <[j := p]> (dispatcher v).
Proof.
  intros Hv Hv' Hw Ha Hd Hjs Hruns Hp. pose proof (vi_core _ Hv) as Hc.
  destruct (core_active _ _ _ _ Hc id w j Hw Ha Hd) as (r & Hr & Hs & _). split.
  - unfold dispatcher. rewrite dispatcher_lookup, Hr. simpl. f_equal. by eapply phase_running.
  - eapply dispatcher_step; [done | done | | | | apply (Hp r)].
    + intros k Hk. by rewrite Hjs, lookup_alter_ne.
    + by rewrite Hjs, lookup_alter_eq, Hr.
    + intros. by apply Hruns.
Qed.

Lemma runs_at_idle v id w j k i :
  jm_get id (v_ws v) = Some w → w_activeJobId w = Some j → k ≠ j →
  runs_at (v_ws v) i k ↔ runs_at (jm_mutate set_idle id (v_ws v)) i k.
Proof. intros Hw Ha Hk. eapply runs_at_mutate; [done|]. simpl. naive_solver. Qed.

(** Demo jobs have no row. *)
Lemma row_not_demo v k u : vinv F v → is_Some (jobs (v_db v) !! k) → isDemoJob u = true → k ≠ u.
Proof. intros Hv [r Hr] Hd ->. destruct (core_rows _ _ _ _ (vi_core _ Hv) _ _ Hr). congruence. Qed.

Lemma move_lstep v v' : vinv F v → move N v v' → rtc lstep (dispatcher v) (dispatcher v').
Proof.
  intros Hv Hm. pose proof (move_vinv _ _ _ N_new Hm Hv) as Hv'.
  pose proof (vi_core _ Hv) as Hc. pose proof (vi_core _ Hv') as Hc'.
  assert (jobs (v_db v') = jobs (v_db v) →
    (∀ k i, is_Some (jobs (v_db v) !! k) → runs_at (v_ws v) i k ↔ runs_at (v_ws v') i k) →
    rtc lstep (dispatcher v) (dispatcher v')) as Hsame.
  { intros Hjs Hr. unfold dispatcher.
    erewrite (dispatcher_same _ _ _ _ (v_ws v')); [done | apply Hc | apply Hc' | done | done]. }
  destruct Hm; simpl in *; try (by apply Hsame).
  - apply Hsame; [done|]. intros k i _. apply runs_at_mutate_same. intros w. by destruct (H w) as (_&_&_&_&->).
  - apply Hsame; [done|]. intros k i _. by apply runs_at_set.
  - apply rtc_once. unfold insert_job in H2. destruct (jobs (v_db v) !! j) eqn:Hj; [done|]. simplify_eq/=.
    rewrite (dispatcher_step v _ j (mkJob t p privacy user Pending payload None None now None) Waiting Hv Hv');
      try done; simpl; [|by intros; apply lookup_insert_ne | by apply lookup_insert_eq].
    apply ls_submit. unfold dispatcher. by rewrite dispatcher_lookup, Hj.
  - apply rtc_once. assert (w_activeJobId w = None) as Hna by (by apply (core_idle _ _ _ _ Hc id w)).
    rewrite (dispatcher_step v _ j (set_assigned (w_pubkey w) r) (RunningOn id) Hv Hv'); simpl;
      [ | by intros; apply lookup_alter_ne | by rewrite lookup_alter_eq, H | |].
    + apply ls_assign; [|intros j'; by eapply dispatcher_idle].
      unfold dispatcher. rewrite dispatcher_lookup, H. simpl. unfold phase_of. by rewrite H0.
    + intros k i Hk _. eapply runs_at_mutate; [done|]. simpl. rewrite Hna. naive_solver.
    + eapply phase_running; [apply Hc' | simpl; by rewrite lookup_alter_eq, H | done
        | simpl; by rewrite jm_get_mutate_eq, H1 | done].
  - apply rtc_once. rewrite (dispatcher_step v _ j (set_failed code r) Dead Hv Hv'); simpl; try done;
      [ | by intros; apply lookup_alter_ne | by rewrite lookup_alter_eq, H].
    apply ls_expire. unfold dispatcher. rewrite dispatcher_lookup, H. simpl. unfold phase_of. by rewrite H0.
  - destruct (running_lstep v _ id w j (set_completed output now) Done Hv Hv') as [Hj ->];
      try done; [intros; by eapply runs_at_idle|]. by eapply rtc_once, ls_finish.
  - destruct (running_lstep v _ id w j set_rejected Waiting Hv Hv') as [Hj ->];
      try done; [intros; by eapply runs_at_idle|]. by eapply rtc_once, ls_return.
  - destruct (running_lstep v _ id w j (set_failed "worker_disconnected") Dead Hv Hv') as [Hj ->];
      try done; [|by eapply rtc_once, ls_abort].
    intros k i Hk. eapply runs_at_delete; [apply Hc | done | congruence].
  - apply Hsame; [done|]. intros k i Hk. eapply runs_at_delete; [apply Hc | done |].
    intros Ha. by apply (row_not_demo v k k Hv Hk (H0 k Ha)).
  - apply Hsame; [done|]. intros k i Hk. eapply runs_at_mutate; [done|]. simpl.
    assert (w_activeJobId w = None) as -> by (by apply (core_idle _ _ _ _ Hc id w)).
    pose proof (row_not_demo v k (demo_id u) Hv Hk (demo_id_demo u)). naive_solver.
  - apply Hsame; [done|]. intros k i Hk. eapply runs_at_idle; [done | done | by eapply row_not_demo].
  - apply Hsame; [done|]. intros k i Hk. eapply runs_at_idle; [done | done | by eapply row_not_demo].
  - unfold insert_receipt in H0. repeat case_match; simplify_eq. by apply Hsame.
  - unfold insert_pairing in H0. repeat case_match; simplify_eq. by apply Hsame.
Qed.

(** The columns of a request never change; a completed or failed row changes
    in nothing; a pending row no loop retries does not change either. *)
Definition same_request (r r' : JobRow) : Prop :=
  j_type r' = j_type r ∧ j_policy r' = j_policy r ∧ j_privacy_class r' = j_privacy_class r ∧
  j_user_id r' = j_user_id r ∧ j_payload r' = j_payload r ∧ j_created_at r' = j_created_at r.

Definition terminal (r : JobRow) : Prop := j_status r = Completed ∨ j_status r = Failed.

Definition stuck j r v : Prop :=
  jobs (v_db v) !! j = Some r ∧ j_status r = Pending ∧ ¬ matchable N j v.

(** What one move may do to row [j]. *)
Definition row_move v v' j r : Prop :=
  ∃ r', jobs (v_db v') !! j = Some r' ∧ same_request r r' ∧ (terminal r → r' = r) ∧
    (j_status r = Pending → ¬ matchable N j v → r' = r ∧ ¬ matchable N j v').

Lemma row_move_same v v' j r :
  jobs (v_db v) !! j = Some r → jobs (v_db v') = jobs (v_db v) → v_loops v' = v_loops v →
  row_move v v' j r.
Proof.
  intros Hj Hjs Hl. exists r. rewrite Hjs. split_and!; try done. unfold matchable. by rewrite Hl.
Qed.

Lemma row_move_alter v v' j r k rk g :
  jobs (v_db v) !! j = Some r → jobs (v_db v) !! k = Some rk →
  jobs (v_db v') = alter g k (jobs (v_db v)) → (∀ r, same_request r (g r)) →
  ¬ terminal rk → (j_status rk = Pending → matchable N k v) →
  v_loops v' `sublist_of` v_loops v →
  row_move v v' j r.
Proof.
  intros Hj Hk Hjs Hg Ht Hp Hl. unfold row_move. rewrite Hjs.
  assert (¬ matchable N j v → ¬ matchable N j v') as Hm.
  { intros Hn [?|Hin]; apply Hn; [by left | right]. eapply elem_of_sublist; [done|]. by apply fmap_sublist. }
  destruct (decide (k = j)) as [->|Hne].
  - rewrite Hk in Hj. simplify_eq. exists (g r). rewrite lookup_alter_eq, Hk. split_and!; try done.
    intros. exfalso. auto.
  - exists r. rewrite lookup_alter_ne by done. split_and!; try done. auto.
Qed.

Lemma running_not_terminal v id w k :
  vinv F v → jm_get id (v_ws v) = Some w → w_activeJobId w = Some k → isDemoJob k = false →
  ∃ rk, jobs (v_db v) !! k = Some rk ∧ ¬ terminal rk ∧ j_status rk ≠ Pending.
Proof.
  intros Hv Hw Ha Hd. destruct (core_active _ _ _ _ (vi_core _ Hv) id w k Hw Ha Hd) as (rk & Hr & Hs & _).
  exists rk. unfold terminal. rewrite Hs. naive_solver.
Qed.

Lemma drop_loop_sublist j ls : drop_loop j ls `sublist_of` ls.
Proof. apply sublist_filter. Qed.

Lemma move_row v v' j r : vinv F v → move N v v' → jobs (v_db v) !! j = Some r → row_move v v' j r.
Proof.
  intros Hv Hm Hj.
  assert (∀ id w k g, jm_get id (v_ws v) = Some w → w_activeJobId w = Some k → isDemoJob k = false →
    jobs (v_db v') = alter g k (jobs (v_db v)) → (∀ r, same_request r (g r)) → v_loops v' = v_loops v →
    row_move v v' j r) as Hrun.
  { intros id w k g Hw Ha Hd Hjs Hg Hl.
    destruct (running_not_terminal v id w k Hv Hw Ha Hd) as (rk & Hk & Ht & Hp).
    by eapply row_move_alter; rewrite ?Hl. }
  destruct Hm; try (by apply row_move_same).
  - unfold insert_job in H2. destruct (jobs (v_db v) !! j0) eqn:Hj0; [done|]. simplify_eq.
    exists r. simpl. rewrite lookup_insert_ne by congruence. split_and!; try done.
  - apply (row_move_alter v _ j r j0 r0 (set_assigned (w_pubkey w))); try done;
      [unfold terminal; rewrite H0; naive_solver | apply drop_loop_sublist].
  - apply (row_move_alter v _ j r j0 r0 (set_failed code)); try done;
      [unfold terminal; rewrite H0; naive_solver | apply drop_loop_sublist].
  - exists r. split_and!; try done. intros _ Hn. split; [done|]. intros [?|Hin]; apply Hn; [by left|].
    simpl in Hin. rewrite fmap_app in Hin. apply elem_of_app in Hin as [?|Hin]; [by right | left].
    by apply list_elem_of_singleton in Hin as ->.
  - exists r. split_and!; try done. intros _ Hn. split; [done|]. intros [?|Hin]; apply Hn; [by left|right].
    simpl in Hin. rewrite list_fmap_insert in Hin. simpl in Hin.
    rewrite list_insert_id in Hin; [done|]. by rewrite list_lookup_fmap, H.
  - by eapply Hrun.
  - by eapply Hrun.
  - by eapply Hrun.
  - unfold insert_receipt in H0. repeat case_match; simplify_eq. by apply row_move_same.
  - unfold insert_pairing in H0. repeat case_match; simplify_eq. by apply row_move_same.
Qed.

Lemma moves_row v v' j r :
  vinv F v → rtc (move N) v v' → jobs (v_db v) !! j = Some r → row_move v v' j r.
Proof.
  intros Hv Hm. revert r. induction Hm as [v|v1 v2 v3 Hm _ IH]; intros r Hj; [by apply row_move_same|].
  destruct (move_row v1 v2 j r Hv Hm Hj) as (r2 & Hj2 & Hsr & Ht & Hp).
  destruct (IH (move_vinv _ _ _ N_new Hm Hv) r2 Hj2) as (r3 & Hj3 & Hsr' & Ht' & Hp').
  exists r3. split_and!; [done | unfold same_request in *; intuition congruence | |].
  - intros Htr. specialize (Ht Htr) as ->. auto.
  - intros Hpd Hn. destruct (Hp Hpd Hn) as [-> Hn2]. auto.
Qed.

Lemma moves_lsteps v v' : vinv F v → rtc (move N) v v' → rtc lstep (dispatcher v) (dispatcher v').
Proof.
  intros Hv Hm. induction Hm as [|v1 v2 v3 Hm _ IH]; [done|].
  etrans; [by apply move_lstep|]. apply IH. by eapply move_vinv.
Qed.
End Moves.
