(* ===== verification/Guarantees.v ===== *)
(** * What the coordinator guarantees

    Theorems on every reachable state of the transition system of
    Coordinator.v, restarts on the same database included, for any payout
    distributors that keep the promises of [PayoutQueueLaws] and any signature
    scheme. *)

From stdpp Require Import base list gmap strings option relations.
From Stdlib Require Import ZArith Lia.
From S2P Require Import Prelude Js JsNum Protocol Interfaces Payout Db WorkerHub Jobs Routes Core Moves HubFacts Coordinator Scenario Refinement Lifecycle.
Local Open Scope string_scope.

Section Guarantees.
  Context {B W : Type} `{!PayoutQueue B} `{!PayoutQueue W} `{!Ed25519}.
  Context `{!PayoutQueueLaws B} `{!PayoutQueueLaws W}.
  Implicit Types (s : Sys B W) (cfg : HubConfig).

(** The dispatcher a coordinator state stands for, and its jobs table. *)
Definition sys_dispatcher s : Dispatcher := dispatcher_of (workers (hub s)) (jobs (db (hub s))).
Definition sys_jobs s : gmap string JobRow := jobs (db (hub s)).

Lemma step_moves cfg s s' :
  reachable cfg s → step cfg s s' →
  ∃ e, enabled e s ∧ rtc (move (list_to_set (draws e))) (view s) (view s').
Proof.
  intros Hr [e s1 Hen Hex]. exists e. split; [done|]. eapply exec_moves; [by eapply reachable_vinv | done | done].
Qed.

Lemma reachable_step cfg s s' : reachable cfg s → step cfg s s' → reachable cfg s'.
Proof. intros Hr Hs. eapply reachable_steps; [done | by apply rtc_once]. Qed.

(** How one step changes the row of a job that exists. *)
Lemma step_row cfg s s' j r :
  reachable cfg s → step cfg s s' → sys_jobs s !! j = Some r →
  ∃ r', sys_jobs s' !! j = Some r' ∧ same_request r r' ∧ (terminal r → r' = r) ∧
    (j_status r = Pending → j ∉ (l_jobId <$> loops s) → r' = r ∧ j ∉ (l_jobId <$> loops s')).
Proof.
  intros Hr Hs Hj. pose proof (reachable_vinv _ _ Hr) as Hv.
  destruct (step_moves cfg s s' Hr Hs) as (e & Hen & Hm).
  destruct (moves_row _ (draws_new e s Hv Hen) _ _ j r Hv Hm Hj) as (r' & Hj' & Hsr & Ht & Hp).
  exists r'. split_and!; try done. intros Hpd Hn. pose proof (vi_jobs_drawn _ Hv j r Hj) as Hdr.
  destruct Hp as [-> Hn']; [done | |].
  - intros [Hin|Hin]; [|done]. apply elem_of_list_to_set in Hin.
    by apply (proj1 Hen) in Hin as [_ ?].
  - split; [done|]. intros Hin. apply Hn'. by right.
Qed.

(** A restart changes no row and ends every retry loop. *)
Lemma life_row cfg s s' j r :
  reachable cfg s → life cfg s s' → sys_jobs s !! j = Some r →
  ∃ r', sys_jobs s' !! j = Some r' ∧ same_request r r' ∧ (terminal r → r' = r) ∧
    (j_status r = Pending → j ∉ (l_jobId <$> loops s) → r' = r ∧ j ∉ (l_jobId <$> loops s')).
Proof.
  intros Hr [s1 Hs|s1 [bd wd _]] Hj; [by eapply step_row|].
  exists r. split_and!; try done. intros _ _. split; [done | apply not_elem_of_nil].
Qed.

(** Until the server is restarted it has found no job. *)
Lemma first_process_found cfg s0 s : initial s0 → rtc (step cfg) s0 s → found s = ∅.
Proof. intros (bd & wd & -> & _) Hs. by rewrite (steps_found _ _ _ Hs). Qed.

(** C1: refinement.  Seen through the phase of each job (waiting, running on a
    worker, done, dead), every turn of the coordinator's event loop is a
    sequence of steps of the abstract dispatcher: a job is submitted once, is
    assigned only while waiting and only to a worker running nothing else, and
    leaves a running phase by finishing, by being returned or by being
    aborted. *)
Theorem coordinator_refines_dispatcher cfg s s' :
  reachable cfg s → step cfg s s' → rtc lstep (sys_dispatcher s) (sys_dispatcher s').
Proof.
  intros Hr Hs. destruct (step_moves cfg s s' Hr Hs) as (e & Hen & Hm). pose proof (reachable_vinv _ _ Hr) as Hv.
  by eapply (moves_lsteps _ (draws_new e s Hv Hen) (view s) (view s')).
Qed.

(** C2: matching.  In every reachable state a job is [assigned] exactly when an
    online worker has it as its active job, or when it was [assigned] in the
    jobs table the process found at its start.  In the first case that worker
    is busy, declared the capability, is the one recorded in the row, and is
    the only one.  A row the process found at its start, whatever its status,
    is as it was found and no worker runs its job. *)
Theorem assigned_jobs_run_on_one_worker cfg s j :
  reachable cfg s →
  ((∃ r, sys_jobs s !! j = Some r ∧ j_status r = Assigned) ↔
   (isDemoJob j = false ∧ (∃ id w, jm_get id (workers (hub s)) = Some w ∧ w_activeJobId w = Some j)) ∨
   (∃ r, found s !! j = Some r ∧ j_status r = Assigned)) ∧
  (∀ r id w, sys_jobs s !! j = Some r → jm_get id (workers (hub s)) = Some w → w_activeJobId w = Some j →
     w_status w = Busy ∧ j_worker_pubkey r = Some (w_pubkey w) ∧ j_type r ∈ w_capabilities w ∧
     (∀ id' w', jm_get id' (workers (hub s)) = Some w' → w_activeJobId w' = Some j → id' = id)) ∧
  (∀ r, found s !! j = Some r →
     sys_jobs s !! j = Some r ∧ ∀ id w, jm_get id (workers (hub s)) = Some w → w_activeJobId w ≠ Some j).
Proof.
  intros Hv%reachable_vinv. pose proof (vi_core _ Hv) as Hr. split_and!.
  - split.
    + intros (r & Hj & Hs). destruct (core_assigned _ _ _ _ Hr j r Hj Hs) as [[r' HF]|?].
      * right. exists r'. destruct (vi_found _ Hv j r' HF) as [Hj' _].
        unfold sys_jobs in *; simpl in *; simplify_eq. done.
      * left. split; [by eapply (core_rows _ _ _ _ Hr) | done].
    + intros [(Hd & id & w & Hw & Ha)|(r & HF & Hs)].
      * destruct (core_active _ _ _ _ Hr id w j Hw Ha Hd) as (r & Hj & Hs & _). eauto.
      * exists r. split; [apply (vi_found _ Hv j r HF) | done].
  - intros r id w Hj Hw Ha. destruct (core_rows _ _ _ _ Hr j r Hj) as [Hd _].
    destruct (core_active _ _ _ _ Hr id w j Hw Ha Hd) as (r' & Hj' & _ & Hpk & Hc & _).
    unfold sys_jobs in *; simplify_eq/=. split_and!; try done.
    + destruct (w_status w) eqn:Hst; [|done]. apply (core_idle _ _ _ _ Hr _ _ Hw) in Hst. congruence.
    + intros id' w' Hw' Ha'. by eapply (core_inj _ _ _ _ Hr).
  - intros r HF. destruct (vi_found _ Hv j r HF) as (? & ? & _). done.
Qed.

(** C3: privacy.  The worker recorded for a PRIVATE job, running or finished,
    is one the job's user paired with, and no retry loop ever serves a PRIVATE
    job. *)
Theorem private_jobs_only_on_trusted_workers cfg s j r :
  reachable cfg s → sys_jobs s !! j = Some r → j_privacy_class r = "PRIVATE" →
  (∀ pk, j_worker_pubkey r = Some pk → trusted_by (db (hub s)) (j_user_id r) pk) ∧
  j ∉ (l_jobId <$> loops s).
Proof.
  intros Hr%reachable_vinv Hj Hp. split.
  - intros pk. by apply (core_private _ _ _ _ (vi_core _ Hr) j r pk).
  - intros (l & -> & Hl)%list_elem_of_fmap.
    destruct (vi_loops _ Hr l Hl) as (_ & Hnp & r' & Hj' & _ & _ & _ & Hpc & _).
    unfold sys_jobs in *; simpl in *. congruence.
Qed.

(** C4: payouts.  Each distributor has been given the payout of a job exactly
    when the job is completed and was completed by the running process (it was
    not in the jobs table the process found at its start), to the worker
    recorded in its row, and of no job, demo jobs included, more than once.
    The distributors live in memory: of a job completed before a restart the
    running process pays nothing. *)
Theorem completed_jobs_paid_exactly_once cfg s :
  reachable cfg s →
  (∀ d, boltDistributor (hub s) = Some d →
     NoDup (pq_accounted d).*2 ∧
     ∀ pk j, isDemoJob j = false →
       ((pk, j) ∈ pq_accounted d ↔ found s !! j = None ∧ done_by (sys_jobs s) j pk)) ∧
  (∀ d, wrappedBoltDistributor (hub s) = Some d →
     NoDup (pq_accounted d).*2 ∧
     ∀ pk j, isDemoJob j = false →
       ((pk, j) ∈ pq_accounted d ↔ found s !! j = None ∧ done_by (sys_jobs s) j pk)).
Proof.
  intros Hr%reachable_vinv. split; intros d Hd.
  - apply (vi_bolt _ Hr) in Hd as (_ & Hnd & _ & Hdn). auto.
  - apply (vi_wbolt _ Hr) in Hd as (_ & Hnd & _ & Hdn). auto.
Qed.

(** C5: finished jobs are final.  Once a row is completed or failed nothing the
    coordinator does later changes it, and the columns of a request never
    change at all; restarts of the server included. *)
Theorem finished_jobs_are_final cfg s s' j r :
  reachable cfg s → rtc (life cfg) s s' → sys_jobs s !! j = Some r →
  ∃ r', sys_jobs s' !! j = Some r' ∧ same_request r r' ∧ (terminal r → r' = r).
Proof.
  intros Hr Hs. revert r Hr. induction Hs as [s|s1 s2 s3 Hs _ IH]; intros r Hr Hj.
  - exists r. by split_and!.
  - destruct (life_row cfg s1 s2 j r Hr Hs Hj) as (r2 & Hj2 & Hsr & Ht & _).
    destruct (IH r2) as (r3 & Hj3 & Hsr' & Ht'); [by eapply reachable_life, rtc_once | done |].
    exists r3. split_and!; [done | unfold same_request in *; intuition congruence |].
    intros Htr. specialize (Ht Htr) as ->. auto.
Qed.

(** C6: a rejected job is never offered again.  A pending row that no retry
    loop serves (what [job_reject] leaves behind) stays pending, unchanged, in
    every future of the coordinator, restarts included. *)
Theorem unretried_pending_job_stays_pending cfg s s' j r :
  reachable cfg s → rtc (life cfg) s s' →
  sys_jobs s !! j = Some r → j_status r = Pending → j ∉ (l_jobId <$> loops s) →
  sys_jobs s' !! j = Some r ∧ j ∉ (l_jobId <$> loops s').
Proof.
  intros Hr Hs. revert Hr. induction Hs as [s|s1 s2 s3 Hs _ IH]; intros Hr Hj Hp Hn; [done|].
  destruct (life_row cfg s1 s2 j r Hr Hs Hj) as (r2 & Hj2 & _ & _ & Hst).
  destruct (Hst Hp Hn) as [-> Hn2]. apply IH; [by eapply reachable_life, rtc_once | done | done | done].
Qed.

End Guarantees.

(** ** Instances *)

Lemma sc_step1 : ∃ s', step sc_cfg sc_state1 s' ∧ rtc (step sc_cfg) s' sc_state2.
Proof.
  destruct (run_cons _ _ _ _ _ sc_run2) as (s1 & Hs & Hr). exists s1. split; [done|].
  by eapply run_steps.
Qed.

Lemma coordinator_refines_dispatcher_witness :
  ∃ s', step sc_cfg sc_state1 s' ∧ rtc lstep (sys_dispatcher sc_state1) (sys_dispatcher s').
Proof.
  destruct sc_step1 as (s' & Hs & _). exists s'. split; [exact Hs|].
  exact (coordinator_refines_dispatcher sc_cfg sc_state1 s' sc_reachable1 Hs).
Defined.

(** The server is started again while Alice's job runs, and while a payout of
    hers waits. *)
Definition sc_again1 : Sys BoltD WboltD := restartSys (Some initDist) (Some initDist) sc_state1.
Definition sc_again2 : Sys BoltD WboltD := restartSys (Some initDist) (Some initDist) sc_state2.

Lemma sc_restart (s : Sys BoltD WboltD) :
  reachable sc_cfg s → reachable sc_cfg (restartSys (Some (initDist : BoltD)) (Some (initDist : WboltD)) s).
Proof.
  intros Hr. eapply reachable_life; [exact Hr|]. apply rtc_once, life_restart, restarted.
  split; intros d [= <-]; split; by try apply dist_wf_init.
Qed.

Lemma assigned_jobs_run_on_one_worker_witness :
  (∃ id w, jm_get id (workers (hub sc_state1)) = Some w ∧ w_activeJobId w = Some (sc_uuid 6)) ∧
  (∃ r, sys_jobs sc_again1 !! sc_uuid 6 = Some r ∧ j_status r = Assigned) ∧ workers (hub sc_again1) = [].
Proof.
  split_and!; [| |reflexivity].
  - destruct (proj1 (proj1 (assigned_jobs_run_on_one_worker sc_cfg sc_state1 (sc_uuid 6) sc_reachable1)))
      as [[_ Hw]|(r & Hr & _)]; [| exact Hw | vm_compute in Hr; discriminate Hr].
    eexists. split; [vm_compute; reflexivity | reflexivity].
  - apply (assigned_jobs_run_on_one_worker sc_cfg sc_again1 (sc_uuid 6) (sc_restart _ sc_reachable1)).
    right. eexists. split; [vm_compute; reflexivity | reflexivity].
Defined.

Lemma private_jobs_only_on_trusted_workers_witness :
  trusted_by (db (hub sc_state2)) "alice" sc_key1.
Proof.
  refine (proj1 (private_jobs_only_on_trusted_workers sc_cfg sc_state2 (sc_uuid 6) (sc_row sc_state2 6)
    sc_reachable2 _ _) sc_key1 _); vm_compute; reflexivity.
Defined.

Lemma completed_jobs_paid_exactly_once_witness :
  (∃ d, boltDistributor (hub sc_state2) = Some d ∧ (sc_key1, sc_uuid 6) ∈ pq_accounted d) ∧
  (∃ d, boltDistributor (hub sc_again2) = Some d ∧ (sc_key1, sc_uuid 6) ∉ pq_accounted d).
Proof.
  split; eexists; (split; [vm_compute; reflexivity|]).
  - apply (proj1 (completed_jobs_paid_exactly_once sc_cfg sc_state2 sc_reachable2) _ ltac:(vm_compute; reflexivity));
      [vm_compute; reflexivity|].
    split; [vm_compute; reflexivity|].
    eexists. split_and!; [vm_compute; reflexivity | reflexivity | reflexivity].
  - intros Hin.
    apply (proj1 (completed_jobs_paid_exactly_once sc_cfg sc_again2 (sc_restart _ sc_reachable2)) _
      ltac:(vm_compute; reflexivity)) in Hin as [Hin _]; [|vm_compute; reflexivity].
    vm_compute in Hin. discriminate Hin.
Defined.

Lemma finished_jobs_are_final_witness :
  sys_jobs sc_state3 !! sc_uuid 6 = sys_jobs sc_state2 !! sc_uuid 6.
Proof.
  destruct (sys_jobs sc_state2 !! sc_uuid 6) as [r|] eqn:Hr; [|vm_compute in Hr; discriminate Hr].
  destruct (finished_jobs_are_final sc_cfg sc_state2 sc_state3 (sc_uuid 6) r sc_reachable2
    (steps_life _ _ _ (run_steps _ _ _ _ sc_run3)) Hr) as (r' & Hr' & _ & Ht).
  rewrite Hr', Ht; [reflexivity|]. vm_compute in Hr. injection Hr as <-. left. reflexivity.
Defined.

Lemma unretried_pending_job_stays_pending_witness :
  ∃ r, sys_jobs sc_state3 !! sc_uuid 9 = Some r ∧ j_status r = Pending ∧
    ∀ s', rtc (life sc_cfg) sc_state3 s' → sys_jobs s' !! sc_uuid 9 = Some r.
Proof.
  eexists. split_and!; [vm_compute; reflexivity | reflexivity |]. intros s' Hs.
  eapply (unretried_pending_job_stays_pending sc_cfg sc_state3 s' (sc_uuid 9) _ sc_reachable3 Hs);
    [vm_compute; reflexivity | reflexivity |].
  apply (bool_decide_unpack _). vm_compute. exact I.
Defined.

