(* ===== verification/HubProps.v ===== *)
(** * Behaviour of the hub and of the job routes, operation by operation

    Exceptions, pruning, heartbeats, matching, committing and retrying. *)

From stdpp Require Import base list gmap strings option relations.
From Stdlib Require Import ZArith Lia.
From S2P Require Import Prelude Js JsNum Json Protocol Interfaces Payout Db WorkerHub Jobs Routes Core Moves HubFacts Coordinator Scenario Workers Refinement Lifecycle.
Local Open Scope string_scope.

(** ** Exceptions *)

Section Exceptions.
  Context {B W : Type} `{!PayoutQueue B} `{!PayoutQueue W} `{!Ed25519}.
  Context `{!PayoutQueueLaws B} `{!PayoutQueueLaws W}.
  Implicit Types (s : Sys B W) (h : Hub B W).

(** Whether the completion [m] of a job that is not a demo job comes from its worker. *)
Definition completes (m : JobCompleteMsg) h : bool :=
  bool_decide (is_Some (findByActiveJob (jc_job_id m) h)) && negb (isDemoJob (jc_job_id m)).

(** What the code of an event throws: a message that is [null]; one whose
    handler throws whatever the state; one whose receipt names a job that does
    not exist, or cannot be bound, where the handler stores the receipt; an
    answer whose job id is [null] while a worker is idle. *)
Definition event_throws (e : Event B W) s : option string :=
  match e with
  | EMessage _ NullMsg _ _ _ => Some NULL_TYPE_ERROR
  | EMessage _ (GoodMsg (MsgReceiptSubmit m)) _ _ _ =>
      if bool_decide (jobs (db (hub s)) !! r_job_id (rs_receipt m) = None) then Some FOREIGN_KEY_VIOLATION else None
  | EMessage _ (GoodMsg (MsgJobComplete m)) _ _ _ =>
      if completes m (hub s) &&
         match jc_receipt m, jc_receipt_signature m with
         | Some r, Some sig => str_truthy sig && bool_decide (jobs (db (hub s)) !! r_job_id r = None)
         | _, _ => false
         end
      then Some FOREIGN_KEY_VIOLATION else None
  | EMessage _ (ThrowMsg err) _ _ _ => Some err
  | EMessage _ NullJobMsg _ _ _ =>
      if bool_decide (Exists (λ e, w_status e.2 = Idle) (workers (hub s)))
      then Some NULL_JOB_ERROR else None
  | EMessage _ (BadReceiptMsg m err) _ _ _ => if completes m (hub s) then Some err else None
  | _ => None
  end.

Lemma insert_receipt_fresh rc d :
  rr_id rc ∉ (rr_id <$> receipts d) →
  insert_receipt rc d = match jobs d !! rr_job_id rc with
                        | None => Throw FOREIGN_KEY_VIOLATION
                        | Some _ => Ok (mkDb (jobs d) (trust_pairings d) (receipts d ++ [rc])%list)
                        end.
Proof. intros Hn. unfold insert_receipt. by rewrite decide_False. Qed.

(** An outcome throws the given exception, or returns when there is none. *)
Definition throws_iff {A} (o : outcome A) (err : option string) : Prop :=
  match o with Ok _ => err = None | Throw e => err = Some e end.

Lemma throws_iff_bind {A C} (o : outcome A) (f : A → C) flag :
  throws_iff o flag → throws_iff (obind o (λ a, Ok (f a))) flag.
Proof. by destruct o. Qed.

Lemma handleReceiptSubmit_throws m rid now h :
  rid ∉ (rr_id <$> receipts (db h)) →
  throws_iff (handleReceiptSubmit m rid now h)
    (if bool_decide (jobs (db h) !! r_job_id (rs_receipt m) = None) then Some FOREIGN_KEY_VIOLATION else None).
Proof.
  intros Hn. unfold handleReceiptSubmit. rewrite insert_receipt_fresh by done. simpl.
  destruct (jobs (db h) !! _); simpl; done.
Qed.

Lemma completeTxn_throws m pk rid now d :
  rid ∉ (rr_id <$> receipts d) →
  throws_iff (completeTxn m pk rid now d)
    (if match jc_receipt m, jc_receipt_signature m with
        | Some r, Some sig => str_truthy sig && bool_decide (jobs d !! r_job_id r = None)
        | _, _ => false
        end then Some FOREIGN_KEY_VIOLATION else None).
Proof.
  intros Hn. unfold completeTxn. destruct (jc_receipt m) as [r|]; [|done].
  destruct (jc_receipt_signature m) as [sig|]; [|done]. destruct (str_truthy sig); [simpl|done].
  rewrite insert_receipt_fresh by done. simpl. rewrite lookup_alter.
  destruct (decide (jc_job_id m = r_job_id r)) as [Heq|]; [rewrite Heq|];
    destruct (jobs d !! r_job_id r); simpl; done.
Qed.

Lemma handleJobComplete_throws cfg m rid now h :
  rid ∉ (rr_id <$> receipts (db h)) →
  throws_iff (handleJobComplete cfg m rid now h)
    (if completes m h && match jc_receipt m, jc_receipt_signature m with
        | Some r, Some sig => str_truthy sig && bool_decide (jobs (db h) !! r_job_id r = None)
        | _, _ => false
        end then Some FOREIGN_KEY_VIOLATION else None).
Proof.
  intros Hn. unfold handleJobComplete, completes.
  destruct (findByActiveJob (jc_job_id m) h) as [[id' w]|]; simpl; [|done].
  destruct (isDemoJob (jc_job_id m)); simpl; [done|].
  apply throws_iff_bind. by apply completeTxn_throws.
Qed.

(** A worker without a job is one that is idle. *)
Lemma jobless_idle (ws : jsmap TrackedWorker) js T O :
  core ws js T O →
  existsb (λ e : string * TrackedWorker, bool_decide (w_activeJobId e.2 = None)) ws =
  bool_decide (Exists (λ e, w_status e.2 = Idle) ws).
Proof.
  intros Hc. apply eq_true_iff_eq. rewrite existsb_exists, bool_decide_eq_true, Exists_exists.
  assert (∀ e, e ∈ ws → (w_status e.2 = Idle ↔ w_activeJobId e.2 = None)) as Hi.
  { intros [id w] He. apply jm_elem_get in He; [|apply Hc]. by apply (core_idle _ _ _ _ Hc id w). }
  setoid_rewrite <- list_elem_of_In. setoid_rewrite bool_decide_eq_true.
  split; intros (e & He & Hs); exists e; (split; [done|]); by apply Hi.
Qed.

End Exceptions.

(** ** Pruning and heartbeats *)

Section Pruning.
  Context {B W : Type}.
  Implicit Types (h : Hub B W).

(** Whether one of the entries is stale and runs [j]. *)
Definition stale_runs (now : Z) (j : string) (l : list (string * TrackedWorker)) : bool :=
  existsb (λ e, stale now e.2 && bool_decide (w_activeJobId e.2 = Some j)) l.

Lemma jm_delete_middle {V} k (v : V) (m m' : jsmap V) :
  k ∉ jm_keys m → jm_delete k (m ++ (k, v) :: m')%list = (m ++ m')%list.
Proof.
  unfold jm_keys. induction m as [|[k1 v1] m IH]; csimpl; [by rewrite decide_True|].
  rewrite not_elem_of_cons. intros [? ?]. rewrite decide_False by done. f_equal. auto.
Qed.

Lemma jm_get_middle {V} k (v : V) (m m' : jsmap V) :
  k ∉ jm_keys m → jm_get k (m ++ (k, v) :: m')%list = Some v.
Proof.
  unfold jm_keys. induction m as [|[k1 v1] m IH]; csimpl; [by rewrite decide_True|].
  rewrite not_elem_of_cons. intros [? ?]. rewrite decide_False by done. auto.
Qed.

(** One disconnection. *)
Lemma handleDisconnect_spec id w h kept l :
  workers h = (kept ++ (id, w) :: l)%list → id ∉ jm_keys kept →
  (∀ j r, jobs (db h) !! j = Some r → isDemoJob j = false ∧ j ≠ "") →
  workers (handleDisconnect id h) = (kept ++ l)%list ∧
  (∀ j, jobs (db (handleDisconnect id h)) !! j =
     if bool_decide (w_activeJobId w = Some j)
     then set_failed "worker_disconnected" <$> jobs (db h) !! j else jobs (db h) !! j).
Proof.
  intros Hws Hid Hrows. unfold handleDisconnect. rewrite Hws, jm_get_middle by done. split.
  - destruct (w_activeJobId w) as [j|]; [case_match|]; simpl; by rewrite Hws, jm_delete_middle.
  - intros j. destruct (w_activeJobId w) as [j'|]; [|done].
    destruct (jobs (db h) !! j) as [r|] eqn:Hj.
    + destruct (decide (j' = j)) as [->|Hne].
      * rewrite bool_decide_true by done. destruct (Hrows j r Hj) as [Hd Hne].
        unfold str_truthy. rewrite (proj2 (String.eqb_neq _ _) Hne), Hd. simpl.
        by rewrite lookup_alter_eq, Hj.
      * rewrite bool_decide_false by congruence. case_match; simpl; [by rewrite lookup_alter_ne|done].
    + assert (∀ b : bool, (if b then set_failed "worker_disconnected" <$> None else None) = @None JobRow)
        as -> by (by intros []).
      case_match; simpl; [|done]. rewrite lookup_alter. case_decide; subst; by rewrite Hj.
Qed.

Lemma set_failed_idem code r : set_failed code (set_failed code r) = set_failed code r.
Proof. done. Qed.

Lemma prune_fold_spec now l : ∀ h kept,
  workers h = (kept ++ l)%list → NoDup (jm_keys (kept ++ l)%list) →
  (∀ j r, jobs (db h) !! j = Some r → isDemoJob j = false ∧ j ≠ "") →
  let h' := foldl (λ h e, if stale now e.2 then handleDisconnect e.1 (closeSocket (w_ws e.2) h) else h) h l in
  workers h' = (kept ++ filter (λ e, stale now e.2 = false) l)%list ∧
  ∀ j, jobs (db h') !! j = if stale_runs now j l
                           then set_failed "worker_disconnected" <$> jobs (db h) !! j else jobs (db h) !! j.
Proof.
  induction l as [|[id w] l IH]; intros h kept Hws Hnd Hrows; simpl; [by split|].
  unfold jm_keys in Hnd. rewrite fmap_app, fmap_cons in Hnd.
  destruct (stale now w) eqn:Hst; simpl.
  - assert (id ∉ jm_keys kept) as Hid.
    { apply NoDup_app in Hnd as (_ & Hn & _). intros Hin. apply (Hn id Hin). left. }
    destruct (handleDisconnect_spec id w (closeSocket (w_ws w) h) kept l Hws Hid Hrows) as [Hw1 Hj1].
    destruct (IH (handleDisconnect id (closeSocket (w_ws w) h)) kept Hw1) as [Hw2 Hj2].
    + unfold jm_keys. rewrite fmap_app. apply NoDup_app in Hnd as (? & Hn & [_ ?]%NoDup_cons).
      apply NoDup_app. split_and!; [done | | done]. intros x Hx Hl. apply (Hn x Hx). by right.
    + intros j r. rewrite Hj1. simpl. case_match; [|apply Hrows].
      intros (r0 & Hr0 & _)%fmap_Some. by apply (Hrows j r0).
    + split; [rewrite filter_cons_False by (simpl; congruence); done|].
      intros j. rewrite Hj2, Hj1. simpl. destruct (stale_runs now j l), (bool_decide _); simpl; try done.
      by destruct (jobs (db h) !! j).
  - destruct (IH h (kept ++ [(id, w)])%list) as [Hw2 Hj2].
    + by rewrite <- app_assoc.
    + unfold jm_keys. by rewrite <- app_assoc, fmap_app.
    + done.
    + split; [|done]. rewrite filter_cons_True by done. rewrite Hw2, <- app_assoc. done.
Qed.
End Pruning.

Section PruneTheorems.
  Context {B W : Type} `{!PayoutQueue B} `{!PayoutQueue W} `{!Ed25519}.
  Context `{!PayoutQueueLaws B} `{!PayoutQueueLaws W}.
  Implicit Types (s : Sys B W) (h : Hub B W).

Lemma vinv_rows_named F v j (r : JobRow) :
  vinv F (v : View B W) → jobs (v_db v) !! j = Some r → isDemoJob j = false ∧ j ≠ "".
Proof.
  intros Hv Hj. split; [by eapply (core_rows _ _ _ _ (vi_core _ Hv))|]. intros ->.
  by apply (vi_jobs_drawn _ Hv), (vi_nonempty _ Hv) in Hj.
Qed.

(** C10: pruning is exact.  [pruneStale] keeps, in order, exactly the workers
    heard from in the last 30 seconds; the job of each worker it removes
    becomes failed, and no other row changes. *)
Theorem prune_removes_exactly_the_stale cfg s now :
  reachable cfg s →
  workers (pruneStale now (hub s)) = filter (λ e, stale now e.2 = false) (workers (hub s)) ∧
  ∀ j, jobs (db (pruneStale now (hub s))) !! j =
    if stale_runs now j (workers (hub s))
    then set_failed "worker_disconnected" <$> jobs (db (hub s)) !! j else jobs (db (hub s)) !! j.
Proof.
  intros Hr%reachable_vinv. apply (prune_fold_spec now (workers (hub s)) (hub s) []); [done | | ].
  - apply (core_wf _ _ _ _ (vi_core _ Hr)).
  - intros j r Hj. by apply (vinv_rows_named _ _ _ _ Hr Hj).
Qed.
End PruneTheorems.

Section Heartbeats.
  Context {B W : Type}.
  Implicit Types (h : Hub B W).

Lemma handleHeartbeat_workers pk now h :
  workers (handleHeartbeat pk now h) =
  match findByPubkey pk h with
  | Some (id, _) => jm_mutate (set_heartbeat now) id (workers h)
  | None => workers h
  end.
Proof.
  unfold handleHeartbeat. destruct (findByPubkey pk h) as [[id w]|]; [|done].
  by rewrite (fr_workers _ _ (send_frame _ _ _)).
Qed.

(** Heartbeats.  A heartbeat refreshes the oldest registration under its
    public key and no other: that worker is not stale for the next 30 seconds,
    while another registration under the same key is as stale as before. *)
Theorem heartbeat_refreshes_oldest_registration pk now now' h id w :
  jm_wf (workers h) → findByPubkey pk h = Some (id, w) → (now' - now <= HEARTBEAT_TIMEOUT_MS)%Z →
  jm_get id (workers (handleHeartbeat pk now h)) = Some (set_heartbeat now w) ∧
  stale now' (set_heartbeat now w) = false ∧
  ∀ id' w', id' ≠ id → jm_get id' (workers h) = Some w' →
    jm_get id' (workers (handleHeartbeat pk now h)) = Some w'.
Proof.
  intros Hwf Hf Hnow. rewrite handleHeartbeat_workers, Hf.
  apply findByPubkey_Some in Hf as [Hw _]; [|done]. split_and!.
  - by rewrite jm_get_mutate_eq, Hw.
  - unfold stale. simpl. apply Z.ltb_ge. lia.
  - intros id' w' Hne Hw'. by rewrite jm_get_mutate_ne.
Qed.
End Heartbeats.

(** ** Matching *)

Section Matching.
  Context {B W : Type} `{!PayoutQueue B} `{!PayoutQueue W} `{!Ed25519}.
  Implicit Types (h : Hub B W).

(** C11: matching picks the best worker.  When [claimWorker] returns a worker,
    it is idle, capable and trusted where the job is PRIVATE, and (scores being
    finite) no worker that could take the job has a larger score; it returns
    none only when no worker can take the job.  The stake level and the kind of
    a worker count in its score only: an unstaked worker may be given any job. *)
Theorem claim_picks_best_eligible t p pc u now h :
  jm_wf (workers h) →
  (∀ id w, jm_get id (workers h) = Some w → num_finite (workerScore now w p t) = true) →
  match (claimWorker t p pc u now h).1 with
  | Some (id, w) =>
      jm_get id (workers h) = Some w ∧ can_take h t pc u w ∧
      ∀ id' w', jm_get id' (workers h) = Some w' → can_take h t pc u w' →
        (num_units (workerScore now w' p t) <= num_units (workerScore now w p t))%Z
  | None => ∀ id w, jm_get id (workers h) = Some w → ¬ can_take h t pc u w
  end.
Proof.
  intros Hwf Hfin. destruct (claimWorker t p pc u now h) as [[[id w]|] h'] eqn:Hc; simpl.
  - destruct (claimWorker_Some _ _ _ _ _ _ _ _ _ Hwf Hc) as (Hw & Hcan & _).
    split_and!; [done | done |]. intros id' w' Hw' Hcan'. unfold claimWorker in Hc.
    destruct (sort_by _ _) as [|e l] eqn:Hs; simplify_eq/=.
    eapply (sort_by_head (λ e, workerScore now e.2 p t)) in Hs as [_ Hmax].
    + apply (Hmax (id', w')), claimCandidates_elem. split; [by apply jm_get_elem | done].
    + intros [k x] [Hx _]%claimCandidates_elem. eapply Hfin, jm_elem_get; done.
  - by apply claimWorker_None in Hc as [_ ?].
Qed.

(** No double claim.  Two claims in a row, whatever the jobs, take two
    different workers: the worker is marked busy in the tick that selects it. *)
Theorem consecutive_claims_take_different_workers t p pc u now t' p' pc' u' now' h id1 w1 h1 id2 w2 h2 :
  jm_wf (workers h) →
  claimWorker t p pc u now h = (Some (id1, w1), h1) →
  claimWorker t' p' pc' u' now' h1 = (Some (id2, w2), h2) →
  id1 ≠ id2.
Proof.
  intros Hwf Hc1 Hc2 ->. destruct (claimWorker_Some _ _ _ _ _ _ _ _ _ Hwf Hc1) as (Hw & _ & ->).
  apply claimWorker_Some in Hc2 as (Hw2 & (Hidle & _) & _); [|by apply jm_wf_mutate].
  simpl in Hw2. rewrite jm_get_mutate_eq, Hw in Hw2. by simplify_eq/=.
Qed.
End Matching.

(** ** Committing and retrying *)

Section Committing.
  Context {B W : Type} `{!PayoutQueue B} `{!PayoutQueue W} `{!Ed25519}.
  Implicit Types (h : Hub B W).

(** The request a body makes, if it passes validation. *)
Definition valid_body (body : CommitBody) (t : JobType) (payload : json) (user : string) : Prop :=
  cb_job_type body = Some (JobType_str t) ∧ cb_payload body = Some payload ∧ json_truthy payload = true ∧
  cb_user_id body = Some user ∧ str_truthy user = true.

(** C12: what a commit does.  A valid request creates its row and, in the same
    tick: if a worker can take the job, the row is assigned to one and the
    response is 201; otherwise a PRIVATE job fails with 422 and any other job
    stays pending with a fresh retry loop and 201.  Who can take it depends on
    status, capability and trust only; both endpoints use the same workers. *)
Theorem commit_outcome tier body jobId now h t payload user :
  jm_wf (workers h) → jobs (db h) !! jobId = None → valid_body body t payload user →
  let pc := default "PUBLIC" (cb_privacy_class body) in
  let row := mkJob t tier pc user Pending payload None None now None in
  ∃ resp l h', handleCommit tier body jobId now h = Ok (resp, l, h') ∧
    ((∃ id w, jm_get id (workers h) = Some w ∧ can_take h t pc user w ∧ resp = Commit201 jobId ∧ l = None ∧
        jobs (db h') = <[jobId := set_assigned (w_pubkey w) row]> (jobs (db h)) ∧
        workers h' = jm_mutate (set_status_active Busy (Some jobId)) id (workers h)) ∨
     ((∀ id w, jm_get id (workers h) = Some w → ¬ can_take h t pc user w) ∧ workers h' = workers h ∧
      ((pc = "PRIVATE" ∧ resp = Commit422 jobId ∧ l = None ∧
        jobs (db h') = <[jobId := set_failed "no_trusted_worker" row]> (jobs (db h))) ∨
       (pc ≠ "PRIVATE" ∧ resp = Commit201 jobId ∧ l = Some (mkLoop jobId t tier pc user payload 0) ∧
        jobs (db h') = <[jobId := row]> (jobs (db h)))))).
Proof.
  intros Hwf Hnew (Ht & Hp & Hpt & Hu & Hut) pc row. unfold handleCommit.
  rewrite Ht, Hp, Hu, Hpt, Hut, parse_JobType_str.
  replace (str_truthy (JobType_str t)) with true by (by destruct t). simpl. fold pc.
  unfold insert_job. rewrite Hnew. simpl. fold row.
  set (h1 := on_db (λ _, with_jobs <[jobId:=row]> (db h)) h).
  destruct (tryAssign jobId t tier pc user payload now h1) as [h2|] eqn:Htry.
  - destruct (tryAssign_Some _ _ _ _ _ _ _ _ _ (Hwf : jm_wf (workers h1)) Htry) as (id & w & Hw & Hc & Hparts).
    apply hparts_eq in Hparts as (Hws & Hdb & _ & _).
    do 3 eexists. split; [done|]. left. exists id, w. split_and!; try done.
    rewrite Hdb. simpl. by rewrite (alter_insert_lookup _ _ row), insert_insert_eq by apply lookup_insert_eq.
  - pose proof (tryAssign_None _ _ _ _ _ _ _ _ Htry) as Hnone.
    destruct (String.eqb_spec pc "PRIVATE"); do 3 eexists; (split; [done|]); right; (split_and!; [done | done |]).
    + left. split_and!; try done. simpl.
      by rewrite (alter_insert_lookup _ _ row), insert_insert_eq by apply lookup_insert_eq.
    + by right.
Qed.

(** [n] ticks of a retry loop, at the given times, the hub evolving between
    ticks as [evolve] says. *)
Fixpoint retry_ticks (evolve : nat → Hub B W → Hub B W) (n : nat) (now : Z) (l : RetryLoop) h
    : option RetryLoop * Hub B W :=
  match n with
  | O => (Some l, h)
  | S n => match retryTick l now h with
           | (Some l', h') => retry_ticks evolve n (now + 2000)%Z l' (evolve n h')
           | (None, h') => (None, h')
           end
  end.

Lemma retryTick_attempts l now h l' h' :
  retryTick l now h = (Some l', h') →
  l' = loop_tick l ∧ (l_attempts l' < maxAttempts)%nat ∧ h' = h ∧
  ∃ r, jobs (db h) !! l_jobId l = Some r ∧ j_status r = Pending.
Proof.
  unfold retryTick. cbn -[Nat.leb maxAttempts].
  destruct (jobs (db h) !! l_jobId l) as [r|] eqn:Hj; [|done].
  case_bool_decide; cbn -[Nat.leb maxAttempts]; [|done].
  destruct (tryAssign _ _ _ _ _ _ _ _); [done|].
  case_match eqn:Hm; [done|]. intros [= <- <-]. apply Nat.leb_gt in Hm. simpl. eauto 10.
Qed.

(** C13: the retry loop ends.  Whatever the rest of the system does between
    its ticks, a retry loop is cleared after at most 15 ticks. *)
Theorem retry_loop_terminates evolve now l h :
  (retry_ticks evolve maxAttempts now l h).1 = None.
Proof.
  assert (∀ n now l h, (maxAttempts <= l_attempts l + n)%nat → (0 < n)%nat →
    (retry_ticks evolve n now l h).1 = None) as Hgen; [|apply Hgen; unfold maxAttempts; lia].
  intros n. induction n as [|n IH]; intros now' l' h' Hn Hpos; [lia|]. simpl.
  destruct (retryTick l' now' h') as [[l''|] h''] eqn:Ht; [|done].
  apply retryTick_attempts in Ht as (-> & Hlt & -> & _). simpl in Hlt. apply IH; simpl; lia.
Qed.

(** How a retry ends.  When a tick clears the loop of a pending job, the
    job has been assigned to a worker that can take it, or it failed with
    [no_eligible_worker] on the fifteenth tick because none could. *)
Theorem retry_tick_decides l now h h' r :
  jm_wf (workers h) → jobs (db h) !! l_jobId l = Some r → j_status r = Pending →
  retryTick l now h = (None, h') →
  (∃ id w, jm_get id (workers h) = Some w ∧ can_take h (l_jobType l) (l_privacyClass l) (l_userId l) w ∧
     jobs (db h') !! l_jobId l = Some (set_assigned (w_pubkey w) r)) ∨
  ((maxAttempts <= S (l_attempts l))%nat ∧ jobs (db h') !! l_jobId l = Some (set_failed "no_eligible_worker" r) ∧
   ∀ id w, jm_get id (workers h) = Some w → ¬ can_take h (l_jobType l) (l_privacyClass l) (l_userId l) w).
Proof.
  intros Hwf Hj Hp. unfold retryTick. cbn -[Nat.leb maxAttempts]. rewrite Hj.
  rewrite bool_decide_true by done. cbn -[Nat.leb maxAttempts].
  destruct (tryAssign _ _ _ _ _ _ _ _) as [h2|] eqn:Htry.
  - intros [= <-]. destruct (tryAssign_Some _ _ _ _ _ _ _ _ _ Hwf Htry) as (id & w & Hw & Hc & Hparts).
    apply hparts_eq in Hparts as (_ & Hdb & _ & _). left. exists id, w. split_and!; [done | done |].
    rewrite Hdb. simpl. by rewrite lookup_alter_eq, Hj.
  - case_match eqn:Hm; [|done]. intros [= <-]. right. split_and!.
    + by apply Nat.leb_le in Hm.
    + simpl. by rewrite lookup_alter_eq, Hj.
    + by eapply tryAssign_None.
Qed.
End Committing.

(** ** Instances *)

Definition sc_bad_receipt : Event BoltD WboltD :=
  EMessage 2 (GoodMsg (MsgReceiptSubmit {| rs_receipt := sc_receipt "no-such-job" sc_key2; rs_signature := "x" |}))
    (sc_uuid 40) (sc_uuid 41) 9000.

(** The texts {"type":"register"} and {"type":"job_reject","job_id":null}. *)
Definition sc_bare_register : string := JSON_stringify (JObj [("type", JStr "register")]).
Definition sc_null_reject : string := JSON_stringify (JObj [("type", JStr "job_reject"); ("job_id", JNull)]).

Example sc_bare_register_read : read_message sc_bare_register = Some (ThrowMsg (reading "undefined" "slice")).
Proof. vm_compute. reflexivity. Qed.

Definition sc_reject_null : Event BoltD WboltD := EMessage 2 NullJobMsg (sc_uuid 40) (sc_uuid 41) 9000.


Lemma prune_removes_exactly_the_stale_witness :
  workers (pruneStale 40000 (hub sc_state1)) = [] ∧
  j_status <$> jobs (db (pruneStale 40000 (hub sc_state1))) !! sc_uuid 6 = Some Failed.
Proof.
  destruct (prune_removes_exactly_the_stale sc_cfg sc_state1 40000 sc_reachable1) as [Hw Hj].
  rewrite Hw, Hj. split; vm_compute; reflexivity.
Defined.

Lemma heartbeat_refreshes_oldest_registration_witness :
  ∃ id w, findByPubkey sc_key1 (hub sc_state0) = Some (id, w) ∧
    jm_get id (workers (handleHeartbeat sc_key1 20000 (hub sc_state0))) = Some (set_heartbeat 20000 w).
Proof.
  eexists _, _. split; [vm_compute; reflexivity|].
  refine (proj1 (heartbeat_refreshes_oldest_registration sc_key1 20000 45000 (hub sc_state0) _ _ _ _ _));
    [ apply (bool_decide_unpack _); vm_compute; exact I | vm_compute; reflexivity | vm_compute; discriminate ].
Defined.

Lemma sc_scores_finite :
  ∀ id w, jm_get id (workers (hub sc_state0)) = Some w → num_finite (workerScore 5000 w CHEAP TASK) = true.
Proof.
  intros id w Hw%jm_get_elem.
  assert (Forall (λ e : string * TrackedWorker, num_finite (workerScore 5000 e.2 CHEAP TASK) = true)
    (workers (hub sc_state0))) as Hall by (repeat constructor; vm_compute; reflexivity).
  rewrite Forall_forall in Hall. exact (Hall (id, w) Hw).
Qed.

(** The SEEKER worker wins a CHEAP task. *)
Lemma claim_picks_best_eligible_witness :
  ∃ id w, (claimWorker TASK CHEAP "PUBLIC" "bob" 5000 (hub sc_state0)).1 = Some (id, w) ∧
    w_type w = SEEKER ∧ can_take (hub sc_state0) TASK "PUBLIC" "bob" w.
Proof.
  pose proof (claim_picks_best_eligible TASK CHEAP "PUBLIC" "bob" 5000 (hub sc_state0)
    ltac:(apply (bool_decide_unpack _); vm_compute; exact I) sc_scores_finite) as Hbest.
  destruct (claimWorker TASK CHEAP "PUBLIC" "bob" 5000 (hub sc_state0)).1 as [[id w]|] eqn:Hc;
    vm_compute in Hc; [|discriminate Hc].
  injection Hc as <- <-. eexists _, _. split_and!; [reflexivity | reflexivity | apply Hbest].
Defined.

Lemma consecutive_claims_take_different_workers_witness :
  ∃ id1 w1 h1 id2 w2 h2,
    claimWorker TASK CHEAP "PUBLIC" "bob" 5000 (hub sc_state0) = (Some (id1, w1), h1) ∧
    claimWorker TASK CHEAP "PUBLIC" "bob" 5000 h1 = (Some (id2, w2), h2) ∧ id1 ≠ id2.
Proof.
  do 6 eexists. split; [vm_compute; reflexivity|]. split; [vm_compute; reflexivity|].
  eapply (consecutive_claims_take_different_workers TASK CHEAP "PUBLIC" "bob" 5000
    TASK CHEAP "PUBLIC" "bob" 5000 (hub sc_state0));
    [apply (bool_decide_unpack _); vm_compute; exact I | vm_compute; reflexivity | vm_compute; reflexivity].
Defined.

(** A PRIVATE job of a user without a paired worker. *)
Lemma commit_outcome_witness :
  ∃ resp l h', handleCommit FAST (sc_body "TASK" "PRIVATE" "carol") (sc_uuid 30) 5000 (hub sc_state0)
    = Ok (resp, l, h') ∧ resp = Commit422 (sc_uuid 30).
Proof.
  destruct (commit_outcome FAST (sc_body "TASK" "PRIVATE" "carol") (sc_uuid 30) 5000 (hub sc_state0)
    TASK (JObj [("input", JStr "hello")]) "carol") as (resp & l & h' & Hc & Hcase).
  - apply (bool_decide_unpack _); vm_compute; exact I.
  - vm_compute. reflexivity.
  - repeat split.
  - exists resp, l, h'. split; [exact Hc|].
    destruct Hcase as [(id & w & _ & (_ & _ & Ht) & _)|(_ & _ & [(_ & -> & _)|(Hne & _)])].
    + exfalso. specialize (Ht eq_refl). vm_compute in Ht. inversion Ht.
    + reflexivity.
    + exfalso. by apply Hne.
Defined.

Lemma retry_tick_decides_witness :
  jobs (db (retryTick (mkLoop (sc_uuid 12) LLM_INFER FAST "PUBLIC" "bob" JNull 14) 9000 (hub sc_state3)).2)
    !! sc_uuid 12 = Some (set_failed "no_eligible_worker" (sc_row sc_state3 12)).
Proof.
  destruct (retry_tick_decides (mkLoop (sc_uuid 12) LLM_INFER FAST "PUBLIC" "bob" JNull 14) 9000 (hub sc_state3)
    (retryTick (mkLoop (sc_uuid 12) LLM_INFER FAST "PUBLIC" "bob" JNull 14) 9000 (hub sc_state3)).2
    (sc_row sc_state3 12)) as [(id & w & Hw & (_ & Hcap & _) & _)|(_ & Hj & _)].
  - apply (bool_decide_unpack _); vm_compute; exact I.
  - vm_compute. reflexivity.
  - vm_compute. reflexivity.
  - vm_compute. reflexivity.
  - exfalso. apply jm_get_elem in Hw.
    assert (Forall (λ e : string * TrackedWorker, LLM_INFER ∉ w_capabilities e.2) (workers (hub sc_state3)))
      as Hall by (repeat constructor; apply (bool_decide_unpack _); vm_compute; exact I).
    rewrite Forall_forall in Hall. exact (Hall (id, w) Hw Hcap).
  - exact Hj.
Defined.
