(* ===== verification/RouteProps.v ===== *)
(** * Pairings, prices, the demo mode and receipts *)

From stdpp Require Import base list gmap strings option relations.
From Stdlib Require Import ZArith Lia.
From S2P Require Import Prelude Js JsNum Protocol Interfaces Payout Db WorkerHub Jobs Routes Core Moves HubFacts Coordinator Scenario Refinement Lifecycle.
Local Open Scope string_scope.

(** ** Pairings *)

Section Pairing.
  Context {B W : Type} `{!PayoutQueue B} `{!PayoutQueue W} `{!Ed25519}.
  Context `{!PayoutQueueLaws B} `{!PayoutQueueLaws W}.
  Implicit Types (s : Sys B W).

(** The pairing row a code designates. *)
Lemma select_pairing_Some code d t :
  NoDup (t_pairing_code <$> trust_pairings d) →
  select_pairing code d = Some t ↔ t ∈ trust_pairings d ∧ t_pairing_code t = code.
Proof.
  intros Hnd. unfold select_pairing. split.
  - intros ([i t'] & Hf & [= ->])%fmap_Some. apply list_find_Some in Hf as (Hi & Hc & _).
    split; [by eapply list_elem_of_lookup_2 | done].
  - intros [[i Hi]%list_elem_of_lookup Hc].
    destruct (list_find _ (trust_pairings d)) as [[i' t']|] eqn:Hf; simpl.
    + apply list_find_Some in Hf as (Hi' & Hc' & _). f_equal.
      assert (i' = i) as ->; [|congruence].
      eapply (NoDup_lookup _ _ _ code Hnd); rewrite list_lookup_fmap; [rewrite Hi' | rewrite Hi]; simpl; congruence.
    + apply list_find_None in Hf. rewrite Forall_forall in Hf. exfalso.
      eapply (Hf t); [by eapply list_elem_of_lookup_2 | done].
Qed.

Lemma elem_update_claimed pk id d t :
  t ∈ trust_pairings (update_claimed pk id d) ↔
  ∃ t0, t0 ∈ trust_pairings d ∧ t = if decide (t_id t0 = id) then set_claimed pk t0 else t0.
Proof. simpl. rewrite list_elem_of_fmap. naive_solver. Qed.

Lemma trusted_update_claimed pk t d u p :
  NoDup (t_id <$> trust_pairings d) → t ∈ trust_pairings d → t_claimed t = false →
  trusted_by (update_claimed pk (t_id t) d) u p ↔ trusted_by d u p ∨ (u = t_user_id t ∧ p = pk).
Proof.
  intros Hnd Ht Hc. assert (∀ t0, t0 ∈ trust_pairings d → t_id t0 = t_id t → t0 = t) as Huniq.
  { intros t0 [i0 H0]%list_elem_of_lookup Heq. apply list_elem_of_lookup in Ht as [i Hi].
    assert (i0 = i) as ->; [|congruence].
    eapply (NoDup_lookup _ _ _ (t_id t) Hnd); rewrite list_lookup_fmap; [rewrite H0 | rewrite Hi]; simpl; congruence. }
  rewrite !trusted_by_iff. setoid_rewrite elem_update_claimed. split.
  - intros (t' & (t0 & Hin & ->) & Hu & Hcl & Hp). case_decide as Hd.
    + rewrite (Huniq t0 Hin Hd) in *. simpl in *. right. naive_solver.
    + left. eauto.
  - intros [(t0 & Hin & Hu & Hcl & Hp)|[-> ->]].
    + exists t0. split; [|done]. exists t0. split; [done|]. rewrite decide_False; [done|].
      intros Heq. rewrite (Huniq t0 Hin Heq) in Hcl. congruence.
    + exists (set_claimed pk t). split; [|done]. exists t. split; [done|]. by rewrite decide_True.
Qed.

(** C15: pairing.  Claiming a code succeeds exactly when an unexpired and
    unclaimed pairing has it; then the only trust added is that of the
    pairing's user in the claiming key, and the code can never be claimed
    again.  A claim that fails changes nothing. *)
Theorem pairing_claim_outcome cfg s code pk now :
  reachable cfg s → str_truthy code = true → str_truthy pk = true →
  let d := db (hub s) in
  let '(res, d') := trustClaim (Some code) (Some pk) now d in
  match res with
  | inr user =>
      (∃ t, t ∈ trust_pairings d ∧ t_pairing_code t = code ∧ t_user_id t = user ∧
            t_claimed t = false ∧ (now <= t_expires_at t)%Z) ∧
      (∀ u p, trusted_by d' u p ↔ trusted_by d u p ∨ (u = user ∧ p = pk)) ∧
      (∀ pk' now', str_truthy pk' = true →
         trustClaim (Some code) (Some pk') now' d' = (inl AlreadyClaimed, d'))
  | inl e =>
      d' = d ∧ ∀ t, t ∈ trust_pairings d → t_pairing_code t = code →
        t_claimed t = true ∨ (t_expires_at t < now)%Z
  end.
Proof.
  intros Hr%reachable_vinv Hc Hp d. destruct (vi_trust_nodup _ Hr) as [Hid Hcode].
  unfold trustClaim. rewrite Hc, Hp. simpl.
  destruct (select_pairing code d) as [t|] eqn:Hs.
  - pose proof Hs as [Ht Htc]%(select_pairing_Some _ _ _ Hcode).
    assert (∀ t', t' ∈ trust_pairings d → t_pairing_code t' = code → t' = t) as Huniq.
    { intros t' Ht' Hc'.
      assert (select_pairing code d = Some t') as H' by (by apply select_pairing_Some). congruence. }
    destruct (t_claimed t) eqn:Hcl; [split; [done|]; intros t' Ht' Hc'; left; by rewrite (Huniq t')|].
    destruct (Z.ltb_spec (t_expires_at t) now).
    { split; [done|]. intros t' Ht' Hc'. right. by rewrite (Huniq t'). }
    split_and!.
    + exists t. by split_and!.
    + intros u p. by apply trusted_update_claimed.
    + intros pk' now' Hp'. rewrite Hp'. simpl.
      assert (select_pairing code (update_claimed pk (t_id t) d) = Some (set_claimed pk t)) as ->; [|done].
      apply select_pairing_Some; [by rewrite update_claimed_keeps|]. split; [|done].
      apply elem_update_claimed. exists t. split; [done|]. by rewrite decide_True.
  - split; [done|]. intros t Ht Htc.
    assert (select_pairing code d = Some t) as Hs' by (by apply select_pairing_Some). congruence.
Qed.
End Pairing.

(** ** Prices *)

(** What the x402 gate charges on the endpoint of a quote. *)
Definition charged (network payTo : string) (asset : option string) (q : Quote) : option string :=
  pa_price <$> jm_get ("POST " ++ q_endpoint q) (buildPaymentConfig network payTo asset).

(** Quotes and charges.  Every quote names a gated endpoint; what is
    charged there is what was quoted for AUTO, for FAST inference and for CHEAP
    tasks, and differs for a FAST task and for CHEAP inference. *)
Theorem quoted_price_vs_charge network payTo asset t p :
  ∃ q, quote network (Some (JobType_str t)) (Some (Policy_str p)) = inr q ∧
    is_Some (charged network payTo asset q) ∧
    (charged network payTo asset q = Some (q_price q) ↔
     ¬ (t = TASK ∧ p = FAST) ∧ ¬ (t = LLM_INFER ∧ p = CHEAP)).
Proof.
  destruct t, p; eexists; (split; [reflexivity|]); (split; [vm_compute; eauto|]); vm_compute; intuition discriminate.
Qed.

(** ** Demo mode *)

Section DemoMode.
  Context {B W : Type} `{!PayoutQueue B} `{!PayoutQueue W} `{!Ed25519}.
  Implicit Types (s : Sys B W).

Definition demo_ok (dm : Demo) : Prop :=
  if demoActive dm then ∃ t, armed dm = [t] ∧ demoTimer dm = Some t else armed dm = [].

Lemma filter_ne_singleton (t : nat) : filter (λ t', t' ≠ t) [t] = [].
Proof. rewrite filter_cons_False by naive_solver. apply filter_nil. Qed.

Lemma demo_ok_start tid dm : demo_ok dm → demo_ok (startDemoMode tid dm).
Proof.
  unfold startDemoMode. destruct (demoActive dm) eqn:Ha; [done|].
  unfold demo_ok. rewrite Ha. intros Hn. simpl. rewrite Hn. eauto.
Qed.

Lemma demo_ok_stop dm : demo_ok dm → demo_ok (stopDemoMode dm).
Proof.
  unfold demo_ok, stopDemoMode. destruct (demoActive dm).
  - intros (t & Ha & Ht). rewrite Ht. simpl. rewrite Ha. apply filter_ne_singleton.
  - intros Ha. destruct (demoTimer dm); simpl; rewrite Ha; done.
Qed.

Lemma demo_ok_tick fired tid iw it ip u dm (h : Hub B W) :
  fired ∈ armed dm → demo_ok dm → demo_ok (demoTick fired tid iw it ip u dm h).1.
Proof.
  unfold demo_ok, demoTick. simpl. destruct (demoActive dm) eqn:Ha; simpl.
  - intros Hin (t & Har & Ht). rewrite Har in *. apply list_elem_of_singleton in Hin as ->.
    rewrite filter_ne_singleton. eauto.
  - intros Hin Hn. rewrite Hn in Hin. by apply elem_of_nil in Hin.
Qed.

Lemma exec_demo_ok cfg e s s' : enabled e s → exec cfg e s = Ok s' → demo_ok (demo s) → demo_ok (demo s').
Proof.
  intros (_ & _ & Hen). unfold exec.
  destruct (exec_event cfg e s) as [s1|] eqn:Hev; [|done]. intros [= <-] Hok. simpl.
  destruct e; simpl in *; simplify_eq/=; try done.
  - destruct (handleMessage _ _ _ _ _ _ _ _); by simplify_eq/=.
  - by destruct (boltDistributor (hub s)).
  - by destruct (wrappedBoltDistributor (hub s)).
  - destruct (handleCommit _ _ _ _ _) as [[[? ?] ?]|]; by simplify_eq/=.
  - destruct (loops s !! i) as [l|]; [|by simplify_eq/=]. destruct (retryTick l now (hub s)); by simplify_eq/=.
  - by apply demo_ok_start.
  - by apply demo_ok_stop.
  - pose proof (demo_ok_tick fired tid iw it ip uuid (demo s) (hub s) (proj1 Hen) Hok) as Ht.
    destruct (demoTick _ _ _ _ _ _ _ _). by simplify_eq/=.
Qed.

(** The demo mode runs one timer.  However often it is started and
    stopped, in every reachable state there is exactly one armed demo timeout
    when it is active, the one the handle designates, and none otherwise. *)
Theorem demo_mode_has_one_timer cfg s : reachable cfg s → demo_ok (demo s).
Proof.
  intros (s0 & (bd & wd & -> & _) & Hr).
  assert (demo_ok (demo (initSys bd wd))) as H0 by done. revert H0.
  induction Hr as [|s1 s2 s3 [s' [e s4 Hen Hex]|s' [bd' wd' _]] _ IH]; intros H0; [done | |];
    apply IH; [by eapply exec_demo_ok | done].
Qed.
End DemoMode.

(** ** Receipts *)

Section Receipts.
  Context {B W : Type} `{!PayoutQueue B} `{!PayoutQueue W} `{!Ed25519} `{!Ed25519Laws}.
  Implicit Types (h : Hub B W).

Lemma select_receipt_app j rc d js :
  select_receipt j d = None → rr_job_id rc = j →
  select_receipt j (mkDb js (trust_pairings d) (receipts d ++ [rc])%list) = Some rc.
Proof.
  unfold select_receipt. simpl. intros Hn%fmap_None Hj.
  rewrite list_find_app_r by done. simpl. by rewrite decide_True.
Qed.

(** An earlier receipt of the job is the one that is found. *)
Lemma select_receipt_earlier j rcs d js old :
  select_receipt j d = Some old →
  select_receipt j (mkDb js (trust_pairings d) (receipts d ++ rcs)%list) = Some old.
Proof.
  unfold select_receipt. simpl. intros ([i rc] & Hf & [= <-])%fmap_Some.
  by rewrite (list_find_app_l _ _ _ i old Hf).
Qed.

(** C14: signed receipts are verified and stored.  When a worker completes its
    job with a receipt signed by the key it registered with, the hub stores the
    receipt, last, as verified.  Polling the job then returns the output and
    the first receipt stored for the job: this one, its signature and the
    verdict [true] when there was none before, and otherwise the earlier one
    with its own verdict. *)
Theorem signed_receipt_is_verified cfg h sk j output r rid now id w row :
  jm_wf (workers h) → findByActiveJob j h = Some (id, w) → isDemoJob j = false →
  w_pubkey w = pubkey_hex sk → r_job_id r = j → jobs (db h) !! j = Some row →
  rid ∉ (rr_id <$> receipts (db h)) →
  str_truthy (sign_detached sk (receipt_canonical r)) = true →
  let sig := sign_detached sk (receipt_canonical r) in
  let msg := {| jc_job_id := j; jc_output := output; jc_output_hash := r_output_hash r;
                jc_receipt := Some r; jc_receipt_signature := Some sig |} in
  ∃ h', handleJobComplete cfg msg rid now h = Ok h' ∧
    receipts (db h') = (receipts (db h) ++ [mkReceiptRow rid j (r_provider_pubkey r) r sig true now])%list ∧
    getJob j h' = Some {| jv_id := j; jv_status := Completed; jv_result := output;
                          jv_receipt := Some (match select_receipt j (db h) with
                                              | None => (r, sig, true)
                                              | Some old => (rr_receipt old, rr_signature old, rr_verified old)
                                              end);
                          jv_created_at := j_created_at row; jv_completed_at := Some now |}.
Proof.
  intros Hwf Hf Hd Hpk Hrj Hj Hrid Hsig sig msg. unfold handleJobComplete. simpl.
  assert (verifyReceiptSignature r sig (w_pubkey w) = true) as Hver
    by (unfold verifyReceiptSignature, sig; by rewrite Hpk, verify_sign).
  rewrite Hf, Hd. unfold completeTxn. simpl. fold sig in Hsig |- *. rewrite Hsig.
  unfold insert_receipt. simpl. rewrite decide_False by done. rewrite Hrj, lookup_alter_eq, Hj, Hver. simpl.
  eexists. split; [done|]. unfold getJob. cbn [db on_workers].
  destruct (proj1 (hparts_eq _ _ _ _ _) (queue_both_parts (w_pubkey w) j (startFeedback cfg (w_ws w) j
    (on_db (λ _, mkDb (alter (set_completed output now) j (jobs (db h))) (trust_pairings (db h))
      (receipts (db h) ++ [mkReceiptRow rid j (r_provider_pubkey r) r sig
        true now])%list) h)))) as (_ & -> & _ & _).
  destruct (proj1 (hparts_eq _ _ _ _ _) (startFeedback_parts cfg (w_ws w) j
    (on_db (λ _, mkDb (alter (set_completed output now) j (jobs (db h))) (trust_pairings (db h))
      (receipts (db h) ++ [mkReceiptRow rid j (r_provider_pubkey r) r sig
        true now])%list) h))) as (_ & -> & _ & _).
  cbn [db on_db jobs receipts]. split; [done|]. rewrite lookup_alter_eq, Hj. simpl.
  destruct (select_receipt j (db h)) as [old|] eqn:Hold;
    [by rewrite (select_receipt_earlier _ _ _ _ old) | by rewrite select_receipt_app].
Qed.
End Receipts.

(** ** Instances *)

Lemma pairing_claim_outcome_witness :
  (trustClaim (Some "A1B2C3") (Some sc_key2) 3500 (db (hub sc_state1))).1 = inl AlreadyClaimed ∧
  ∃ t, t ∈ trust_pairings (db (hub sc_state1)) ∧ t_claimed t = true.
Proof.
  pose proof (pairing_claim_outcome sc_cfg sc_state1 "A1B2C3" sc_key2 3500 sc_reachable1 eq_refl eq_refl) as Hc.
  cbv zeta in Hc.
  assert ((trustClaim (Some "A1B2C3") (Some sc_key2) 3500 (db (hub sc_state1))).1 = inl AlreadyClaimed) as Hr
    by (vm_compute; reflexivity).
  destruct (trustClaim (Some "A1B2C3") (Some sc_key2) 3500 (db (hub sc_state1))) as [res d'].
  simpl in Hr. subst res. destruct Hc as [_ Hall]. split; [reflexivity|].
  destruct (trust_pairings (db (hub sc_state1))) as [|t l] eqn:Ht; [vm_compute in Ht; discriminate Ht|].
  exists t. split; [left|]. vm_compute in Ht. injection Ht as <- <-. reflexivity.
Defined.

Lemma demo_mode_has_one_timer_witness :
  armed (demo (sc_from sc_state1 [EDemoStart 7; EDemoStop; EDemoStart 8])) = [8].
Proof.
  assert (reachable sc_cfg (sc_from sc_state1 [EDemoStart 7; EDemoStop; EDemoStart 8])) as Hr.
  { apply (sc_extend [EDemoStart 7; EDemoStop; EDemoStart 8] sc_state1); [exact sc_reachable1|].
    vm_compute. reflexivity. }
  pose proof (demo_mode_has_one_timer sc_cfg _ Hr) as Hok. unfold demo_ok in Hok.
  destruct (demoActive _) eqn:Ha; [|vm_compute in Ha; discriminate Ha].
  destruct Hok as (t & Har & Ht). rewrite Har. vm_compute in Ht. injection Ht as <-. reflexivity.
Defined.

Lemma signed_receipt_is_verified_witness :
  ∃ h', handleJobComplete sc_cfg {| jc_job_id := sc_uuid 6; jc_output := JStr "done"; jc_output_hash := "00";
      jc_receipt := Some (sc_receipt (sc_uuid 6) sc_key1);
      jc_receipt_signature := Some (sign_detached (sc_secret sc_key1) (receipt_canonical (sc_receipt (sc_uuid 6) sc_key1))) |}
      (sc_uuid 20) 5000 (hub sc_state1) = Ok h' ∧
    (jv_receipt <$> getJob (sc_uuid 6) h') =
      Some (Some (sc_receipt (sc_uuid 6) sc_key1,
        sign_detached (sc_secret sc_key1) (receipt_canonical (sc_receipt (sc_uuid 6) sc_key1)), true)).
Proof.
  destruct (findByActiveJob (sc_uuid 6) (hub sc_state1)) as [[id w]|] eqn:Hf;
    [|vm_compute in Hf; discriminate Hf].
  destruct (signed_receipt_is_verified sc_cfg (hub sc_state1) (sc_secret sc_key1) (sc_uuid 6) (JStr "done")
    (sc_receipt (sc_uuid 6) sc_key1) (sc_uuid 20) 5000 id w (sc_row sc_state1 6)) as (h' & Hc & _ & Hg).
  - apply (bool_decide_unpack _); vm_compute; exact I.
  - exact Hf.
  - vm_compute. reflexivity.
  - vm_compute in Hf. injection Hf as <- <-. reflexivity.
  - reflexivity.
  - vm_compute. reflexivity.
  - apply (bool_decide_unpack _); vm_compute; exact I.
  - vm_compute. reflexivity.
  - exists h'. split; [exact Hc|]. rewrite Hg. reflexivity.
Defined.

(** Anybody can be first: another client submits a receipt with a worthless
    signature while the job runs, and the poll serves that one. *)
Example sc_receipt_preempted :
  match run sc_cfg [EMessage 2 (GoodMsg (MsgReceiptSubmit {| rs_receipt := sc_receipt (sc_uuid 6) sc_key2;
                                                             rs_signature := "x" |})) (sc_uuid 20) (sc_uuid 21) 4500;
                    EMessage 1 (sc_complete (sc_uuid 6) sc_key1 (sc_receipt (sc_uuid 6) sc_key1)) (sc_uuid 22) (sc_uuid 23) 5000]
          sc_state1 with
  | Ok s => jv_receipt <$> getJob (sc_uuid 6) (hub s)
  | Throw _ => None
  end = Some (Some (sc_receipt (sc_uuid 6) sc_key2, "x", false)).
Proof. vm_compute. reflexivity. Qed.
