(* ===== verification/EndToEnd.v ===== *)
(** * A task from the client to the worker and back

    The compute router of Router.v talks over HTTP to the coordinator of
    Coordinator.v through the interface of Http.v, and the coordinator talks
    over its socket to the desktop worker of Processes.v; everything that
    crosses is text.  Between two requests the coordinator may make any steps:
    other clients, other workers, timers, settlements. *)

From stdpp Require Import base list gmap strings option relations.
From Stdlib Require Import ZArith Lia Ascii.
From S2P Require Import Prelude Js Json JsDate Protocol Interfaces Executors Payout Db WorkerHub Jobs Routes Core Moves HubFacts Coordinator Scenario Workers Router Cli Startup Http Processes Refinement Lifecycle Guarantees HubProps RouteProps.
Local Open Scope string_scope.

(** ** The coordinator's side *)

Section Coordinator.
  Context {B W : Type} `{!PayoutQueue B} `{!PayoutQueue W} `{!Ed25519}.
  Context `{!PayoutQueueLaws B} `{!PayoutQueueLaws W} (cfg : HubConfig).
  Implicit Types (s : Sys B W) (h : Hub B W).

(** Receipts are only ever added. *)
Lemma move_receipts N (v v' : View B W) : move N v v' → receipts (v_db v) `prefix_of` receipts (v_db v').
Proof.
  intros Hm. destruct Hm; cbn; try done; try by exists rcs.
  - unfold insert_job in *. by repeat case_match; simplify_eq.
  - match goal with H : insert_receipt _ _ = Ok _ |- _ => apply insert_receipt_Ok in H as (_ & _ & ->) end. by eexists.
  - unfold insert_pairing in *. by repeat case_match; simplify_eq.
Qed.

Lemma moves_receipts N (v v' : View B W) : rtc (move N) v v' → receipts (v_db v) `prefix_of` receipts (v_db v').
Proof. intros Hm. induction Hm as [|v1 v2 v3 Hm _ IH]; [done|]. etrans; [by eapply move_receipts | done]. Qed.

Definition served (j : string) s : option ReceiptRow := select_receipt j (db (hub s)).

Lemma select_receipt_prefix j (d d' : Db) rc :
  receipts d `prefix_of` receipts d' → select_receipt j d = Some rc → select_receipt j d' = Some rc.
Proof.
  intros [l Hl] ([i rc'] & Hf & [= <-])%fmap_Some. unfold select_receipt. rewrite Hl.
  by rewrite (list_find_app_l _ _ _ i rc Hf).
Qed.

(** A reachable state of a process that did not find job [j] at its start. *)
Definition owns j s : Prop := reachable cfg s ∧ found s !! j = None.

Lemma owns_step j s s' : owns j s → step cfg s s' → owns j s'.
Proof.
  intros [Hr HF] Hs. split; [by eapply reachable_step|].
  by rewrite (steps_found _ _ _ (rtc_once _ _ Hs)).
Qed.

(** A completed job and the receipt served with it stay as they are. *)
Lemma completed_stays s s' j r rc :
  owns j s → rtc (step cfg) s s' → sys_jobs s !! j = Some r → terminal r → served j s = Some rc →
  owns j s' ∧ sys_jobs s' !! j = Some r ∧ served j s' = Some rc.
Proof.
  intros Hr Hs. revert Hr. induction Hs as [s|s1 s2 s3 Hs _ IH]; intros Hr Hj Ht Hrc; [done|].
  destruct (step_row cfg s1 s2 j r (proj1 Hr) Hs Hj) as (r2 & Hj2 & _ & Hf & _). rewrite (Hf Ht) in Hj2.
  destruct (step_moves cfg s1 s2 (proj1 Hr) Hs) as (e & _ & Hm%moves_receipts).
  apply IH; [by eapply owns_step | done | done |]. by eapply select_receipt_prefix.
Qed.

(** Steps that leave a job and its receipts alone. *)
Definition bystep j s s' : Prop :=
  step cfg s s' ∧ sys_jobs s' !! j = sys_jobs s !! j ∧ served j s' = served j s.

Lemma undisturbed_stays j s s' : owns j s → rtc (bystep j) s s' →
  owns j s' ∧ sys_jobs s' !! j = sys_jobs s !! j ∧ served j s' = served j s.
Proof.
  intros Hr Hs. revert Hr. induction Hs as [s|s1 s2 s3 (Hst & Hj & Hrc) _ IH]; intros Hr; [done|].
  destruct (IH (owns_step j s1 s2 Hr Hst)) as (? & -> & ->). done.
Qed.

(** A commit that finds a worker. *)
Lemma commit_assigns tier body j now h t payload user :
  jm_wf (workers h) → jobs (db h) !! j = None → valid_body body t payload user →
  let pc := default "PUBLIC" (cb_privacy_class body) in
  (∃ id w, jm_get id (workers h) = Some w ∧ can_take h t pc user w) →
  ∃ id w h', jm_get id (workers h) = Some w ∧ can_take h t pc user w ∧
    handleCommit tier body j now h = Ok (Commit201 j, None, h') ∧
    jobs (db h') !! j = Some (set_assigned (w_pubkey w) (mkJob t tier pc user Pending payload None None now None)) ∧
    receipts (db h') = receipts (db h) ∧
    (sockets h !! w_ws w = Some SockOpen →
       last (outbox h') = Some (w_ws w, OutJobAssign (assignMsg j t payload tier pc user))).
Proof.
  intros Hwf Hnew (Ht & Hp & Hpt & Hu & Hut) pc (id0 & w0 & Hw0 & Hc0). unfold handleCommit.
  rewrite Ht, Hp, Hu, Hpt, Hut, parse_JobType_str.
  replace (str_truthy (JobType_str t)) with true by (by destruct t). simpl. fold pc.
  unfold insert_job. rewrite Hnew. simpl.
  set (row := mkJob t tier pc user Pending payload None None now None).
  set (h1 := on_db (λ _, with_jobs <[j:=row]> (db h)) h).
  unfold tryAssign. destruct (claimWorker t tier pc user now h1) as [[[id w]|] h2] eqn:Hc.
  - destruct (claimWorker_Some _ _ _ _ _ _ _ _ _ (Hwf : jm_wf (workers h1)) Hc) as (Hw & Hcan & ->).
    exists id, w. eexists. split_and!; [done | exact Hcan | done | | |].
    + destruct (proj1 (hparts_eq _ _ _ _ _) (frame_parts _ _ (send_frame (w_ws w)
        (OutJobAssign (assignMsg j t payload tier pc user)) (on_workers (jm_mutate (set_active j) id)
          (on_db (update_assigned (w_pubkey w) j) (on_workers (jm_mutate set_busy id) h1)))))) as (_ & Hdb & _ & _).
      unfold assignJob. cbn [fst snd]. rewrite Hdb. cbn. by rewrite lookup_alter_eq, lookup_insert_eq.
    + unfold assignJob. cbn [fst snd]. unfold send. by case_decide.
    + intros Hs. unfold assignJob. cbn [fst snd]. unfold send. rewrite decide_True by exact Hs.
      cbn. by rewrite last_snoc.
  - apply claimWorker_None in Hc as [_ Hnone]. by destruct (Hnone id0 w0 Hw0).
Qed.

(** What a completion writes. *)
Lemma complete_writes msg rid now h h' id w :
  findByActiveJob (jc_job_id msg) h = Some (id, w) → isDemoJob (jc_job_id msg) = false →
  handleJobComplete cfg msg rid now h = Ok h' →
  completeTxn msg (w_pubkey w) rid now (db h) = Ok (db h').
Proof.
  intros Hf Hd. unfold handleJobComplete. rewrite Hf, Hd.
  destruct (completeTxn msg (w_pubkey w) rid now (db h)) as [d|e]; [|done]. simpl. intros [= <-]. f_equal.
  cbn [db on_workers].
  destruct (proj1 (hparts_eq _ _ _ _ _) (queue_both_parts (w_pubkey w) (jc_job_id msg)
    (startFeedback cfg (w_ws w) (jc_job_id msg) (on_db (λ _, d) h)))) as (_ & -> & _ & _).
  by destruct (proj1 (hparts_eq _ _ _ _ _) (startFeedback_parts cfg (w_ws w) (jc_job_id msg) (on_db (λ _, d) h)))
    as (_ & -> & _ & _).
Qed.
(** The worker's answer arrives. *)
Lemma answer_completes s1 s2 sha sk j output iso c id rid now row :
  owns j s1 → sys_jobs s1 !! j = Some row → j_status row = Assigned →
  j_worker_pubkey row = Some (pubkey_hex sk) → served j s1 = None →
  (∀ m, str_truthy (sign_detached sk m) = true) → (∀ m, verify_detached m (sign_detached sk m) (pubkey_hex sk) = true) →
  exec cfg (EMessage c (GoodMsg (d_complete sha sk j output iso)) id rid now) s1 = Ok s2 →
  let r := buildReceipt sha j output (pubkey_hex sk) sk iso in
  sys_jobs s2 !! j = Some (set_completed output now row) ∧
  served j s2 = Some (mkReceiptRow rid j (pubkey_hex sk) (rs_receipt r) (rs_signature r) true now).
Proof.
  intros [Hr HF] Hj Hst Hpk Hnone Hsig Hver Hex r. pose proof (vi_core _ (reachable_vinv _ _ Hr)) as Hc.
  destruct (core_rows _ _ _ _ Hc j row Hj) as [Hd _].
  unfold exec, exec_event, handleMessage, d_complete in Hex.
  destruct (handleJobComplete _ _ _ _ _) as [h'|e] eqn:Hh; [|done]. cbn [obind] in Hex. injection Hex as <-.
  destruct (findByActiveJob j (hub s1)) as [[id' w]|] eqn:Hf.
  2: { destruct (core_assigned _ _ _ _ Hc j row Hj Hst) as [[? ?]|(id' & w & Hw & Ha)]; [congruence|].
       by destruct (findByActiveJob_None j (hub s1) id' w Hf Hw). }
  destruct (findByActiveJob_Some j (hub s1) id' w (core_wf _ _ _ _ Hc) Hf) as [Hw Ha].
  destruct (core_active _ _ _ _ Hc id' w j Hw Ha Hd) as (row' & Hj' & _ & Hpk' & _).
  unfold sys_jobs in *. cbn in Hj'. rewrite Hj in Hj'. injection Hj' as <-. rewrite Hpk in Hpk'. injection Hpk' as Hpk'.
  pose proof (complete_writes (complete_with sha j output r) rid now (hub s1) h' id' w Hf Hd Hh) as Htx.
  unfold completeTxn in Htx. cbn [jc_receipt jc_receipt_signature complete_with jc_output jc_job_id] in Htx.
  rewrite (Hsig _ : str_truthy (rs_signature r) = true) in Htx.
  apply insert_receipt_Ok in Htx as (_ & _ & Hdb). cbn [hub draw]. unfold served. cbn [hub draw]. rewrite Hdb. cbn [jobs receipts].
  split; [cbn; by rewrite lookup_alter_eq, Hj|].
  rewrite (select_receipt_app j _ (db (hub s1))) by done. do 2 f_equal.
  rewrite <- Hpk'. unfold verifyReceiptSignature. rewrite receipt_canonical_json. apply Hver.
Qed.

(** ** What a poll sees *)

Lemma getJob_row h j row : jobs (db h) !! j = Some row →
  getJob j h = Some {| jv_id := j; jv_status := j_status row; jv_result := default JNull (j_result row);
    jv_receipt := if decide (j_status row = Completed)
                  then (λ r, (rr_receipt r, rr_signature r, rr_verified r)) <$> select_receipt j (db h) else None;
    jv_created_at := j_created_at row; jv_completed_at := j_completed_at row |}.
Proof. intros Hj. unfold getJob. by rewrite Hj. Qed.

Lemma verdict_of_view j v : json_ok (jv_result v) = true →
  poll_verdict j (job_resp (Some v)) =
  match jv_status v with
  | Completed => Some (Ok (Some (jv_result v),
                   Some match jv_receipt v with Some (r, sig, ok) => served_receipt r sig ok | None => JNull end))
  | Failed => Some (Throw ("Job " ++ j ++ " failed: " ++ JSON_stringify (jv_result v)))
  | _ => None
  end.
Proof.
  intros Hok. unfold job_resp, json_resp, poll_verdict. cbn [resp_ok].
  change (resp_ok 200) with true. cbv iota. rewrite parse_stringify by (by apply job_json_ok).
  by destruct v as [i [] res rc cr ct].
Qed.
End Coordinator.

(** ** The router's side *)

Section Client.
  Context (a : Decentralized) (env : Env).

Definition poll_round (jobId : string) (w : World) : World :=
  after_sleep env (after_fetch env (poll_req a jobId) w).

Lemma poll_round_later jobId w : (w_now w + 500 <= w_now (poll_round jobId w))%Z.
Proof. unfold poll_round, after_sleep, after_fetch. cbn. lia. Qed.

(** Polls that decide nothing, then one that does, before the deadline. *)
Lemma poll_until jobId timeoutMs deadline r n : ∀ fuel w,
  (∀ i, (i < n)%nat → poll_verdict jobId (answer a jobId env (w_log w) i) = None) →
  poll_verdict jobId (answer a jobId env (w_log w) n) = Some r →
  (w_now (Nat.iter n (poll_round jobId) w) < deadline)%Z → (n < fuel)%nat →
  poll_loop a jobId timeoutMs deadline fuel env w =
    (r, after_fetch env (poll_req a jobId) (Nat.iter n (poll_round jobId) w)).
Proof.
  induction n as [|n IH]; intros fuel w Hno Hyes Hlt Hf; (destruct fuel as [|fuel]; [lia|]).
  - rewrite poll_turn by done. unfold answer in Hyes. cbn [replicate] in Hyes. rewrite app_nil_r in Hyes. by rewrite Hyes.
  - rewrite Nat.iter_succ_r in Hlt |- *.
    assert (w_now w < deadline)%Z as Hw.
    { pose proof (poll_round_later jobId w) as H1.
      assert (∀ k w0, (w_now w0 <= w_now (Nat.iter k (poll_round jobId) w0))%Z) as Hmon.
      { induction k as [|k IHk]; intros w0; [done|]. rewrite Nat.iter_succ.
        pose proof (poll_round_later jobId (Nat.iter k (poll_round jobId) w0)). specialize (IHk w0). lia. }
      specialize (Hmon n (poll_round jobId w)). lia. }
    rewrite poll_turn by done.
    pose proof (Hno 0%nat ltac:(lia)) as H0. unfold answer in H0. cbn [replicate] in H0. rewrite app_nil_r in H0. rewrite H0.
    fold (poll_round jobId w). apply IH; [|..|lia]; [| |done].
    + intros i Hi. specialize (Hno (S i) ltac:(lia)). unfold answer in *. cbn [w_log poll_round after_sleep after_fetch].
      by rewrite <- app_assoc.
    + unfold answer in *. cbn [w_log poll_round after_sleep after_fetch]. by rewrite <- app_assoc.
Qed.

Definition quote_req (jobType : JobType) (policy : string) : Req :=
  HttpReq "GET" (da_url a ++ "/v1/quote?job_type=" ++ JobType_str jobType ++ "&policy=" ++ policy) [] None.
Definition commit_json (jobType : JobType) (privacyClass userId : string) (payload : json) : json :=
  JObj [("job_type", JStr (JobType_str jobType)); ("payload", payload);
        ("privacy_class", JStr privacyClass); ("user_id", JStr userId)].
Definition commit_req (policy : string) (body : json) : Req :=
  HttpReq "POST" (da_url a ++ "/v1/jobs/commit/" ++ (if String.eqb policy "FAST" then "fast" else "cheap"))
    [JSON_HEADER] (Some (JSON_stringify body)).

(** A submission whose quote and commit succeed returns what polling returns. *)
Lemma submit_polls jobType policy pc user payload w qtext ql ctext cl jobId res w3 :
  let body := commit_json jobType pc user payload in
  let w1 := after_fetch env (quote_req jobType policy) w in
  let w2 := after_fetch env (commit_req policy body) w1 in
  (env_http env (w_log w) (quote_req jobType policy)).1 = HttpResp 200 qtext → JSON_parse qtext = Some (JObj ql) →
  (env_http env (w_log w1) (commit_req policy body)).1 = HttpResp 201 ctext → JSON_parse ctext = Some (JObj cl) →
  jm_get "job_id" cl = Some (JStr jobId) →
  pollResult a jobId (jobTimeout jobType) env w2 = (Ok res, w3) →
  submit a jobType policy pc user payload env w =
    (Ok {| cr_output := res.1; cr_route := da_name a; cr_price := jm_get "price" ql;
           cr_latency_ms := (w_now w3 - w_now w)%Z; cr_receipt := res.2 |}, w3).
Proof.
  intros body w1 w2 Hq Hqp Hc Hcp Hj Hp.
  unfold submit. unfold bind at 1. cbn [now]. unfold bind at 1, fetchJson, bind at 1, fetch. fold (quote_req jobType policy).
  destruct (env_http env (w_log w) (quote_req jobType policy)) as [qr qt] eqn:Eq. cbn [fst] in Hq. subst qr.
  change (resp_ok 200) with true. unfold resp_json. rewrite Hqp. cbv beta iota zeta. unfold ret at 1.
  assert (mkWorld (w_now w + Z.of_nat qt) (w_log w ++ [quote_req jobType policy])%list = w1) as E1.
  { unfold w1, after_fetch. by rewrite Eq. }
  rewrite E1. unfold bind at 1, commit, fetch. fold (commit_req policy body).
  change (HttpReq "POST" _ [("Content-Type", "application/json")] (Some (JSON_stringify (JObj [_; _; _; _]))))
    with (commit_req policy body).
  destruct (env_http env (w_log w1) (commit_req policy body)) as [cr ct] eqn:Ec. cbn [fst] in Hc. subst cr.
  cbn [fst snd]. unfold bind at 1. change (201 =? 402)%Z with false. change (201 =? 422)%Z with false.
  change (resp_ok 201) with true. cbn [negb]. unfold ret at 1. cbv iota beta. cbn [fst snd].
  change (201 =? 422)%Z with false. change (resp_ok 201) with true. cbn [negb].
  assert (mkWorld (w_now w1 + Z.of_nat ct) (w_log w1 ++ [commit_req policy body])%list = w2) as E2.
  { unfold w2, after_fetch. by rewrite Ec. }
  rewrite E2. unfold resp_json. rewrite Hcp. unfold bind at 1, ret at 1. unfold bind at 1, prop at 1, ret at 1.
  unfold bind at 1. rewrite Hj. cbn [ojs_String js_String]. rewrite Hp. unfold prop, bind, ret. cbn [now]. done.
Qed.
End Client.

(** The router resolves the policy and the quote route does so again. *)
Lemma resolvePolicy_idem p t : resolvePolicy (resolvePolicy p t) t = resolvePolicy p t.
Proof.
  unfold resolvePolicy. destruct (String.eqb_spec p "AUTO") as [->|Hne]; cbn [negb]; [by destruct t|].
  by rewrite (proj2 (String.eqb_neq p "AUTO") Hne).
Qed.

(** ** The network *)

Section Network.
  Context {B W : Type} `{!PayoutQueue B} `{!PayoutQueue W} `{!Ed25519} `{!Express}.
  Context `{!PayoutQueueLaws B} `{!PayoutQueueLaws W} `{!Ed25519Laws} `{!ExpressLaws}.
  Context (cfg : HubConfig) (network url : string) (sha256_hex : string → string).
  (** The process behind each socket: its key and its environment. *)
  Context (keys : nat → secret_key) (pairing ollama : nat → option string).
  (** What the coordinator draws for the [k]-th request, what happens before
      it, how long its answer takes and how late timers are after it. *)
  Context (draw_at : nat → Draw) (between : nat → Sys B W → Sys B W) (latency late : nat → nat).
  Context (hosted : list Req → Req → outcome json * nat) (openai anthropic : option string).
  Implicit Types s : Sys B W.

Definition serve_req (k : nat) (r : Req) s : Resp * Sys B W :=
  match r with
  | HttpReq method full hs body =>
      match drop_prefix url full with
      | Some target => serve cfg network (express_other method target) (express_route method target hs body) (draw_at k) s
      | None => (NetError "fetch failed", s)
      end
  | HostedReq _ _ _ => (NetError "fetch failed", s)
  end.

(** The coordinator after the requests [log], the first of which is the [k]-th. *)
Fixpoint net_state (k : nat) (log : list Req) s : Sys B W :=
  match log with
  | [] => s
  | r :: log => net_state (S k) log (serve_req k r (between k s)).2
  end.

Definition net_env s0 : Env := {|
  env_http := λ log r, ((serve_req (length log) r (between (length log) (net_state 0 log s0))).1, latency (length log));
  env_hosted := hosted;
  env_late := λ log, late (length log);
  env_openai_key := openai;
  env_anthropic_key := anthropic |}.

Lemma net_state_app k l r s :
  net_state k (l ++ [r]) s = (serve_req (k + length l) r (between (k + length l) (net_state k l s))).2.
Proof.
  revert k s. induction l as [|r' l IH]; intros k s; cbn.
  - by rewrite Nat.add_0_r.
  - rewrite IH. by rewrite <- Nat.add_succ_comm.
Qed.

(** Milliseconds from poll [k] to the [n]-th one after it. *)
Fixpoint elapsed (k n : nat) : Z :=
  match n with O => 0 | S n => Z.of_nat (latency k) + 500 + Z.of_nat (late (S k)) + elapsed (S k) n end.

Lemma poll_rounds_now a jobId s0 n : ∀ w,
  w_now (Nat.iter n (poll_round a (net_env s0) jobId) w) = (w_now w + elapsed (length (w_log w)) n)%Z ∧
  w_log (Nat.iter n (poll_round a (net_env s0) jobId) w) = (w_log w ++ replicate n (poll_req a jobId))%list.
Proof.
  induction n as [|n IH]; intros w; [cbn; rewrite app_nil_r; split; [lia | done]|].
  rewrite Nat.iter_succ_r. destruct (IH (poll_round a (net_env s0) jobId w)) as [-> ->].
  unfold poll_round, after_sleep, after_fetch. cbn. rewrite length_app. cbn [length].
  rewrite Nat.add_1_r. split; [lia | by rewrite <- app_assoc].
Qed.

Lemma elapsed_500 k n : (500 * Z.of_nat n <= elapsed k n)%Z.
Proof. revert k. induction n as [|n IH]; intros k; [done|]. cbn [elapsed]. specialize (IH (S k)). lia. Qed.

(** Polling with a plain job id reads the job's row and changes nothing. *)
Lemma serve_poll a k jobId s : da_url a = url → plain jobId = true → jobId ≠ "" →
  serve_req k (poll_req a jobId) s = (job_resp (getJob jobId (hub s)), s).
Proof.
  intros Hu Hp Hn. unfold serve_req, poll_req. rewrite Hu, drop_prefix_app, route_job by done. done.
Qed.

(** The coordinator [s] after [n] polls, the first of which is request 2. *)
Fixpoint before_poll (n : nat) s : Sys B W :=
  match n with O => s | S n => between (2 + n) (before_poll n s) end.

Lemma net_state_polls a jobId n s : da_url a = url → plain jobId = true → jobId ≠ "" →
  net_state 2 (replicate n (poll_req a jobId)) s = before_poll n s.
Proof.
  intros Hu Hp Hn. induction n as [|n IH]; [done|].
  rewrite replicate_S_end, net_state_app, length_replicate, IH, serve_poll by done. done.
Qed.

(** *** The requests of a task *)

Definition policy_tier (policy : string) : Policy := if String.eqb policy "FAST" then FAST else CHEAP.

Definition task_payload_json (t i : string) : json :=
  JObj [("job_type", JStr "TASK"); ("task_type", JStr t); ("input", JStr i)].
Definition task_body (pc user t i : string) : CommitBody :=
  {| cb_job_type := Some "TASK"; cb_payload := Some (task_payload_json t i);
     cb_privacy_class := Some pc; cb_user_id := Some user |}.

Lemma task_valid pc user t i : str_truthy user = true →
  valid_body (task_body pc user t i) TASK (task_payload_json t i) user.
Proof. intros Hu. unfold valid_body. by split_and!. Qed.

Lemma serve_quote a k policy s : da_url a = url → plain policy = true →
  serve_req k (quote_req a TASK policy) s = (quote_resp network (Some "TASK") (Some policy), s).
Proof.
  intros Hu Hp. unfold serve_req, quote_req. rewrite Hu, drop_prefix_app.
  change (JobType_str TASK) with "TASK". by rewrite route_quote.
Qed.

Lemma serve_commit_task a k policy pc user t i s : da_url a = url →
  serve_req k (commit_req a policy (commit_json TASK pc user (task_payload_json t i))) s =
  serve_commit cfg (policy_tier policy) (task_body pc user t i) (draw_at k) s.
Proof.
  intros Hu. unfold serve_req, commit_req, policy_tier. rewrite Hu, drop_prefix_app.
  assert (JSON_parse (JSON_stringify (commit_json TASK pc user (task_payload_json t i))) =
    Some (commit_json TASK pc user (task_payload_json t i))) as Hparse by (by apply parse_stringify).
  destruct (String.eqb policy "FAST").
  - change ("/v1/jobs/commit/" ++ "fast") with "/v1/jobs/commit/fast". by rewrite (route_commit_fast _ _ [] Hparse).
  - change ("/v1/jobs/commit/" ++ "cheap") with "/v1/jobs/commit/cheap". by rewrite (route_commit_cheap _ _ [] Hparse).
Qed.

Lemma uuid_char_plain c : uuid_char c = true → plain_char c = true.
Proof. unfold uuid_char, plain_char. intros Hc. destruct c as [[] [] [] [] [] [] [] []]; first [done | discriminate Hc]. Qed.

Lemma uuid_plain u : is_uuid u = true → plain u = true.
Proof.
  intros Hu. apply andb_true_iff in Hu as [_ Hu]. induction u as [|c u IH]; [done|].
  cbn in Hu |- *. apply andb_true_iff in Hu as [Hc Hu]. by rewrite (uuid_char_plain c Hc), IH.
Qed.
(** *** A run *)

(** The process behind socket [c], listening, hears [m]; its answer is the
    event between [s1] and [s2]. *)
Definition worker_answers (c : nat) (m : CoordinatorToWorker) s1 s2 : Prop :=
  ∃ dst dst' reply raw iso id rid now,
    d_phase dst = DListening ∧ d_open dst = true ∧
    desktop_step sha256_hex (keys c) (pairing c) (ollama c) (DText (coordinator_text m) iso) dst = Some dst' ∧
    d_sent dst' = (d_sent dst ++ [reply])%list ∧ read_message (send_text reply) = Some raw ∧
    enabled (EMessage c raw id rid now) s1 ∧ exec cfg (EMessage c raw id rid now) s1 = Ok s2.

(** A task submitted in state [s0], answered before poll number [d]. *)
Section Task.
  Context (a : Decentralized) (policy pc user t i : string) (s0 : Sys B W) (d : nat).

Definition commit_draw : Draw := draw_at 1.
Definition job_id : string := dr_uuid commit_draw.
Definition at_commit : Sys B W := between 1 (between 0 s0).
Definition committed : Sys B W :=
  after cfg (ECommit (policy_tier policy) (task_body pc user t i) job_id (dr_now commit_draw)) at_commit.

Record task_run : Prop := {
  tk_url : da_url a = url;
  tk_policy_plain : plain policy = true;
  tk_user : str_truthy user = true;
  tk_task : str_truthy t = true;
  tk_text : str_truthy i = true;
  tk_output : json_ok (executeTask t i) = true;
  tk_reachable : reachable cfg s0;
  (** between requests the coordinator takes steps of its own *)
  tk_steps k s : reachable cfg s → rtc (step cfg) s (between k s);
  tk_fresh : is_uuid job_id = true ∧ job_id ∉ drawn at_commit;
  (** some worker can take the job; whichever can runs behind an open socket
      and registered with its own key *)
  tk_worker : ∃ id w, jm_get id (workers (hub at_commit)) = Some w ∧ can_take (hub at_commit) TASK pc user w;
  tk_workers id w : jm_get id (workers (hub at_commit)) = Some w → can_take (hub at_commit) TASK pc user w →
    w_pubkey w = pubkey_hex (keys (w_ws w)) ∧ sockets (hub at_commit) !! w_ws w = Some SockOpen;
  tk_signs c m : str_truthy (sign_detached (keys c) m) = true;
  (** before the answer nobody else changes the job or submits a receipt for it *)
  tk_quiet k : (k < d)%nat → rtc (bystep cfg job_id) (before_poll k committed) (before_poll (S k) committed);
  tk_answer c m : last (outbox (hub committed)) = Some (c, m) →
    ∃ s1 s2, rtc (bystep cfg job_id) (before_poll d committed) s1 ∧ worker_answers c m s1 s2 ∧
      rtc (step cfg) s2 (before_poll (S d) committed);
  (** in time *)
  tk_in_time : (elapsed 2 d < jobTimeout TASK)%Z }.

Context (Hrun : task_run).

Lemma at_commit_reachable : reachable cfg at_commit.
Proof.
  assert (∀ k s, reachable cfg s → reachable cfg (between k s)) as Hb.
  { intros k s Hr. eapply reachable_steps; [exact Hr | by apply (tk_steps Hrun)]. }
  apply Hb, Hb, (tk_reachable Hrun).
Qed.

Lemma job_id_plain : plain job_id = true ∧ job_id ≠ "".
Proof. destruct (tk_fresh Hrun) as [Hu _]. split; [by apply uuid_plain | by apply uuid_nonempty]. Qed.

(** The commit assigns the job to a worker. *)
Lemma task_committed :
  ∃ w h', can_take (hub at_commit) TASK pc user w ∧ w_pubkey w = pubkey_hex (keys (w_ws w)) ∧
    handleCommit (policy_tier policy) (task_body pc user t i) job_id (dr_now commit_draw) (hub at_commit)
      = Ok (Commit201 job_id, None, h') ∧
    owns cfg job_id committed ∧
    sys_jobs committed !! job_id = Some (set_assigned (w_pubkey w)
      (mkJob TASK (policy_tier policy) pc user Pending (task_payload_json t i) None None (dr_now commit_draw) None)) ∧
    served job_id committed = None ∧
    last (outbox (hub committed)) = Some (w_ws w,
      OutJobAssign (assignMsg job_id TASK (task_payload_json t i) (policy_tier policy) pc user)).
Proof.
  pose proof (reachable_vinv _ _ at_commit_reachable) as Hv. destruct (tk_fresh Hrun) as [Hu Hf].
  assert (jobs (db (hub at_commit)) !! job_id = None) as Hnew.
  { destruct (jobs (db (hub at_commit)) !! job_id) as [r|] eqn:E; [|done].
    by destruct Hf; apply (vi_jobs_drawn _ Hv job_id r). }
  destruct (commit_assigns (policy_tier policy) (task_body pc user t i) job_id (dr_now commit_draw) (hub at_commit)
    TASK (task_payload_json t i) user (core_wf _ _ _ _ (vi_core _ Hv)) Hnew (task_valid pc user t i (tk_user Hrun))
    (tk_worker Hrun)) as (id & w & h' & Hw & Hcan & Hcommit & Hrow & Hrc & Hlast).
  destruct (tk_workers Hrun id w Hw Hcan) as [Hpk Hopen].
  exists w, h'. split_and!; try done.
  - eapply owns_step.
    { split; [exact at_commit_reachable|]. destruct (found at_commit !! job_id) as [r|] eqn:E; [|done].
      destruct (vi_found _ Hv job_id r E) as [Hr _]. cbn in Hr. by rewrite Hnew in Hr. }
    apply (step_event cfg at_commit (ECommit (policy_tier policy) (task_body pc user t i) job_id (dr_now commit_draw))).
    + split_and!; [|apply NoDup_singleton|].
      * by intros u ->%list_elem_of_singleton.
      * unfold policy_tier. destruct (String.eqb policy "FAST"); [by left | by right].
    + done.
  - unfold committed, after, exec, exec_event. rewrite Hcommit. exact Hrow.
  - unfold committed, after, exec, exec_event, served. rewrite Hcommit. cbn [hub draw obind].
    unfold select_receipt. rewrite Hrc. apply fmap_None, list_find_None. rewrite Forall_forall.
    intros rc Hin Heq. destruct (vi_receipts _ Hv rc Hin) as [[r Hr] _]. rewrite Heq in Hr.
    cbn in Hr. by rewrite Hnew in Hr.
  - unfold committed, after, exec, exec_event. rewrite Hcommit. apply Hlast, Hopen.
Qed.
(** Until the answer, polls find the job assigned. *)
Lemma quiet_states :
  owns cfg job_id committed → served job_id committed = None →
  ∀ k, (k <= d)%nat → owns cfg job_id (before_poll k committed) ∧
    sys_jobs (before_poll k committed) !! job_id = sys_jobs committed !! job_id ∧
    served job_id (before_poll k committed) = None.
Proof.
  intros Hr Hn k. induction k as [|k IH]; intros Hk; [done|].
  destruct (IH ltac:(lia)) as (Hrk & Hj & Hs).
  destruct (undisturbed_stays cfg job_id _ _ Hrk (tk_quiet Hrun k ltac:(lia))) as (? & Hj' & Hs').
  split_and!; [done | by rewrite Hj' | by rewrite Hs'].
Qed.

(** The answer completes it. *)
Lemma task_answered :
  ∃ c iso created now rid, let r := buildReceipt sha256_hex job_id (executeTask t i) (pubkey_hex (keys c)) (keys c) iso in
    owns cfg job_id (before_poll (S d) committed) ∧
    sys_jobs (before_poll (S d) committed) !! job_id = Some (set_completed (executeTask t i) now
      (set_assigned (pubkey_hex (keys c)) (mkJob TASK (policy_tier policy) pc user Pending (task_payload_json t i) None None created None))) ∧
    served job_id (before_poll (S d) committed) =
      Some (mkReceiptRow rid job_id (pubkey_hex (keys c)) (rs_receipt r) (rs_signature r) true now).
Proof.
  destruct task_committed as (w & h' & Hcan & Hpk & Hcommit & Hr & Hrow & Hnone & Hlast).
  destruct (quiet_states Hr Hnone d (le_n d)) as (Hrd & Hjd & Hsd).
  destruct (tk_answer Hrun _ _ Hlast) as (s1 & s2 & Hby & Hans & Hafter).
  destruct (undisturbed_stays cfg job_id _ _ Hrd Hby) as (Hr1 & Hj1 & Hs1).
  destruct Hans as (dst & dst' & reply & raw & iso & id & rid & now & Hph & Hop & Hstep & Hsent & Hread & Hen & Hex).
  rewrite (d_hears_assignment sha256_hex (keys (w_ws w)) (pairing (w_ws w)) (ollama (w_ws w))
    (assignMsg job_id TASK (task_payload_json t i) (policy_tier policy) pc user) t i iso dst) in Hstep
    by first [done | split_and!; try done; [apply (tk_task Hrun) | apply (tk_text Hrun)]].
  injection Hstep as <-. unfold d_send in Hsent. rewrite Hop in Hsent. cbn [d_sent] in Hsent.
  apply app_inj_2 in Hsent as [_ [= <-]]; [|done].
  rewrite read_send in Hread by exact (tk_output Hrun). injection Hread as <-.
  rewrite Hpk in Hrow.
  destruct (answer_completes cfg s1 s2 sha256_hex (keys (w_ws w)) job_id (executeTask t i) iso (w_ws w) id rid now
    (set_assigned (pubkey_hex (keys (w_ws w))) (mkJob TASK (policy_tier policy) pc user Pending (task_payload_json t i)
       None None (dr_now commit_draw) None)) Hr1) as [Hj2 Hs2]; try done.
  - by rewrite Hj1, Hjd.
  - by rewrite Hs1.
  - apply (tk_signs Hrun).
  - intros m. apply verify_sign.
  - assert (owns cfg job_id s2) as Hr2 by (eapply owns_step; [exact Hr1 | by econstructor]).
    destruct (completed_stays cfg s2 _ job_id _ _ Hr2 Hafter Hj2 ltac:(by left) Hs2) as (Hr3 & Hj3 & Hs3).
    exists (w_ws w), iso, (dr_now commit_draw), now, rid. by split_and!.
Qed.
(** The requests made so far at poll [k]. *)
Definition task_log (k : nat) : list Req :=
  quote_req a TASK policy :: commit_req a policy (commit_json TASK pc user (task_payload_json t i)) ::
  replicate k (poll_req a job_id).

Lemma task_log_state k : net_state 0 (task_log k) s0 = before_poll k committed.
Proof.
  unfold task_log. cbn [net_state]. rewrite serve_quote by (apply Hrun). cbn [snd].
  rewrite serve_commit_task by (apply Hrun). unfold serve_commit. cbn [snd].
  destruct job_id_plain as [Hp Hn]. by rewrite net_state_polls by (done || apply Hrun).
Qed.

Lemma poll_answer k : answer a job_id (net_env s0) (task_log 0) k =
  job_resp (getJob job_id (hub (before_poll (S k) committed))).
Proof.
  unfold answer. change (task_log 0 ++ replicate k (poll_req a job_id))%list with (task_log k).
  cbn [net_env env_http fst]. rewrite task_log_state. unfold task_log. cbn [length]. rewrite length_replicate.
  destruct job_id_plain as [Hp Hn]. by rewrite serve_poll by (done || apply Hrun).
Qed.

Definition pollable (w : World) : Prop := w_log w = task_log 0.

(** Polling from the commit on returns the output with its receipt. *)
Lemma task_polled w : pollable w →
  ∃ c iso w3, let r := buildReceipt sha256_hex job_id (executeTask t i) (pubkey_hex (keys c)) (keys c) iso in
    pollResult a job_id (jobTimeout TASK) (net_env s0) w =
      (Ok (Some (executeTask t i), Some (served_receipt (rs_receipt r) (rs_signature r) true)), w3) ∧
    w_log w3 = task_log (S d) ∧
    done_by (sys_jobs (before_poll (S d) committed)) job_id (pubkey_hex (keys c)).
Proof.
  intros Hw. destruct task_answered as (c & iso & created & now & rid & Hr & Hj & Hs).
  destruct task_committed as (w0 & h' & _ & _ & _ & Hrc & Hrow & Hnone & _).
  destruct (poll_rounds_now a job_id s0 d w) as [Hnow Hlog].
  exists c, iso, (after_fetch (net_env s0) (poll_req a job_id) (Nat.iter d (poll_round a (net_env s0) job_id) w)).
  split_and!.
  - unfold pollResult, bind. cbn [Router.now]. apply poll_until.
    + intros k Hk. rewrite Hw, poll_answer.
      destruct (quiet_states Hrc Hnone (S k) ltac:(lia)) as (_ & Hjk & _).
      rewrite Hrow in Hjk. by rewrite (getJob_row _ _ _ Hjk), verdict_of_view.
    + rewrite Hw, poll_answer, (getJob_row _ _ _ Hj), verdict_of_view by exact (tk_output Hrun).
      cbn [jv_status j_status set_completed jv_result jv_receipt default j_result].
      rewrite decide_True by done. unfold served in Hs. by rewrite Hs.
    + rewrite Hnow, Hw. cbn [length task_log replicate]. pose proof (tk_in_time Hrun). lia.
    + unfold poll_fuel. pose proof (elapsed_500 2 d). pose proof (tk_in_time Hrun).
      assert (Z.of_nat d <= jobTimeout TASK / 500)%Z by (apply Z.div_le_lower_bound; lia). lia.
  - unfold after_fetch. cbn [w_log]. rewrite Hlog, Hw. unfold task_log. cbn [replicate app].
    by rewrite <- replicate_S_end.
  - eexists. split_and!; [exact Hj | done | done].
Qed.
End Task.

(** C7: a task goes round.  Let a client call [runTask] on a coordinator in any
    reachable state, with any traffic between its requests.  If some worker can
    take the job, the workers that can are desktop workers with their own keys,
    nobody else touches the job, and the worker's answer arrives before a poll
    that is in time, then the call returns what the executor computes from the
    task, at the quoted price, with a receipt of this job, signed by the key of
    the worker that ran it, hashing that output, and reported as verified; it
    made one quote, one commit and [d + 1] polls; and the worker's payout has
    been handed to every distributor. *)
Theorem task_round_trip rt o t i s0 d t0 :
  let a := adapter rt (default Monad (ro_chain o)) in
  let policy := resolvePolicy (default "AUTO" (ro_policy o)) TASK in
  task_run a policy (default "PUBLIC" (ro_privacy o)) (ro_user_id o) t i s0 d →
  ∃ c iso w', let sk := keys c in
    let out := executeTask t i in
    let r := buildReceipt sha256_hex job_id out (pubkey_hex sk) sk iso in
    runTask rt t i o (net_env s0) (mkWorld t0 []) =
      (Ok {| cr_output := Some out; cr_route := da_name a;
             cr_price := Some (JStr (getPrice policy TASK)); cr_latency_ms := (w_now w' - t0)%Z;
             cr_receipt := Some (served_receipt (rs_receipt r) (rs_signature r) true) |}, w') ∧
    length (w_log w') = (d + 3)%nat ∧
    verifyReceiptSignature (rs_receipt r) (rs_signature r) (pubkey_hex sk) = true ∧
    (∀ q, boltDistributor (hub (net_state 0 (w_log w') s0)) = Some q → (pubkey_hex sk, job_id) ∈ pq_accounted q) ∧
    (∀ q, wrappedBoltDistributor (hub (net_state 0 (w_log w') s0)) = Some q → (pubkey_hex sk, job_id) ∈ pq_accounted q).
Proof.
  intros a policy Hrun.
  set (pc := default "PUBLIC" (ro_privacy o)) in *. set (user := ro_user_id o) in *.
  set (w1 := after_fetch (net_env s0) (quote_req a TASK policy) (mkWorld t0 [])).
  set (w2 := after_fetch (net_env s0) (commit_req a policy (commit_json TASK pc user (task_payload_json t i))) w1).
  destruct (task_polled a policy pc user t i s0 d Hrun w2 eq_refl) as (c & iso & w3 & Hpoll & Hlog & Hdone).
  destruct (task_committed a policy pc user t i s0 d Hrun) as (w0 & h' & _ & _ & Hcommit & _).
  destruct (task_answered a policy pc user t i s0 d Hrun) as (_ & _ & _ & _ & _ & [Hr HF] & _).
  exists c, iso, w3. cbv zeta. split_and!.
  - unfold runTask, catch, d_runTask. cbn [tr_policy tr_privacy tr_user_id tr_task_type tr_input].
    fold policy pc user a. fold (task_payload_json t i).
    erewrite (submit_polls a (net_env s0) TASK policy pc user (task_payload_json t i) (mkWorld t0 []));
      [| | | | | |exact Hpoll].
    2: { cbn [net_env env_http fst w_log length net_state]. by rewrite serve_quote by apply Hrun. }
    2: { by apply parse_stringify. }
    2: { cbn [net_env env_http fst w_log w1 after_fetch length app net_state].
         rewrite serve_quote by apply Hrun. cbn [snd]. rewrite serve_commit_task by apply Hrun.
         unfold serve_commit. cbn [fst]. unfold job_id, commit_draw, at_commit in Hcommit. by rewrite Hcommit. }
    2: { by apply parse_stringify. }
    2: { done. }
    change (default "AUTO" (Some policy)) with policy.
    assert (resolvePolicy policy TASK = policy) as -> by apply resolvePolicy_idem. done.
  - rewrite Hlog. unfold task_log. cbn [length]. rewrite length_replicate. lia.
  - apply buildReceipt_verifies.
  - intros q Hq. rewrite Hlog, (task_log_state a policy pc user t i s0 d Hrun) in Hq.
    apply (vi_bolt _ (reachable_vinv _ _ Hr)) in Hq as (_ & _ & _ & Hacc). apply Hacc; [|by split].
    apply uuid_not_demo, (tk_fresh _ _ _ _ _ _ _ _ Hrun).
  - intros q Hq. rewrite Hlog, (task_log_state a policy pc user t i s0 d Hrun) in Hq.
    apply (vi_wbolt _ (reachable_vinv _ _ Hr)) in Hq as (_ & _ & _ & Hacc). apply Hacc; [|by split].
    apply uuid_not_demo, (tk_fresh _ _ _ _ _ _ _ _ Hrun).
Qed.
End Network.

(** ** An instance *)

Fixpoint upto_amp (s : string) : string * string :=
  match s with
  | "" => ("", "")
  | String c r => if Ascii.eqb c "&" then ("", s) else let '(a, b) := upto_amp r in (String c a, b)
  end.

(** A server that knows the requests of the laws. *)
Definition toy_route (method target : string) (hs : list (string * string)) (body : option string) : Route :=
  if String.eqb method "GET" then
    match drop_prefix "/v1/quote?job_type=" target with
    | Some r => let '(jt, q) := upto_amp r in
                match drop_prefix "&policy=" q with Some p => RQuote (Some jt) (Some p) | None => ROther end
    | None => match drop_prefix "/v1/jobs/" target with Some id => RJob id | None => ROther end
    end
  else
    match body with
    | Some text =>
        match JSON_parse text with
        | Some (JObj l) =>
            if String.eqb target "/v1/jobs/commit/fast" then RCommit FAST (JObj l)
            else if String.eqb target "/v1/jobs/commit/cheap" then RCommit CHEAP (JObj l) else ROther
        | _ => ROther
        end
    | None => ROther
    end.

#[local] Instance toy_Express : Express := {|
  express_route := toy_route; express_other := λ _ _, HttpResp 404 ""; express_error := λ e, e |}.

Lemma upto_amp_plain s r : plain s = true → upto_amp (s ++ "&" ++ r) = (s, "&" ++ r).
Proof.
  induction s as [|c s IH]; intros Hp; [done|]. change (String c s ++ "&" ++ r) with (String c (s ++ "&" ++ r)).
  cbn in Hp. apply andb_true_iff in Hp as [Hc Hp]. cbn [upto_amp]. rewrite IH by done.
  destruct (Ascii.eqb_spec c "&") as [->|]; [discriminate Hc | done].
Qed.

#[local] Instance toy_ExpressLaws : ExpressLaws.
Proof.
  split; cbn [express_route toy_Express]; intros; unfold toy_route.
  - cbn [String.eqb Ascii.eqb Bool.eqb]. rewrite drop_prefix_app.
    change ("&policy=" ++ p) with ("&" ++ "policy=" ++ p). rewrite upto_amp_plain by done.
    change ("&" ++ "policy=" ++ p) with ("&policy=" ++ p). by rewrite drop_prefix_app.
  - cbn [String.eqb Ascii.eqb Bool.eqb]. by rewrite H.
  - cbn [String.eqb Ascii.eqb Bool.eqb]. by rewrite H.
  - cbn [String.eqb Ascii.eqb Bool.eqb].
    assert (drop_prefix "/v1/quote?job_type=" ("/v1/jobs/" ++ id) = None) as -> by done.
    by rewrite drop_prefix_app.
Qed.

(** The two workers of Scenario.v as desktop processes; the job is answered
    between the first and the second poll. *)
Definition sc_keys_at (c : nat) : @secret_key toy_Ed25519 := sc_secret (if (c =? 1)%nat then sc_key1 else sc_key2).

Definition sc_draw (k : nat) : Draw := {| dr_uuid := sc_uuid (40 + k); dr_code := "000000"; dr_timer := 0; dr_now := 9000 + Z.of_nat k |}.

Definition sc_answer : Event BoltD WboltD :=
  EMessage 2 (GoodMsg (d_complete toy_sha256 (sc_keys_at 2) (sc_uuid 41) (executeTask "summarize" "two words") "then"))
    (sc_uuid 50) (sc_uuid 51) 9500.

(** The answer arrives before request 3, when it can. *)
Definition sc_between (k : nat) (s : Sys BoltD WboltD) : Sys BoltD WboltD :=
  if ((k =? 3)%nat && enabledb sc_answer s)
  then match exec sc_cfg sc_answer s with Ok s' => s' | Throw _ => s end else s.

Lemma sc_between_steps k s : rtc (step sc_cfg) s (sc_between k s).
Proof.
  unfold sc_between. destruct ((k =? 3)%nat && enabledb sc_answer s) eqn:E; [|done].
  apply andb_true_iff in E as [_ He%enabledb_sound].
  destruct (exec sc_cfg sc_answer s) eqn:Hx; [|done]. apply rtc_once. by econstructor.
Qed.

Definition sc_router : RouterConfig :=
  {| rt_monad := "http://c"; rt_solana := "http://d"; rt_preferredHosted := None; rt_x402 := λ _, None |}.
Definition sc_opts : RunOpts := {| ro_policy := None; ro_privacy := None; ro_user_id := "bob"; ro_chain := None |}.

Definition sc_listening : Desktop := mkDesktop DListening true true false [] [].

Definition sc_committed : Sys BoltD WboltD :=
  Eval vm_compute in committed sc_cfg sc_draw sc_between "CHEAP" "PUBLIC" "bob" "summarize" "two words" sc_state0.
Definition sc_completed : Sys BoltD WboltD := Eval vm_compute in sc_between 3 sc_committed.

Lemma sc_committed_eq :
  committed sc_cfg sc_draw sc_between "CHEAP" "PUBLIC" "bob" "summarize" "two words" sc_state0 = sc_committed.
Proof. vm_compute. reflexivity. Qed.

Lemma sc_committed_last : last (outbox (hub sc_committed)) =
  Some (2%nat, OutJobAssign (assignMsg (sc_uuid 41) TASK (task_payload_json "summarize" "two words") CHEAP "PUBLIC" "bob")).
Proof. vm_compute. reflexivity. Qed.

Lemma sc_answers : worker_answers sc_cfg toy_sha256 sc_keys_at (λ _, None) (λ _, None) 2
  (OutJobAssign (assignMsg (sc_uuid 41) TASK (task_payload_json "summarize" "two words") CHEAP "PUBLIC" "bob"))
  sc_committed sc_completed.
Proof.
  exists sc_listening. do 2 eexists. exists (GoodMsg (d_complete toy_sha256 (sc_keys_at 2) (sc_uuid 41) (executeTask "summarize" "two words") "then")).
  exists "then", (sc_uuid 50), (sc_uuid 51), 9500%Z. split_and!.
  - reflexivity.
  - reflexivity.
  - rewrite (d_hears_assignment toy_sha256 (sc_keys_at 2) None None _ "summarize" "two words" "then" sc_listening);
      [reflexivity | reflexivity.. |]. by split_and!.
  - reflexivity.
  - by apply read_send.
  - apply (enabledb_sound sc_answer sc_committed). vm_compute. reflexivity.
  - vm_compute. reflexivity.
Qed.

Lemma sc_task_run : task_run sc_cfg "http://c" toy_sha256 sc_keys_at (λ _, None) (λ _, None) sc_draw sc_between
  (λ _, 20%nat) (λ _, 3%nat) (adapter sc_router Monad) "CHEAP" "PUBLIC" "bob" "summarize" "two words" sc_state0 1.
Proof.
  split; try reflexivity.
  - exact sc_reachable0.
  - intros k s _. apply sc_between_steps.
  - split; [vm_compute; reflexivity|]. apply (bool_decide_unpack _). vm_compute. exact I.
  - destruct (workers (hub sc_state0)) as [|[id w] l] eqn:E; [vm_compute in E; discriminate E|].
    exists id, w. change (workers (hub (at_commit sc_between sc_state0))) with (workers (hub sc_state0)). rewrite E. split.
    + apply jm_elem_get; [|left]. rewrite <- E. apply (core_wf _ _ _ _ (vi_core _ (reachable_vinv _ _ sc_reachable0))).
    + vm_compute in E. injection E as <- <- <-. split_and!; [reflexivity | apply (bool_decide_unpack _); vm_compute; exact I | done].
  - intros id w Hw%jm_get_elem _.
    change (workers (hub (at_commit sc_between sc_state0))) with (workers (hub sc_state0)) in Hw.
    change (sockets (hub (at_commit sc_between sc_state0))) with (sockets (hub sc_state0)).
    destruct (workers (hub sc_state0)) as [|e1 [|e2 [|e3 l]]] eqn:E; try (vm_compute in E; discriminate E).
    vm_compute in E. injection E as <- <-.
    repeat (apply elem_of_cons in Hw as [Hw|Hw]; [injection Hw as -> ->; split; vm_compute; reflexivity|]).
    by apply elem_of_nil in Hw.
  - intros c m. unfold sc_keys_at, sc_secret. by destruct (c =? 1)%nat.
  - intros [|k] Hk; [|lia]. apply rtc_refl.
  - rewrite sc_committed_eq, sc_committed_last. intros c m [= <- <-]. exists sc_committed, sc_completed.
    split_and!; [apply rtc_refl | exact sc_answers |].
    assert (before_poll sc_between 2 sc_committed = sc_completed) as -> by (vm_compute; reflexivity). apply rtc_refl.
Qed.

Lemma task_round_trip_witness :
  ∃ w', (runTask sc_router "summarize" "two words" sc_opts
    (net_env sc_cfg "monad" "http://c" sc_draw sc_between (λ _, 20%nat) (λ _, 3%nat) (λ _ _, (Throw "", 0%nat)) None None sc_state0)
    (mkWorld 0 [])).2 = w' ∧ length (w_log w') = 4%nat.
Proof.
  destruct (task_round_trip sc_cfg "monad" "http://c" toy_sha256 sc_keys_at (λ _, None) (λ _, None) sc_draw sc_between
    (λ _, 20%nat) (λ _, 3%nat) (λ _ _, (Throw "", 0%nat)) None None sc_router sc_opts "summarize" "two words" sc_state0 1 0
    sc_task_run) as (c & iso & w' & Hr & Hl & _).
  exists w'. split; [|exact Hl]. rewrite Hr. reflexivity.
Defined.
