(* ===== verification/Demo.v ===== *)
(** * The demo client

    apps/dispatch-demo: three jobs through the compute router, and an exit code
    that says whether they passed.  Headings and frames of the printed report are
    constant and left out; [None] in a result is a member that is not there. *)

From stdpp Require Import base list strings option.
From Stdlib Require Import ZArith Lia Ascii.
From S2P Require Import Prelude Js Json Protocol Workers Router Cli.
Local Open Scope string_scope.
Local Open Scope router_scope.

(** ** Results *)

Record ScenarioResult := {
  sr_name : string; sr_passed : bool; sr_result : option ComputeResult; sr_error : option string }.

Definition receipt_members (j : json) : jsmap json := match j with JObj l => l | _ => [] end.

Definition printReceipt (j : json) : list string :=
  let l := receipt_members j in
  let verified := match jm_get "verified" l with Some (JBool true) => "VERIFIED" | _ => "unverified" end in
  ["    Receipt: hash=" ++ String.substring 0 16 (member_text "output_hash" l) ++
     "... worker=" ++ String.substring 0 16 (member_text "provider_pubkey" l) ++ "...";
   "    Sig:     " ++ verified ++ " (ed25519)"].

Definition printResult (r : ComputeResult) : list string :=
  ("    Route:   " ++ cr_route r) ::
  ("    Price:   " ++ js_String (nullish (cr_price r) (JStr "N/A (hosted BYOK)"))) ::
  ("    Latency: " ++ Z_str (cr_latency_ms r) ++ "ms") ::
  match cr_receipt r with
  | Some j => if json_truthy j then printReceipt j else ["    Receipt: N/A (hosted)"]
  | None => ["    Receipt: N/A (hosted)"]
  end.

(** ** Scenarios *)

(** The chain is a string of the environment that the types only claim to be one
    of two; the router has no adapter for another one, which counts as a failed
    adapter. *)
Definition chain_named (c : string) : option Chain :=
  if String.eqb c "monad" then Some Monad else if String.eqb c "solana" then Some Solana else None.

Definition demo_opts (policy privacy : string) (c : Chain) : RunOpts :=
  {| ro_policy := Some policy; ro_privacy := Some privacy; ro_user_id := "demo-user-1"; ro_chain := Some c |}.

Definition router_runLLM (cfg : RouterConfig) (chain prompt : string) (max_tokens : option Z) (policy privacy : string)
    : M ComputeResult :=
  match chain_named chain with
  | Some c => runLLM cfg prompt max_tokens (demo_opts policy privacy c)
  | None => hostedFallback (hostedAdapters cfg) (λ p, h_runLLM p prompt max_tokens)
  end.

Definition router_runTask (cfg : RouterConfig) (chain task_type input policy privacy : string) : M ComputeResult :=
  match chain_named chain with
  | Some c => runTask cfg task_type input (demo_opts policy privacy c)
  | None => hostedFallback (hostedAdapters cfg)
              (λ p, h_runTask p {| tr_task_type := task_type; tr_input := input; tr_policy := policy;
                                   tr_privacy := privacy; tr_user_id := "demo-user-1" |})
  end.

Abbreviation DEMO_PROMPT := ("Explain what a decentralized compute network is in one sentence.")%string.
Abbreviation DEMO_PUBLIC := ("Dispatch is building a decentralized compute network that connects mobile devices (Seekers) and desktop machines (Workers) to process AI inference and data tasks. The network uses x402 payment protocol for micropayments and supports both Monad and Solana blockchains. Privacy controls allow users to route sensitive jobs only to trusted workers they've explicitly paired with.")%string.
Abbreviation DEMO_PRIVATE := ("This is a private document that should only be processed by trusted workers. It contains sensitive business information about Q4 revenue targets and strategic partnerships.")%string.

Abbreviation scenario1 cfg chain := (router_runLLM cfg chain DEMO_PROMPT (Some 100%Z) "FAST" "PUBLIC").
Abbreviation scenario2 cfg chain := (router_runTask cfg chain "summarize" DEMO_PUBLIC "CHEAP" "PUBLIC").
Abbreviation scenario3 cfg chain := (router_runTask cfg chain "summarize" DEMO_PRIVATE "CHEAP" "PRIVATE").

Definition expected_failure (msg : string) : bool := includes msg "no_trusted_worker" || includes msg "API keys".

(** One [try] block: the result and what it prints; [tolerated] failures pass. *)
Definition attempt (name : string) (tolerated : string → bool) (m : M ComputeResult)
    : M (ScenarioResult * list string) :=
  catch (r ⇐ m ;; ret ({| sr_name := name; sr_passed := true; sr_result := Some r; sr_error := None |}, printResult r))
    (λ e, ret ({| sr_name := name; sr_passed := tolerated e; sr_result := None; sr_error := Some e |},
               ["    " ++ (if tolerated e then "EXPECTED" else "FAIL") ++ ": " ++ e])).

Definition runScenarios (cfg : RouterConfig) (chain : string) : M (list ScenarioResult * list string) :=
  a ⇐ attempt "PUBLIC_FAST_LLM" (λ _, false) (scenario1 cfg chain) ;;
  b ⇐ attempt "PUBLIC_CHEAP_TASK" (λ _, false) (scenario2 cfg chain) ;;
  c ⇐ attempt "PRIVATE_CHEAP_TASK" expected_failure (scenario3 cfg chain) ;;
  ret ([a.1; b.1; c.1], a.2 ++ b.2 ++ c.2)%list.

(** ** The process *)

Record DemoEnv := {
  de_chain : option string; de_args : list string; de_monad : option string; de_solana : option string;
  de_hosted : option string }.

Definition demo_chain (e : DemoEnv) : string :=
  match de_chain e with
  | Some c => c
  | None => match list_find (λ a, startsWith a "--chain" = true) (de_args e) with
            | Some (_, a) => default "monad" (split_on (Ascii.eqb "="%char) a !! 1%nat)
            | None => "monad"
            end
  end.

Definition demo_config (e : DemoEnv) : RouterConfig :=
  {| rt_monad := default "http://localhost:4010" (de_monad e);
     rt_solana := default "http://localhost:4020" (de_solana e);
     rt_preferredHosted := Some (if String.eqb (default "openai" (de_hosted e)) "openai" then OpenAI else Anthropic);
     rt_x402 := λ _, None |}.

(** The exit code, the results listed in the summary and the printed lines. *)
Definition demo_main (e : DemoEnv) : M (Z * list ScenarioResult * list string) :=
  r ⇐ runScenarios (demo_config e) (demo_chain e) ;;
  let allPassed := forallb sr_passed r.1 in
  ret (if allPassed then 0%Z else 1%Z, r.1, r.2).

(** ** What the exit code says *)

Definition is_ok {A} (o : outcome A) : bool := match o with Ok _ => true | Throw _ => false end.

Section Demo.
  Context (cfg : RouterConfig) (chain : string) (env : Env).

Lemma scenario_error (i : nat) w e w' :
  match i with 0 => scenario1 cfg chain | 1 => scenario2 cfg chain | _ => scenario3 cfg chain end%nat env w = (Throw e, w') →
  e = ALL_FAILED.
Proof.
  unfold router_runLLM, router_runTask.
  destruct i as [|[|i]]; destruct (chain_named chain); intros H;
    first [exact (fallback_error _ _ _ _ _ _ _ H) | exact (fallback_error (throw "") _ _ _ _ _ _ H)].
Qed.

Lemma attempt_spec name tolerated m w :
  let '(o, w') := m env w in
  ∃ lines, attempt name tolerated m env w =
    (Ok ({| sr_name := name; sr_passed := match o with Ok _ => true | Throw e => tolerated e end;
            sr_result := match o with Ok r => Some r | Throw _ => None end;
            sr_error := match o with Ok _ => None | Throw e => Some e end |}, lines), w').
Proof. unfold attempt, catch, bind. destruct (m env w) as [[r|e] w']; by eexists. Qed.

Lemma runScenarios_spec w :
  let '(o1, w1) := scenario1 cfg chain env w in
  let '(o2, w2) := scenario2 cfg chain env w1 in
  let '(o3, w3) := scenario3 cfg chain env w2 in
  ∃ rs lines, runScenarios cfg chain env w = (Ok (rs, lines), w3) ∧
    map sr_passed rs = [is_ok o1; is_ok o2; true] ∧
    map sr_error rs = map (λ o, match o with Ok _ => None | Throw _ => Some ALL_FAILED end) [o1; o2; o3].
Proof.
  unfold runScenarios. unfold bind at 1.
  pose proof (attempt_spec "PUBLIC_FAST_LLM" (λ _, false) (scenario1 cfg chain) w) as H1.
  pose proof (scenario_error 0 w) as E1. destruct (scenario1 cfg chain env w) as [o1 w1].
  destruct H1 as [p1 ->]. unfold bind at 1.
  pose proof (attempt_spec "PUBLIC_CHEAP_TASK" (λ _, false) (scenario2 cfg chain) w1) as H2.
  pose proof (scenario_error 1 w1) as E2. destruct (scenario2 cfg chain env w1) as [o2 w2].
  destruct H2 as [p2 ->]. unfold bind at 1.
  pose proof (attempt_spec "PRIVATE_CHEAP_TASK" expected_failure (scenario3 cfg chain) w2) as H3.
  pose proof (scenario_error 2 w2) as E3. destruct (scenario3 cfg chain env w2) as [o3 w3].
  destruct H3 as [p3 ->]. eexists _, _. split; [reflexivity|].
  destruct o1 as [|e1], o2 as [|e2], o3 as [|e3];
    repeat match goal with H : ∀ e w', (Throw ?x, _) = _ → _ |- _ => rewrite (H x _ eq_refl); clear H end; done.
Qed.
End Demo.

(** C40: what a passing demo means.  The demo always ends, with exit code 0
    exactly when the first two jobs returned a result; the third one, the private
    job, is recorded as passed whatever happens to it, because the message of
    every failure of the router contains the text that the scenario looks for. *)
Theorem demo_exit_code e env w :
  let cfg := demo_config e in let chain := demo_chain e in
  let '(o1, w1) := scenario1 cfg chain env w in
  let '(o2, w2) := scenario2 cfg chain env w1 in
  let '(o3, w3) := scenario3 cfg chain env w2 in
  ∃ code rs lines, demo_main e env w = (Ok (code, rs, lines), w3) ∧
    (code = 0%Z ↔ is_ok o1 = true ∧ is_ok o2 = true) ∧ (code = 0 ∨ code = 1)%Z ∧
    map sr_passed rs = [is_ok o1; is_ok o2; true] ∧
    (∀ r m, r ∈ rs → sr_error r = Some m → m = ALL_FAILED).
Proof.
  intros cfg chain. pose proof (runScenarios_spec cfg chain env w) as H.
  destruct (scenario1 cfg chain env w) as [o1 w1], (scenario2 cfg chain env w1) as [o2 w2],
    (scenario3 cfg chain env w2) as [o3 w3], H as (rs & lines & Hrun & Hp & He).
  unfold demo_main, bind. fold cfg chain. rewrite Hrun. eexists _, _, _. split; [reflexivity|]. cbn [fst].
  assert (forallb sr_passed rs = is_ok o1 && is_ok o2) as ->.
  { destruct rs as [|a [|b [|c [|]]]]; try done. injection Hp as Ha Hb Hc. cbn [forallb].
    rewrite Ha, Hb, Hc. by destruct (is_ok o1), (is_ok o2). }
  split_and!; [|destruct (is_ok o1 && is_ok o2); auto | done |].
  - destruct (is_ok o1), (is_ok o2); naive_solver.
  - intros r m Hr Hm.
    assert (Some m ∈ map sr_error rs) as Hin by (rewrite <- Hm; by apply list_elem_of_fmap_2).
    rewrite He in Hin. apply list_elem_of_fmap in Hin as (o & Ho & _). destruct o; congruence.
Qed.

(** ** Without a coordinator *)

Section Offline.
  Context (cfg : RouterConfig) (chain : string) (env : Env).
  Hypothesis no_coordinator : ∀ l r, ∃ m t, env_http env l r = (NetError m, t).
  Hypothesis hosted_answers : ∀ l r, ∃ j t, env_hosted env l r = (Ok j, t).

Lemma submit_offline a t policy privacy user payload w : ∃ m w1, submit a t policy privacy user payload env w = (Throw m, w1).
Proof.
  unfold submit. unfold bind at 1. cbn [now]. unfold bind at 1, fetchJson, bind at 1, fetch.
  destruct (no_coordinator (w_log w)
    (HttpReq "GET" (da_url a ++ "/v1/quote?job_type=" ++ JobType_str t ++ "&policy=" ++ policy) [] None)) as (m & d & ->).
  by eexists _, _.
Qed.

Lemma hosted_serves text n l w :
  let '(r, w') := hostedFallback l (λ p, h_runLLM p (text p) n) env w in
  is_ok r = bool_decide (is_Some (first_with_key env l)) ∧
  ∀ p, first_with_key env l = Some p →
    w_log w' = (w_log w ++ [HostedReq (provider_name p) (text p) (default 256%Z n)])%list.
Proof.
  induction l as [|p l IH]; [done|].
  assert (first_with_key env (p :: l) = if ostr_truthy (api_key p env) then Some p else first_with_key env l) as -> by done.
  cbn [hostedFallback]. unfold catch, h_runLLM at 1.
  destruct (ostr_truthy (api_key p env)); [|exact IH].
  unfold bind, hosted_call. cbn [now].
  destruct (hosted_answers (w_log w) (HostedReq (provider_name p) (text p) (default 256%Z n))) as (j & t & ->).
  split; [done|]. by intros ? [= <-].
Qed.

Lemma offline_task task_type input policy privacy w :
  let '(r, w') := router_runTask cfg chain task_type input policy privacy env w in
  is_ok r = bool_decide (is_Some (first_with_key env (hostedAdapters cfg))) ∧
  ∀ p, first_with_key env (hostedAdapters cfg) = Some p →
    HostedReq (provider_name p) (buildTaskPrompt p task_type input) 256 ∈ w_log w'.
Proof.
  unfold router_runTask, runTask, d_runTask, h_runTask, catch.
  cbn [tr_task_type tr_input tr_policy tr_privacy tr_user_id].
  destruct (chain_named chain) as [c|].
  - destruct (submit_offline (adapter cfg (default Monad (ro_chain (demo_opts policy privacy c)))) TASK
      (resolvePolicy (default "AUTO" (ro_policy (demo_opts policy privacy c))) TASK)
      (default "PUBLIC" (ro_privacy (demo_opts policy privacy c))) (ro_user_id (demo_opts policy privacy c))
      (JObj [("job_type", JStr "TASK"); ("task_type", JStr task_type); ("input", JStr input)]) w) as (m & w1 & ->).
    pose proof (hosted_serves (λ p, buildTaskPrompt p task_type input) None (hostedAdapters cfg) w1) as H.
    destruct (hostedFallback _ _ _ _) as [r w'], H as [Hr Hl]. split; [done|].
    intros p Hp. rewrite (Hl p Hp). apply elem_of_app. right. by left.
  - pose proof (hosted_serves (λ p, buildTaskPrompt p task_type input) None (hostedAdapters cfg) w) as H.
    destruct (hostedFallback _ _ _ _) as [r w'], H as [Hr Hl]. split; [done|].
    intros p Hp. rewrite (Hl p Hp). apply elem_of_app. right. by left.
Qed.

Lemma offline_llm prompt n policy privacy w :
  is_ok (router_runLLM cfg chain prompt n policy privacy env w).1 =
    bool_decide (is_Some (first_with_key env (hostedAdapters cfg))).
Proof.
  unfold router_runLLM, runLLM, d_runLLM, catch.
  cbn [lr_prompt lr_max_tokens lr_policy lr_privacy lr_user_id].
  destruct (chain_named chain) as [c|].
  - match goal with |- context [submit ?a ?t ?po ?pr ?u ?pl env w] =>
      destruct (submit_offline a t po pr u pl w) as (m & w1 & ->) end.
    pose proof (hosted_serves (λ _, prompt) n (hostedAdapters cfg) w1) as H.
    destruct (hostedFallback _ _ _ _) as [r w']. apply H.
  - pose proof (hosted_serves (λ _, prompt) n (hostedAdapters cfg) w) as H.
    destruct (hostedFallback _ _ _ _) as [r w']. apply H.
Qed.
End Offline.

(** Without any coordinator the demo still passes as soon as one provider's key
    is set, and the text of its private job is then in a request to that
    provider. *)
Theorem demo_passes_without_a_coordinator e env w :
  (∀ l r, ∃ m t, env_http env l r = (NetError m, t)) →
  (∀ l r, ∃ j t, env_hosted env l r = (Ok j, t)) →
  ∃ code rs lines w', demo_main e env w = (Ok (code, rs, lines), w') ∧
    (code = 0%Z ↔ is_Some (first_with_key env (hostedAdapters (demo_config e)))) ∧
    ∀ p, first_with_key env (hostedAdapters (demo_config e)) = Some p →
      HostedReq (provider_name p) (buildTaskPrompt p "summarize" DEMO_PRIVATE) 256 ∈ w_log w'.
Proof.
  intros Hdead Hup. set (cfg := demo_config e). set (chain := demo_chain e).
  pose proof (runScenarios_spec cfg chain env w) as H.
  pose proof (offline_llm cfg chain env Hdead Hup DEMO_PROMPT (Some 100%Z) "FAST" "PUBLIC" w) as H1.
  fold (scenario1 cfg chain) in H1. destruct (scenario1 cfg chain env w) as [o1 w1].
  pose proof (offline_task cfg chain env Hdead Hup "summarize" DEMO_PUBLIC "CHEAP" "PUBLIC" w1) as H2.
  fold (scenario2 cfg chain) in H2. destruct (scenario2 cfg chain env w1) as [o2 w2].
  pose proof (offline_task cfg chain env Hdead Hup "summarize" DEMO_PRIVATE "CHEAP" "PRIVATE" w2) as H3.
  fold (scenario3 cfg chain) in H3. destruct (scenario3 cfg chain env w2) as [o3 w3].
  destruct H as (rs & lines & Hrun & Hp & _), H2 as [H2 _], H3 as [_ Hlog].
  eexists _, rs, lines, w3. unfold demo_main, bind. fold cfg chain. rewrite Hrun. split; [reflexivity|]. cbn [fst].
  split; [|exact Hlog].
  destruct rs as [|a [|b [|c [|]]]]; try done. injection Hp as Ha Hb Hc. cbn [forallb fst] in *.
  rewrite Ha, Hb, Hc, H1, H2. destruct (bool_decide_reflect (is_Some (first_with_key env (hostedAdapters cfg)))); naive_solver.
Qed.

(** The demo reads its chain from [--chain=solana]; written as two arguments it
    runs on monad. *)
Example demo_chain_argument args :
  demo_chain {| de_chain := None; de_args := "--chain=solana" :: args; de_monad := None; de_solana := None; de_hosted := None |} = "solana" ∧
  demo_chain {| de_chain := None; de_args := "--chain" :: "solana" :: args; de_monad := None; de_solana := None; de_hosted := None |} = "monad".
Proof. done. Qed.
