(* ===== verification/Highlight.v ===== *)
(** * The code samples of the landing page

    apps/landing/src/components/CodePreview.tsx: the functions that colour a
    sample, with the regular expressions they split by.  A node is the class and
    the text of a span; keys and the enclosing span of a line are left out. *)

From stdpp Require Import base list strings option.
From Stdlib Require Import Lia Ascii.
From S2P Require Import Prelude Js Json JsonPretty.
Local Open Scope string_scope.

(** ** Splitting by an expression with one group

    [matcher prev s] is the length of the match at the start of [s], after the
    character [prev].  [s.split(re)] keeps what the group matched, so parts at odd
    positions are matches.  [mode] counts what is left of a match. *)

Abbreviation matcher := (option ascii → string → option nat).

Definition glue (c : ascii) (l : list string) : list string :=
  match l with w :: ws => String c w :: ws | [] => [String c EmptyString] end.

Fixpoint split_parts (m : matcher) (prev : option ascii) (mode : option nat) (s : string) : list string :=
  let outside :=
    match s with
    | EmptyString => [EmptyString]
    | String c s' =>
        match m prev s with
        | Some (S n) => EmptyString :: glue c (split_parts m (Some c) (Some n) s')
        | _ => glue c (split_parts m (Some c) None s')
        end
    end in
  match mode with
  | None => outside
  | Some O => EmptyString :: outside
  | Some (S k) =>
      match s with
      | EmptyString => [EmptyString; EmptyString]
      | String c s' => glue c (split_parts m (Some c) (Some k) s')
      end
  end.

Definition split_re (m : matcher) (s : string) : list string := split_parts m None None s.

(** ** The expressions *)

Definition dquote : ascii := ascii_of_nat 34.
Definition backslash : ascii := ascii_of_nat 92.

(** What the dot does not match. *)
Definition line_end (c : ascii) : bool := Ascii.eqb c (ascii_of_nat 10) || Ascii.eqb c (ascii_of_nat 13).

(** The rest of a string literal after its opening quote [q]: how many characters
    up to and with the closing one.  No shorter or longer repetition can be
    followed by the closing quote, so there is nothing to try again. *)
Fixpoint string_rest (q : ascii) (s : string) : option nat :=
  match s with
  | EmptyString => None
  | String c s' =>
      if Ascii.eqb c q then Some 1%nat
      else if Ascii.eqb c backslash then
        match s' with
        | String d s'' => if line_end d then None else (λ n, S (S n)) <$> string_rest q s''
        | EmptyString => None
        end
      else S <$> string_rest q s'
  end.

Definition STRINGS : matcher := λ _ s,
  match s with
  | String c s' => if existsb (Ascii.eqb c) [dquote; "'"; "`"]%char then S <$> string_rest c s' else None
  | EmptyString => None
  end.

Abbreviation keywords := (["const"; "let"; "var"; "await"; "import"; "from"; "new"; "type"; "function"; "return"; "export"; "async"]).

Definition word_char (c : option ascii) : bool :=
  match c with
  | Some c => let n := nat_of_ascii c in
      (48 <=? n)%nat && (n <=? 57)%nat || (65 <=? n)%nat && (n <=? 90)%nat ||
      (97 <=? n)%nat && (n <=? 122)%nat || (n =? 95)%nat
  | None => false
  end.
Definition boundary (a b : option ascii) : bool := xorb (word_char a) (word_char b).

Definition KEYWORDS : matcher := λ prev s,
  if boundary prev (String.get 0 s) then
    String.length <$> List.find (λ k, String.prefix k s &&
      boundary (String.get (String.length k - 1) k) (String.get (String.length k) s)) keywords
  else None.

Definition one_of (l : string) (c : ascii) : bool := existsb (Ascii.eqb c) (String.list_ascii_of_string l).

Definition PUNCTUATION : matcher := λ _ s,
  match s with
  | String c _ => if one_of "{}[]=()=>,:;" c then Some 1%nat else if String.prefix "=>" s then Some 2%nat else None
  | EmptyString => None
  end.

(** The match of the comment expression: the text before the first two slashes, and the rest. *)
Fixpoint upto_slashes (s : string) : option (string * string) :=
  if String.prefix "//" s then Some (EmptyString, s) else
  match s with
  | EmptyString => None
  | String c s' => (λ p, (String c p.1, p.2)) <$> upto_slashes s'
  end.
Definition commentMatch (line : string) : option (string * string) :=
  if chars (λ c, negb (line_end c)) line then upto_slashes line else None.

(** ** Colouring *)

Record Span := mkSpan { sp_class : string; sp_text : string }.

Definition punctuation_node (pp : string) : list Span :=
  if (match pp with String c EmptyString => one_of "{}[]=(),:;" c | _ => false end) || String.eqb pp "=>"
  then [mkSpan "text-text-dim" pp]
  else if str_truthy pp then [mkSpan "text-text-muted" pp] else [].

Definition highlightNonString (text : string) : list Span :=
  flat_map (λ part,
    if existsb (String.eqb part) keywords then [mkSpan "text-accent-bright" part]
    else flat_map punctuation_node (split_re PUNCTUATION part)) (split_re KEYWORDS text).

(** [parts.forEach]: [odd] is the parity of the index, the tail is [parts.slice(i + 1)]. *)
Fixpoint token_nodes (odd : bool) (parts : list string) : list Span :=
  match parts with
  | [] => []
  | part :: after =>
      (if odd then
         if startsWith (trim_start (String.concat "" after)) ":" then [mkSpan "text-amber" part]
         else [mkSpan "text-green" part]
       else highlightNonString part) ++ token_nodes (negb odd) after
  end%list.
Definition highlightTokens (text : string) : list Span := token_nodes false (split_re STRINGS text).

(** A text outside any span has no class. *)
Definition highlightLine (line : string) : list Span :=
  match commentMatch line with
  | Some (before, comment) =>
      (if str_truthy before then highlightTokens before else []) ++
      [mkSpan "text-text-dim italic" comment; mkSpan "" newline]
  | None => highlightTokens line ++ [mkSpan "" newline]
  end%list.

Definition highlightCode (code : string) : list (list Span) :=
  map highlightLine (split_on (Ascii.eqb (ascii_of_nat 10)) code).

(** ** Splitting keeps the text *)

Definition joined (l : list string) : string := foldr String.append "" l.
Definition texts (l : list Span) : string := joined (map sp_text l).

Lemma joined_cons x l : joined (x :: l) = x ++ joined l.
Proof. done. Qed.

Lemma joined_app a b : joined (a ++ b)%list = joined a ++ joined b.
Proof. induction a as [|x a IH]; [done|]. cbn [app]. by rewrite !joined_cons, IH, string_app_assoc. Qed.

Lemma texts_app a b : texts (a ++ b)%list = texts a ++ texts b.
Proof. unfold texts. by rewrite map_app, joined_app. Qed.

Lemma joined_glue c l : joined (glue c l) = String c (joined l).
Proof. by destruct l. Qed.

Lemma split_parts_joined m s : ∀ prev mode, joined (split_parts m prev mode s) = s.
Proof.
  induction s as [|c s IH]; intros prev mode; [by destruct mode as [[|k]|]|].
  assert (∀ l, joined ("" :: l) = joined l) as E by done.
  destruct mode as [[|k]|]; cbn [split_parts]; [| by rewrite joined_glue, IH |];
    destruct (m prev (String c s)) as [[|n]|]; by rewrite ?E, joined_glue, IH.
Qed.

Lemma texts_flat_map f l : (∀ x, texts (f x) = x) → texts (flat_map f l) = joined l.
Proof. intros Hf. induction l as [|x l IH]; [done|]. cbn [flat_map]. by rewrite texts_app, Hf, IH. Qed.

Lemma texts_one c x : texts [mkSpan c x] = x.
Proof. apply string_app_nil_r. Qed.

Lemma texts_punctuation pp : texts (punctuation_node pp) = pp.
Proof.
  unfold punctuation_node. destruct (_ || _); [apply texts_one|].
  destruct (str_truthy pp) eqn:E; [apply texts_one|]. unfold str_truthy in E. by destruct pp.
Qed.

Lemma texts_nonstring t : texts (highlightNonString t) = t.
Proof.
  unfold highlightNonString. rewrite texts_flat_map; [apply split_parts_joined|]. intros part.
  destruct (existsb _ _); [apply texts_one|].
  rewrite texts_flat_map; [apply split_parts_joined | exact texts_punctuation].
Qed.

Lemma texts_tokens parts : ∀ odd, texts (token_nodes odd parts) = joined parts.
Proof.
  induction parts as [|p ps IH]; intros odd; [done|]. cbn [token_nodes]. rewrite texts_app, IH, joined_cons. f_equal.
  destruct odd; [|apply texts_nonstring]. by destruct (startsWith _ _); apply texts_one.
Qed.

Lemma texts_highlightTokens t : texts (highlightTokens t) = t.
Proof. unfold highlightTokens. rewrite texts_tokens. apply split_parts_joined. Qed.

Lemma upto_slashes_spec s a b : upto_slashes s = Some (a, b) → s = a ++ b ∧ String.prefix "//" b = true.
Proof.
  revert a. induction s as [|c s IH]; intros a; [done|]. cbn [upto_slashes].
  destruct (String.prefix "//" (String c s)) eqn:E; [by intros [= <- <-]|].
  destruct (upto_slashes s) as [[a' b']|] eqn:E'; [|done]. intros [= <- <-].
  destruct (IH _ eq_refl) as [-> H]. done.
Qed.

Lemma texts_line line : texts (highlightLine line) = line ++ newline.
Proof.
  unfold highlightLine. destruct (commentMatch line) as [[before comment]|] eqn:E.
  - unfold commentMatch in E. destruct (chars _ line); [|done]. apply upto_slashes_spec in E as [-> _].
    rewrite texts_app.
    assert (texts (if str_truthy before then highlightTokens before else []) = before) as ->.
    { destruct (str_truthy before) eqn:T; [apply texts_highlightTokens|]. unfold str_truthy in T. by destruct before. }
    by rewrite string_app_assoc.
  - rewrite texts_app, texts_highlightTokens. done.
Qed.

Lemma lines_joined c s : joined (map (λ l, l ++ String c "") (split_on (Ascii.eqb c) s)) = s ++ String c "".
Proof.
  induction s as [|x s IH]; [done|]. cbn [split_on]. destruct (Ascii.eqb c x) eqn:E.
  - apply Ascii.eqb_eq in E as ->. cbn [map]. by rewrite joined_cons, IH.
  - destruct (split_on (Ascii.eqb c) s) as [|w ws] eqn:S; [by destruct (split_on_ne _ _ S)|].
    change (String x s ++ String c "") with (String x (s ++ String c "")). rewrite <- IH. reflexivity.
Qed.

(** ** What is coloured *)

(** The parts at odd positions, from a position of parity [odd]. *)
Fixpoint odd_parts (odd : bool) (l : list string) : list string :=
  match l with
  | [] => []
  | x :: l => ((if odd then [x] else []) ++ odd_parts (negb odd) l)%list
  end.

Lemma split_inside m k : ∀ prev s, (k ≤ String.length s)%nat →
  ∃ x r prev', s = x ++ r ∧ String.length x = k ∧ split_parts m prev (Some k) s = x :: split_parts m prev' None r.
Proof.
  induction k as [|k IH]; intros prev s Hk.
  - exists "", s, prev. split_and!; [done | done |]. by destruct s.
  - destruct s as [|c s]; [cbn in Hk; lia|]. cbn in Hk.
    destruct (IH (Some c) s ltac:(lia)) as (x & r & prev' & -> & <- & E).
    exists (String c x), r, prev'. split_and!; [done | done |]. cbn [split_parts]. by rewrite E.
Qed.

Lemma odd_glue c l : odd_parts false (glue c l) = odd_parts false l.
Proof. by destruct l. Qed.

(** Every part at an odd position is a match. *)
Lemma split_odd m : (∀ prev s n, m prev s = Some n → (n ≤ String.length s)%nat) →
  ∀ len s prev x, (String.length s ≤ len)%nat → x ∈ odd_parts false (split_parts m prev None s) →
  x ≠ "" ∧ ∃ prev' r, m prev' (x ++ r) = Some (String.length x).
Proof.
  intros Hm. induction len as [|len IH]; intros [|c s] prev x Hlen Hx; cbn in Hlen; try lia;
    try (by cbn in Hx; apply elem_of_nil in Hx).
  cbn [split_parts] in Hx. destruct (m prev (String c s)) as [[|n]|] eqn:E.
  2: { assert (n ≤ String.length s)%nat as Hn by (pose proof (Hm _ _ _ E) as Hn; cbn [String.length] in Hn; lia).
       destruct (split_inside m n (Some c) s Hn) as (y & r & prev' & Hs & Hl & Hy).
       rewrite Hy in Hx. cbn [glue odd_parts negb app] in Hx. apply elem_of_cons in Hx as [->|Hx].
       - split; [done|]. exists prev, r. change (String c y ++ r) with (String c (y ++ r)). rewrite <- Hs, E. cbn. by rewrite Hl.
       - apply (IH r prev' x); [|done]. subst s. rewrite string_length_app in Hlen. lia. }
  all: rewrite odd_glue in Hx; apply (IH s (Some c) x); [lia | done].
Qed.

(** A complete string literal. *)
Definition literal (x : string) : Prop :=
  ∃ q s, x = String q s ∧ q ∈ [dquote; "'"; "`"]%char ∧ string_rest q s = Some (String.length s).

Lemma string_rest_bound q len : ∀ s n, (String.length s ≤ len)%nat →
  string_rest q s = Some n → (0 < n ≤ String.length s)%nat.
Proof.
  induction len as [|len IH]; intros [|c s] n Hlen H; cbn [String.length] in Hlen; try done; try lia.
  cbn [string_rest String.length] in *. destruct (Ascii.eqb c q); [injection H as <-; lia|].
  destruct (Ascii.eqb c backslash).
  - destruct s as [|d s]; [done|]. destruct (line_end d); [done|]. cbn [String.length] in *.
    destruct (string_rest q s) as [k|] eqn:E; [|done]. injection H as <-. apply IH in E; lia.
  - destruct (string_rest q s) as [k|] eqn:E; [|done]. injection H as <-. apply IH in E; lia.
Qed.

Lemma string_rest_prefix q len : ∀ s r n, (String.length s ≤ len)%nat →
  string_rest q (s ++ r) = Some n → (n ≤ String.length s)%nat → string_rest q s = Some n.
Proof.
  induction len as [|len IH]; intros s r n Hlen H Hn; pose proof (string_rest_bound _ _ _ _ (le_n _) H) as Hpos; [lia|].
  destruct s as [|c s]; cbn [String.length] in *; [lia|].
  change (String c s ++ r) with (String c (s ++ r)) in H. cbn [string_rest] in *.
  destruct (Ascii.eqb c q); [done|]. destruct (Ascii.eqb c backslash).
  - destruct s as [|d s].
    + change ("" ++ r) with r in H. destruct r as [|d r]; [done|]. cbn [String.length] in Hn.
      destruct (line_end d); [done|]. destruct (string_rest q r); [|done]. injection H as <-. lia.
    + change (String d s ++ r) with (String d (s ++ r)) in H. cbn [String.length] in *. destruct (line_end d); [done|].
      destruct (string_rest q (s ++ r)) as [k|] eqn:E; [|done]. injection H as <-. by rewrite (IH s r k) by (done || lia).
  - destruct (string_rest q (s ++ r)) as [k|] eqn:E; [|done]. injection H as <-. by rewrite (IH s r k) by (done || lia).
Qed.

Lemma strings_bound prev s n : STRINGS prev s = Some n → (n ≤ String.length s)%nat.
Proof.
  destruct s as [|c s]; [done|]. unfold STRINGS. destruct (existsb _ _); [|done].
  destruct (string_rest c s) as [k|] eqn:E; [|done]. intros [= <-]. apply (string_rest_bound _ _ _ _ (le_n _)) in E. cbn. lia.
Qed.

Lemma strings_literal prev x r : x ≠ "" → STRINGS prev (x ++ r) = Some (String.length x) → literal x.
Proof.
  destruct x as [|c x]; [done|]. intros _ H. change (String c x ++ r) with (String c (x ++ r)) in H. unfold STRINGS in H.
  destruct (existsb (Ascii.eqb c) _) eqn:Hq; [|done]. destruct (string_rest c (x ++ r)) as [k|] eqn:E; [|done].
  injection H as ->. exists c, x. split_and!; [done | |].
  - apply existsb_exists in Hq as (q & Hin & ->%Ascii.eqb_eq). by apply list_elem_of_In.
  - by apply (string_rest_prefix _ _ _ r _ (le_n _)).
Qed.

Lemma split_strings s x : x ∈ odd_parts false (split_re STRINGS s) → literal x.
Proof.
  intros (Hx & prev & r & H)%(split_odd STRINGS strings_bound _ _ _ _ (le_n _)). exact (strings_literal prev x r Hx H).
Qed.

(** What the classes promise. *)
Definition coloured (n : Span) : Prop :=
  (sp_class n = "text-accent-bright" → sp_text n ∈ keywords) ∧
  (sp_class n = "text-amber" ∨ sp_class n = "text-green" → literal (sp_text n)) ∧
  (sp_class n = "text-text-dim italic" → String.prefix "//" (sp_text n) = true).

Lemma punctuation_coloured pp n : n ∈ punctuation_node pp → coloured n.
Proof.
  unfold punctuation_node. intros Hn.
  destruct (_ || _); [|destruct (str_truthy pp); [|by apply elem_of_nil in Hn]];
    apply list_elem_of_singleton in Hn as ->; unfold coloured; cbn; naive_solver.
Qed.

Lemma nonstring_coloured t n : n ∈ highlightNonString t → coloured n.
Proof.
  unfold highlightNonString. intros (part & _ & Hn)%list_elem_of_In%in_flat_map. apply list_elem_of_In in Hn.
  destruct (existsb (String.eqb part) keywords) eqn:E.
  - apply list_elem_of_singleton in Hn as ->. apply existsb_exists in E as (k & Hk & ->%String.eqb_eq).
    unfold coloured; cbn. split_and!; [intros _; by apply list_elem_of_In | intros [?|?]; done | done].
  - apply list_elem_of_In, in_flat_map in Hn as (pp & _ & Hn). apply (punctuation_coloured pp). by apply list_elem_of_In.
Qed.

Lemma tokens_coloured parts : ∀ odd, (∀ x, x ∈ odd_parts odd parts → literal x) →
  ∀ n, n ∈ token_nodes odd parts → coloured n.
Proof.
  induction parts as [|p ps IH]; intros odd Hodd n Hn; [by apply elem_of_nil in Hn|].
  cbn [token_nodes odd_parts] in *. apply elem_of_app in Hn as [Hn|Hn].
  - destruct odd; [|by apply (nonstring_coloured p)].
    assert (literal p) as Hp by (apply Hodd; by left).
    destruct (startsWith _ _); apply list_elem_of_singleton in Hn as ->; unfold coloured; cbn; naive_solver.
  - apply (IH (negb odd)); [|done]. intros x Hx. apply Hodd, elem_of_app. by right.
Qed.

Lemma highlightTokens_coloured t n : n ∈ highlightTokens t → coloured n.
Proof. apply tokens_coloured. intros x. apply split_strings. Qed.

Lemma highlightLine_coloured line n : n ∈ highlightLine line → coloured n.
Proof.
  assert (coloured (mkSpan "" newline)) as Hnl by (unfold coloured; cbn; naive_solver).
  unfold highlightLine. destruct (commentMatch line) as [[before comment]|] eqn:E; intros Hn%elem_of_app.
  - unfold commentMatch in E. destruct (chars _ line); [|done]. apply upto_slashes_spec in E as [_ Hc].
    destruct Hn as [Hn|Hn].
    + destruct (str_truthy before); [by apply (highlightTokens_coloured before) | by apply elem_of_nil in Hn].
    + apply elem_of_cons in Hn as [->|Hn]; [unfold coloured; cbn; naive_solver|].
      by apply list_elem_of_singleton in Hn as ->.
  - destruct Hn as [Hn|Hn]; [by apply (highlightTokens_coloured line)|]. by apply list_elem_of_singleton in Hn as ->.
Qed.

(** Colouring keeps the code.  For every text, the coloured spans put one
    after the other are the text with a final line end.  Only keywords are
    coloured as keywords, only complete string literals as strings or keys, and
    only text that starts with two slashes as a comment. *)
Theorem highlight_keeps_the_code code :
  joined (map texts (highlightCode code)) = code ++ newline ∧
  ∀ spans n, spans ∈ highlightCode code → n ∈ spans → coloured n.
Proof.
  unfold highlightCode. split.
  - rewrite map_map, <- (lines_joined (ascii_of_nat 10)). f_equal. apply map_ext. exact texts_line.
  - intros spans n (line & -> & _)%list_elem_of_fmap. apply highlightLine_coloured.
Qed.

(** The first sample's address of a coordinator is taken for a comment: the
    expression for comments does not look whether the slashes are in a literal. *)
Example url_is_coloured_as_comment :
  let url := String dquote ("http://coordinator-monad:4010" ++ String dquote ",") in
  highlightLine ("  monad: " ++ url) =
    [mkSpan "text-text-muted" "  monad"; mkSpan "text-text-dim" ":";
     mkSpan "text-text-muted" (" " ++ String dquote "http"); mkSpan "text-text-dim" ":";
     mkSpan "text-text-dim italic" ("//coordinator-monad:4010" ++ String dquote ","); mkSpan "" newline].
Proof. reflexivity. Qed.
