(* ===== verification/Landing.v ===== *)
(** * The landing page

    The components of apps/landing that have state: LiveDemo.tsx, which types out
    a sample answer, and Navbar.tsx, which marks the section in view.  Styles and
    the entrance animations are left out; so is the mark (U+2197) of a link that
    leaves the page, which is a glyph. *)

From stdpp Require Import base list strings option.
From Stdlib Require Import ZArith Lia Ascii.
From S2P Require Import Prelude Views Js JsonPretty.
Local Open Scope string_scope.

(** ** LiveDemo *)

Definition quoted (s : string) : string := String (ascii_of_nat 34) (s ++ String (ascii_of_nat 34) "").

Abbreviation cliCommand := (String.concat newline
    ["$ dispatch agent run \"; "    --type llm \";
     "    --prompt " ++ quoted "Summarize quantum computing in one paragraph" ++ " \"; "    --policy fast"])%string.

Definition cliResponse : string :=
  String.concat newline
    ["Quantum computing leverages quantum mechanical phenomena";
     "like superposition and entanglement to perform computations";
     "that would be impractical for classical computers..."; "";
     "  Route:   monad-testnet"; "  Price:   $0.010"; "  Latency: 342ms"; "  Receipt: hash=6fa2faf... worker=7f3a92c1..."].

(** The state, the pending timers of 1500 ms, the timer of the effect and the
    dependencies it last ran with. *)
Record Live := mkLive {
  submitted : bool; loading : bool; visibleChars : nat;
  answers : nat; typing : bool; live_deps : option (bool * nat) }.

Definition initLive : Live := mkLive false false 0 0 false None.

Definition handleSubmit (s : Live) : Live :=
  mkLive false true 0 (S (answers s)) (typing s) (live_deps s).

Definition answer_arrives (s : Live) : Live :=
  match answers s with
  | O => s
  | S n => mkLive true false (visibleChars s) n (typing s) (live_deps s)
  end.

Definition type_more (s : Live) : Live :=
  if typing s
  then mkLive (submitted s) (loading s) (Nat.min (visibleChars s + 8) (String.length cliResponse)) (answers s) false (live_deps s)
  else s.

(** A change of [submitted] or [visibleChars] clears the timer and runs the effect again. *)
Definition typing_effect (s : Live) : Live :=
  let now := (submitted s, visibleChars s) in
  if decide (live_deps s = Some now) then s
  else mkLive (submitted s) (loading s) (visibleChars s) (answers s)
         (submitted s && (visibleChars s <? String.length cliResponse)%nat) (Some now).

Inductive LiveAct := PressRun.
Definition LiveDemo (s : Live) : View LiveAct :=
  VBox [VBox [VText "Try the CLI"; VText "Submit a job, get a verified result. One command is all it takes."];
        VBox [VText "CLI"; VText "dispatch agent run"; VText cliCommand;
              VPress (loading s) PressRun [VText (if loading s then "Matching worker..." else "Run Command")]];
        VBox (VText (if submitted s then "200 OK" else "Waiting...") :: VText "Output" ::
              if submitted s then
                VText (slice0 (visibleChars s) cliResponse) ::
                when (visibleChars s <? String.length cliResponse)%nat [VGlyph 9612]
              else [VText "Click "; VGlyph 8220; VText "Run Command"; VGlyph 8221; VText " to see the output"]);
        VBox [VText "Monad"; VText "Solana"]].

Inductive LiveEvent := LPress | LAnswer | LType.

Definition live_step (e : LiveEvent) (s : Live) : Live :=
  typing_effect match e with
                | LPress => match enabled (LiveDemo s) with [] => s | _ => handleSubmit s end
                | LAnswer => answer_arrives s
                | LType => type_more s
                end.
Definition live_run (es : list LiveEvent) (s : Live) : Live := foldl (λ s e, live_step e s) s es.

Local Abbreviation total := (String.length cliResponse).

Record live_inv (s : Live) : Prop := {
  li_deps d : live_deps s = Some d → d = (submitted s, visibleChars s);
  li_visible : (visibleChars s ≤ total)%nat;
  li_answers : answers s = if loading s then 1%nat else 0%nat;
  li_loading : loading s = true → submitted s = false ∧ visibleChars s = 0%nat;
  li_typing : typing s = match live_deps s with Some _ => submitted s && (visibleChars s <? total)%nat | None => false end;
  li_fresh : live_deps s = None → submitted s = false }.

Lemma live_enabled s : enabled (LiveDemo s) = if loading s then [] else [PressRun].
Proof.
  unfold LiveDemo, when. destruct (loading s), (submitted s), (visibleChars s <? total)%nat; reflexivity.
Qed.

Lemma effect_typing s : (visibleChars s ≤ total)%nat →
  answers s = (if loading s then 1%nat else 0%nat) → (loading s = true → submitted s = false ∧ visibleChars s = 0%nat) →
  (live_deps s = Some (submitted s, visibleChars s) → typing s = submitted s && (visibleChars s <? total)%nat) →
  live_inv (typing_effect s).
Proof.
  intros Hv Ha Hl Ht. unfold typing_effect. destruct (decide _) as [E|E].
  - split; try done; [by rewrite E; intros d [= <-] | rewrite E; by apply Ht | by rewrite E].
  - split; cbn; try done. by intros d [= <-].
Qed.

Lemma live_step_inv e s : live_inv s → live_inv (live_step e s).
Proof.
  intros [Hd Hv Ha Hl Ht Hf]. unfold live_step.
  assert (live_deps s = Some (submitted s, visibleChars s) → typing s = submitted s && (visibleChars s <? total)%nat) as Ht'.
  { intros E. by rewrite Ht, E. }
  destruct e.
  - rewrite live_enabled. destruct (loading s) eqn:E; [by apply effect_typing; rewrite ?E|].
    apply effect_typing; cbn; [lia | by rewrite Ha | done |].
    intros Hn. pose proof (Hd _ Hn) as [= Es _]. by rewrite Ht, Hn, <- Es.
  - unfold answer_arrives. rewrite Ha. destruct (loading s) eqn:E; [|by apply effect_typing; rewrite ?E].
    destruct (Hl eq_refl) as [Hs Hz]. apply effect_typing; cbn; [done | done | done |].
    intros Hn. pose proof (Hd _ Hn) as [= Es]. congruence.
  - unfold type_more. destruct (typing s) eqn:E; [|by apply effect_typing; rewrite ?E].
    destruct (live_deps s) as [d|] eqn:Hds; [|done]. symmetry in Ht. apply andb_prop in Ht as [Hs Hlt%Nat.ltb_lt].
    apply effect_typing; cbn [submitted loading visibleChars answers typing live_deps]; [lia | done | intros Hx; destruct (Hl Hx); congruence |].
    intros Hn. pose proof (Hd d eq_refl) as Ed. rewrite ?Hds, Ed in Hn. exfalso.
    assert (total = 276)%nat as Et by reflexivity. injection Hn as Hn. lia.
Qed.

Lemma live_run_inv es : ∀ s, live_inv s → live_inv (live_run es s).
Proof. induction es as [|e es IH]; intros s Hs; [done|]. by apply IH, live_step_inv. Qed.

Lemma init_live_inv : live_inv initLive.
Proof. by split; cbn; try lia. Qed.

Lemma effect_keeps s : submitted (typing_effect s) = submitted s ∧ visibleChars (typing_effect s) = visibleChars s ∧
  live_deps (typing_effect s) ≠ None.
Proof. unfold typing_effect. destruct (decide _) as [E|E]; [|done]. by rewrite E. Qed.

(** Nothing but the timers of the effect: the text grows by eight characters a time. *)
Lemma types_once s : live_inv s → live_deps s ≠ None → submitted s = true →
  submitted (live_step LType s) = true ∧ visibleChars (live_step LType s) = Nat.min (visibleChars s + 8) total ∧
  live_deps (live_step LType s) ≠ None.
Proof.
  intros Hs Hd Hsub. unfold live_step. destruct (effect_keeps (type_more s)) as (-> & -> & Hn).
  pose proof (li_typing _ Hs) as Ht. rewrite Hsub in Ht. destruct (live_deps s); [|done]. cbn [andb] in Ht.
  unfold type_more in *. rewrite Ht in *. destruct (Nat.ltb_spec (visibleChars s) total); [by split_and!|].
  split_and!; [done | pose proof (li_visible _ Hs); lia | done].
Qed.

Lemma types_on k : ∀ s, live_inv s → live_deps s ≠ None → submitted s = true →
  (total - visibleChars s ≤ 8 * k)%nat →
  let s' := live_run (replicate k LType) s in
  submitted s' = true ∧ visibleChars s' = total ∧ typing s' = false ∧ loading s' = false.
Proof.
  induction k as [|k IH]; intros s Hs Hd Hsub Hk; cbn [replicate live_run foldl].
  - assert (visibleChars s = total) as Hv by (pose proof (li_visible _ Hs); lia).
    split_and!; [done | done | |].
    + rewrite (li_typing _ Hs), Hsub, Hv, Nat.ltb_irrefl. by destruct (live_deps s).
    + destruct (loading s) eqn:E; [|done]. destruct (li_loading _ Hs E). congruence.
  - destruct (types_once s Hs Hd Hsub) as (H1 & H2 & H3).
    apply (IH (live_step LType s)); [by apply live_step_inv | done | done | lia].
Qed.

(** The sample answer is always typed out.  Whatever was pressed before, the
    button is disabled exactly while an answer is awaited, and one is then on its
    way; once it is there the text is typed in steps of eight characters, one
    timer after the other, until all of it is shown and no timer is left. *)
Theorem live_demo_finishes es :
  let s := live_run es initLive in
  (enabled (LiveDemo s) = [] ↔ loading s = true) ∧ (loading s = true ↔ answers s = 1%nat) ∧
  (loading s = true ∨ submitted s = true →
   ∃ k, (k ≤ S (total / 8))%nat ∧
     let s' := live_run ((if loading s then [LAnswer] else []) ++ replicate k LType) s in
     cliResponse ∈ shown (LiveDemo s') ∧ typing s' = false ∧ answers s' = 0%nat).
Proof.
  intros s. pose proof (live_run_inv es _ init_live_inv) as Hs. fold s in Hs.
  assert (∀ q, live_inv q → live_deps q ≠ None → submitted q = true → ∃ k, (k ≤ S (total / 8))%nat ∧
    let s' := live_run (replicate k LType) q in cliResponse ∈ shown (LiveDemo s') ∧ typing s' = false ∧ answers s' = 0%nat) as Hfin.
  { intros q Hq Hd Hsub. exists (S (total / 8)). split; [lia|].
    assert (total - visibleChars q ≤ 8 * S (total / 8))%nat as Hk.
    { pose proof (Nat.div_mod total 8 ltac:(lia)). pose proof (Nat.mod_upper_bound total 8 ltac:(lia)). lia. }
    destruct (types_on _ q Hq Hd Hsub Hk) as (H1 & H2 & H3 & H4).
    pose proof (live_run_inv (replicate (S (total / 8)) LType) q Hq) as Hq'.
    cbv zeta. split_and!; [|exact H3 | by rewrite (li_answers _ Hq'), H4].
    unfold LiveDemo. rewrite H1, H2, H4. apply (bool_decide_unpack _). vm_compute. exact I. }
  split_and!.
  - rewrite live_enabled. by destruct (loading s).
  - rewrite (li_answers _ Hs). by destruct (loading s).
  - intros [Hl|Hsub].
    + rewrite Hl. destruct (li_loading _ Hs Hl) as [Hns Hz]. pose proof (li_answers _ Hs) as Ha. rewrite Hl in Ha.
      change (live_run ([LAnswer] ++ ?l) s) with (live_run l (live_step LAnswer s)).
      apply (Hfin (live_step LAnswer s)); [by apply live_step_inv | |];
        unfold live_step, answer_arrives, typing_effect; rewrite Ha; case_decide as E; try done.
      intros En. cbn in En, E. congruence.
    + assert (loading s = false) as -> by (destruct (loading s) eqn:E; [destruct (li_loading _ Hs E); congruence | done]).
      apply (Hfin s Hs); [|done]. intros Hn. pose proof (li_fresh _ Hs Hn). congruence.
Qed.

(** ** Navbar *)

Record NavLink := mkLink { nl_label : string; nl_href : string; nl_external : bool }.

Definition navLinks : list NavLink :=
  [mkLink "Why Dispatch" "#why" false; mkLink "How It Works" "#how" false; mkLink "BOLT" "#bolt" false;
   mkLink "Litepaper" "https://github.com/pranit-garg/Dispatch/raw/main/docs/Dispatch_Litepaper.pdf" true;
   mkLink "Docs" "https://docs.dispatch.computer/docs" true;
   mkLink "GitHub" "https://github.com/pranit-garg/Dispatch" true].

Abbreviation sectionIds := (["why"; "how"; "bolt"]).

Record Nav := mkNav { scrolled : bool; menuOpen : bool; activeSection : string }.
Definition initNav : Nav := mkNav false false "".

(** [rect id] is the top and the bottom of the element, if the page has it. *)
Definition in_view (rect : string → option (jsnum * jsnum)) (id : string) : bool :=
  match rect id with
  | Some (top, bottom) => num_leb top (num_of_Z 150) && num_ltb (num_of_Z 150) bottom
  | None => false
  end.

Definition onScroll (scrollY : jsnum) (rect : string → option (jsnum * jsnum)) (n : Nav) : Nav :=
  let current := foldl (λ current id, if in_view rect id then id else current) "" sectionIds in
  mkNav (num_ltb (num_of_Z 10) scrollY) (menuOpen n) current.

(** [href.replace("#", "")] *)
Fixpoint drop_hash (s : string) : string :=
  match s with
  | EmptyString => EmptyString
  | String c s => if Ascii.eqb c "#" then s else String c (drop_hash s)
  end.

Definition isActive (n : Nav) (link : NavLink) : bool :=
  negb (nl_external link) && String.eqb (activeSection n) (drop_hash (nl_href link)).

Inductive NavAct := OpenLink (href : string) (closes : bool) | ToggleMenu.

Definition nav_link (closes : bool) (link : NavLink) : View NavAct :=
  VPress false (OpenLink (nl_href link) closes) (VText (nl_label link) :: when (nl_external link) [VGlyph 8599]).

Definition Navbar (n : Nav) : View NavAct :=
  VBox (VPress false (OpenLink "/" false) [VText "Dispatch"] :: VBox (map (nav_link false) navLinks) ::
        VPress false ToggleMenu [] :: when (menuOpen n) [VBox (map (nav_link true) navLinks)]).

Definition nav_press (a : NavAct) (n : Nav) : Nav :=
  match a with
  | ToggleMenu => mkNav (scrolled n) (negb (menuOpen n)) (activeSection n)
  | OpenLink _ closes => mkNav (scrolled n) (menuOpen n && negb closes) (activeSection n)
  end.

(** After every scroll the marked link is that of a section at the line of 150
    pixels, and no link is marked when no section is there. *)
Theorem scroll_marks_the_section_in_view scrollY rect n :
  let n' := onScroll scrollY rect n in
  let marked := List.filter (isActive n') navLinks in
  (marked = [] ∧ ∀ id, id ∈ sectionIds → in_view rect id = false) ∨
  ∃ id link, id ∈ sectionIds ∧ in_view rect id = true ∧ marked = [link] ∧ nl_href link = String "#" id.
Proof.
  cbv zeta. unfold onScroll. cbn [foldl].
  destruct (in_view rect "bolt") eqn:Hb; [right; exists "bolt"|destruct (in_view rect "how") eqn:Hh;
    [right; exists "how"|destruct (in_view rect "why") eqn:Hw; [right; exists "why"|left]]].
  4: { split; [reflexivity|]. intros id Hid. repeat (apply elem_of_cons in Hid as [->|Hid]; [done|]). by apply elem_of_nil in Hid. }
  all: eexists; split_and!; [|done|reflexivity|reflexivity]; apply (bool_decide_unpack _); exact I.
Qed.
