(* ===== verification/Scripts.v ===== *)
(** * The scripts

    scripts/e2e.ts, which starts coordinators, workers and the demo client of
    Demo.v and looks at what they print and how they exit; scripts/register-worker.ts,
    which registers an agent through packages/erc8004. *)

From stdpp Require Import base list strings option.
From Stdlib Require Import ZArith Lia Ascii ZifyNat.
From S2P Require Import Prelude Js Json JsonPretty Erc8004.
Local Open Scope string_scope.

(** ** e2e.ts *)

(** A process started by [spawnProcess]: its label, its script, its environment. *)
Record Spawned := { sp_label : string; sp_script : string; sp_env : list (string * string) }.

(** What [main] awaits: a text in the output of a process, or the end of a demo. *)
Inductive Milestone :=
  | Awaits (p : Spawned) (needle : string)
  | Runs (chain : string) (env : list (string * string)).

Abbreviation demo_env chain := ([("DEMO_CHAIN", chain); ("COORDINATOR_URL_MONAD", "http://localhost:4010"); ("COORDINATOR_URL_SOLANA", "http://localhost:4020")]).

Definition e2e_plan : list Milestone :=
  [Awaits {| sp_label := "Monad Coord"; sp_script := "apps/coordinator-monad/src/index.ts"; sp_env := [("TESTNET_MODE", "true")] |}
     "Listening on port";
   Awaits {| sp_label := "Solana Coord"; sp_script := "apps/coordinator-solana/src/index.ts"; sp_env := [("TESTNET_MODE", "true")] |}
     "Listening on port";
   Awaits {| sp_label := "Desktop Worker"; sp_script := "apps/worker-desktop/src/index.ts";
             sp_env := [("COORDINATOR_URL", "http://localhost:4010")] |} "Registered";
   Awaits {| sp_label := "Seeker Sim"; sp_script := "apps/seeker-simulator/src/index.ts";
             sp_env := [("COORDINATOR_URL", "http://localhost:4010")] |} "Registered";
   Runs "monad" (demo_env "monad");
   Awaits {| sp_label := "Desktop Worker Sol"; sp_script := "apps/worker-desktop/src/index.ts";
             sp_env := [("COORDINATOR_URL", "http://localhost:4020"); ("WORKER_KEY_PATH", "./data/worker-key-sol.json")] |} "Registered";
   Awaits {| sp_label := "Seeker Sim Sol"; sp_script := "apps/seeker-simulator/src/index.ts";
             sp_env := [("COORDINATOR_URL", "http://localhost:4020")] |} "Registered";
   Runs "solana" (demo_env "solana")].

Inductive EPhase := Working | CleaningUp | Exited (code : Z).

(** [processes] and the running demo, which is not one of them; [exitCode] and
    whether the processes were sent SIGTERM. *)
Record E2e := mkE2e {
  todo : list Milestone; phase : EPhase; exitCode : Z;
  processes : list string; demo_child : option string; killed : bool }.

(** [main] goes on to the head of [l]: it starts the process or the demo. *)
Definition proceed (l : list Milestone) (s : E2e) : E2e :=
  match l with
  | [] => mkE2e [] CleaningUp (exitCode s) (processes s) None true
  | Awaits p _ :: _ => mkE2e l Working (exitCode s) (processes s ++ [sp_label p])%list None false
  | Runs c _ :: _ => mkE2e l Working (exitCode s) (processes s) (Some c) false
  end.

Definition e2e_start : E2e := proceed e2e_plan (mkE2e [] Working 0 [] None false).

(** [process.exit], with the handler that kills [processes]. *)
Definition exits_with (code : Z) (s : E2e) : E2e :=
  mkE2e (todo s) (Exited code) (exitCode s) (processes s) (demo_child s) true.

Inductive EEvent :=
  | Chunk (label text : string)              (* data on the output of a process *)
  | StepTimeout                              (* the 10 s of [waitForOutput] *)
  | DemoClosed (chain : string) (code : option Z)
  | DemoFailed (chain : string)              (* the demo could not be started *)
  | SpawnFailed (label : string)             (* an error event of a process, to which nobody listens *)
  | GlobalTimeout
  | Settled.                                 (* the second after cleaning up *)

(** The result of a demo is its exit code, 1 when there is none. *)
Definition demo_ends (chain : string) (code : Z) (s : E2e) : E2e :=
  match todo s with
  | Runs c _ :: rest =>
      if String.eqb c chain
      then proceed rest (mkE2e (todo s) (phase s) (if (code =? 0)%Z then exitCode s else 1) (processes s) (demo_child s) (killed s))
      else s
  | _ => s
  end.

Definition e2e_step (e : EEvent) (s : E2e) : E2e :=
  match phase s with
  | Exited _ => s
  | CleaningUp =>
      match e with
      | Settled => exits_with (exitCode s) s
      | SpawnFailed label => if bool_decide (label ∈ processes s) then exits_with 1 s else s
      | _ => s
      end
  | Working =>
      match e with
      | Chunk label text =>
          match todo s with
          | Awaits p needle :: rest =>
              if String.eqb (sp_label p) label && includes text needle then proceed rest s else s
          | _ => s
          end
      | StepTimeout => match todo s with Awaits _ _ :: _ => exits_with 1 s | _ => s end
      | DemoClosed chain code => demo_ends chain (default 1%Z code) s
      | DemoFailed chain => demo_ends chain 1 s
      | SpawnFailed label => if bool_decide (label ∈ processes s) then exits_with 1 s else s
      | GlobalTimeout => exits_with 1 s
      | Settled => s
      end
  end.

Definition e2e_run (es : list EEvent) : E2e := foldl (λ s e, e2e_step e s) e2e_start es.

(** The event that achieves a milestone. *)
Definition achieves (m : Milestone) (e : EEvent) : Prop :=
  match m, e with
  | Awaits p needle, Chunk label text => label = sp_label p ∧ includes text needle = true
  | Runs c _, DemoClosed chain code => chain = c ∧ code = Some 0%Z
  | _, _ => False
  end.

(** What [es] has achieved while no demo failed. *)
Record e2e_inv (es : list EEvent) (s : E2e) : Prop := {
  ei_code : exitCode s = 0%Z ∨ exitCode s = 1%Z;
  ei_done : exitCode s = 0%Z → ∃ done hits, e2e_plan = (done ++ todo s)%list ∧ hits `sublist_of` es ∧ Forall2 achieves done hits;
  ei_cleaning : phase s = CleaningUp → todo s = [] ∧ killed s = true;
  ei_exited c : phase s = Exited c → (c = 0 ∧ todo s = [] ∧ exitCode s = 0 ∨ c = 1)%Z ∧ killed s = true }.

Lemma proceed_todo l s : todo (proceed l s) = l.
Proof. by destruct l as [|[]]. Qed.
Lemma proceed_code l s : exitCode (proceed l s) = exitCode s.
Proof. by destruct l as [|[]]. Qed.
Lemma proceed_cleaning l s : phase (proceed l s) = CleaningUp → l = [] ∧ killed (proceed l s) = true.
Proof. by destruct l as [|[]]. Qed.
Lemma proceed_exited l s c : phase (proceed l s) ≠ Exited c.
Proof. by destruct l as [|[]]. Qed.

Lemma proceed_inv es e m rest s s' : todo s = m :: rest → (exitCode s' = 0%Z → exitCode s = 0%Z ∧ achieves m e) →
  (exitCode s' = 0 ∨ exitCode s' = 1)%Z → e2e_inv es s → e2e_inv (es ++ [e]) (proceed rest s').
Proof.
  intros Hm He Hc [H1 H2 H3 H4]. split.
  - by rewrite proceed_code.
  - rewrite proceed_code, proceed_todo. intros [Hz Ha]%He. destruct (H2 Hz) as (done & hits & Hp & Hs & Hf).
    exists (done ++ [m])%list, (hits ++ [e])%list. split_and!.
    + by rewrite <- app_assoc, Hp, Hm.
    + by apply sublist_app.
    + by apply Forall2_app; [|constructor].
  - intros [-> Hk]%proceed_cleaning. by rewrite proceed_todo.
  - by intros c ?%proceed_exited.
Qed.

Lemma keep_inv es e s : e2e_inv es s → e2e_inv (es ++ [e]) s.
Proof.
  intros [H1 H2 H3 H4]. split; try done. intros (done & hits & Hp & Hs & Hf)%H2.
  exists done, hits. split_and!; [done | by apply sublist_inserts_r | done].
Qed.

Lemma exit_inv es e s : e2e_inv es s → e2e_inv (es ++ [e]) (exits_with 1 s).
Proof.
  intros [H1 H2 H3 H4]%(keep_inv _ e). split; try done. cbn. intros c [= <-]. auto.
Qed.

Lemma demo_ends_inv es e chain code s : (code = 0%Z → e = DemoClosed chain (Some 0%Z)) →
  e2e_inv es s → e2e_inv (es ++ [e]) (demo_ends chain code s).
Proof.
  intros He Hs. unfold demo_ends. destruct (todo s) as [|[p n|c env] rest] eqn:Et; try by apply keep_inv.
  destruct (String.eqb_spec c chain) as [->|]; [|by apply keep_inv].
  eapply proceed_inv; [exact Et | | |exact Hs]; cbn; destruct (Z.eqb_spec code 0) as [E|E].
  - rewrite (He E). done.
  - done.
  - apply Hs.
  - by right.
Qed.

Lemma step_e2e_inv es e s : e2e_inv es s → e2e_inv (es ++ [e]) (e2e_step e s).
Proof.
  intros Hs. unfold e2e_step. destruct (phase s) as [| |c] eqn:Hph; [| |by apply keep_inv].
  - destruct e as [label text| |chain code|chain|label| |]; try by (apply exit_inv || apply keep_inv).
    + destruct (todo s) as [|[p n|c env] rest] eqn:Et; try by apply keep_inv.
      destruct (_ && _) eqn:E; [|by apply keep_inv]. apply andb_prop in E as [<-%String.eqb_eq Hn].
      eapply proceed_inv; [exact Et | done | apply Hs | done].
    + destruct (todo s) as [|[p n|c env] rest]; try by apply keep_inv. by apply exit_inv.
    + apply demo_ends_inv; [|done]. destruct code as [z|]; cbn; [by intros -> | done].
    + by apply demo_ends_inv.
    + case_bool_decide; [by apply exit_inv | by apply keep_inv].
  - destruct e; try by apply keep_inv.
    { case_bool_decide; [by apply exit_inv | by apply keep_inv]. }
    destruct (keep_inv _ Settled _ Hs) as [H1 H2 H3 H4]. split; try done.
    cbn. intros c [= <-]. destruct (H3 Hph) as [Ht _]. split; [|done]. destruct H1 as [E|E]; [left | right]; done.
Qed.

(** What a passing end-to-end test means.  The script exits with 0 or 1, and
    every process it listed was sent SIGTERM by then.  With 0, the awaited texts
    were printed by the right processes, each within one chunk of output, and
    both demos exited with 0, in the order of the script. *)
Theorem e2e_exit es c :
  phase (e2e_run es) = Exited c →
  (c = 0 ∨ c = 1)%Z ∧ killed (e2e_run es) = true ∧
  (c = 0%Z → ∃ hits, hits `sublist_of` es ∧ Forall2 achieves e2e_plan hits).
Proof.
  assert (e2e_inv es (e2e_run es)) as [H1 H2 H3 H4].
  { unfold e2e_run. induction es as [|e es IH] using rev_ind.
    - split; cbn; [by left | | done | done]. intros _. exists [], []. by split_and!.
    - rewrite foldl_app. cbn [foldl]. by apply step_e2e_inv. }
  intros Hc. destruct (H4 c Hc) as [Hcode Hk]. split_and!; [destruct Hcode as [(-> & _)|]; auto | done |].
  intros ->. destruct Hcode as [(_ & Ht & He)|]; [|done].
  destruct (H2 He) as (done & hits & Hp & Hs & Hf). rewrite Ht, app_nil_r in Hp. exists hits. by rewrite Hp.
Qed.

Definition sc_passing : list EEvent :=
  [Chunk "Monad Coord" "[Monad] Listening on port 4010"; Chunk "Solana Coord" "Listening on port 4020";
   Chunk "Desktop Worker" "Registered as w1"; Chunk "Seeker Sim" "Registered"; DemoClosed "monad" (Some 0%Z);
   Chunk "Desktop Worker Sol" "Registered"; Chunk "Seeker Sim Sol" "Registered"; DemoClosed "solana" (Some 0%Z); Settled].

Lemma e2e_exit_witness :
  phase (e2e_run sc_passing) = Exited 0 ∧ ∃ hits, hits `sublist_of` sc_passing ∧ Forall2 achieves e2e_plan hits.
Proof.
  split; [reflexivity|]. destruct (e2e_exit sc_passing 0 ltac:(reflexivity)) as (_ & _ & H). exact (H eq_refl).
Defined.

(** A text that arrives in two chunks is not recognised. *)
Example split_text_is_missed :
  phase (e2e_run [Chunk "Monad Coord" "Listening on "; Chunk "Monad Coord" "port 4010"; StepTimeout]) = Exited 1.
Proof. reflexivity. Qed.

(** When the global timeout strikes during a demo, the demo is left running. *)
Example timeout_leaves_the_demo :
  let s := e2e_run (take 4 sc_passing ++ [GlobalTimeout])%list in phase s = Exited 1 ∧ demo_child s = Some "monad".
Proof. done. Qed.

(** ** register-worker.ts *)

Local Open Scope chain_scope.

(** [arg]: the word after the flag, unless it is missing or empty. *)
Definition arg (argv : list string) (flag fallback : string) : string :=
  match list_find (eq flag) argv with
  | Some (idx, _) => match argv !! S idx with
                     | Some v => if str_truthy v then v else fallback
                     | None => fallback
                     end
  | None => fallback
  end.

Definition script_file (vars : EnvVars) (argv : list string) : json :=
  let name := arg argv "--name" "Dispatch Worker" in
  buildRegistrationFile vars name ("Dispatch compute worker: " ++ name) (arg argv "--endpoint" "https://localhost:4010")
    (split_commas (arg argv "--skills" "LLM_PROMPT,TASK,IMAGE_GEN")) None.

Definition data_uri (file : json) : string :=
  "data:application/json;base64," ++ base64 (utf8_bytes (JSON_stringify_2 file)).

(** [main]: what a run that succeeds logs, or what a run that fails reports
    before it exits with 1.  [address] is viem's [privateKeyToAccount(key).address],
    which throws on a bad key. *)
Definition register_script (address : string → outcome string) (argv : list string) : CM (list string) := λ ch l,
  let pk := ch_vars ch "WORKER_PRIVATE_KEY" in
  if negb (ostr_truthy pk) then (Throw "Error: WORKER_PRIVATE_KEY env var is required (hex, no 0x prefix ok)", l) else
  (account ⇐ clift (address (normalizePrivateKey (default "" pk))) ;;
   let regFile := script_file (ch_vars ch) argv in
   agentId ⇐ registerAgent account (Some (data_uri regFile)) ;;
   info ⇐ getAgentInfo agentId ;;
   let chainId := chainId_text (cc_chainId MONAD_TESTNET) in
   cret ["[register-worker] Registering agent on Monad Testnet (chain " ++ chainId ++ ")";
         "  Owner: " ++ account; "  Name:  " ++ arg argv "--name" "Dispatch Worker";
         newline ++ "  Registration file:";
         "  " ++ String.concat (newline ++ "  ") (split_on (Ascii.eqb (ascii_of_nat 10)) (JSON_stringify_2 regFile));
         newline ++ "[register-worker] Sending register() transaction...";
         "  Agent ID: " ++ Z_text agentId; newline ++ "[register-worker] Registered successfully!";
         "  Agent ID: " ++ Z_text (ai_agentId info); "  Owner:    " ++ ai_owner info;
         "  URI:      " ++ String.substring 0 80 (ai_uri info) ++ "...";
         newline ++ "  Global Agent ID: eip155:" ++ chainId ++ ":" ++ cc_identityRegistry MONAD_TESTNET ++ "#" ++ Z_text agentId])
    ch l.

(** ** What is registered can be read back

    A data URL is fetched by decoding it: base64, then UTF-8. *)

Definition b64_value (c : ascii) : option nat :=
  let n := nat_of_ascii c in
  if ((65 <=? n) && (n <=? 90))%nat then Some (n - 65)%nat
  else if ((97 <=? n) && (n <=? 122))%nat then Some (n - 71)%nat
  else if ((48 <=? n) && (n <=? 57))%nat then Some (n + 4)%nat
  else if (n =? 43)%nat then Some 62%nat else if (n =? 47)%nat then Some 63%nat else None.

Fixpoint unbase64 (s : string) : option (list nat) :=
  match s with
  | EmptyString => Some []
  | String a (String b (String c (String d r))) =>
      x ← b64_value a; y ← b64_value b;
      if (Ascii.eqb c "=" && Ascii.eqb d "=" && String.eqb r "")%char%bool then Some [x * 4 + y / 16]%nat else
      z ← b64_value c;
      if (Ascii.eqb d "=" && String.eqb r "")%char%bool then Some [x * 4 + y / 16; y mod 16 * 16 + z / 4]%nat else
      w ← b64_value d; l ← unbase64 r;
      Some (x * 4 + y / 16 :: y mod 16 * 16 + z / 4 :: z mod 4 * 64 + w :: l)%nat
  | _ => None
  end.

Fixpoint utf8_text (l : list nat) : option string :=
  match l with
  | [] => Some EmptyString
  | n :: l =>
      if (n <? 128)%nat then String (ascii_of_nat n) <$> utf8_text l else
      match l with
      | m :: l => if ((194 <=? n) && (n <=? 195) && (128 <=? m) && (m <=? 191))%nat
                  then String (ascii_of_nat ((n - 192) * 64 + (m - 128))) <$> utf8_text l else None
      | [] => None
      end
  end.

Definition data_text (url : string) : option string :=
  payload ← drop_prefix "data:application/json;base64," url; bytes ← unbase64 payload; utf8_text bytes.

(** Linear arithmetic with division by constants. *)
Ltac div_lia := Zify.zify; Z.to_euclidean_division_equations; lia.

Lemma b64_value_char n : (n < 64)%nat → b64_value (b64_char n) = Some n ∧ Ascii.eqb (b64_char n) "=" = false.
Proof.
  assert (forallb (λ n, bool_decide (b64_value (b64_char n) = Some n) && negb (Ascii.eqb (b64_char n) "="))
            (seq 0 64) = true) as H by (vm_compute; reflexivity).
  intros Hn. rewrite forallb_forall in H. specialize (H n). rewrite in_seq, andb_true_iff, bool_decide_eq_true, negb_true_iff in H.
  apply H. lia.
Qed.

Lemma unbase64_base64 l : Forall (λ n, n < 256)%nat l → unbase64 (base64 l) = Some l.
Proof.
  induction l as [l IH] using (induction_ltof1 _ length). unfold ltof in IH.
  destruct l as [|a [|b [|c l]]]; intros Hl; [done|..]; 
    repeat match goal with H : Forall _ (_ :: _) |- _ => apply Forall_cons_1 in H as [? H] end; cbn [base64 unbase64].
  - destruct (b64_value_char (a / 4)) as [-> _]; [div_lia|]. destruct (b64_value_char (a mod 4 * 16)) as [-> _]; [div_lia|].
    cbn [mbind option_bind andb Ascii.eqb Bool.eqb String.eqb]. repeat f_equal. div_lia.
  - destruct (b64_value_char (a / 4)) as [-> _]; [div_lia|]. destruct (b64_value_char (a mod 4 * 16 + b / 16)) as [-> _]; [div_lia|].
    destruct (b64_value_char (b mod 16 * 4)) as [-> ->]; [div_lia|].
    cbn [mbind option_bind andb Ascii.eqb Bool.eqb String.eqb]. f_equal. f_equal; [|f_equal]; div_lia.
  - destruct (b64_value_char (a / 4)) as [-> _]; [div_lia|]. destruct (b64_value_char (a mod 4 * 16 + b / 16)) as [-> _]; [div_lia|].
    destruct (b64_value_char (b mod 16 * 4 + c / 64)) as [-> ->]; [div_lia|]. destruct (b64_value_char (c mod 64)) as [-> ->]; [div_lia|].
    cbn [mbind option_bind andb]. rewrite IH; [|simpl; lia|done]. cbn [mbind option_bind]. f_equal.
    f_equal; [|f_equal; [|f_equal]]; div_lia.
Qed.

Lemma utf8_are_bytes s : Forall (λ n, n < 256)%nat (utf8_bytes s).
Proof.
  induction s as [|c s IH]; [done|]. cbn [utf8_bytes]. pose proof (nat_ascii_bounded c).
  destruct (Nat.ltb_spec (nat_of_ascii c) 128); repeat (constructor; [div_lia|]); done.
Qed.

Lemma utf8_text_bytes s : utf8_text (utf8_bytes s) = Some s.
Proof.
  induction s as [|c s IH]; [done|]. cbn [utf8_bytes]. pose proof (nat_ascii_bounded c).
  destruct (Nat.ltb_spec (nat_of_ascii c) 128) as [H1|H1]; cbn [utf8_text].
  - apply Nat.ltb_lt in H1 as ->. rewrite IH. cbn. by rewrite ascii_nat_embedding.
  - destruct (Nat.ltb_spec (192 + nat_of_ascii c / 64) 128); [div_lia|].
    rewrite !(proj2 (Nat.leb_le _ _)) by div_lia. rewrite IH. cbn [andb fmap option_fmap option_map].
    do 2 f_equal. rewrite <-(ascii_nat_embedding c) at 3. f_equal. div_lia.
Qed.

Lemma data_text_uri j : data_text (data_uri j) = Some (JSON_stringify_2 j).
Proof.
  unfold data_text, data_uri. rewrite drop_prefix_app. cbn [mbind option_bind].
  rewrite unbase64_base64 by apply utf8_are_bytes. apply utf8_text_bytes.
Qed.

Definition sets_uri (c : Call) : bool :=
  match c with Write _ _ fn _ _ => String.eqb fn "setAgentURI" | _ => false end.

(** The identity registry, whose event [Registered] names the new agent in its
    first indexed topic: an agent keeps the URI it was registered with until
    somebody sets another one, and the event is the first log of a registration,
    as a comment of [registerAgent] says.  A data URL is fetched by decoding it. *)
Record RegistryLaws (Registered : string) (ch : Chain) : Prop := {
  uri_is_stored : ∀ l account uri hash receipt t topics id l',
    let registry := cc_identityRegistry (getChainConfig (ch_vars ch)) in
    let w := Write account registry "register" [AText uri] None in
    ch_write ch l w = Ok hash → ch_wait ch (l ++ [w]) (Wait hash None) = Ok receipt →
    (Registered :: t :: topics) ∈ tr_logs receipt → BigInt_hex t = Ok id → existsb sets_uri l' = false →
    ch_text ch ((l ++ [w]) ++ [Wait hash None] ++ l')%list (Read registry "agentURI" [AInt id]) = Ok uri;
  registered_first : ∀ l account uri hash receipt log logs,
    let registry := cc_identityRegistry (getChainConfig (ch_vars ch)) in
    let w := Write account registry "register" [AText uri] None in
    ch_write ch l w = Ok hash → ch_wait ch (l ++ [w]) (Wait hash None) = Ok receipt →
    tr_logs receipt = log :: logs →
    ∃ t topics, log = Registered :: t :: topics ∧ str_truthy Registered && str_truthy t = true;
  data_is_fetched : ∀ l url text, data_text url = Some text → ch_http ch l (HttpGet url) = Ok (200%Z, text) }.

Lemma registration_file_ok vars name description endpoint skills :
  json_ok (buildRegistrationFile vars name description endpoint skills None) = true.
Proof. cbn. rewrite forallb_strs. reflexivity. Qed.

(** After a registration that succeeds, whatever was read in between, the file
    of the agent is the one that was registered. *)
Lemma registered_file_back Registered ch account file id l l1 more :
  RegistryLaws Registered ch → json_ok file = true → existsb sets_uri more = false →
  registerAgent account (Some (data_uri file)) ch l = (Ok id, l1) →
  (fetchRegistrationFile id ch (l1 ++ more)%list).1 = Ok file.
Proof.
  intros [Hs Hf Hd] Hok Hmore. unfold registerAgent, cbind, chainConfig, call.
  set (registry := cc_identityRegistry _).
  change (if ostr_truthy (Some (data_uri file)) then _ else _) with [AText (data_uri file)].
  destruct (ch_write _ _ _) as [hash|] eqn:Ew; [|done]. destruct (ch_wait _ _ _) as [receipt|] eqn:Er; [|done].
  destruct (registered_id _) as [t|] eqn:Et; [|done]. unfold clift.
  assert (∃ topics, (Registered :: t :: topics) ∈ tr_logs receipt) as [topics Hlog].
  { destruct (tr_logs receipt) as [|log logs] eqn:El; [done|].
    destruct (Hf _ _ _ _ _ _ _ Ew Er El) as (t' & topics & -> & Ht). cbn in Et. rewrite Ht in Et.
    injection Et as ->. exists topics. left. }
  destruct (BigInt_hex t) as [z|] eqn:Ez; [|done]. intros [= -> <-].
  unfold fetchRegistrationFile, getAgentURI, cbind, chainConfig, call. fold registry.
  rewrite <-(app_assoc (l ++ _)). erewrite Hs by done. cbn [str_truthy negb].
  change (str_truthy (data_uri file)) with true. cbn [negb].
  rewrite (Hd _ _ _ (data_text_uri file)). cbn -[JSON_parse JSON_stringify_2]. by rewrite parse_pretty.
Qed.

(** [getAgentInfo] only reads. *)
Lemma reads_info {A} id (f : AgentInfo → A) ch l out l' :
  (info ⇐ getAgentInfo id ;; cret (f info)) ch l = (Ok out, l') →
  let registry := cc_identityRegistry (getChainConfig (ch_vars ch)) in
  ∃ info, ai_agentId info = id ∧
    l' = (l ++ [Read registry "ownerOf" [AInt id]; Read registry "agentURI" [AInt id]])%list ∧ out = f info.
Proof.
  unfold cbind, getAgentInfo, getAgentOwner, getAgentURI, cbind, chainConfig, call.
  destruct (ch_text _ _ _) as [o|]; [|done]. destruct (ch_text _ _ _) as [u|]; [|done].
  cbn. intros [= <- <-]. exists {| ai_agentId := id; ai_owner := o; ai_uri := u |}. by rewrite <-app_assoc.
Qed.

(** C18: what is registered is what is read back.  When register-worker.ts or the
    CLI's [worker register] succeeds, the file that [fetchRegistrationFile] then
    gets for the agent it reports is the one built from the options: the JSON text,
    its UTF-8 and base64 encodings and the URL lose nothing.  This needs the
    registry to log [Registered] first: [registerAgent] does not look at which
    event a log is. *)
Theorem registration_is_read_back Registered ch l address argv endpoint o :
  RegistryLaws Registered ch →
  (∀ out l', register_script address argv ch l = (Ok out, l') →
     ∃ id, (fetchRegistrationFile id ch l').1 = Ok (script_file (ch_vars ch) argv) ∧ "  Agent ID: " ++ Z_text id ∈ out) ∧
  (∀ out l', worker_register address endpoint o ch l = (Ok out, l') →
     ∃ id file, register_uri (ch_vars ch) endpoint o = data_uri file ∧
       (fetchRegistrationFile id ch l').1 = Ok file ∧ ("Agent ID:", Z_text id) ∈ out).
Proof.
  intros Hch. split; intros out l'.
  - unfold register_script. destruct (negb _); [done|]. unfold cbind at 1.
    destruct (address _) as [account|]; [|done]. cbn [clift cret]. unfold cbind at 1.
    destruct (registerAgent _ _ ch l) as [[id|] l1] eqn:Er; [|done]. intros (info & Hi & Hl & ->)%reads_info.
    exists id. rewrite Hl. split; [|repeat (left || right)].
    eapply registered_file_back; [done| |reflexivity|exact Er]. apply registration_file_ok.
  - unfold worker_register. destruct (negb _); [done|]. unfold cbind at 1.
    destruct (address _) as [account|]; [|done]. cbn [clift cret]. unfold cbind at 1.
    destruct (registerAgent _ _ ch l) as [[id|] l1] eqn:Er; [|done]. intros (info & Hi & Hl & ->)%reads_info.
    eexists id, _. rewrite Hl, Hi. split; [reflexivity|]. split; [|repeat (left || right)].
    eapply registered_file_back; [done| |reflexivity|exact Er]. apply registration_file_ok.
Qed.

(** A registry that takes one registration, agent 1, and fetches data URLs. *)
Definition one_agent : Chain := {|
  ch_vars := λ v, if String.eqb v "WORKER_PRIVATE_KEY" then Some "11" else None;
  ch_write := λ l _, match l with [] => Ok "0xabc" | _ => Throw "execution reverted" end;
  ch_wait := λ _ _, Ok {| tr_success := true; tr_logs := [["0xevent"; "0x01"]] |};
  ch_summary := λ _ _, Throw "execution reverted";
  ch_text := λ l c, match l, c with
                    | Write a _ _ [AText uri] _ :: _, Read _ fn _ => Ok (if String.eqb fn "agentURI" then uri else a)
                    | _, _ => Throw "execution reverted"
                    end;
  ch_texts := λ _ _, Throw "execution reverted";
  ch_feedback := λ _ _, Throw "execution reverted";
  ch_http := λ _ c, match c with
                    | HttpGet url => match data_text url with Some t => Ok (200%Z, t) | None => Throw "fetch failed" end
                    | _ => Throw "fetch failed"
                    end |}.

Lemma one_agent_laws : RegistryLaws "0xevent" one_agent.
Proof.
  split; [| |by intros l url text H; cbn -[data_text]; rewrite H].
  - intros [|c l] account uri hash receipt t topics id l'; cbn; [|done]. intros [= <-] [= <-] _ _ _. reflexivity.
  - intros l account uri hash receipt log logs registry w _ [= <-] [= <- <-]. exists "0x01", []. done.
Qed.

Lemma registration_is_read_back_witness :
  let r := register_script Ok ["--name"; "My Worker"] one_agent [] in
  ∃ id, (fetchRegistrationFile id one_agent r.2).1 = Ok (script_file (ch_vars one_agent) ["--name"; "My Worker"]).
Proof.
  destruct (registration_is_read_back "0xevent" one_agent [] Ok ["--name"; "My Worker"] ""
    {| wr_name := None; wr_endpoint := None; wr_skills := None; wr_privateKey := None |} one_agent_laws) as [H _].
  destruct (register_script Ok ["--name"; "My Worker"] one_agent []) as [[out|e] l'] eqn:E.
  - destruct (H out l' eq_refl) as (id & Hid & _). exists id. exact Hid.
  - exfalso. vm_compute in E. discriminate E.
Defined.

(** Without a key nothing is sent. *)
Example no_key_no_call :
  (register_script Ok [] {| ch_vars := λ _, None; ch_write := ch_write one_agent; ch_wait := ch_wait one_agent;
     ch_summary := ch_summary one_agent; ch_text := ch_text one_agent; ch_texts := ch_texts one_agent;
     ch_feedback := ch_feedback one_agent; ch_http := ch_http one_agent |} []).2 = [].
Proof. reflexivity. Qed.

(** When the transfer of the minted token is logged first, as the ERC-721 base of
    a registry may, [registerAgent] reports agent 0: the sender of a mint is the
    zero address. *)
Example transfer_first_reports_agent_0 :
  let zero := "0x0000000000000000000000000000000000000000000000000000000000000000" in
  let logs := [["0xtransfer"; zero; "0xowner"; "0x07"]; ["0xregistered"; "0x07"; "0xowner"]] in
  (t ← registered_id logs; match BigInt_hex t with Ok id => Some id | Throw _ => None end) = Some 0%Z.
Proof. reflexivity. Qed.
